(* ===== verification/_CoqProject ===== *)
-Q . S2P
Prelude.v
CLib.v
Env.v
Samples.v
HtmlTable.v
Values.v
HtmlEntities.v
Objects.v
Utils.v
Url.v
Net.v
NetQueue.v
Walk.v
Request.v
Chain.v
Conf.v
IdsCache.v
Prune.v
ChainThread.v
OAuth.v
Database.v
Upsert.v
Rows.v
Positions.v
Lookups.v
ContactLists.v
NamedList.v
SyncMore.v
KbDoc.v
Items.v
Files.v
Threads.v
Login.v
Log.v
Start.v
