(* ===== verification/Prelude.v ===== *)
(** * bx-sync: a verification library

    bxsync copies the data of a Bexio account into a MySQL database.  Worker
    threads walk the list endpoints of the Bexio API page by page, turn each
    JSON object into typed values and a checksum, and write the row when the
    checksum differs.  A cache of ids and checksums says which objects were seen
    in the current cycle; ids that stay unseen for some cycles are deleted.  The
    main cycle (contacts, projects, invoices) is a chain of phases with a cursor
    that survives a restart.  The API needs OAuth tokens, which two processes
    share through the database under a lock.  This library models that logic,
    function by function, and proves what it promises.

    ** Reading guide.  A C function is a Rocq function of the same name, in the
    file of its component.  Pure code is a pure function.  Code that reads or
    changes state is a [prog W A]: a function from a world [W] to an outcome,
    which is [Done] with a value and a new world, [Fault] for undefined behaviour
    (an access outside an object, a failed assert) or [OutOfFuel].  Worlds are
    abstract in the models and concrete in the theorems.  [None] is [NULL].
    Integers are [Z] with their wrap-around written out ([u64], [i64]...).
    Allocation may fail: the models take the answer of the allocator from the
    world or as a flag.  What another library does (jansson, xxHash, the MySQL
    client, the C library's floating point) is a type class; no theorem assumes
    more of it than its hypotheses say.  The calls of the log are left out of the
    other components; the log itself is [Log].

    ** Components.
    - [Prelude] (this file): outcomes, their logic ([wp], [moves], [upon]: one program;
      [agree], [same]: two programs), machine integers, error codes of [bxill.h], arrays with checked bounds.
    - [CLib]: C strings, [strtol], decimal printing and their round trip.
    - [Env], [Samples]: the classes of the external libraries and one concrete
      instance of each, for examples and witnesses.
    - [Values] ([bx_object_value.c]): tagged values, printing, comparison.
    - [HtmlTable], [HtmlEntities] ([bx_html_entities.h]): the entity table and
      the in-place replacement on a buffer, equal to a substitution on every
      text without the two entities that grow.
    - [Objects] ([bx_object.c]): JSON getters, checksum, UUID parser.
    - [Utils] ([bx_utils.c]): number lists, request paths, cycle mark.
    - [Log] ([bx_utils.c]): the message list and the log thread as a step
      relation; messages are printed in order until the thread ends, and the
      files that cannot be opened again lose some.
    - [Walk] ([bx_walk.c]): the page walk, refined to a trace of requests and
      callbacks; it terminates on every server whose list ends.
    - [Chain] ([bx_chain.c], [bx_chain_db.c] and the list walks of
      [bxobjects/contact.c], [project.c], [invoice.c]): the cursor and its text,
      the five phases; [chain_sync_refines] says that a call is a step of an
      abstract chain on the outcome of its own walk, and [prune_flags_justified]
      which successful walks a request to prune follows.
    - [IdsCache] ([bx_ids_cache.c]): the sorted array; every operation refines
      one on a finite map.
    - [Url], [Net], [NetQueue], [Request] ([bx_net.c], [bx_decode.c],
      [bx_do_request] of [bx_utils.c]): addresses and their encoding; one fetch
      with its token and its retry; the two request lists and the worker thread
      as a step relation; a turn of the worker and a call, from the path to the
      decoded body.
    - [Conf] ([bx_conf.c]): the typed settings, their file and the
      [_configuration] table; a saved cursor survives a restart.
    - [Prune] ([bx_prune.c]): deletion of the unseen ids, hydration.
    - [ChainThread], [Threads] ([main.c]): the loop of [chain_thread] with its
      error counter and reconnections; the four threads from their connection to
      its end, the lookups of [main], and the walks of the object modules behind
      them.  A thread that ends has closed every connection it opened, once, and
      used it only in between; it ends after twelve unhandled errors in a row;
      after a failed reconnection it never connects again.
    - [Start] ([main.c]): the command line, the daemon, the pid file, the order in
      which [main] starts and stops everything, the signals.  In daemon mode the
      parts of the service are only called as the configured user; a kill
      signal can be missed until the next one.
    - [OAuth] ([bx_oauth.c]): token storage, lock, refresh and code exchange.
      [Login]: set-up, PKCE and the dialogue of [bx_oauth_login]; a code is
      exchanged only with the state and the verifier of its login, and no turn of
      the wait works after its five minutes.
    - [Database] ([bx_database.c], [bx_database.h]): placeholders, binding,
      execution, results, and a server that answers and logs statements.
    - [Upsert] ([bx_upsert.c]), [NamedList] ([bx_named_list.c]), [SyncMore]
      ([bxobjects/sync_more.c]): writing one object, the lists of names, the
      field tables of the extra records and the walks over their endpoints.
    - [Rows]: what the object modules share: decoding the members of an object,
      binding by name, one statement, look up then insert or update.
    - [Positions] ([bxobjects/position.c]): the six kinds of position and the row
      of each; [Lookups] ([account.c], [currency.c], [taxes.c], [language.c],
      [user.c]); [ContactLists] ([contact_group.c], [contact_sector.c],
      [country_code.c]); [KbDoc] (quotes, orders and deliveries of
      [sync_more.c]): which statements they execute on a server, in which order.
    - [Items] ([contact.c], [project.c], [invoice.c]): one contact, project or
      invoice, from the cache to its row, its positions and what hangs on it;
      [item_cached_after_write] holds in any environment.
    - [Files] ([bxobjects/file.c]): the rows of the files, their copies on disk,
      which are replaced as a whole, and the walk.

    ** Interfaces.  [Walk] needs a [WalkEnv] (requests), which [Rows.request_walk]
    makes from a [RequestEnv] (a request with its code and body, what [Request]
    does); [Chain] a [ConfEnv] and [ChainItems] (one contact, project, invoice),
    which [Items.synced_items] implements; [Prune] a [QueryEnv], which
    [Database.one_query] implements; [Database] a [StmtEnv] (the client library);
    [Net] a [TokenEnv] and a [CurlEnv]; [Conf] a [ConfClient] and a [ConfFile];
    [Items] a [CountryList]; [Files] a [FileSystem] and a [RawRequestEnv]; the
    threads a [ThreadEnv] (the client library, the run flag, the clocks) and
    [ThreadWalks], which [Threads.module_walks] implements; [Login] a [LoginEnv]
    (liboauth2, OpenSSL, sockets, the terminal); [Start] a [ProcessEnv] (system
    calls) and [MainCalls], the other parts as [main] sees them.  [StaleStack] stands for what the client reads
    through the address of a local variable that is gone.

    ** Fuel.  Loops of the C code that are not structural take fuel: the page
    walk (one unit per page), the result loop (one per row and one for the end),
    the chain thread (one per turn), the pruning loop (the size of the cache),
    binary search (its interval).  The theorems give the bound that is enough;
    where a loop can run for ever (a server whose list never ends) they speak of
    completed runs, and a second theorem gives the conditions of termination.

    ** What the theorems show.  Each main theorem carries its claim number.  Most
    are refinements or exact functional descriptions; a few exhibit behaviour
    that the code does not intend: the two entities that overrun
    ([growing_entity_overruns]), the unterminated number buffer
    ([int_array_spec]), the name that does not fit ([account_group_overflows]),
    the deletion of a listed contact after repeated failures
    ([failures_delete_listed_contact]), the checksum that does not see a moved
    value ([checksum_blind_to_field]).

    ** Not modelled.  The mutex wrappers, whose calls only change whether a thread
    waits; the usage texts and the log lines; the repository's own tests; the
    functions that only free or print a structure: releasing memory has no
    effect that the models observe. *)
From Stdlib Require Export ZArith Lia.
From stdpp Require Export sorting base tactics option strings gmap numbers list list_basics list_relations list_monad list_misc.

#[export] Set Default Goal Selector "!".
#[global] Open Scope Z_scope.

(** ** Outcomes and effectful programs

    [Fault] is undefined behaviour of the C program (an access outside an
    object, a failed [assert]); [OutOfFuel] is a loop cut by the fuel bound of
    its definition.  [prog W A] is a C function that reads and changes a world
    [W] and returns an [A]. *)
Inductive outcome (A : Type) : Type :=
| Done (a : A)
| Fault
| OutOfFuel.
Arguments Done {A} a.
Arguments Fault {A}.
Arguments OutOfFuel {A}.

Definition prog (W A : Type) : Type := W -> outcome (A * W).

Definition ret {W A} (a : A) : prog W A := fun w => Done (a, w).
Definition fault {W A} : prog W A := fun _ => Fault.
Definition out_of_fuel {W A} : prog W A := fun _ => OutOfFuel.
Definition bind {W A B} (m : prog W A) (k : A -> prog W B) : prog W B :=
  fun w => match m w with
           | Done (a, w') => k a w'
           | Fault => Fault
           | OutOfFuel => OutOfFuel
           end.
Definition get {W} : prog W W := fun w => Done (w, w).
Definition gets {W A} (f : W -> A) : prog W A := fun w => Done (f w, w).
Definition modify {W} (f : W -> W) : prog W unit := fun w => Done (tt, f w).
Definition lift_option {W A} (o : option A) : prog W A :=
  match o with Some a => ret a | None => fault end.
Definition lift_outcome {W A} (o : outcome A) : prog W A :=
  fun w => match o with
           | Done a => Done (a, w)
           | Fault => Fault
           | OutOfFuel => OutOfFuel
           end.

(** A program over a component [B] of a larger world [A * B]. *)
Definition on_snd {A B R} (m : prog B R) : prog (A * B) R :=
  fun w => match m w.2 with
           | Done (r, b) => Done (r, (w.1, b))
           | Fault => Fault
           | OutOfFuel => OutOfFuel
           end.

Definition on_fst {A B R} (m : prog A R) : prog (A * B) R :=
  fun w => match m w.1 with
           | Done (r, a) => Done (r, (a, w.2))
           | Fault => Fault
           | OutOfFuel => OutOfFuel
           end.

Declare Scope prog_scope.
Delimit Scope prog_scope with prog.
Bind Scope prog_scope with prog.
Notation "x <- m ;; k" := (bind m (fun x => k))
  (at level 100, m at next level, k at level 200, right associativity)
  : prog_scope.
Notation "'let*' p := m 'in' k" := (bind m (fun x => match x with p => k end))
  (at level 10, p strict pattern, m at level 100, k at level 200) : prog_scope.
Notation "m ;;; k" := (bind m (fun _ => k))
  (at level 100, k at level 200, right associativity) : prog_scope.
#[global] Open Scope prog_scope.

(** Total correctness: the program returns, without fault and without running
    out of fuel, in a state that satisfies [Q]. *)
Definition wp {W A} (m : prog W A) (Q : A -> W -> Prop) (w : W) : Prop :=
  match m w with Done (a, w') => Q a w' | _ => False end.

(** Partial correctness with safety: no fault; [Q] whenever it returns. *)
Definition wlp {W A} (m : prog W A) (Q : A -> W -> Prop) (w : W) : Prop :=
  match m w with Done (a, w') => Q a w' | Fault => False | OutOfFuel => True end.

Section Logic.
Context {W : Type}.

Lemma bind_ret {A B} (a : A) (k : A -> prog W B) (w : W) :
  bind (ret a) k w = k a w.
Proof. reflexivity. Qed.

Lemma bind_Done {A B} (m : prog W A) (k : A -> prog W B) w r :
  bind m k w = Done r <-> exists a w', m w = Done (a, w') /\ k a w' = Done r.
Proof.
  unfold bind. split.
  - destruct (m w) as [[a w']| |]; [eauto | discriminate | discriminate].
  - intros (a & w' & -> & H). exact H.
Qed.

Lemma bind_eq {A B} (m : prog W A) (k : A -> prog W B) w a w' :
  m w = Done (a, w') -> bind m k w = k a w'.
Proof. unfold bind. by intros ->. Qed.

Lemma on_snd_eq {V A} (m : prog W A) (v : V) w a w' :
  m w = Done (a, w') -> on_snd m (v, w) = Done (a, (v, w')).
Proof. unfold on_snd. cbn. by intros ->. Qed.

Lemma on_fst_eq {V A} (m : prog V A) v (w : W) a v' :
  m v = Done (a, v') -> on_fst m (v, w) = Done (a, (v', w)).
Proof. unfold on_fst. cbn. by intros ->. Qed.

Lemma on_snd_Done {V A} (m : prog W A) (v v' : V) w a w' :
  on_snd m (v, w) = Done (a, (v', w')) <-> v' = v /\ m w = Done (a, w').
Proof.
  unfold on_snd. cbn. split.
  - destruct (m w) as [[]| |]; naive_solver.
  - by intros [-> ->].
Qed.

Lemma on_fst_Done {V A} (m : prog V A) v v' (w w' : W) a :
  on_fst m (v, w) = Done (a, (v', w')) <-> w' = w /\ m v = Done (a, v').
Proof.
  unfold on_fst. cbn. split.
  - destruct (m v) as [[]| |]; naive_solver.
  - by intros [-> ->].
Qed.

Lemma wp_bind {A B} (m : prog W A) (k : A -> prog W B) Q w :
  wp (bind m k) Q w <-> wp m (fun a => wp (k a) Q) w.
Proof. unfold wp, bind. by destruct (m w) as [[]| |]. Qed.

Lemma wlp_bind {A B} (m : prog W A) (k : A -> prog W B) Q w :
  wlp (bind m k) Q w <-> wlp m (fun a => wlp (k a) Q) w.
Proof. unfold wlp, bind. by destruct (m w) as [[]| |]. Qed.

Lemma wp_mono {A} (m : prog W A) (Q R : A -> W -> Prop) w :
  wp m Q w -> (forall a w', Q a w' -> R a w') -> wp m R w.
Proof. unfold wp. destruct (m w) as [[]| |]; naive_solver. Qed.

Lemma wlp_mono {A} (m : prog W A) (Q R : A -> W -> Prop) w :
  wlp m Q w -> (forall a w', Q a w' -> R a w') -> wlp m R w.
Proof. unfold wlp. destruct (m w) as [[]| |]; naive_solver. Qed.

Lemma wp_elim {A} (m : prog W A) Q w :
  wp m Q w <-> exists a w', m w = Done (a, w') /\ Q a w'.
Proof.
  unfold wp. split.
  - destruct (m w) as [[a w']| |]; naive_solver.
  - by intros (a & w' & -> & H).
Qed.

Lemma wp_wlp {A} (m : prog W A) Q w : wp m Q w -> wlp m Q w.
Proof. unfold wp, wlp. by destruct (m w) as [[]| |]. Qed.
End Logic.

(** Every completed run of the program is a [R]-move of its world. *)
Definition moves {W A} (R : relation W) (m : prog W A) : Prop :=
  forall w a w', m w = Done (a, w') -> R w w'.

Section Moves.
Context {W : Type} (R : relation W) `{!PreOrder R}.

Lemma moves_ret {A} (a : A) : moves R (ret a).
Proof. intros w a' w' [= <- <-]. reflexivity. Qed.
Lemma moves_fault {A} : moves R (@fault W A).
Proof. by intros w a w'. Qed.
Lemma moves_out_of_fuel {A} : moves R (@out_of_fuel W A).
Proof. by intros w a w'. Qed.
Lemma moves_gets {A} (f : W -> A) : moves R (gets f).
Proof. intros w a w' [= <- <-]. reflexivity. Qed.
Lemma moves_bind {A B} (m : prog W A) (k : A -> prog W B) :
  moves R m -> (forall a, moves R (k a)) -> moves R (bind m k).
Proof.
  intros Hm Hk w b w' (a & w1 & E1 & E2)%bind_Done.
  transitivity w1; [by eapply Hm | by eapply Hk].
Qed.
End Moves.
Create HintDb moves.
#[export] Hint Resolve moves_fault moves_out_of_fuel moves_bind : moves.
#[export] Hint Extern 1 (moves _ _) =>
  first [apply moves_ret; apply _ | apply moves_gets; apply _] : moves.

(** From the worlds [P], every completed run ends in [Q]. *)
Definition upon {W A} (P : W -> Prop) (m : prog W A) (Q : A -> W -> Prop) : Prop :=
  forall w a w', P w -> m w = Done (a, w') -> Q a w'.

Section Upon.
Context {W : Type}.
Implicit Types P : W -> Prop.

Lemma upon_ret {A} P (a : A) (Q : A -> W -> Prop) : (forall w, P w -> Q a w) -> upon P (ret a) Q.
Proof. intros HQ w a' w' Hw [= <- <-]. by apply HQ. Qed.
Lemma upon_stop {A} P (Q : A -> W -> Prop) : upon P out_of_fuel Q.
Proof. by intros w a w' _. Qed.
Lemma upon_bind {A B} P (m : prog W A) (k : A -> prog W B) (Q : A -> W -> Prop) R :
  upon P m Q -> (forall a, upon (Q a) (k a) R) -> upon P (bind m k) R.
Proof. intros Hm Hk w b w' Hw (a & w1 & E1 & E2)%bind_Done. eapply Hk; [by eapply Hm|done]. Qed.
Lemma upon_mono {A} P P' (m : prog W A) (Q Q' : A -> W -> Prop) :
  upon P m Q -> (forall w, P' w -> P w) -> (forall a w, Q a w -> Q' a w) -> upon P' m Q'.
Proof. intros Hm HP HQ w a w' Hw E. apply HQ. by eapply Hm; [apply HP|]. Qed.
Lemma upon_if {A} P (b : bool) (m n : prog W A) Q :
  upon P m Q -> upon P n Q -> upon P (if b then m else n) Q.
Proof. by destruct b. Qed.
Lemma upon_on_snd {V A} P (m : prog W A) (Q : A -> W -> Prop) :
  upon P m Q -> upon (fun v : V * W => P v.2) (on_snd m) (fun a v => Q a v.2).
Proof.
  intros Hm [v w] a [v' w'] Hw [-> E]%on_snd_Done. by eapply Hm.
Qed.
Lemma upon_on_fst {V A} P (m : prog V A) :
  upon (fun v : V * W => P v.2) (on_fst m) (fun _ v => P v.2).
Proof. intros [v w] a [v' w'] Hw [-> E]%on_fst_Done. done. Qed.
End Upon.

(** The rest need only agree after the runs that there are. *)
Lemma bind_ext_after {W A B} (m : prog W A) (k k' : A -> prog W B) x :
  (forall a x', m x = Done (a, x') -> k a x' = k' a x') -> bind m k x = bind m k' x.
Proof. intros Hk. unfold bind. destruct (m x) as [[a x']| |]; [by apply Hk|done..]. Qed.

(** From the worlds [D] the two programs do the same, and stay in [D]. *)
Definition agree {W A} (D : W -> Prop) (m m' : prog W A) : Prop :=
  forall w, D w -> m w = m' w /\ (forall a w', m w = Done (a, w') -> D w').

Section Agree.
Context {W : Type} (D : W -> Prop).

Lemma agree_moves {A} (m : prog W A) : moves (fun w w' => D w -> D w') m -> agree D m m.
Proof. intros Hm w Hw. split; [done|]. intros a w' E. by eapply Hm. Qed.
Lemma agree_ret {A} (a : A) : agree D (ret a) (ret a).
Proof. intros w Hw. split; [done|]. by intros a' w' [= <- <-]. Qed.
Lemma agree_fault {A} : agree D (@fault W A) fault.
Proof. intros w Hw. by split. Qed.
Lemma agree_out_of_fuel {A} : agree D (@out_of_fuel W A) out_of_fuel.
Proof. intros w Hw. by split. Qed.
Lemma agree_gets {A} (f : W -> A) : agree D (gets f) (gets f).
Proof. intros w Hw. split; [done|]. by intros a' w' [= <- <-]. Qed.
Lemma agree_bind {A B} (m m' : prog W A) (k k' : A -> prog W B) :
  agree D m m' -> (forall a, agree D (k a) (k' a)) -> agree D (bind m k) (bind m' k').
Proof.
  intros Hm Hk w Hw. destruct (Hm w Hw) as [E HD]. unfold bind. rewrite <- E.
  destruct (m w) as [[a w1]| |]; [|done..]. by apply Hk, (HD a).
Qed.
Lemma agree_if {A} (b : bool) (m m' n n' : prog W A) :
  agree D m m' -> agree D n n' -> agree D (if b then m else n) (if b then m' else n').
Proof. by destruct b. Qed.
Lemma agree_on_snd {V A} (m m' : prog W A) :
  agree D m m' -> agree (fun v : V * W => D v.2) (on_snd m) (on_snd m').
Proof.
  intros Hm [v w] Hw. destruct (Hm w Hw) as [E HD]. unfold on_snd. cbn. rewrite <- E.
  split; [done|]. intros a w'. destruct (m w) as [[b w1]| |] eqn:Em; [|done..].
  intros [= <- <-]. by apply (HD b).
Qed.
Lemma agree_on_fst {V A} (m : prog V A) : agree (fun v : V * W => D v.2) (on_fst m) (on_fst m).
Proof.
  intros [v w] Hw. split; [done|]. intros a [v' w'] [-> _]%on_fst_Done. done.
Qed.
End Agree.
Create HintDb agree.
#[export] Hint Resolve agree_ret agree_fault agree_out_of_fuel agree_gets agree_bind agree_if : agree.

(** The two programs do the same in every world. *)
Definition same {W A} (m m' : prog W A) : Prop := agree (fun _ => True) m m'.

Lemma same_eq {W A} (m m' : prog W A) : same m m' <-> forall w, m w = m' w.
Proof. split; [intros E w; by apply E | intros E w _; by split]. Qed.
Lemma same_refl {W A} (m : prog W A) : same m m.
Proof. by apply same_eq. Qed.

(** The program keeps [P] and does not fault. *)
Definition preserves {W A} (P : W -> Prop) (m : prog W A) : Prop :=
  forall w, P w -> wlp m (fun _ w' => P w') w.

Section Preserves.
Context {W : Type} (P : W -> Prop).

Lemma preserves_ret {A} (a : A) : preserves P (ret a).
Proof. by intros w Hw. Qed.
Lemma preserves_out_of_fuel {A} : preserves P (@out_of_fuel W A).
Proof. by intros w Hw. Qed.
Lemma preserves_gets {A} (f : W -> A) : preserves P (gets f).
Proof. by intros w Hw. Qed.
Lemma preserves_bind {A B} (m : prog W A) (k : A -> prog W B) :
  preserves P m -> (forall a, preserves P (k a)) -> preserves P (bind m k).
Proof.
  intros Hm Hk w Hw. apply wlp_bind. eapply wlp_mono; [by apply Hm|].
  intros a w' Hw'. by apply Hk.
Qed.
Lemma preserves_on_snd {V A} (m : prog W A) :
  preserves P m -> preserves (fun v : V * W => P v.2) (on_snd m).
Proof.
  intros Hm [v w] Hw. specialize (Hm w Hw). unfold wlp, on_snd in *. cbn.
  by destruct (m w) as [[a w']| |].
Qed.
End Preserves.
Create HintDb preserves.
#[export] Hint Resolve preserves_ret preserves_out_of_fuel preserves_gets preserves_bind
  preserves_on_snd : preserves.

(** [inv_done] splits a hypothesis [bind m k w = Done r] into its steps. *)
Ltac inv_done :=
  repeat match goal with
  | H : bind _ _ _ = Done _ |- _ =>
      apply bind_Done in H; destruct H as (? & ? & ? & ?)
  | H : ret _ _ = Done _ |- _ => unfold ret in H; simplify_eq
  | H : gets _ _ = Done _ |- _ => unfold gets in H; simplify_eq
  | H : get _ = Done _ |- _ => unfold get in H; simplify_eq
  | H : modify _ _ = Done _ |- _ => unfold modify in H; simplify_eq
  | H : fault _ = Done _ |- _ => discriminate H
  | H : out_of_fuel _ = Done _ |- _ => discriminate H
  end.

(** [run_prog] computes the program steps of the goal. *)
Ltac run_prog :=
  unfold bind, get, gets, modify, lift_option, ret, fault; cbv beta iota zeta.

(** [step] runs the first action of the program on the left of an equation, when it
    computes. *)
Ltac step := etrans; [eapply bind_eq; reflexivity|]; cbn beta iota zeta delta [negb fst snd].

(** ** Machine integers *)

Definition u8 (z : Z) : Z := z mod 2 ^ 8.
Definition u32 (z : Z) : Z := z mod 2 ^ 32.
Definition u64 (z : Z) : Z := z mod 2 ^ 64.
(** Conversion to a signed type: two's complement, as gcc defines it. *)
Definition i32 (z : Z) : Z := (z + 2 ^ 31) mod 2 ^ 32 - 2 ^ 31.
Definition i64 (z : Z) : Z := (z + 2 ^ 63) mod 2 ^ 64 - 2 ^ 63.

Definition INT_MAX : Z := 2147483647.
Definition INT64_MAX : Z := 9223372036854775807.
Definition INT64_MIN : Z := -9223372036854775808.
Definition UINT64_MAX : Z := 18446744073709551615.

Definition is_u32 (z : Z) : Prop := 0 <= z < 2 ^ 32.
Definition is_u64 (z : Z) : Prop := 0 <= z < 2 ^ 64.
Definition is_i32 (z : Z) : Prop := -2 ^ 31 <= z < 2 ^ 31.
Definition is_i64 (z : Z) : Prop := -2 ^ 63 <= z < 2 ^ 63.

Create HintDb cint.
Create Rewrite HintDb cint_simp.

Lemma u32_small z : is_u32 z -> u32 z = z.
Proof. unfold is_u32, u32. intros. by apply Z.mod_small. Qed.
Lemma u64_small z : is_u64 z -> u64 z = z.
Proof. unfold is_u64, u64. intros. by apply Z.mod_small. Qed.
Lemma i32_small z : is_i32 z -> i32 z = z.
Proof. unfold is_i32, i32. intros. rewrite Z.mod_small; lia. Qed.
Lemma i64_small z : is_i64 z -> i64 z = z.
Proof. unfold is_i64, i64. intros. rewrite Z.mod_small; lia. Qed.
Lemma u32_range z : is_u32 (u32 z).
Proof. apply Z.mod_pos_bound. lia. Qed.
Lemma u64_range z : is_u64 (u64 z).
Proof. apply Z.mod_pos_bound. lia. Qed.
Lemma i32_range z : is_i32 (i32 z).
Proof.
  unfold is_i32, i32. pose proof (Z.mod_pos_bound (z + 2 ^ 31) (2 ^ 32)). lia.
Qed.
Lemma i64_range z : is_i64 (i64 z).
Proof.
  unfold is_i64, i64. pose proof (Z.mod_pos_bound (z + 2 ^ 63) (2 ^ 64)). lia.
Qed.
Lemma u64_idemp z : u64 (u64 z) = u64 z.
Proof. apply u64_small, u64_range. Qed.
#[export] Hint Resolve u32_range u64_range i32_range i64_range : cint.
#[export] Hint Rewrite u64_idemp : cint_simp.

(** ** Error codes of [bxill.h] *)
Inductive BXillError :=
| NoError | ErrorGeneric | ErrorSQLGeneric | ErrorSQLInsert | ErrorSQLUpdate
| ErrorSQLSelect | ErrorSQLReconnect | ErrorNet | ErrorJSON
| ErrorDuplicateEntry | Error_MAX__.
#[global] Instance BXillError_eq_dec : EqDecision BXillError.
Proof. solve_decision. Defined.

(** The errors of the MySQL client that mean the connection is gone. *)
Definition CR_CONN_HOST_ERROR : Z := 2003.
Definition CR_SERVER_GONE_ERROR : Z := 2006.
Definition CR_SERVER_LOST : Z := 2013.

Definition BXILL_LIST_LIMIT : Z := 500.
Definition BXILL_DEFAULT_DRIFT : Z := 10.
Definition BXILL_STANDBY_SECONDS : Z := 600.
Definition BXILL_THREAD_EXIT_MAX_COUNT : Z := 10.

(** ** Arrays

    A C array of [length l] elements; every access checks its bounds, and
    [None] is an access outside the array. *)
Section Arrays.
Context {A : Type}.
Implicit Types (l : list A) (x : A).

Definition in_bounds (l : list A) (i n : Z) : bool :=
  (0 <=? i) && (0 <=? n) && (i + n <=? Z.of_nat (length l)).
Definition aload (l : list A) (i : Z) : option A :=
  if in_bounds l i 1 then l !! Z.to_nat i else None.
Definition astore (l : list A) (i : Z) (x : A) : option (list A) :=
  if in_bounds l i 1 then Some (<[Z.to_nat i := x]> l) else None.
(** [memset(&l[i], x, n)] *)
Definition afill (l : list A) (i n : Z) (x : A) : option (list A) :=
  if in_bounds l i n then
    Some (take (Z.to_nat i) l ++ replicate (Z.to_nat n) x
            ++ drop (Z.to_nat (i + n)) l)
  else None.
(** [memcpy(&l[i], src, length src)] from another object *)
Definition acopy (l : list A) (i : Z) (src : list A) : option (list A) :=
  if in_bounds l i (Z.of_nat (length src)) then
    Some (take (Z.to_nat i) l ++ src
            ++ drop (Z.to_nat i + length src) l)
  else None.
(** [memmove(&l[dst], &l[src], n)] *)
Definition amove (l : list A) (dst src n : Z) : option (list A) :=
  if in_bounds l dst n && in_bounds l src n then
    acopy l dst (take (Z.to_nat n) (drop (Z.to_nat src) l))
  else None.

Lemma in_bounds_true l i n :
  in_bounds l i n = true <-> 0 <= i /\ 0 <= n /\ i + n <= Z.of_nat (length l).
Proof. unfold in_bounds. rewrite !andb_true_iff, !Z.leb_le. lia. Qed.

Lemma aload_nat l (i : nat) : aload l (Z.of_nat i) = l !! i.
Proof.
  unfold aload. destruct (in_bounds _ _ _) eqn:E.
  - by rewrite Nat2Z.id.
  - symmetry. apply lookup_ge_None.
    apply not_true_iff_false in E. rewrite in_bounds_true in E. lia.
Qed.

Lemma aload_Some l i x :
  aload l i = Some x <-> 0 <= i /\ l !! Z.to_nat i = Some x.
Proof.
  unfold aload. destruct (in_bounds _ _ _) eqn:E.
  - apply in_bounds_true in E. naive_solver lia.
  - split; [discriminate|]. intros [? Hl%lookup_lt_Some].
    apply not_true_iff_false in E. rewrite in_bounds_true in E. lia.
Qed.

Lemma aload_middle l1 l2 x : aload (l1 ++ x :: l2) (Z.of_nat (length l1)) = Some x.
Proof. rewrite aload_nat. by rewrite list_lookup_middle. Qed.

Lemma astore_middle l1 l2 x y :
  astore (l1 ++ x :: l2) (Z.of_nat (length l1)) y = Some (l1 ++ y :: l2).
Proof.
  unfold astore. rewrite (proj2 (in_bounds_true _ _ _)).
  - rewrite Nat2Z.id, insert_app_r_alt; [|lia]. by rewrite Nat.sub_diag.
  - rewrite length_app. simpl. lia.
Qed.

Lemma afill_middle l1 l2 l3 (i n : Z) x :
  i = Z.of_nat (length l1) -> n = Z.of_nat (length l2) ->
  afill (l1 ++ l2 ++ l3) i n x = Some (l1 ++ replicate (length l2) x ++ l3).
Proof.
  intros -> ->. unfold afill. rewrite (proj2 (in_bounds_true _ _ _)).
  - rewrite <- Nat2Z.inj_add, !Nat2Z.id.
    rewrite take_app_length, (app_assoc l1 l2 l3).
    by rewrite drop_app_length' by (rewrite length_app; lia).
  - rewrite !length_app. lia.
Qed.

Lemma acopy_middle l1 l2 l3 (i : Z) src :
  i = Z.of_nat (length l1) -> length src = length l2 ->
  acopy (l1 ++ l2 ++ l3) i src = Some (l1 ++ src ++ l3).
Proof.
  intros -> Hl. unfold acopy. rewrite (proj2 (in_bounds_true _ _ _)).
  - rewrite Nat2Z.id, Hl, take_app_length, (app_assoc l1 l2 l3).
    by rewrite drop_app_length' by (rewrite length_app; lia).
  - rewrite !length_app. lia.
Qed.

(** Shifting a tail by one slot into the free slot that follows it. *)
Lemma amove_shift l1 l2 l3 x :
  exists y, amove (l1 ++ l2 ++ x :: l3) (Z.of_nat (length l1) + 1)
              (Z.of_nat (length l1)) (Z.of_nat (length l2))
            = Some (l1 ++ y :: l2 ++ l3).
Proof.
  unfold amove.
  assert (in_bounds (l1 ++ l2 ++ x :: l3) (Z.of_nat (length l1) + 1)
            (Z.of_nat (length l2)) = true) as ->.
  { apply in_bounds_true. rewrite !length_app. simpl. lia. }
  assert (in_bounds (l1 ++ l2 ++ x :: l3) (Z.of_nat (length l1))
            (Z.of_nat (length l2)) = true) as ->.
  { apply in_bounds_true. rewrite !length_app. simpl. lia. }
  simpl. rewrite !Nat2Z.id, drop_app_length, take_app_length.
  assert (exists y l', l2 ++ [x] = y :: l' /\ length l' = length l2)
    as (y & l' & E & Hl').
  { destruct l2 as [|y l']; simpl; [by exists x, []|].
    exists y, (l' ++ [x]). split; [done|]. rewrite length_app. simpl. lia. }
  exists y.
  replace (l1 ++ l2 ++ x :: l3) with ((l1 ++ [y]) ++ l' ++ l3).
  - rewrite (acopy_middle (l1 ++ [y]) l' l3).
    + by rewrite <- app_assoc.
    + rewrite length_app. simpl. lia.
    + done.
  - rewrite <- app_assoc. simpl. change (y :: l' ++ l3) with ((y :: l') ++ l3).
    by rewrite <- E, <- app_assoc.
Qed.
End Arrays.

(** ** Lists *)

(** A decidable property of small integers, by enumeration. *)
Lemma forallb_seqZ (f : Z -> bool) a n x :
  forallb f (seqZ a n) = true -> a <= x < a + n -> f x = true.
Proof.
  intros Hf Hx. rewrite forallb_forall in Hf. apply Hf, list_elem_of_In, elem_of_seqZ. lia.
Qed.

Lemma Forall_filter_keep {A} (P Q : A -> Prop) `{!forall x, Decision (P x)} l :
  Forall Q l -> Forall Q (filter P l).
Proof. rewrite !Forall_forall. intros HQ x [_ Hx]%list_elem_of_filter. by apply HQ. Qed.
