(* ===== verification/CLib.v ===== *)
(** * C strings and numbers

    What the sources use of [<string.h>], [<stdlib.h>] and [<stdio.h>]: a C
    string is a [string] (its bytes before the terminator), [strtol] saturates,
    [dec] is ["%d"] and its relatives, and [dec_strtol] is their round trip. *)
From Stdlib Require Export Ascii.
From Stdlib Require String.
From S2P Require Import Prelude.
#[global] Open Scope string_scope.
#[global] Open Scope list_scope.
#[global] Open Scope Z_scope.
#[global] Open Scope prog_scope.

#[global] Arguments String.append : simpl nomatch.

Definition code (c : ascii) : Z := Z.of_N (N_of_ascii c).
Definition chr (z : Z) : ascii := ascii_of_N (Z.to_N z).

Definition LONG_MAX : Z := INT64_MAX.
Definition LONG_MIN : Z := INT64_MIN.

Fixpoint list_of (s : string) : list ascii :=
  match s with EmptyString => [] | String c s => c :: list_of s end.
Fixpoint string_of (l : list ascii) : string :=
  match l with [] => EmptyString | c :: l => String c (string_of l) end.

Lemma list_of_string_of l : list_of (string_of l) = l.
Proof. induction l; [done|]. cbn. congruence. Qed.

Definition strlen (s : string) : Z := Z.of_nat (String.length s).

Lemma string_of_list_of s : string_of (list_of s) = s.
Proof. induction s as [|c s IH]; [done|]. cbn. by rewrite IH. Qed.

Lemma list_of_inj a b : list_of a = list_of b -> a = b.
Proof. intros E. by rewrite <- (string_of_list_of a), E, string_of_list_of. Qed.

Lemma list_of_app a b : list_of (a +:+ b) = list_of a ++ list_of b.
Proof. induction a as [|c a IH]; [done|]. cbn. by rewrite IH. Qed.

Lemma string_of_app a b : string_of (a ++ b) = string_of a +:+ string_of b.
Proof. induction a as [|c a IH]; [done|]. cbn. by rewrite IH. Qed.

Lemma strlen_list_of s : strlen s = Z.of_nat (length (list_of s)).
Proof. induction s as [|c s IH]; [done|]. unfold strlen in *. cbn [String.length list_of length]. lia. Qed.

Definition isdigit (c : ascii) : bool := (48 <=? code c) && (code c <=? 57).
Definition isspace (c : ascii) : bool :=
  (code c =? 32) || ((9 <=? code c) && (code c <=? 13)).
Definition tolower (c : ascii) : ascii :=
  if (65 <=? code c) && (code c <=? 90) then chr (code c + 32) else c.

(** ** Comparing and searching *)

Definition str_eq (a b : string) : bool := if String.eqb a b then true else false.

Fixpoint strcasecmp_eq (a b : string) : bool :=
  match a, b with
  | EmptyString, EmptyString => true
  | String x a, String y b => Ascii.eqb (tolower x) (tolower y) && strcasecmp_eq a b
  | _, _ => false
  end.

(** What precedes and follows the first [c] ([strchr]). *)
Fixpoint split_chr (c : ascii) (s : string) : option (string * string) :=
  match s with
  | EmptyString => None
  | String x s =>
      if Ascii.eqb x c then Some (EmptyString, s)
      else match split_chr c s with
           | Some (a, b) => Some (String x a, b)
           | None => None
           end
  end.

Fixpoint prefix_of (p s : string) : bool :=
  match p, s with
  | EmptyString, _ => true
  | String a p, String b s => Ascii.eqb a b && prefix_of p s
  | _, EmptyString => false
  end.

(** [strstr(s, p) != NULL] *)
Fixpoint contains (p s : string) : bool :=
  prefix_of p s ||
  match s with EmptyString => false | String _ s => contains p s end.

(** ** Numbers *)

Fixpoint digits_val (acc : Z) (s : string) : Z * string :=
  match s with
  | String c r => if isdigit c then digits_val (acc * 10 + (code c - 48)) r else (acc, s)
  | EmptyString => (acc, s)
  end.

Fixpoint skip_space (s : string) : string :=
  match s with
  | String c r => if isspace c then skip_space r else s
  | EmptyString => s
  end.

Definition clamp (lo hi z : Z) : Z :=
  if z <? lo then lo else if hi <? z then hi else z.

(** [strtol(s, &end, 10)] for a type of range [lo..hi]: the value and [end]. *)
Definition strtol_range (lo hi : Z) (s : string) : Z * string :=
  let t := skip_space s in
  let '(neg, d) := match t with
                   | String "-" r => (true, r)
                   | String "+" r => (false, r)
                   | _ => (false, t)
                   end in
  match d with
  | String c _ =>
      if isdigit c then
        let '(v, rest) := digits_val 0 d in
        (clamp lo hi (if neg : bool then - v else v), rest)
      else (0, s)
  | EmptyString => (0, s)
  end.

Definition strtol : string -> Z * string := strtol_range LONG_MIN LONG_MAX.

Definition digit (d : Z) : ascii := chr (48 + d).

Fixpoint dec_loop (fuel : nat) (n : Z) (s : string) : string :=
  match fuel with
  | O => s
  | S fuel =>
      if n <? 10 then String (digit n) s
      else dec_loop fuel (n / 10) (String (digit (n mod 10)) s)
  end.

Definition dec_nonneg (n : Z) : string := dec_loop (S (Z.to_nat (Z.log2 n))) n EmptyString.

(** ["%d"], ["%ld"], ["%lu"] *)
Definition dec (n : Z) : string :=
  if n <? 0 then String "-" (dec_nonneg (- n)) else dec_nonneg n.

Example dec_ex : dec (-90210) = "-90210" /\ dec 0 = "0".
Proof. by vm_compute. Qed.
Example strtol_ex : strtol "  -12x" = (-12, "x") /\ strtol "x1" = (0, "x1")
  /\ strtol "99999999999999999999" = (LONG_MAX, "").
Proof. by vm_compute. Qed.

(** ** Round trips *)

Lemma code_range c : 0 <= code c < 256.
Proof. unfold code. pose proof (N_ascii_bounded c). lia. Qed.

Lemma code_chr z : 0 <= z < 256 -> code (chr z) = z.
Proof. intros Hz. unfold code, chr. rewrite N_ascii_embedding; lia. Qed.

Lemma isdigit_digit d : 0 <= d < 10 -> isdigit (digit d) = true.
Proof.
  intros Hd. unfold isdigit, digit. rewrite code_chr by lia.
  apply andb_true_iff. lia.
Qed.

Lemma code_digit d : 0 <= d < 10 -> code (digit d) = 48 + d.
Proof. intros Hd. unfold digit. apply code_chr. lia. Qed.

Lemma dec_loop_spec fuel n s :
  0 <= n -> n < 2 ^ Z.of_nat (S fuel) ->
  (exists d t, dec_loop (S fuel) n s = String (digit d) t /\ 0 <= d < 10) /\
  exists k, forall a, digits_val a (dec_loop (S fuel) n s) = digits_val (a * k + n) s.
Proof.
  revert n s. induction fuel as [|fuel IH]; intros n s Hn Hf.
  - change (2 ^ Z.of_nat 1) with 2 in Hf. cbn [dec_loop].
    destruct (Z.ltb_spec n 10); [|lia].
    split; [exists n, s; auto with lia|]. exists 10. intros a. cbn [digits_val].
    rewrite isdigit_digit, code_digit by lia. f_equal. lia.
  - remember (S fuel) as f eqn:Ef. cbn [dec_loop].
    destruct (Z.ltb_spec n 10) as [Hlt|Hge].
    { split; [exists n, s; auto with lia|]. exists 10. intros a. cbn [digits_val].
      rewrite isdigit_digit, code_digit by lia. f_equal. lia. }
    assert (0 <= n mod 10 < 10) as Hm by (apply Z.mod_pos_bound; lia).
    destruct (IH (n / 10) (String (digit (n mod 10)) s)) as [Hd [k Hk]].
    { apply Z.div_pos; lia. }
    { rewrite Nat2Z.inj_succ, Z.pow_succ_r in Hf by lia.
      apply Z.div_lt_upper_bound; lia. }
    split; [exact Hd|]. exists (k * 10). intros a. rewrite Hk. cbn [digits_val].
    rewrite isdigit_digit, code_digit by lia. f_equal.
    pose proof (Z.div_mod n 10). lia.
Qed.

Lemma dec_loop_app fuel n s t : dec_loop fuel n s +:+ t = dec_loop fuel n (s +:+ t).
Proof.
  revert n s. induction fuel as [|fuel IH]; intros n s; [done|]. cbn [dec_loop].
  destruct (n <? 10); [done|]. by rewrite IH.
Qed.

Lemma dec_nonneg_spec n :
  0 <= n ->
  (exists d t, dec_nonneg n = String (digit d) t /\ 0 <= d < 10)
  /\ digits_val 0 (dec_nonneg n) = (n, EmptyString).
Proof.
  intros Hn.
  destruct (dec_loop_spec (Z.to_nat (Z.log2 n)) n EmptyString Hn) as [Hd [k Hk]].
  - rewrite Nat2Z.inj_succ, Z2Nat.id by apply Z.log2_nonneg.
    destruct (decide (n = 0)) as [->|Hz]; [done|]. apply Z.log2_spec. lia.
  - split; [exact Hd|]. unfold dec_nonneg. by rewrite Hk.
Qed.

Lemma digit_not_special d :
  0 <= d < 10 ->
  isspace (digit d) = false /\ digit d <> "-"%char /\ digit d <> "+"%char.
Proof.
  intros Hd. assert (code (digit d) = 48 + d) as E by (by apply code_digit).
  split_and!.
  - unfold isspace. rewrite E. apply orb_false_iff. split; [lia|].
    apply andb_false_iff. lia.
  - intros H. rewrite H in E. change (code "-") with 45 in E. lia.
  - intros H. rewrite H in E. change (code "+") with 43 in E. lia.
Qed.

(** Reading back what ["%d"] printed. *)
Lemma strtol_dec lo hi n :
  lo <= n <= hi -> strtol_range lo hi (dec n) = (n, EmptyString).
Proof.
  intros Hr. assert (clamp lo hi n = n) as Hc.
  { unfold clamp. destruct (Z.ltb_spec n lo), (Z.ltb_spec hi n); lia. }
  unfold dec, strtol_range. destruct (Z.ltb_spec n 0) as [Hneg|Hpos].
  - destruct (dec_nonneg_spec (- n)) as [(d & t & Ed & Hd) Hv]; [lia|].
    cbn [skip_space]. change (isspace "-") with false. cbv iota.
    rewrite Ed in *. rewrite isdigit_digit, Hv by done.
    by rewrite Z.opp_involutive, Hc.
  - destruct (dec_nonneg_spec n) as [(d & t & Ed & Hd) Hv]; [lia|].
    rewrite Ed in *. destruct (digit_not_special d Hd) as (Hsp & Hm & Hp).
    cbn [skip_space]. rewrite Hsp.
    assert (match String (digit d) t with
            | String "-" r => (true, r) | String "+" r => (false, r)
            | _ => (false, String (digit d) t) end = (false, String (digit d) t)) as ->.
    { destruct (digit d) as [[] [] [] [] [] [] [] []]; first [done | by destruct Hm | by destruct Hp]. }
    rewrite isdigit_digit, Hv by done. by rewrite Hc.
Qed.

(** With text behind the number. *)
Lemma strtol_dec_app lo hi n t :
  lo <= n <= hi -> 0 <= n ->
  match t with String c _ => isdigit c = false | EmptyString => True end ->
  strtol_range lo hi (dec n +:+ t) = (n, t).
Proof.
  intros Hr Hn Ht. unfold dec. rewrite (proj2 (Z.ltb_ge _ _)) by lia.
  unfold dec_nonneg. rewrite dec_loop_app.
  destruct (dec_loop_spec (Z.to_nat (Z.log2 n)) n ("" +:+ t) Hn) as [(d & r & Ed & Hd) [k Hk]].
  { rewrite Nat2Z.inj_succ, Z2Nat.id by apply Z.log2_nonneg.
    destruct (decide (n = 0)) as [->|Hz]; [done|]. apply Z.log2_spec. lia. }
  change ("" +:+ t) with t in *. specialize (Hk 0). rewrite Ed in *.
  assert (digits_val n t = (n, t)) as Hd0 by (destruct t; [done|]; cbn; by rewrite Ht).
  rewrite Z.mul_0_l, Z.add_0_l, Hd0 in Hk.
  unfold strtol_range. destruct (digit_not_special d Hd) as (Hsp & Hm & Hp).
  cbn [skip_space]. rewrite Hsp.
  assert (match String (digit d) r with
          | String "-" r => (true, r) | String "+" r => (false, r)
          | _ => (false, String (digit d) r) end = (false, String (digit d) r)) as ->.
  { destruct (digit d) as [[] [] [] [] [] [] [] []]; first [done | by destruct Hm | by destruct Hp]. }
  rewrite isdigit_digit, Hk by done. f_equal. unfold clamp.
  destruct (Z.ltb_spec n lo), (Z.ltb_spec hi n); lia.
Qed.

Lemma dec_strlen n : 0 < strlen (dec n).
Proof.
  unfold dec. destruct (n <? 0) eqn:E.
  - unfold strlen. cbn [String.length]. lia.
  - apply Z.ltb_ge in E. destruct (dec_nonneg_spec n E) as [(d & t & -> & _) _].
    unfold strlen. cbn [String.length]. lia.
Qed.

Lemma substring_all s : String.substring 0 (String.length s) s = s.
Proof. induction s as [|c s IH]; [done|]. cbn. by rewrite IH. Qed.

Lemma str_eq_true a b : str_eq a b = true <-> a = b.
Proof. unfold str_eq. destruct (String.eqb_spec a b); naive_solver. Qed.
