(* ===== verification/Env.v ===== *)
(** * What the program calls and this repository does not contain

    One class per library.  They have operations and no definition: a model
    takes them as arguments, and a theorem names the documented behaviour it
    relies on as a hypothesis. *)
From S2P Require Import Prelude CLib.

(** ** C [double] *)
Class CDouble := {
  double : Type;
  double_zero : double;
  double_lt : double -> double -> bool;
  double_bytes : double -> string;    (* the eight bytes in memory *)
  strtod : string -> double;          (* [strtod(s, NULL)] *)
  print_e : double -> string          (* ["%e"] *)
}.

(** ** jansson *)
Inductive json_type :=
| JSON_OBJECT | JSON_ARRAY | JSON_STRING | JSON_INTEGER | JSON_REAL
| JSON_TRUE | JSON_FALSE | JSON_NULL.
#[global] Instance json_type_eq_dec : EqDecision json_type.
Proof. solve_decision. Defined.

Class Jansson `{!CDouble} := {
  json_t : Type;
  json_typeof : json_t -> json_type;
  json_object_get : json_t -> string -> option json_t;
  json_array_size : json_t -> Z;               (* 0 when not an array *)
  json_array_get : json_t -> Z -> option json_t;
  json_string_value : json_t -> string;        (* of a string *)
  json_integer_value : json_t -> Z;            (* of an integer *)
  json_real_value : json_t -> double           (* of a real *)
}.

Section JSON.
Context `{Jansson}.

Definition json_is (t : json_type) (j : option json_t) : bool :=
  match j with Some j => bool_decide (json_typeof j = t) | None => false end.
(** [json_object_get] of a pointer that may be [NULL] or not an object. *)
Definition object_get (j : option json_t) (key : string) : option json_t :=
  match j with
  | Some o => if json_is JSON_OBJECT j then json_object_get o key else None
  | None => None
  end.
Definition array_size (j : option json_t) : Z :=
  match j with Some a => json_array_size a | None => 0 end.
Definition array_get (j : option json_t) (i : Z) : option json_t :=
  match j with Some a => json_array_get a i | None => None end.
End JSON.

(** ** xxHash: the streaming state and the one-shot function *)
Class XXH3 := {
  XXH3_state_t : Type;
  XXH3_64bits_reset : XXH3_state_t;
  XXH3_64bits_update : XXH3_state_t -> string -> XXH3_state_t;
  XXH3_64bits_digest : XXH3_state_t -> Z;
  XXH3_64bits : string -> Z
}.

(** The little-endian bytes of an [n]-byte unsigned integer. *)
Fixpoint le_bytes (n : nat) (z : Z) : string :=
  match n with
  | O => EmptyString
  | S n => String (chr (z mod 256)) (le_bytes n (z / 256))
  end.

Fixpoint le_value (s : string) : Z :=
  match s with EmptyString => 0 | String c s => code c + 256 * le_value s end.

Lemma le_value_bytes n z : 0 <= z < 256 ^ Z.of_nat n -> le_value (le_bytes n z) = z.
Proof.
  revert z. induction n as [|n IH]; intros z Hz; [cbn in *; lia|].
  rewrite Nat2Z.inj_succ, Z.pow_succ_r in Hz by lia.
  assert (0 <= z mod 256 < 256) by (apply Z.mod_pos_bound; lia).
  cbn [le_bytes le_value]. rewrite code_chr by done.
  rewrite IH by (split; [apply Z.div_pos | apply Z.div_lt_upper_bound]; lia).
  pose proof (Z.div_mod z 256). lia.
Qed.

Lemma le_bytes_inj n a b :
  0 <= a < 256 ^ Z.of_nat n -> 0 <= b < 256 ^ Z.of_nat n ->
  le_bytes n a = le_bytes n b -> a = b.
Proof.
  intros Ha Hb E. rewrite <- (le_value_bytes n a), <- (le_value_bytes n b) by done.
  by rewrite E.
Qed.
