(* ===== verification/Samples.v ===== *)
(** * Concrete instances of the third-party interfaces

    Small concrete doubles, JSON values and hash, at which the theorems that
    quantify over [CDouble], [Jansson] or [XXH3] are applied. *)
From S2P Require Import Prelude CLib Env.

(** Doubles by an integer number of thousandths. *)
#[export] Instance sample_double : CDouble :=
  {| double := Z; double_zero := 0; double_lt := Z.ltb;
     double_bytes := fun d => le_bytes 8 (u64 d);
     strtod := fun s => 1000 * (strtol s).1;
     print_e := fun d => dec d +:+ "e-03" |}.

Inductive sample_json :=
| JObject (l : list (string * sample_json))
| JArray (l : list sample_json)
| JString (s : string)
| JInteger (z : Z)
| JReal (d : Z)
| JBool (b : bool)
| JNull.

Fixpoint assoc {A} (key : string) (l : list (string * A)) : option A :=
  match l with
  | [] => None
  | (k, a) :: l => if String.eqb k key then Some a else assoc key l
  end.

#[export] Instance sample_jansson : Jansson :=
  {| json_t := sample_json;
     json_typeof j := match j with
                      | JObject _ => JSON_OBJECT | JArray _ => JSON_ARRAY
                      | JString _ => JSON_STRING | JInteger _ => JSON_INTEGER
                      | JReal _ => JSON_REAL | JNull => JSON_NULL
                      | JBool b => if b then JSON_TRUE else JSON_FALSE
                      end;
     json_object_get j key := match j with JObject l => assoc key l | _ => None end;
     json_array_size j := match j with JArray l => Z.of_nat (length l) | _ => 0 end;
     json_array_get j i := match j with
                           | JArray l => if 0 <=? i then l !! Z.to_nat i else None
                           | _ => None
                           end;
     json_string_value j := match j with JString s => s | _ => EmptyString end;
     json_integer_value j := match j with JInteger z => z | _ => 0 end;
     json_real_value j := match j with JReal d => d | _ => 0 end |}.

(** A sample as a value of the interface. *)
Definition J (j : sample_json) : json_t := j.

(** A polynomial hash of the bytes. *)
Fixpoint sample_hash (acc : Z) (s : string) : Z :=
  match s with
  | EmptyString => acc
  | String c s => sample_hash (u64 (acc * 257 + code c + 1)) s
  end.

#[export] Instance sample_xxh3 : XXH3 :=
  {| XXH3_state_t := Z; XXH3_64bits_reset := 0;
     XXH3_64bits_update := sample_hash; XXH3_64bits_digest st := st;
     XXH3_64bits := sample_hash 0 |}.
