(* ===== verification/HtmlTable.v ===== *)
(** * The table of HTML entities ([src/src/include/bx_html_entities.h])

    Every row of [BXHTMLEntities] up to its terminator, in order: the entity, its
    bytes in UTF-8 and the two lengths as the source gives them. *)
From S2P Require Import Prelude CLib.

Record html_entity := mkEntity {
  he_entity : string;
  he_utf8 : string;
  he_elen : Z;
  he_ulen : Z
}.

(** A string of one byte. *)
Definition chr_str (z : Z) : string := String (chr z) EmptyString.
(** The bytes of a text without visible characters. *)
Definition utf8_bytes (l : list Z) : string := string_of (chr <$> l).

Definition html_entities_0 : list html_entity :=
  [
   mkEntity "&Tab;" (chr_str 9) 5 1; mkEntity "&NewLine;" (chr_str 10) 9 1;
   mkEntity "&excl;" "!" 6 1; mkEntity "&quot;" (chr_str 34) 6 1; mkEntity "&num;" "#" 5 1;
   mkEntity "&dollar;" "$" 8 1; mkEntity "&percnt;" "%" 8 1; mkEntity "&amp;" "&" 5 1;
   mkEntity "&apos;" "'" 6 1; mkEntity "&lpar;" "(" 6 1; mkEntity "&rpar;" ")" 6 1;
   mkEntity "&ast;" "*" 5 1; mkEntity "&plus;" "+" 6 1; mkEntity "&comma;" "," 7 1;
   mkEntity "&period;" "." 8 1; mkEntity "&sol;" "/" 5 1; mkEntity "&colon;" ":" 7 1;
   mkEntity "&semi;" ";" 6 1; mkEntity "&lt;" "<" 4 1; mkEntity "&nvlt;" "<⃒" 6 4;
   mkEntity "&equals;" "=" 8 1; mkEntity "&bne;" "=⃥" 5 4; mkEntity "&gt;" ">" 4 1;
   mkEntity "&nvgt;" ">⃒" 6 4; mkEntity "&quest;" "?" 7 1; mkEntity "&commat;" "@" 8 1;
   mkEntity "&lbrack;" "[" 8 1; mkEntity "&bsol;" "\" 6 1; mkEntity "&rsqb;" "]" 6 1;
   mkEntity "&Hat;" "^" 5 1; mkEntity "&lowbar;" "_" 8 1; mkEntity "&grave;" "`" 7 1;
   mkEntity "&fjlig;" "fj" 7 2; mkEntity "&lbrace;" "{" 8 1; mkEntity "&vert;" "|" 6 1;
   mkEntity "&rcub;" "}" 6 1; mkEntity "&nbsp;" (utf8_bytes [194; 160]) 6 2; mkEntity "&iexcl;" "¡" 7 2;
   mkEntity "&cent;" "¢" 6 2; mkEntity "&pound;" "£" 7 2; mkEntity "&curren;" "¤" 8 2;
   mkEntity "&yen;" "¥" 5 2; mkEntity "&brvbar;" "¦" 8 2; mkEntity "&sect;" "§" 6 2;
   mkEntity "&DoubleDot;" "¨" 11 2; mkEntity "&copy;" "©" 6 2; mkEntity "&ordf;" "ª" 6 2;
   mkEntity "&laquo;" "«" 7 2; mkEntity "&not;" "¬" 5 2; mkEntity "&shy;" (utf8_bytes [194; 173]) 5 2;
   mkEntity "&reg;" "®" 5 2; mkEntity "&macr;" "¯" 6 2; mkEntity "&deg;" "°" 5 2;
   mkEntity "&plusmn;" "±" 8 2; mkEntity "&sup2;" "²" 6 2; mkEntity "&sup3;" "³" 6 2;
   mkEntity "&DiacriticalAcute;" "´" 18 2; mkEntity "&micro;" "µ" 7 2;
   mkEntity "&para;" "¶" 6 2; mkEntity "&CenterDot;" "·" 11 2; mkEntity "&Cedilla;" "¸" 9 2;
   mkEntity "&sup1;" "¹" 6 2; mkEntity "&ordm;" "º" 6 2; mkEntity "&raquo;" "»" 7 2;
   mkEntity "&frac14;" "¼" 8 2; mkEntity "&half;" "½" 6 2; mkEntity "&frac34;" "¾" 8 2;
   mkEntity "&iquest;" "¿" 8 2; mkEntity "&Agrave;" "À" 8 2; mkEntity "&Aacute;" "Á" 8 2;
   mkEntity "&Acirc;" "Â" 7 2; mkEntity "&Atilde;" "Ã" 8 2; mkEntity "&Auml;" "Ä" 6 2;
   mkEntity "&Aring;" "Å" 7 2; mkEntity "&AElig;" "Æ" 7 2; mkEntity "&Ccedil;" "Ç" 8 2;
   mkEntity "&Egrave;" "È" 8 2; mkEntity "&Eacute;" "É" 8 2; mkEntity "&Ecirc;" "Ê" 7 2;
   mkEntity "&Euml;" "Ë" 6 2; mkEntity "&Igrave;" "Ì" 8 2; mkEntity "&Iacute;" "Í" 8 2;
   mkEntity "&Icirc;" "Î" 7 2; mkEntity "&Iuml;" "Ï" 6 2; mkEntity "&ETH;" "Ð" 5 2;
   mkEntity "&Ntilde;" "Ñ" 8 2; mkEntity "&Ograve;" "Ò" 8 2; mkEntity "&Oacute;" "Ó" 8 2;
   mkEntity "&Ocirc;" "Ô" 7 2; mkEntity "&Otilde;" "Õ" 8 2; mkEntity "&Ouml;" "Ö" 6 2;
   mkEntity "&times;" "×" 7 2; mkEntity "&Oslash;" "Ø" 8 2; mkEntity "&Ugrave;" "Ù" 8 2;
   mkEntity "&Uacute;" "Ú" 8 2; mkEntity "&Ucirc;" "Û" 7 2; mkEntity "&Uuml;" "Ü" 6 2;
   mkEntity "&Yacute;" "Ý" 8 2; mkEntity "&THORN;" "Þ" 7 2; mkEntity "&szlig;" "ß" 7 2;
   mkEntity "&agrave;" "à" 8 2; mkEntity "&aacute;" "á" 8 2; mkEntity "&acirc;" "â" 7 2;
   mkEntity "&atilde;" "ã" 8 2; mkEntity "&auml;" "ä" 6 2; mkEntity "&aring;" "å" 7 2;
   mkEntity "&aelig;" "æ" 7 2; mkEntity "&ccedil;" "ç" 8 2; mkEntity "&egrave;" "è" 8 2;
   mkEntity "&eacute;" "é" 8 2; mkEntity "&ecirc;" "ê" 7 2; mkEntity "&euml;" "ë" 6 2;
   mkEntity "&igrave;" "ì" 8 2; mkEntity "&iacute;" "í" 8 2; mkEntity "&icirc;" "î" 7 2;
   mkEntity "&iuml;" "ï" 6 2; mkEntity "&eth;" "ð" 5 2; mkEntity "&ntilde;" "ñ" 8 2;
   mkEntity "&ograve;" "ò" 8 2; mkEntity "&oacute;" "ó" 8 2; mkEntity "&ocirc;" "ô" 7 2;
   mkEntity "&otilde;" "õ" 8 2; mkEntity "&ouml;" "ö" 6 2; mkEntity "&divide;" "÷" 8 2;
   mkEntity "&oslash;" "ø" 8 2; mkEntity "&ugrave;" "ù" 8 2; mkEntity "&uacute;" "ú" 8 2;
   mkEntity "&ucirc;" "û" 7 2; mkEntity "&uuml;" "ü" 6 2; mkEntity "&yacute;" "ý" 8 2;
   mkEntity "&thorn;" "þ" 7 2; mkEntity "&yuml;" "ÿ" 6 2; mkEntity "&Amacr;" "Ā" 7 2;
   mkEntity "&amacr;" "ā" 7 2; mkEntity "&Abreve;" "Ă" 8 2; mkEntity "&abreve;" "ă" 8 2;
   mkEntity "&Aogon;" "Ą" 7 2; mkEntity "&aogon;" "ą" 7 2; mkEntity "&Cacute;" "Ć" 8 2;
   mkEntity "&cacute;" "ć" 8 2; mkEntity "&Ccirc;" "Ĉ" 7 2; mkEntity "&ccirc;" "ĉ" 7 2;
   mkEntity "&Cdot;" "Ċ" 6 2; mkEntity "&cdot;" "ċ" 6 2; mkEntity "&Ccaron;" "Č" 8 2;
   mkEntity "&ccaron;" "č" 8 2; mkEntity "&Dcaron;" "Ď" 8 2; mkEntity "&dcaron;" "ď" 8 2;
   mkEntity "&Dstrok;" "Đ" 8 2; mkEntity "&dstrok;" "đ" 8 2].

Definition html_entities_1 : list html_entity :=
  [
   mkEntity "&Emacr;" "Ē" 7 2; mkEntity "&emacr;" "ē" 7 2; mkEntity "&Edot;" "Ė" 6 2;
   mkEntity "&edot;" "ė" 6 2; mkEntity "&Eogon;" "Ę" 7 2; mkEntity "&eogon;" "ę" 7 2;
   mkEntity "&Ecaron;" "Ě" 8 2; mkEntity "&ecaron;" "ě" 8 2; mkEntity "&Gcirc;" "Ĝ" 7 2;
   mkEntity "&gcirc;" "ĝ" 7 2; mkEntity "&Gbreve;" "Ğ" 8 2; mkEntity "&gbreve;" "ğ" 8 2;
   mkEntity "&Gdot;" "Ġ" 6 2; mkEntity "&gdot;" "ġ" 6 2; mkEntity "&Gcedil;" "Ģ" 8 2;
   mkEntity "&Hcirc;" "Ĥ" 7 2; mkEntity "&hcirc;" "ĥ" 7 2; mkEntity "&Hstrok;" "Ħ" 8 2;
   mkEntity "&hstrok;" "ħ" 8 2; mkEntity "&Itilde;" "Ĩ" 8 2; mkEntity "&itilde;" "ĩ" 8 2;
   mkEntity "&Imacr;" "Ī" 7 2; mkEntity "&imacr;" "ī" 7 2; mkEntity "&Iogon;" "Į" 7 2;
   mkEntity "&iogon;" "į" 7 2; mkEntity "&Idot;" "İ" 6 2; mkEntity "&inodot;" "ı" 8 2;
   mkEntity "&IJlig;" "Ĳ" 7 2; mkEntity "&ijlig;" "ĳ" 7 2; mkEntity "&Jcirc;" "Ĵ" 7 2;
   mkEntity "&jcirc;" "ĵ" 7 2; mkEntity "&Kcedil;" "Ķ" 8 2; mkEntity "&kcedil;" "ķ" 8 2;
   mkEntity "&kgreen;" "ĸ" 8 2; mkEntity "&Lacute;" "Ĺ" 8 2; mkEntity "&lacute;" "ĺ" 8 2;
   mkEntity "&Lcedil;" "Ļ" 8 2; mkEntity "&lcedil;" "ļ" 8 2; mkEntity "&Lcaron;" "Ľ" 8 2;
   mkEntity "&lcaron;" "ľ" 8 2; mkEntity "&Lmidot;" "Ŀ" 8 2; mkEntity "&lmidot;" "ŀ" 8 2;
   mkEntity "&Lstrok;" "Ł" 8 2; mkEntity "&lstrok;" "ł" 8 2; mkEntity "&Nacute;" "Ń" 8 2;
   mkEntity "&nacute;" "ń" 8 2; mkEntity "&Ncedil;" "Ņ" 8 2; mkEntity "&ncedil;" "ņ" 8 2;
   mkEntity "&Ncaron;" "Ň" 8 2; mkEntity "&ncaron;" "ň" 8 2; mkEntity "&napos;" "ŉ" 7 2;
   mkEntity "&ENG;" "Ŋ" 5 2; mkEntity "&eng;" "ŋ" 5 2; mkEntity "&Omacr;" "Ō" 7 2;
   mkEntity "&omacr;" "ō" 7 2; mkEntity "&Odblac;" "Ő" 8 2; mkEntity "&odblac;" "ő" 8 2;
   mkEntity "&OElig;" "Œ" 7 2; mkEntity "&oelig;" "œ" 7 2; mkEntity "&Racute;" "Ŕ" 8 2;
   mkEntity "&racute;" "ŕ" 8 2; mkEntity "&Rcedil;" "Ŗ" 8 2; mkEntity "&rcedil;" "ŗ" 8 2;
   mkEntity "&Rcaron;" "Ř" 8 2; mkEntity "&rcaron;" "ř" 8 2; mkEntity "&Sacute;" "Ś" 8 2;
   mkEntity "&sacute;" "ś" 8 2; mkEntity "&Scirc;" "Ŝ" 7 2; mkEntity "&scirc;" "ŝ" 7 2;
   mkEntity "&Scedil;" "Ş" 8 2; mkEntity "&scedil;" "ş" 8 2; mkEntity "&Scaron;" "Š" 8 2;
   mkEntity "&scaron;" "š" 8 2; mkEntity "&Tcedil;" "Ţ" 8 2; mkEntity "&tcedil;" "ţ" 8 2;
   mkEntity "&Tcaron;" "Ť" 8 2; mkEntity "&tcaron;" "ť" 8 2; mkEntity "&Tstrok;" "Ŧ" 8 2;
   mkEntity "&tstrok;" "ŧ" 8 2; mkEntity "&Utilde;" "Ũ" 8 2; mkEntity "&utilde;" "ũ" 8 2;
   mkEntity "&Umacr;" "Ū" 7 2; mkEntity "&umacr;" "ū" 7 2; mkEntity "&Ubreve;" "Ŭ" 8 2;
   mkEntity "&ubreve;" "ŭ" 8 2; mkEntity "&Uring;" "Ů" 7 2; mkEntity "&uring;" "ů" 7 2;
   mkEntity "&Udblac;" "Ű" 8 2; mkEntity "&udblac;" "ű" 8 2; mkEntity "&Uogon;" "Ų" 7 2;
   mkEntity "&uogon;" "ų" 7 2; mkEntity "&Wcirc;" "Ŵ" 7 2; mkEntity "&wcirc;" "ŵ" 7 2;
   mkEntity "&Ycirc;" "Ŷ" 7 2; mkEntity "&ycirc;" "ŷ" 7 2; mkEntity "&Yuml;" "Ÿ" 6 2;
   mkEntity "&Zacute;" "Ź" 8 2; mkEntity "&zacute;" "ź" 8 2; mkEntity "&Zdot;" "Ż" 6 2;
   mkEntity "&zdot;" "ż" 6 2; mkEntity "&Zcaron;" "Ž" 8 2; mkEntity "&zcaron;" "ž" 8 2;
   mkEntity "&fnof;" "ƒ" 6 2; mkEntity "&imped;" "Ƶ" 7 2; mkEntity "&gacute;" "ǵ" 8 2;
   mkEntity "&jmath;" "ȷ" 7 2; mkEntity "&circ;" "ˆ" 6 2; mkEntity "&Hacek;" "ˇ" 7 2;
   mkEntity "&Breve;" "˘" 7 2; mkEntity "&dot;" "˙" 5 2; mkEntity "&ring;" "˚" 6 2;
   mkEntity "&ogon;" "˛" 6 2; mkEntity "&DiacriticalTilde;" "˜" 18 2;
   mkEntity "&DiacriticalDoubleAcute;" "˝" 24 2; mkEntity "&DownBreve;" "̑" 11 2;
   mkEntity "&Alpha;" "Α" 7 2; mkEntity "&Beta;" "Β" 6 2; mkEntity "&Gamma;" "Γ" 7 2;
   mkEntity "&Delta;" "Δ" 7 2; mkEntity "&Epsilon;" "Ε" 9 2; mkEntity "&Zeta;" "Ζ" 6 2;
   mkEntity "&Eta;" "Η" 5 2; mkEntity "&Theta;" "Θ" 7 2; mkEntity "&Iota;" "Ι" 6 2;
   mkEntity "&Kappa;" "Κ" 7 2; mkEntity "&Lambda;" "Λ" 8 2; mkEntity "&Mu;" "Μ" 4 2;
   mkEntity "&Nu;" "Ν" 4 2; mkEntity "&Xi;" "Ξ" 4 2; mkEntity "&Omicron;" "Ο" 9 2;
   mkEntity "&Pi;" "Π" 4 2; mkEntity "&Rho;" "Ρ" 5 2; mkEntity "&Sigma;" "Σ" 7 2;
   mkEntity "&Tau;" "Τ" 5 2; mkEntity "&Upsilon;" "Υ" 9 2; mkEntity "&Phi;" "Φ" 5 2;
   mkEntity "&Chi;" "Χ" 5 2; mkEntity "&Psi;" "Ψ" 5 2; mkEntity "&Omega;" "Ω" 7 2;
   mkEntity "&alpha;" "α" 7 2; mkEntity "&beta;" "β" 6 2; mkEntity "&gamma;" "γ" 7 2;
   mkEntity "&delta;" "δ" 7 2; mkEntity "&epsi;" "ε" 6 2; mkEntity "&zeta;" "ζ" 6 2;
   mkEntity "&eta;" "η" 5 2; mkEntity "&theta;" "θ" 7 2; mkEntity "&iota;" "ι" 6 2;
   mkEntity "&kappa;" "κ" 7 2; mkEntity "&lambda;" "λ" 8 2].

Definition html_entities_2 : list html_entity :=
  [
   mkEntity "&mu;" "μ" 4 2; mkEntity "&nu;" "ν" 4 2; mkEntity "&xi;" "ξ" 4 2;
   mkEntity "&omicron;" "ο" 9 2; mkEntity "&pi;" "π" 4 2; mkEntity "&rho;" "ρ" 5 2;
   mkEntity "&sigmav;" "ς" 8 2; mkEntity "&sigma;" "σ" 7 2; mkEntity "&tau;" "τ" 5 2;
   mkEntity "&upsi;" "υ" 6 2; mkEntity "&phi;" "φ" 5 2; mkEntity "&chi;" "χ" 5 2;
   mkEntity "&psi;" "ψ" 5 2; mkEntity "&omega;" "ω" 7 2; mkEntity "&thetasym;" "ϑ" 10 2;
   mkEntity "&upsih;" "ϒ" 7 2; mkEntity "&straightphi;" "ϕ" 13 2; mkEntity "&piv;" "ϖ" 5 2;
   mkEntity "&Gammad;" "Ϝ" 8 2; mkEntity "&gammad;" "ϝ" 8 2; mkEntity "&varkappa;" "ϰ" 10 2;
   mkEntity "&rhov;" "ϱ" 6 2; mkEntity "&straightepsilon;" "ϵ" 17 2;
   mkEntity "&backepsilon;" "϶" 13 2; mkEntity "&IOcy;" "Ё" 6 2; mkEntity "&DJcy;" "Ђ" 6 2;
   mkEntity "&GJcy;" "Ѓ" 6 2; mkEntity "&Jukcy;" "Є" 7 2; mkEntity "&DScy;" "Ѕ" 6 2;
   mkEntity "&Iukcy;" "І" 7 2; mkEntity "&YIcy;" "Ї" 6 2; mkEntity "&Jsercy;" "Ј" 8 2;
   mkEntity "&LJcy;" "Љ" 6 2; mkEntity "&NJcy;" "Њ" 6 2; mkEntity "&TSHcy;" "Ћ" 7 2;
   mkEntity "&KJcy;" "Ќ" 6 2; mkEntity "&Ubrcy;" "Ў" 7 2; mkEntity "&DZcy;" "Џ" 6 2;
   mkEntity "&Acy;" "А" 5 2; mkEntity "&Bcy;" "Б" 5 2; mkEntity "&Vcy;" "В" 5 2;
   mkEntity "&Gcy;" "Г" 5 2; mkEntity "&Dcy;" "Д" 5 2; mkEntity "&IEcy;" "Е" 6 2;
   mkEntity "&ZHcy;" "Ж" 6 2; mkEntity "&Zcy;" "З" 5 2; mkEntity "&Icy;" "И" 5 2;
   mkEntity "&Jcy;" "Й" 5 2; mkEntity "&Kcy;" "К" 5 2; mkEntity "&Lcy;" "Л" 5 2;
   mkEntity "&Mcy;" "М" 5 2; mkEntity "&Ncy;" "Н" 5 2; mkEntity "&Ocy;" "О" 5 2;
   mkEntity "&Pcy;" "П" 5 2; mkEntity "&Rcy;" "Р" 5 2; mkEntity "&Scy;" "С" 5 2;
   mkEntity "&Tcy;" "Т" 5 2; mkEntity "&Ucy;" "У" 5 2; mkEntity "&Fcy;" "Ф" 5 2;
   mkEntity "&KHcy;" "Х" 6 2; mkEntity "&TScy;" "Ц" 6 2; mkEntity "&CHcy;" "Ч" 6 2;
   mkEntity "&SHcy;" "Ш" 6 2; mkEntity "&SHCHcy;" "Щ" 8 2; mkEntity "&HARDcy;" "Ъ" 8 2;
   mkEntity "&Ycy;" "Ы" 5 2; mkEntity "&SOFTcy;" "Ь" 8 2; mkEntity "&Ecy;" "Э" 5 2;
   mkEntity "&YUcy;" "Ю" 6 2; mkEntity "&YAcy;" "Я" 6 2; mkEntity "&acy;" "а" 5 2;
   mkEntity "&bcy;" "б" 5 2; mkEntity "&vcy;" "в" 5 2; mkEntity "&gcy;" "г" 5 2;
   mkEntity "&dcy;" "д" 5 2; mkEntity "&iecy;" "е" 6 2; mkEntity "&zhcy;" "ж" 6 2;
   mkEntity "&zcy;" "з" 5 2; mkEntity "&icy;" "и" 5 2; mkEntity "&jcy;" "й" 5 2;
   mkEntity "&kcy;" "к" 5 2; mkEntity "&lcy;" "л" 5 2; mkEntity "&mcy;" "м" 5 2;
   mkEntity "&ncy;" "н" 5 2; mkEntity "&ocy;" "о" 5 2; mkEntity "&pcy;" "п" 5 2;
   mkEntity "&rcy;" "р" 5 2; mkEntity "&scy;" "с" 5 2; mkEntity "&tcy;" "т" 5 2;
   mkEntity "&ucy;" "у" 5 2; mkEntity "&fcy;" "ф" 5 2; mkEntity "&khcy;" "х" 6 2;
   mkEntity "&tscy;" "ц" 6 2; mkEntity "&chcy;" "ч" 6 2; mkEntity "&shcy;" "ш" 6 2;
   mkEntity "&shchcy;" "щ" 8 2; mkEntity "&hardcy;" "ъ" 8 2; mkEntity "&ycy;" "ы" 5 2;
   mkEntity "&softcy;" "ь" 8 2; mkEntity "&ecy;" "э" 5 2; mkEntity "&yucy;" "ю" 6 2;
   mkEntity "&yacy;" "я" 6 2; mkEntity "&iocy;" "ё" 6 2; mkEntity "&djcy;" "ђ" 6 2;
   mkEntity "&gjcy;" "ѓ" 6 2; mkEntity "&jukcy;" "є" 7 2; mkEntity "&dscy;" "ѕ" 6 2;
   mkEntity "&iukcy;" "і" 7 2; mkEntity "&yicy;" "ї" 6 2; mkEntity "&jsercy;" "ј" 8 2;
   mkEntity "&ljcy;" "љ" 6 2; mkEntity "&njcy;" "њ" 6 2; mkEntity "&tshcy;" "ћ" 7 2;
   mkEntity "&kjcy;" "ќ" 6 2; mkEntity "&ubrcy;" "ў" 7 2; mkEntity "&dzcy;" "џ" 6 2;
   mkEntity "&ensp;" (utf8_bytes [226; 128; 130]) 6 3; mkEntity "&emsp;" (utf8_bytes [226; 128; 131]) 6 3; mkEntity "&emsp13;" (utf8_bytes [226; 128; 132]) 8 3;
   mkEntity "&emsp14;" (utf8_bytes [226; 128; 133]) 8 3; mkEntity "&numsp;" (utf8_bytes [226; 128; 135]) 7 3; mkEntity "&puncsp;" (utf8_bytes [226; 128; 136]) 8 3;
   mkEntity "&ThinSpace;" (utf8_bytes [226; 128; 137]) 11 3; mkEntity "&hairsp;" (utf8_bytes [226; 128; 138]) 8 3;
   mkEntity "&ZeroWidthSpace;" (utf8_bytes [226; 128; 139]) 16 3; mkEntity "&zwnj;" (utf8_bytes [226; 128; 140]) 6 3; mkEntity "&zwj;" (utf8_bytes [226; 128; 141]) 5 3;
   mkEntity "&lrm;" (utf8_bytes [226; 128; 142]) 5 3; mkEntity "&rlm;" (utf8_bytes [226; 128; 143]) 5 3; mkEntity "&hyphen;" "‐" 8 3;
   mkEntity "&ndash;" "–" 7 3; mkEntity "&mdash;" "—" 7 3; mkEntity "&horbar;" "―" 8 3;
   mkEntity "&Verbar;" "‖" 8 3; mkEntity "&OpenCurlyQuote;" "‘" 16 3;
   mkEntity "&rsquo;" "’" 7 3; mkEntity "&sbquo;" "‚" 7 3;
   mkEntity "&OpenCurlyDoubleQuote;" "“" 22 3; mkEntity "&rdquo;" "”" 7 3;
   mkEntity "&bdquo;" "„" 7 3; mkEntity "&dagger;" "†" 8 3; mkEntity "&Dagger;" "‡" 8 3;
   mkEntity "&bull;" "•" 6 3; mkEntity "&nldr;" "‥" 6 3; mkEntity "&hellip;" "…" 8 3;
   mkEntity "&permil;" "‰" 8 3; mkEntity "&pertenk;" "‱" 9 3; mkEntity "&prime;" "′" 7 3;
   mkEntity "&Prime;" "″" 7 3; mkEntity "&tprime;" "‴" 8 3].

Definition html_entities_3 : list html_entity :=
  [
   mkEntity "&backprime;" "‵" 11 3; mkEntity "&lsaquo;" "‹" 8 3; mkEntity "&rsaquo;" "›" 8 3;
   mkEntity "&oline;" "‾" 7 3; mkEntity "&caret;" "⁁" 7 3; mkEntity "&hybull;" "⁃" 8 3;
   mkEntity "&frasl;" "⁄" 7 3; mkEntity "&bsemi;" "⁏" 7 3; mkEntity "&qprime;" "⁗" 8 3;
   mkEntity "&MediumSpace;" (utf8_bytes [226; 129; 159]) 13 3; mkEntity "&ThickSpace;" (utf8_bytes [226; 129; 159; 226; 128; 138]) 12 6;
   mkEntity "&NoBreak;" (utf8_bytes [226; 129; 160]) 9 3; mkEntity "&af;" (utf8_bytes [226; 129; 161]) 4 3; mkEntity "&InvisibleTimes;" (utf8_bytes [226; 129; 162]) 16 3;
   mkEntity "&ic;" (utf8_bytes [226; 129; 163]) 4 3; mkEntity "&euro;" "€" 6 3; mkEntity "&TripleDot;" "⃛" 11 3;
   mkEntity "&DotDot;" "⃜" 8 3; mkEntity "&complexes;" "ℂ" 11 3; mkEntity "&incare;" "℅" 8 3;
   mkEntity "&gscr;" "ℊ" 6 3; mkEntity "&HilbertSpace;" "ℋ" 14 3; mkEntity "&Hfr;" "ℌ" 5 3;
   mkEntity "&Hopf;" "ℍ" 6 3; mkEntity "&planckh;" "ℎ" 9 3; mkEntity "&planck;" "ℏ" 8 3;
   mkEntity "&imagline;" "ℐ" 10 3; mkEntity "&Ifr;" "ℑ" 5 3; mkEntity "&lagran;" "ℒ" 8 3;
   mkEntity "&ell;" "ℓ" 5 3; mkEntity "&naturals;" "ℕ" 10 3; mkEntity "&numero;" "№" 8 3;
   mkEntity "&copysr;" "℗" 8 3; mkEntity "&wp;" "℘" 4 3; mkEntity "&primes;" "ℙ" 8 3;
   mkEntity "&rationals;" "ℚ" 11 3; mkEntity "&realine;" "ℛ" 9 3; mkEntity "&Rfr;" "ℜ" 5 3;
   mkEntity "&Ropf;" "ℝ" 6 3; mkEntity "&rx;" "℞" 4 3; mkEntity "&trade;" "™" 7 3;
   mkEntity "&Zopf;" "ℤ" 6 3; mkEntity "&mho;" "℧" 5 3; mkEntity "&Zfr;" "ℨ" 5 3;
   mkEntity "&iiota;" "℩" 7 3; mkEntity "&Bscr;" "ℬ" 6 3; mkEntity "&Cfr;" "ℭ" 5 3;
   mkEntity "&escr;" "ℯ" 6 3; mkEntity "&expectation;" "ℰ" 13 3;
   mkEntity "&Fouriertrf;" "ℱ" 12 3; mkEntity "&Mellintrf;" "ℳ" 11 3;
   mkEntity "&orderof;" "ℴ" 9 3; mkEntity "&aleph;" "ℵ" 7 3; mkEntity "&beth;" "ℶ" 6 3;
   mkEntity "&gimel;" "ℷ" 7 3; mkEntity "&daleth;" "ℸ" 8 3;
   mkEntity "&CapitalDifferentialD;" "ⅅ" 22 3; mkEntity "&DifferentialD;" "ⅆ" 15 3;
   mkEntity "&exponentiale;" "ⅇ" 14 3; mkEntity "&ImaginaryI;" "ⅈ" 12 3;
   mkEntity "&frac13;" "⅓" 8 3; mkEntity "&frac23;" "⅔" 8 3; mkEntity "&frac15;" "⅕" 8 3;
   mkEntity "&frac25;" "⅖" 8 3; mkEntity "&frac35;" "⅗" 8 3; mkEntity "&frac45;" "⅘" 8 3;
   mkEntity "&frac16;" "⅙" 8 3; mkEntity "&frac56;" "⅚" 8 3; mkEntity "&frac18;" "⅛" 8 3;
   mkEntity "&frac38;" "⅜" 8 3; mkEntity "&frac58;" "⅝" 8 3; mkEntity "&frac78;" "⅞" 8 3;
   mkEntity "&larr;" "←" 6 3; mkEntity "&uarr;" "↑" 6 3; mkEntity "&srarr;" "→" 7 3;
   mkEntity "&darr;" "↓" 6 3; mkEntity "&harr;" "↔" 6 3; mkEntity "&UpDownArrow;" "↕" 13 3;
   mkEntity "&nwarrow;" "↖" 9 3; mkEntity "&UpperRightArrow;" "↗" 17 3;
   mkEntity "&LowerRightArrow;" "↘" 17 3; mkEntity "&swarr;" "↙" 7 3;
   mkEntity "&nleftarrow;" "↚" 12 3; mkEntity "&nrarr;" "↛" 7 3; mkEntity "&rarrw;" "↝" 7 3;
   mkEntity "&nrarrw;" "↝̸" 8 5; mkEntity "&Larr;" "↞" 6 3; mkEntity "&Uarr;" "↟" 6 3;
   mkEntity "&twoheadrightarrow;" "↠" 19 3; mkEntity "&Darr;" "↡" 6 3;
   mkEntity "&larrtl;" "↢" 8 3; mkEntity "&rarrtl;" "↣" 8 3; mkEntity "&LeftTeeArrow;" "↤" 14 3;
   mkEntity "&UpTeeArrow;" "↥" 12 3; mkEntity "&map;" "↦" 5 3;
   mkEntity "&DownTeeArrow;" "↧" 14 3; mkEntity "&larrhk;" "↩" 8 3; mkEntity "&rarrhk;" "↪" 8 3;
   mkEntity "&larrlp;" "↫" 8 3; mkEntity "&looparrowright;" "↬" 16 3;
   mkEntity "&harrw;" "↭" 7 3; mkEntity "&nleftrightarrow;" "↮" 17 3; mkEntity "&Lsh;" "↰" 5 3;
   mkEntity "&rsh;" "↱" 5 3; mkEntity "&ldsh;" "↲" 6 3; mkEntity "&rdsh;" "↳" 6 3;
   mkEntity "&crarr;" "↵" 7 3; mkEntity "&curvearrowleft;" "↶" 16 3;
   mkEntity "&curarr;" "↷" 8 3; mkEntity "&olarr;" "↺" 7 3; mkEntity "&orarr;" "↻" 7 3;
   mkEntity "&leftharpoonup;" "↼" 15 3; mkEntity "&leftharpoondown;" "↽" 17 3;
   mkEntity "&RightUpVector;" "↾" 15 3; mkEntity "&uharl;" "↿" 7 3; mkEntity "&rharu;" "⇀" 7 3;
   mkEntity "&rhard;" "⇁" 7 3; mkEntity "&RightDownVector;" "⇂" 17 3;
   mkEntity "&dharl;" "⇃" 7 3; mkEntity "&rightleftarrows;" "⇄" 17 3;
   mkEntity "&udarr;" "⇅" 7 3; mkEntity "&lrarr;" "⇆" 7 3; mkEntity "&llarr;" "⇇" 7 3;
   mkEntity "&upuparrows;" "⇈" 12 3; mkEntity "&rrarr;" "⇉" 7 3;
   mkEntity "&downdownarrows;" "⇊" 16 3; mkEntity "&leftrightharpoons;" "⇋" 19 3;
   mkEntity "&rightleftharpoons;" "⇌" 19 3; mkEntity "&nLeftarrow;" "⇍" 12 3;
   mkEntity "&nhArr;" "⇎" 7 3; mkEntity "&nrArr;" "⇏" 7 3;
   mkEntity "&DoubleLeftArrow;" "⇐" 17 3; mkEntity "&DoubleUpArrow;" "⇑" 15 3;
   mkEntity "&Implies;" "⇒" 9 3; mkEntity "&Downarrow;" "⇓" 11 3; mkEntity "&hArr;" "⇔" 6 3;
   mkEntity "&Updownarrow;" "⇕" 13 3; mkEntity "&nwArr;" "⇖" 7 3; mkEntity "&neArr;" "⇗" 7 3;
   mkEntity "&seArr;" "⇘" 7 3; mkEntity "&swArr;" "⇙" 7 3; mkEntity "&lAarr;" "⇚" 7 3;
   mkEntity "&rAarr;" "⇛" 7 3; mkEntity "&zigrarr;" "⇝" 9 3; mkEntity "&LeftArrowBar;" "⇤" 14 3;
   mkEntity "&RightArrowBar;" "⇥" 15 3; mkEntity "&DownArrowUpArrow;" "⇵" 18 3;
   mkEntity "&loarr;" "⇽" 7 3; mkEntity "&roarr;" "⇾" 7 3; mkEntity "&hoarr;" "⇿" 7 3].

Definition html_entities_4 : list html_entity :=
  [
   mkEntity "&forall;" "∀" 8 3; mkEntity "&comp;" "∁" 6 3; mkEntity "&part;" "∂" 6 3;
   mkEntity "&npart;" "∂̸" 7 5; mkEntity "&Exists;" "∃" 8 3; mkEntity "&nexist;" "∄" 8 3;
   mkEntity "&empty;" "∅" 7 3; mkEntity "&nabla;" "∇" 7 3; mkEntity "&isinv;" "∈" 7 3;
   mkEntity "&notin;" "∉" 7 3; mkEntity "&ReverseElement;" "∋" 16 3;
   mkEntity "&notniva;" "∌" 9 3; mkEntity "&prod;" "∏" 6 3; mkEntity "&Coproduct;" "∐" 11 3;
   mkEntity "&sum;" "∑" 5 3; mkEntity "&minus;" "−" 7 3; mkEntity "&MinusPlus;" "∓" 11 3;
   mkEntity "&plusdo;" "∔" 8 3; mkEntity "&ssetmn;" "∖" 8 3; mkEntity "&lowast;" "∗" 8 3;
   mkEntity "&compfn;" "∘" 8 3; mkEntity "&Sqrt;" "√" 6 3; mkEntity "&prop;" "∝" 6 3;
   mkEntity "&infin;" "∞" 7 3; mkEntity "&angrt;" "∟" 7 3; mkEntity "&angle;" "∠" 7 3;
   mkEntity "&nang;" "∠⃒" 6 6; mkEntity "&angmsd;" "∡" 8 3; mkEntity "&angsph;" "∢" 8 3;
   mkEntity "&mid;" "∣" 5 3; mkEntity "&nshortmid;" "∤" 11 3;
   mkEntity "&shortparallel;" "∥" 15 3; mkEntity "&nparallel;" "∦" 11 3;
   mkEntity "&and;" "∧" 5 3; mkEntity "&or;" "∨" 4 3; mkEntity "&cap;" "∩" 5 3;
   mkEntity "&caps;" "∩︀" 6 6; mkEntity "&cup;" "∪" 5 3; mkEntity "&cups;" "∪︀" 6 6;
   mkEntity "&Integral;" "∫" 10 3; mkEntity "&Int;" "∬" 5 3; mkEntity "&tint;" "∭" 6 3;
   mkEntity "&ContourIntegral;" "∮" 17 3; mkEntity "&DoubleContourIntegral;" "∯" 23 3;
   mkEntity "&Cconint;" "∰" 9 3; mkEntity "&cwint;" "∱" 7 3; mkEntity "&cwconint;" "∲" 10 3;
   mkEntity "&awconint;" "∳" 10 3; mkEntity "&there4;" "∴" 8 3; mkEntity "&Because;" "∵" 9 3;
   mkEntity "&ratio;" "∶" 7 3; mkEntity "&Colon;" "∷" 7 3; mkEntity "&minusd;" "∸" 8 3;
   mkEntity "&mDDot;" "∺" 7 3; mkEntity "&homtht;" "∻" 8 3; mkEntity "&sim;" "∼" 5 3;
   mkEntity "&nvsim;" "∼⃒" 7 6; mkEntity "&bsim;" "∽" 6 3; mkEntity "&race;" "∽̱" 6 5;
   mkEntity "&ac;" "∾" 4 3; mkEntity "&acE;" "∾̳" 5 5; mkEntity "&acd;" "∿" 5 3;
   mkEntity "&wr;" "≀" 4 3; mkEntity "&NotTilde;" "≁" 10 3; mkEntity "&esim;" "≂" 6 3;
   mkEntity "&nesim;" "≂̸" 7 5; mkEntity "&simeq;" "≃" 7 3; mkEntity "&nsime;" "≄" 7 3;
   mkEntity "&TildeFullEqual;" "≅" 16 3; mkEntity "&simne;" "≆" 7 3; mkEntity "&ncong;" "≇" 7 3;
   mkEntity "&approx;" "≈" 8 3; mkEntity "&napprox;" "≉" 9 3; mkEntity "&ape;" "≊" 5 3;
   mkEntity "&apid;" "≋" 6 3; mkEntity "&napid;" "≋̸" 7 5; mkEntity "&bcong;" "≌" 7 3;
   mkEntity "&CupCap;" "≍" 8 3; mkEntity "&nvap;" "≍⃒" 6 6; mkEntity "&bump;" "≎" 6 3;
   mkEntity "&nbump;" "≎̸" 7 5; mkEntity "&HumpEqual;" "≏" 11 3; mkEntity "&nbumpe;" "≏̸" 8 5;
   mkEntity "&esdot;" "≐" 7 3; mkEntity "&nedot;" "≐̸" 7 5; mkEntity "&doteqdot;" "≑" 10 3;
   mkEntity "&fallingdotseq;" "≒" 15 3; mkEntity "&risingdotseq;" "≓" 14 3;
   mkEntity "&coloneq;" "≔" 9 3; mkEntity "&eqcolon;" "≕" 9 3; mkEntity "&ecir;" "≖" 6 3;
   mkEntity "&circeq;" "≗" 8 3; mkEntity "&wedgeq;" "≙" 8 3; mkEntity "&veeeq;" "≚" 7 3;
   mkEntity "&triangleq;" "≜" 11 3; mkEntity "&equest;" "≟" 8 3; mkEntity "&NotEqual;" "≠" 10 3;
   mkEntity "&Congruent;" "≡" 11 3; mkEntity "&bnequiv;" "≡⃥" 9 6;
   mkEntity "&NotCongruent;" "≢" 14 3; mkEntity "&leq;" "≤" 5 3; mkEntity "&nvle;" "≤⃒" 6 6;
   mkEntity "&ge;" "≥" 4 3; mkEntity "&nvge;" "≥⃒" 6 6; mkEntity "&lE;" "≦" 4 3;
   mkEntity "&nlE;" "≦̸" 5 5; mkEntity "&geqq;" "≧" 6 3;
   mkEntity "&NotGreaterFullEqual;" "≧̸" 21 5; mkEntity "&lneqq;" "≨" 7 3;
   mkEntity "&lvertneqq;" "≨︀" 11 6; mkEntity "&gneqq;" "≩" 7 3;
   mkEntity "&gvertneqq;" "≩︀" 11 6; mkEntity "&ll;" "≪" 4 3; mkEntity "&nLtv;" "≪̸" 6 5;
   mkEntity "&nLt;" "≪⃒" 5 6; mkEntity "&gg;" "≫" 4 3; mkEntity "&NotGreaterGreater;" "≫̸" 19 5;
   mkEntity "&nGt;" "≫⃒" 5 6; mkEntity "&between;" "≬" 9 3; mkEntity "&NotCupCap;" "≭" 11 3;
   mkEntity "&NotLess;" "≮" 9 3; mkEntity "&ngtr;" "≯" 6 3; mkEntity "&NotLessEqual;" "≰" 14 3;
   mkEntity "&ngeq;" "≱" 6 3; mkEntity "&LessTilde;" "≲" 11 3;
   mkEntity "&GreaterTilde;" "≳" 14 3; mkEntity "&nlsim;" "≴" 7 3; mkEntity "&ngsim;" "≵" 7 3;
   mkEntity "&lessgtr;" "≶" 9 3; mkEntity "&gl;" "≷" 4 3; mkEntity "&ntlg;" "≸" 6 3;
   mkEntity "&NotGreaterLess;" "≹" 16 3; mkEntity "&prec;" "≺" 6 3; mkEntity "&succ;" "≻" 6 3;
   mkEntity "&PrecedesSlantEqual;" "≼" 20 3; mkEntity "&succcurlyeq;" "≽" 13 3;
   mkEntity "&precsim;" "≾" 9 3; mkEntity "&SucceedsTilde;" "≿" 15 3;
   mkEntity "&NotSucceedsTilde;" "≿̸" 18 5; mkEntity "&npr;" "⊀" 5 3;
   mkEntity "&NotSucceeds;" "⊁" 13 3; mkEntity "&sub;" "⊂" 5 3; mkEntity "&vnsub;" "⊂⃒" 7 6;
   mkEntity "&sup;" "⊃" 5 3; mkEntity "&nsupset;" "⊃⃒" 9 6; mkEntity "&nsub;" "⊄" 6 3;
   mkEntity "&nsup;" "⊅" 6 3; mkEntity "&SubsetEqual;" "⊆" 13 3; mkEntity "&supe;" "⊇" 6 3;
   mkEntity "&NotSubsetEqual;" "⊈" 16 3].

Definition html_entities_5 : list html_entity :=
  [
   mkEntity "&NotSupersetEqual;" "⊉" 18 3; mkEntity "&subsetneq;" "⊊" 11 3;
   mkEntity "&vsubne;" "⊊︀" 8 6; mkEntity "&supsetneq;" "⊋" 11 3; mkEntity "&vsupne;" "⊋︀" 8 6;
   mkEntity "&cupdot;" "⊍" 8 3; mkEntity "&UnionPlus;" "⊎" 11 3; mkEntity "&sqsub;" "⊏" 7 3;
   mkEntity "&NotSquareSubset;" "⊏̸" 17 5; mkEntity "&sqsupset;" "⊐" 10 3;
   mkEntity "&NotSquareSuperset;" "⊐̸" 19 5; mkEntity "&SquareSubsetEqual;" "⊑" 19 3;
   mkEntity "&SquareSupersetEqual;" "⊒" 21 3; mkEntity "&sqcap;" "⊓" 7 3;
   mkEntity "&sqcaps;" "⊓︀" 8 6; mkEntity "&sqcup;" "⊔" 7 3; mkEntity "&sqcups;" "⊔︀" 8 6;
   mkEntity "&CirclePlus;" "⊕" 12 3; mkEntity "&ominus;" "⊖" 8 3;
   mkEntity "&CircleTimes;" "⊗" 13 3; mkEntity "&osol;" "⊘" 6 3;
   mkEntity "&CircleDot;" "⊙" 11 3; mkEntity "&ocir;" "⊚" 6 3; mkEntity "&oast;" "⊛" 6 3;
   mkEntity "&odash;" "⊝" 7 3; mkEntity "&boxplus;" "⊞" 9 3; mkEntity "&boxminus;" "⊟" 10 3;
   mkEntity "&timesb;" "⊠" 8 3; mkEntity "&sdotb;" "⊡" 7 3; mkEntity "&vdash;" "⊢" 7 3;
   mkEntity "&dashv;" "⊣" 7 3; mkEntity "&DownTee;" "⊤" 9 3; mkEntity "&perp;" "⊥" 6 3;
   mkEntity "&models;" "⊧" 8 3; mkEntity "&DoubleRightTee;" "⊨" 16 3;
   mkEntity "&Vdash;" "⊩" 7 3; mkEntity "&Vvdash;" "⊪" 8 3; mkEntity "&VDash;" "⊫" 7 3;
   mkEntity "&nvdash;" "⊬" 8 3; mkEntity "&nvDash;" "⊭" 8 3; mkEntity "&nVdash;" "⊮" 8 3;
   mkEntity "&nVDash;" "⊯" 8 3; mkEntity "&prurel;" "⊰" 8 3;
   mkEntity "&vartriangleleft;" "⊲" 17 3; mkEntity "&vrtri;" "⊳" 7 3;
   mkEntity "&LeftTriangleEqual;" "⊴" 19 3; mkEntity "&nvltrie;" "⊴⃒" 9 6;
   mkEntity "&RightTriangleEqual;" "⊵" 20 3; mkEntity "&nvrtrie;" "⊵⃒" 9 6;
   mkEntity "&origof;" "⊶" 8 3; mkEntity "&imof;" "⊷" 6 3; mkEntity "&mumap;" "⊸" 7 3;
   mkEntity "&hercon;" "⊹" 8 3; mkEntity "&intcal;" "⊺" 8 3; mkEntity "&veebar;" "⊻" 8 3;
   mkEntity "&barvee;" "⊽" 8 3; mkEntity "&angrtvb;" "⊾" 9 3; mkEntity "&lrtri;" "⊿" 7 3;
   mkEntity "&xwedge;" "⋀" 8 3; mkEntity "&xvee;" "⋁" 6 3; mkEntity "&bigcap;" "⋂" 8 3;
   mkEntity "&bigcup;" "⋃" 8 3; mkEntity "&diamond;" "⋄" 9 3; mkEntity "&sdot;" "⋅" 6 3;
   mkEntity "&Star;" "⋆" 6 3; mkEntity "&divonx;" "⋇" 8 3; mkEntity "&bowtie;" "⋈" 8 3;
   mkEntity "&ltimes;" "⋉" 8 3; mkEntity "&rtimes;" "⋊" 8 3; mkEntity "&lthree;" "⋋" 8 3;
   mkEntity "&rthree;" "⋌" 8 3; mkEntity "&backsimeq;" "⋍" 11 3; mkEntity "&curlyvee;" "⋎" 10 3;
   mkEntity "&curlywedge;" "⋏" 12 3; mkEntity "&Sub;" "⋐" 5 3; mkEntity "&Supset;" "⋑" 8 3;
   mkEntity "&Cap;" "⋒" 5 3; mkEntity "&Cup;" "⋓" 5 3; mkEntity "&pitchfork;" "⋔" 11 3;
   mkEntity "&epar;" "⋕" 6 3; mkEntity "&lessdot;" "⋖" 9 3; mkEntity "&gtrdot;" "⋗" 8 3;
   mkEntity "&Ll;" "⋘" 4 3; mkEntity "&nLl;" "⋘̸" 5 5; mkEntity "&Gg;" "⋙" 4 3;
   mkEntity "&nGg;" "⋙̸" 5 5; mkEntity "&lesseqgtr;" "⋚" 11 3; mkEntity "&lesg;" "⋚︀" 6 6;
   mkEntity "&gtreqless;" "⋛" 11 3; mkEntity "&gesl;" "⋛︀" 6 6;
   mkEntity "&curlyeqprec;" "⋞" 13 3; mkEntity "&cuesc;" "⋟" 7 3;
   mkEntity "&NotPrecedesSlantEqual;" "⋠" 23 3; mkEntity "&NotSucceedsSlantEqual;" "⋡" 23 3;
   mkEntity "&NotSquareSubsetEqual;" "⋢" 22 3; mkEntity "&NotSquareSupersetEqual;" "⋣" 24 3;
   mkEntity "&lnsim;" "⋦" 7 3; mkEntity "&gnsim;" "⋧" 7 3; mkEntity "&precnsim;" "⋨" 10 3;
   mkEntity "&scnsim;" "⋩" 8 3; mkEntity "&nltri;" "⋪" 7 3;
   mkEntity "&ntriangleright;" "⋫" 16 3; mkEntity "&nltrie;" "⋬" 8 3;
   mkEntity "&NotRightTriangleEqual;" "⋭" 23 3; mkEntity "&vellip;" "⋮" 8 3;
   mkEntity "&ctdot;" "⋯" 7 3; mkEntity "&utdot;" "⋰" 7 3; mkEntity "&dtdot;" "⋱" 7 3;
   mkEntity "&disin;" "⋲" 7 3; mkEntity "&isinsv;" "⋳" 8 3; mkEntity "&isins;" "⋴" 7 3;
   mkEntity "&isindot;" "⋵" 9 3; mkEntity "&notindot;" "⋵̸" 10 5; mkEntity "&notinvc;" "⋶" 9 3;
   mkEntity "&notinvb;" "⋷" 9 3; mkEntity "&isinE;" "⋹" 7 3; mkEntity "&notinE;" "⋹̸" 8 5;
   mkEntity "&nisd;" "⋺" 6 3; mkEntity "&xnis;" "⋻" 6 3; mkEntity "&nis;" "⋼" 5 3;
   mkEntity "&notnivc;" "⋽" 9 3; mkEntity "&notnivb;" "⋾" 9 3; mkEntity "&barwed;" "⌅" 8 3;
   mkEntity "&doublebarwedge;" "⌆" 16 3; mkEntity "&lceil;" "⌈" 7 3;
   mkEntity "&RightCeiling;" "⌉" 14 3; mkEntity "&LeftFloor;" "⌊" 11 3;
   mkEntity "&RightFloor;" "⌋" 12 3; mkEntity "&drcrop;" "⌌" 8 3; mkEntity "&dlcrop;" "⌍" 8 3;
   mkEntity "&urcrop;" "⌎" 8 3; mkEntity "&ulcrop;" "⌏" 8 3; mkEntity "&bnot;" "⌐" 6 3;
   mkEntity "&profline;" "⌒" 10 3; mkEntity "&profsurf;" "⌓" 10 3; mkEntity "&telrec;" "⌕" 8 3;
   mkEntity "&target;" "⌖" 8 3; mkEntity "&ulcorner;" "⌜" 10 3; mkEntity "&urcorner;" "⌝" 10 3;
   mkEntity "&llcorner;" "⌞" 10 3; mkEntity "&drcorn;" "⌟" 8 3; mkEntity "&frown;" "⌢" 7 3;
   mkEntity "&smile;" "⌣" 7 3; mkEntity "&cylcty;" "⌭" 8 3; mkEntity "&profalar;" "⌮" 10 3;
   mkEntity "&topbot;" "⌶" 8 3; mkEntity "&ovbar;" "⌽" 7 3; mkEntity "&solbar;" "⌿" 8 3;
   mkEntity "&angzarr;" "⍼" 9 3; mkEntity "&lmoust;" "⎰" 8 3].

Definition html_entities_6 : list html_entity :=
  [
   mkEntity "&rmoust;" "⎱" 8 3; mkEntity "&OverBracket;" "⎴" 13 3; mkEntity "&bbrk;" "⎵" 6 3;
   mkEntity "&bbrktbrk;" "⎶" 10 3; mkEntity "&OverParenthesis;" "⏜" 17 3;
   mkEntity "&UnderParenthesis;" "⏝" 18 3; mkEntity "&OverBrace;" "⏞" 11 3;
   mkEntity "&UnderBrace;" "⏟" 12 3; mkEntity "&trpezium;" "⏢" 10 3;
   mkEntity "&elinters;" "⏧" 10 3; mkEntity "&blank;" "␣" 7 3; mkEntity "&oS;" "Ⓢ" 4 3;
   mkEntity "&HorizontalLine;" "─" 16 3; mkEntity "&boxv;" "│" 6 3; mkEntity "&boxdr;" "┌" 7 3;
   mkEntity "&boxdl;" "┐" 7 3; mkEntity "&boxur;" "└" 7 3; mkEntity "&boxul;" "┘" 7 3;
   mkEntity "&boxvr;" "├" 7 3; mkEntity "&boxvl;" "┤" 7 3; mkEntity "&boxhd;" "┬" 7 3;
   mkEntity "&boxhu;" "┴" 7 3; mkEntity "&boxvh;" "┼" 7 3; mkEntity "&boxH;" "═" 6 3;
   mkEntity "&boxV;" "║" 6 3; mkEntity "&boxdR;" "╒" 7 3; mkEntity "&boxDr;" "╓" 7 3;
   mkEntity "&boxDR;" "╔" 7 3; mkEntity "&boxdL;" "╕" 7 3; mkEntity "&boxDl;" "╖" 7 3;
   mkEntity "&boxDL;" "╗" 7 3; mkEntity "&boxuR;" "╘" 7 3; mkEntity "&boxUr;" "╙" 7 3;
   mkEntity "&boxUR;" "╚" 7 3; mkEntity "&boxuL;" "╛" 7 3; mkEntity "&boxUl;" "╜" 7 3;
   mkEntity "&boxUL;" "╝" 7 3; mkEntity "&boxvR;" "╞" 7 3; mkEntity "&boxVr;" "╟" 7 3;
   mkEntity "&boxVR;" "╠" 7 3; mkEntity "&boxvL;" "╡" 7 3; mkEntity "&boxVl;" "╢" 7 3;
   mkEntity "&boxVL;" "╣" 7 3; mkEntity "&boxHd;" "╤" 7 3; mkEntity "&boxhD;" "╥" 7 3;
   mkEntity "&boxHD;" "╦" 7 3; mkEntity "&boxHu;" "╧" 7 3; mkEntity "&boxhU;" "╨" 7 3;
   mkEntity "&boxHU;" "╩" 7 3; mkEntity "&boxvH;" "╪" 7 3; mkEntity "&boxVh;" "╫" 7 3;
   mkEntity "&boxVH;" "╬" 7 3; mkEntity "&uhblk;" "▀" 7 3; mkEntity "&lhblk;" "▄" 7 3;
   mkEntity "&block;" "█" 7 3; mkEntity "&blk14;" "░" 7 3; mkEntity "&blk12;" "▒" 7 3;
   mkEntity "&blk34;" "▓" 7 3; mkEntity "&Square;" "□" 8 3; mkEntity "&squarf;" "▪" 8 3;
   mkEntity "&EmptyVerySmallSquare;" "▫" 22 3; mkEntity "&rect;" "▭" 6 3;
   mkEntity "&marker;" "▮" 8 3; mkEntity "&fltns;" "▱" 7 3; mkEntity "&bigtriangleup;" "△" 15 3;
   mkEntity "&blacktriangle;" "▴" 15 3; mkEntity "&triangle;" "▵" 10 3;
   mkEntity "&blacktriangleright;" "▸" 20 3; mkEntity "&rtri;" "▹" 6 3;
   mkEntity "&bigtriangledown;" "▽" 17 3; mkEntity "&blacktriangledown;" "▾" 19 3;
   mkEntity "&triangledown;" "▿" 14 3; mkEntity "&blacktriangleleft;" "◂" 19 3;
   mkEntity "&ltri;" "◃" 6 3; mkEntity "&lozenge;" "◊" 9 3; mkEntity "&cir;" "○" 5 3;
   mkEntity "&tridot;" "◬" 8 3; mkEntity "&bigcirc;" "◯" 9 3; mkEntity "&ultri;" "◸" 7 3;
   mkEntity "&urtri;" "◹" 7 3; mkEntity "&lltri;" "◺" 7 3;
   mkEntity "&EmptySmallSquare;" "◻" 18 3; mkEntity "&FilledSmallSquare;" "◼" 19 3;
   mkEntity "&starf;" "★" 7 3; mkEntity "&star;" "☆" 6 3; mkEntity "&phone;" "☎" 7 3;
   mkEntity "&female;" "♀" 8 3; mkEntity "&male;" "♂" 6 3; mkEntity "&spadesuit;" "♠" 11 3;
   mkEntity "&clubs;" "♣" 7 3; mkEntity "&hearts;" "♥" 8 3; mkEntity "&diamondsuit;" "♦" 13 3;
   mkEntity "&sung;" "♪" 6 3; mkEntity "&flat;" "♭" 6 3; mkEntity "&natur;" "♮" 7 3;
   mkEntity "&sharp;" "♯" 7 3; mkEntity "&check;" "✓" 7 3; mkEntity "&cross;" "✗" 7 3;
   mkEntity "&maltese;" "✠" 9 3; mkEntity "&sext;" "✶" 6 3;
   mkEntity "&VerticalSeparator;" "❘" 19 3; mkEntity "&lbbrk;" "❲" 7 3;
   mkEntity "&rbbrk;" "❳" 7 3; mkEntity "&bsolhsub;" "⟈" 10 3; mkEntity "&suphsol;" "⟉" 9 3;
   mkEntity "&LeftDoubleBracket;" "⟦" 19 3; mkEntity "&RightDoubleBracket;" "⟧" 20 3;
   mkEntity "&langle;" "⟨" 8 3; mkEntity "&RightAngleBracket;" "⟩" 19 3;
   mkEntity "&Lang;" "⟪" 6 3; mkEntity "&Rang;" "⟫" 6 3; mkEntity "&loang;" "⟬" 7 3;
   mkEntity "&roang;" "⟭" 7 3; mkEntity "&longleftarrow;" "⟵" 15 3;
   mkEntity "&LongRightArrow;" "⟶" 16 3; mkEntity "&LongLeftRightArrow;" "⟷" 20 3;
   mkEntity "&xlArr;" "⟸" 7 3; mkEntity "&DoubleLongRightArrow;" "⟹" 22 3;
   mkEntity "&xhArr;" "⟺" 7 3; mkEntity "&xmap;" "⟼" 6 3; mkEntity "&dzigrarr;" "⟿" 10 3;
   mkEntity "&nvlArr;" "⤂" 8 3; mkEntity "&nvrArr;" "⤃" 8 3; mkEntity "&nvHarr;" "⤄" 8 3;
   mkEntity "&Map;" "⤅" 5 3; mkEntity "&lbarr;" "⤌" 7 3; mkEntity "&bkarow;" "⤍" 8 3;
   mkEntity "&lBarr;" "⤎" 7 3; mkEntity "&dbkarow;" "⤏" 9 3; mkEntity "&drbkarow;" "⤐" 10 3;
   mkEntity "&DDotrahd;" "⤑" 10 3; mkEntity "&UpArrowBar;" "⤒" 12 3;
   mkEntity "&DownArrowBar;" "⤓" 14 3; mkEntity "&Rarrtl;" "⤖" 8 3; mkEntity "&latail;" "⤙" 8 3;
   mkEntity "&ratail;" "⤚" 8 3; mkEntity "&lAtail;" "⤛" 8 3; mkEntity "&rAtail;" "⤜" 8 3;
   mkEntity "&larrfs;" "⤝" 8 3; mkEntity "&rarrfs;" "⤞" 8 3; mkEntity "&larrbfs;" "⤟" 9 3;
   mkEntity "&rarrbfs;" "⤠" 9 3; mkEntity "&nwarhk;" "⤣" 8 3; mkEntity "&nearhk;" "⤤" 8 3;
   mkEntity "&searhk;" "⤥" 8 3; mkEntity "&swarhk;" "⤦" 8 3; mkEntity "&nwnear;" "⤧" 8 3;
   mkEntity "&toea;" "⤨" 6 3; mkEntity "&seswar;" "⤩" 8 3; mkEntity "&swnwar;" "⤪" 8 3].

Definition html_entities_7 : list html_entity :=
  [
   mkEntity "&rarrc;" "⤳" 7 3; mkEntity "&nrarrc;" "⤳̸" 8 5; mkEntity "&cudarrr;" "⤵" 9 3;
   mkEntity "&ldca;" "⤶" 6 3; mkEntity "&rdca;" "⤷" 6 3; mkEntity "&cudarrl;" "⤸" 9 3;
   mkEntity "&larrpl;" "⤹" 8 3; mkEntity "&curarrm;" "⤼" 9 3; mkEntity "&cularrp;" "⤽" 9 3;
   mkEntity "&rarrpl;" "⥅" 8 3; mkEntity "&harrcir;" "⥈" 9 3; mkEntity "&Uarrocir;" "⥉" 10 3;
   mkEntity "&lurdshar;" "⥊" 10 3; mkEntity "&ldrushar;" "⥋" 10 3;
   mkEntity "&LeftRightVector;" "⥎" 17 3; mkEntity "&RightUpDownVector;" "⥏" 19 3;
   mkEntity "&DownLeftRightVector;" "⥐" 21 3; mkEntity "&LeftUpDownVector;" "⥑" 18 3;
   mkEntity "&LeftVectorBar;" "⥒" 15 3; mkEntity "&RightVectorBar;" "⥓" 16 3;
   mkEntity "&RightUpVectorBar;" "⥔" 18 3; mkEntity "&RightDownVectorBar;" "⥕" 20 3;
   mkEntity "&DownLeftVectorBar;" "⥖" 19 3; mkEntity "&DownRightVectorBar;" "⥗" 20 3;
   mkEntity "&LeftUpVectorBar;" "⥘" 17 3; mkEntity "&LeftDownVectorBar;" "⥙" 19 3;
   mkEntity "&LeftTeeVector;" "⥚" 15 3; mkEntity "&RightTeeVector;" "⥛" 16 3;
   mkEntity "&RightUpTeeVector;" "⥜" 18 3; mkEntity "&RightDownTeeVector;" "⥝" 20 3;
   mkEntity "&DownLeftTeeVector;" "⥞" 19 3; mkEntity "&DownRightTeeVector;" "⥟" 20 3;
   mkEntity "&LeftUpTeeVector;" "⥠" 17 3; mkEntity "&LeftDownTeeVector;" "⥡" 19 3;
   mkEntity "&lHar;" "⥢" 6 3; mkEntity "&uHar;" "⥣" 6 3; mkEntity "&rHar;" "⥤" 6 3;
   mkEntity "&dHar;" "⥥" 6 3; mkEntity "&luruhar;" "⥦" 9 3; mkEntity "&ldrdhar;" "⥧" 9 3;
   mkEntity "&ruluhar;" "⥨" 9 3; mkEntity "&rdldhar;" "⥩" 9 3; mkEntity "&lharul;" "⥪" 8 3;
   mkEntity "&llhard;" "⥫" 8 3; mkEntity "&rharul;" "⥬" 8 3; mkEntity "&lrhard;" "⥭" 8 3;
   mkEntity "&udhar;" "⥮" 7 3; mkEntity "&ReverseUpEquilibrium;" "⥯" 22 3;
   mkEntity "&RoundImplies;" "⥰" 14 3; mkEntity "&erarr;" "⥱" 7 3; mkEntity "&simrarr;" "⥲" 9 3;
   mkEntity "&larrsim;" "⥳" 9 3; mkEntity "&rarrsim;" "⥴" 9 3; mkEntity "&rarrap;" "⥵" 8 3;
   mkEntity "&ltlarr;" "⥶" 8 3; mkEntity "&gtrarr;" "⥸" 8 3; mkEntity "&subrarr;" "⥹" 9 3;
   mkEntity "&suplarr;" "⥻" 9 3; mkEntity "&lfisht;" "⥼" 8 3; mkEntity "&rfisht;" "⥽" 8 3;
   mkEntity "&ufisht;" "⥾" 8 3; mkEntity "&dfisht;" "⥿" 8 3; mkEntity "&lopar;" "⦅" 7 3;
   mkEntity "&ropar;" "⦆" 7 3; mkEntity "&lbrke;" "⦋" 7 3; mkEntity "&rbrke;" "⦌" 7 3;
   mkEntity "&lbrkslu;" "⦍" 9 3; mkEntity "&rbrksld;" "⦎" 9 3; mkEntity "&lbrksld;" "⦏" 9 3;
   mkEntity "&rbrkslu;" "⦐" 9 3; mkEntity "&langd;" "⦑" 7 3; mkEntity "&rangd;" "⦒" 7 3;
   mkEntity "&lparlt;" "⦓" 8 3; mkEntity "&rpargt;" "⦔" 8 3; mkEntity "&gtlPar;" "⦕" 8 3;
   mkEntity "&ltrPar;" "⦖" 8 3; mkEntity "&vzigzag;" "⦚" 9 3; mkEntity "&vangrt;" "⦜" 8 3;
   mkEntity "&angrtvbd;" "⦝" 10 3; mkEntity "&ange;" "⦤" 6 3; mkEntity "&range;" "⦥" 7 3;
   mkEntity "&dwangle;" "⦦" 9 3; mkEntity "&uwangle;" "⦧" 9 3; mkEntity "&angmsdaa;" "⦨" 10 3;
   mkEntity "&angmsdab;" "⦩" 10 3; mkEntity "&angmsdac;" "⦪" 10 3;
   mkEntity "&angmsdad;" "⦫" 10 3; mkEntity "&angmsdae;" "⦬" 10 3;
   mkEntity "&angmsdaf;" "⦭" 10 3; mkEntity "&angmsdag;" "⦮" 10 3;
   mkEntity "&angmsdah;" "⦯" 10 3; mkEntity "&bemptyv;" "⦰" 9 3; mkEntity "&demptyv;" "⦱" 9 3;
   mkEntity "&cemptyv;" "⦲" 9 3; mkEntity "&raemptyv;" "⦳" 10 3; mkEntity "&laemptyv;" "⦴" 10 3;
   mkEntity "&ohbar;" "⦵" 7 3; mkEntity "&omid;" "⦶" 6 3; mkEntity "&opar;" "⦷" 6 3;
   mkEntity "&operp;" "⦹" 7 3; mkEntity "&olcross;" "⦻" 9 3; mkEntity "&odsold;" "⦼" 8 3;
   mkEntity "&olcir;" "⦾" 7 3; mkEntity "&ofcir;" "⦿" 7 3; mkEntity "&olt;" "⧀" 5 3;
   mkEntity "&ogt;" "⧁" 5 3; mkEntity "&cirscir;" "⧂" 9 3; mkEntity "&cirE;" "⧃" 6 3;
   mkEntity "&solb;" "⧄" 6 3; mkEntity "&bsolb;" "⧅" 7 3; mkEntity "&boxbox;" "⧉" 8 3;
   mkEntity "&trisb;" "⧍" 7 3; mkEntity "&rtriltri;" "⧎" 10 3;
   mkEntity "&LeftTriangleBar;" "⧏" 17 3; mkEntity "&NotLeftTriangleBar;" "⧏̸" 20 5;
   mkEntity "&RightTriangleBar;" "⧐" 18 3; mkEntity "&NotRightTriangleBar;" "⧐̸" 21 5;
   mkEntity "&iinfin;" "⧜" 8 3; mkEntity "&infintie;" "⧝" 10 3; mkEntity "&nvinfin;" "⧞" 9 3;
   mkEntity "&eparsl;" "⧣" 8 3; mkEntity "&smeparsl;" "⧤" 10 3; mkEntity "&eqvparsl;" "⧥" 10 3;
   mkEntity "&lozf;" "⧫" 6 3; mkEntity "&RuleDelayed;" "⧴" 13 3; mkEntity "&dsol;" "⧶" 6 3;
   mkEntity "&xodot;" "⨀" 7 3; mkEntity "&bigoplus;" "⨁" 10 3; mkEntity "&bigotimes;" "⨂" 11 3;
   mkEntity "&biguplus;" "⨄" 10 3; mkEntity "&bigsqcup;" "⨆" 10 3; mkEntity "&iiiint;" "⨌" 8 3;
   mkEntity "&fpartint;" "⨍" 10 3; mkEntity "&cirfnint;" "⨐" 10 3; mkEntity "&awint;" "⨑" 7 3;
   mkEntity "&rppolint;" "⨒" 10 3; mkEntity "&scpolint;" "⨓" 10 3; mkEntity "&npolint;" "⨔" 9 3;
   mkEntity "&pointint;" "⨕" 10 3; mkEntity "&quatint;" "⨖" 9 3; mkEntity "&intlarhk;" "⨗" 10 3;
   mkEntity "&pluscir;" "⨢" 9 3; mkEntity "&plusacir;" "⨣" 10 3; mkEntity "&simplus;" "⨤" 9 3;
   mkEntity "&plusdu;" "⨥" 8 3; mkEntity "&plussim;" "⨦" 9 3; mkEntity "&plustwo;" "⨧" 9 3;
   mkEntity "&mcomma;" "⨩" 8 3; mkEntity "&minusdu;" "⨪" 9 3; mkEntity "&loplus;" "⨭" 8 3].

Definition html_entities_8 : list html_entity :=
  [
   mkEntity "&roplus;" "⨮" 8 3; mkEntity "&Cross;" "⨯" 7 3; mkEntity "&timesd;" "⨰" 8 3;
   mkEntity "&timesbar;" "⨱" 10 3; mkEntity "&smashp;" "⨳" 8 3; mkEntity "&lotimes;" "⨴" 9 3;
   mkEntity "&rotimes;" "⨵" 9 3; mkEntity "&otimesas;" "⨶" 10 3; mkEntity "&Otimes;" "⨷" 8 3;
   mkEntity "&odiv;" "⨸" 6 3; mkEntity "&triplus;" "⨹" 9 3; mkEntity "&triminus;" "⨺" 10 3;
   mkEntity "&tritime;" "⨻" 9 3; mkEntity "&iprod;" "⨼" 7 3; mkEntity "&amalg;" "⨿" 7 3;
   mkEntity "&capdot;" "⩀" 8 3; mkEntity "&ncup;" "⩂" 6 3; mkEntity "&ncap;" "⩃" 6 3;
   mkEntity "&capand;" "⩄" 8 3; mkEntity "&cupor;" "⩅" 7 3; mkEntity "&cupcap;" "⩆" 8 3;
   mkEntity "&capcup;" "⩇" 8 3; mkEntity "&cupbrcap;" "⩈" 10 3; mkEntity "&capbrcup;" "⩉" 10 3;
   mkEntity "&cupcup;" "⩊" 8 3; mkEntity "&capcap;" "⩋" 8 3; mkEntity "&ccups;" "⩌" 7 3;
   mkEntity "&ccaps;" "⩍" 7 3; mkEntity "&ccupssm;" "⩐" 9 3; mkEntity "&And;" "⩓" 5 3;
   mkEntity "&Or;" "⩔" 4 3; mkEntity "&andand;" "⩕" 8 3; mkEntity "&oror;" "⩖" 6 3;
   mkEntity "&orslope;" "⩗" 9 3; mkEntity "&andslope;" "⩘" 10 3; mkEntity "&andv;" "⩚" 6 3;
   mkEntity "&orv;" "⩛" 5 3; mkEntity "&andd;" "⩜" 6 3; mkEntity "&ord;" "⩝" 5 3;
   mkEntity "&wedbar;" "⩟" 8 3; mkEntity "&sdote;" "⩦" 7 3; mkEntity "&simdot;" "⩪" 8 3;
   mkEntity "&congdot;" "⩭" 9 3; mkEntity "&ncongdot;" "⩭̸" 10 5; mkEntity "&easter;" "⩮" 8 3;
   mkEntity "&apacir;" "⩯" 8 3; mkEntity "&apE;" "⩰" 5 3; mkEntity "&napE;" "⩰̸" 6 5;
   mkEntity "&eplus;" "⩱" 7 3; mkEntity "&pluse;" "⩲" 7 3; mkEntity "&Esim;" "⩳" 6 3;
   mkEntity "&Colone;" "⩴" 8 3; mkEntity "&Equal;" "⩵" 7 3; mkEntity "&ddotseq;" "⩷" 9 3;
   mkEntity "&equivDD;" "⩸" 9 3; mkEntity "&ltcir;" "⩹" 7 3; mkEntity "&gtcir;" "⩺" 7 3;
   mkEntity "&ltquest;" "⩻" 9 3; mkEntity "&gtquest;" "⩼" 9 3; mkEntity "&les;" "⩽" 5 3;
   mkEntity "&nles;" "⩽̸" 6 5; mkEntity "&ges;" "⩾" 5 3; mkEntity "&nges;" "⩾̸" 6 5;
   mkEntity "&lesdot;" "⩿" 8 3; mkEntity "&gesdot;" "⪀" 8 3; mkEntity "&lesdoto;" "⪁" 9 3;
   mkEntity "&gesdoto;" "⪂" 9 3; mkEntity "&lesdotor;" "⪃" 10 3; mkEntity "&gesdotol;" "⪄" 10 3;
   mkEntity "&lap;" "⪅" 5 3; mkEntity "&gap;" "⪆" 5 3; mkEntity "&lne;" "⪇" 5 3;
   mkEntity "&gne;" "⪈" 5 3; mkEntity "&lnap;" "⪉" 6 3; mkEntity "&gnap;" "⪊" 6 3;
   mkEntity "&lesseqqgtr;" "⪋" 12 3; mkEntity "&gEl;" "⪌" 5 3; mkEntity "&lsime;" "⪍" 7 3;
   mkEntity "&gsime;" "⪎" 7 3; mkEntity "&lsimg;" "⪏" 7 3; mkEntity "&gsiml;" "⪐" 7 3;
   mkEntity "&lgE;" "⪑" 5 3; mkEntity "&glE;" "⪒" 5 3; mkEntity "&lesges;" "⪓" 8 3;
   mkEntity "&gesles;" "⪔" 8 3; mkEntity "&els;" "⪕" 5 3; mkEntity "&egs;" "⪖" 5 3;
   mkEntity "&elsdot;" "⪗" 8 3; mkEntity "&egsdot;" "⪘" 8 3; mkEntity "&el;" "⪙" 4 3;
   mkEntity "&eg;" "⪚" 4 3; mkEntity "&siml;" "⪝" 6 3; mkEntity "&simg;" "⪞" 6 3;
   mkEntity "&simlE;" "⪟" 7 3; mkEntity "&simgE;" "⪠" 7 3; mkEntity "&LessLess;" "⪡" 10 3;
   mkEntity "&NotNestedLessLess;" "⪡̸" 19 5; mkEntity "&GreaterGreater;" "⪢" 16 3;
   mkEntity "&NotNestedGreaterGreater;" "⪢̸" 25 5; mkEntity "&glj;" "⪤" 5 3;
   mkEntity "&gla;" "⪥" 5 3; mkEntity "&ltcc;" "⪦" 6 3; mkEntity "&gtcc;" "⪧" 6 3;
   mkEntity "&lescc;" "⪨" 7 3; mkEntity "&gescc;" "⪩" 7 3; mkEntity "&smt;" "⪪" 5 3;
   mkEntity "&lat;" "⪫" 5 3; mkEntity "&smte;" "⪬" 6 3; mkEntity "&smtes;" "⪬︀" 7 6;
   mkEntity "&late;" "⪭" 6 3; mkEntity "&lates;" "⪭︀" 7 6; mkEntity "&bumpE;" "⪮" 7 3;
   mkEntity "&preceq;" "⪯" 8 3; mkEntity "&NotPrecedesEqual;" "⪯̸" 18 5;
   mkEntity "&SucceedsEqual;" "⪰" 15 3; mkEntity "&NotSucceedsEqual;" "⪰̸" 18 5;
   mkEntity "&prE;" "⪳" 5 3; mkEntity "&scE;" "⪴" 5 3; mkEntity "&precneqq;" "⪵" 10 3;
   mkEntity "&scnE;" "⪶" 6 3; mkEntity "&precapprox;" "⪷" 12 3;
   mkEntity "&succapprox;" "⪸" 12 3; mkEntity "&precnapprox;" "⪹" 13 3;
   mkEntity "&succnapprox;" "⪺" 13 3; mkEntity "&Pr;" "⪻" 4 3; mkEntity "&Sc;" "⪼" 4 3;
   mkEntity "&subdot;" "⪽" 8 3; mkEntity "&supdot;" "⪾" 8 3; mkEntity "&subplus;" "⪿" 9 3;
   mkEntity "&supplus;" "⫀" 9 3; mkEntity "&submult;" "⫁" 9 3; mkEntity "&supmult;" "⫂" 9 3;
   mkEntity "&subedot;" "⫃" 9 3; mkEntity "&supedot;" "⫄" 9 3; mkEntity "&subE;" "⫅" 6 3;
   mkEntity "&nsubE;" "⫅̸" 7 5; mkEntity "&supseteqq;" "⫆" 11 3;
   mkEntity "&nsupseteqq;" "⫆̸" 12 5; mkEntity "&subsim;" "⫇" 8 3; mkEntity "&supsim;" "⫈" 8 3;
   mkEntity "&subsetneqq;" "⫋" 12 3; mkEntity "&vsubnE;" "⫋︀" 8 6; mkEntity "&supnE;" "⫌" 7 3;
   mkEntity "&varsupsetneqq;" "⫌︀" 15 6; mkEntity "&csub;" "⫏" 6 3; mkEntity "&csup;" "⫐" 6 3;
   mkEntity "&csube;" "⫑" 7 3; mkEntity "&csupe;" "⫒" 7 3; mkEntity "&subsup;" "⫓" 8 3;
   mkEntity "&supsub;" "⫔" 8 3].

Definition html_entities_9 : list html_entity :=
  [
   mkEntity "&subsub;" "⫕" 8 3; mkEntity "&supsup;" "⫖" 8 3; mkEntity "&suphsub;" "⫗" 9 3;
   mkEntity "&supdsub;" "⫘" 9 3; mkEntity "&forkv;" "⫙" 7 3; mkEntity "&topfork;" "⫚" 9 3;
   mkEntity "&mlcp;" "⫛" 6 3; mkEntity "&Dashv;" "⫤" 7 3; mkEntity "&Vdashl;" "⫦" 8 3;
   mkEntity "&Barv;" "⫧" 6 3; mkEntity "&vBar;" "⫨" 6 3; mkEntity "&vBarv;" "⫩" 7 3;
   mkEntity "&Vbar;" "⫫" 6 3; mkEntity "&Not;" "⫬" 5 3; mkEntity "&bNot;" "⫭" 6 3;
   mkEntity "&rnmid;" "⫮" 7 3; mkEntity "&cirmid;" "⫯" 8 3; mkEntity "&midcir;" "⫰" 8 3;
   mkEntity "&topcir;" "⫱" 8 3; mkEntity "&nhpar;" "⫲" 7 3; mkEntity "&parsim;" "⫳" 8 3;
   mkEntity "&parsl;" "⫽" 7 3; mkEntity "&nparsl;" "⫽⃥" 8 6; mkEntity "&fflig;" "ﬀ" 7 3;
   mkEntity "&filig;" "ﬁ" 7 3; mkEntity "&fllig;" "ﬂ" 7 3; mkEntity "&ffilig;" "ﬃ" 8 3;
   mkEntity "&ffllig;" "ﬄ" 8 3; mkEntity "&Ascr;" "𝒜" 6 4; mkEntity "&Cscr;" "𝒞" 6 4;
   mkEntity "&Dscr;" "𝒟" 6 4; mkEntity "&Gscr;" "𝒢" 6 4; mkEntity "&Jscr;" "𝒥" 6 4;
   mkEntity "&Kscr;" "𝒦" 6 4; mkEntity "&Nscr;" "𝒩" 6 4; mkEntity "&Oscr;" "𝒪" 6 4;
   mkEntity "&Pscr;" "𝒫" 6 4; mkEntity "&Qscr;" "𝒬" 6 4; mkEntity "&Sscr;" "𝒮" 6 4;
   mkEntity "&Tscr;" "𝒯" 6 4; mkEntity "&Uscr;" "𝒰" 6 4; mkEntity "&Vscr;" "𝒱" 6 4;
   mkEntity "&Wscr;" "𝒲" 6 4; mkEntity "&Xscr;" "𝒳" 6 4; mkEntity "&Yscr;" "𝒴" 6 4;
   mkEntity "&Zscr;" "𝒵" 6 4; mkEntity "&ascr;" "𝒶" 6 4; mkEntity "&bscr;" "𝒷" 6 4;
   mkEntity "&cscr;" "𝒸" 6 4; mkEntity "&dscr;" "𝒹" 6 4; mkEntity "&fscr;" "𝒻" 6 4;
   mkEntity "&hscr;" "𝒽" 6 4; mkEntity "&iscr;" "𝒾" 6 4; mkEntity "&jscr;" "𝒿" 6 4;
   mkEntity "&kscr;" "𝓀" 6 4; mkEntity "&lscr;" "𝓁" 6 4; mkEntity "&mscr;" "𝓂" 6 4;
   mkEntity "&nscr;" "𝓃" 6 4; mkEntity "&pscr;" "𝓅" 6 4; mkEntity "&qscr;" "𝓆" 6 4;
   mkEntity "&rscr;" "𝓇" 6 4; mkEntity "&sscr;" "𝓈" 6 4; mkEntity "&tscr;" "𝓉" 6 4;
   mkEntity "&uscr;" "𝓊" 6 4; mkEntity "&vscr;" "𝓋" 6 4; mkEntity "&wscr;" "𝓌" 6 4;
   mkEntity "&xscr;" "𝓍" 6 4; mkEntity "&yscr;" "𝓎" 6 4; mkEntity "&zscr;" "𝓏" 6 4;
   mkEntity "&Afr;" "𝔄" 5 4; mkEntity "&Bfr;" "𝔅" 5 4; mkEntity "&Dfr;" "𝔇" 5 4;
   mkEntity "&Efr;" "𝔈" 5 4; mkEntity "&Ffr;" "𝔉" 5 4; mkEntity "&Gfr;" "𝔊" 5 4;
   mkEntity "&Jfr;" "𝔍" 5 4; mkEntity "&Kfr;" "𝔎" 5 4; mkEntity "&Lfr;" "𝔏" 5 4;
   mkEntity "&Mfr;" "𝔐" 5 4; mkEntity "&Nfr;" "𝔑" 5 4; mkEntity "&Ofr;" "𝔒" 5 4;
   mkEntity "&Pfr;" "𝔓" 5 4; mkEntity "&Qfr;" "𝔔" 5 4; mkEntity "&Sfr;" "𝔖" 5 4;
   mkEntity "&Tfr;" "𝔗" 5 4; mkEntity "&Ufr;" "𝔘" 5 4; mkEntity "&Vfr;" "𝔙" 5 4;
   mkEntity "&Wfr;" "𝔚" 5 4; mkEntity "&Xfr;" "𝔛" 5 4; mkEntity "&Yfr;" "𝔜" 5 4;
   mkEntity "&afr;" "𝔞" 5 4; mkEntity "&bfr;" "𝔟" 5 4; mkEntity "&cfr;" "𝔠" 5 4;
   mkEntity "&dfr;" "𝔡" 5 4; mkEntity "&efr;" "𝔢" 5 4; mkEntity "&ffr;" "𝔣" 5 4;
   mkEntity "&gfr;" "𝔤" 5 4; mkEntity "&hfr;" "𝔥" 5 4; mkEntity "&ifr;" "𝔦" 5 4;
   mkEntity "&jfr;" "𝔧" 5 4; mkEntity "&kfr;" "𝔨" 5 4; mkEntity "&lfr;" "𝔩" 5 4;
   mkEntity "&mfr;" "𝔪" 5 4; mkEntity "&nfr;" "𝔫" 5 4; mkEntity "&ofr;" "𝔬" 5 4;
   mkEntity "&pfr;" "𝔭" 5 4; mkEntity "&qfr;" "𝔮" 5 4; mkEntity "&rfr;" "𝔯" 5 4;
   mkEntity "&sfr;" "𝔰" 5 4; mkEntity "&tfr;" "𝔱" 5 4; mkEntity "&ufr;" "𝔲" 5 4;
   mkEntity "&vfr;" "𝔳" 5 4; mkEntity "&wfr;" "𝔴" 5 4; mkEntity "&xfr;" "𝔵" 5 4;
   mkEntity "&yfr;" "𝔶" 5 4; mkEntity "&zfr;" "𝔷" 5 4; mkEntity "&Aopf;" "𝔸" 6 4;
   mkEntity "&Bopf;" "𝔹" 6 4; mkEntity "&Dopf;" "𝔻" 6 4; mkEntity "&Eopf;" "𝔼" 6 4;
   mkEntity "&Fopf;" "𝔽" 6 4; mkEntity "&Gopf;" "𝔾" 6 4; mkEntity "&Iopf;" "𝕀" 6 4;
   mkEntity "&Jopf;" "𝕁" 6 4; mkEntity "&Kopf;" "𝕂" 6 4; mkEntity "&Lopf;" "𝕃" 6 4;
   mkEntity "&Mopf;" "𝕄" 6 4; mkEntity "&Oopf;" "𝕆" 6 4; mkEntity "&Sopf;" "𝕊" 6 4;
   mkEntity "&Topf;" "𝕋" 6 4; mkEntity "&Uopf;" "𝕌" 6 4; mkEntity "&Vopf;" "𝕍" 6 4;
   mkEntity "&Wopf;" "𝕎" 6 4; mkEntity "&Xopf;" "𝕏" 6 4; mkEntity "&Yopf;" "𝕐" 6 4;
   mkEntity "&aopf;" "𝕒" 6 4; mkEntity "&bopf;" "𝕓" 6 4; mkEntity "&copf;" "𝕔" 6 4;
   mkEntity "&dopf;" "𝕕" 6 4; mkEntity "&eopf;" "𝕖" 6 4; mkEntity "&fopf;" "𝕗" 6 4;
   mkEntity "&gopf;" "𝕘" 6 4; mkEntity "&hopf;" "𝕙" 6 4; mkEntity "&iopf;" "𝕚" 6 4;
   mkEntity "&jopf;" "𝕛" 6 4; mkEntity "&kopf;" "𝕜" 6 4; mkEntity "&lopf;" "𝕝" 6 4;
   mkEntity "&mopf;" "𝕞" 6 4; mkEntity "&nopf;" "𝕟" 6 4; mkEntity "&oopf;" "𝕠" 6 4].

Definition html_entities_10 : list html_entity :=
  [
   mkEntity "&popf;" "𝕡" 6 4; mkEntity "&qopf;" "𝕢" 6 4; mkEntity "&ropf;" "𝕣" 6 4;
   mkEntity "&sopf;" "𝕤" 6 4; mkEntity "&topf;" "𝕥" 6 4; mkEntity "&uopf;" "𝕦" 6 4;
   mkEntity "&vopf;" "𝕧" 6 4; mkEntity "&wopf;" "𝕨" 6 4; mkEntity "&xopf;" "𝕩" 6 4;
   mkEntity "&yopf;" "𝕪" 6 4; mkEntity "&zopf;" "𝕫" 6 4].

Definition BXHTMLEntities : list html_entity :=
  html_entities_0 ++ html_entities_1 ++ html_entities_2 ++ html_entities_3 ++ html_entities_4
  ++ html_entities_5 ++ html_entities_6 ++ html_entities_7 ++ html_entities_8 ++ html_entities_9 ++ html_entities_10.
