(* ===== verification/Values.v ===== *)
(** * Values ([src/src/bx_object_value.c], [src/src/include/bx_object_value.h])

    The tagged values of the objects: the first byte of a [BXGeneric] is the
    constructor.  [isset] distinguishes an absent field from a zero one.  A
    [BXString] is its [value_len] bytes ([None] is a [NULL] pointer).
    [mem] tells whether the allocation of a result succeeds. *)
From S2P Require Import Prelude CLib Env Samples.

Record BXInteger := mkInteger { int_isset : bool; int_value : Z }.
Record BXUInteger := mkUInteger { uint_isset : bool; uint_value : Z }.
Record BXFloat `{CDouble} := mkFloat { float_isset : bool; float_value : double }.
#[global] Arguments mkFloat {_} _ _.
Record BXString := mkString { str_isset : bool; str_value : option string }.
Record BXBool := mkBool { bool_isset : bool; bool_value : bool }.
Record BXBytes := mkBytes { bytes_isset : bool; bytes_value : option string }.
Record BXUuid := mkUuid { uuid_isset : bool; uuid_hi : Z; uuid_lo : Z }.
Record BXIntID := mkIntID { intid_isset : bool; intid_value : list Z }.

Inductive BXAny `{CDouble} :=
| VInteger (v : BXInteger)
| VUInteger (v : BXUInteger)
| VFloat (v : BXFloat)
| VString (v : BXString)
| VBool (v : BXBool)
| VBytes (v : BXBytes)
| VUuid (v : BXUuid)
| VIntID (v : BXIntID).

(** The bytes of a string or bytes value. *)
Definition bytes_of (p : option string) : string := default EmptyString p.

(** The C string that starts a buffer. *)
Fixpoint cstr (s : string) : string :=
  match s with
  | EmptyString => EmptyString
  | String c s => if Ascii.eqb c "000" then EmptyString else String c (cstr s)
  end.

(** [strcmp], up to the sign of its result. *)
Fixpoint strcmp (a b : string) : Z :=
  match a, b with
  | EmptyString, EmptyString => 0
  | EmptyString, String _ _ => -1
  | String _ _, EmptyString => 1
  | String x a, String y b =>
      if code x <? code y then -1 else if code y <? code x then 1 else strcmp a b
  end.

Definition cmp_Z (a b : Z) : Z := if a <? b then -1 else if b <? a then 1 else 0.

Definition hex_digit (d : Z) : ascii := if d <? 10 then chr (48 + d) else chr (87 + d).

(** ["%2x"] of a byte: padded with a space. *)
Definition print_2x (c : ascii) : string :=
  String (if code c <? 16 then " "%char else hex_digit (code c / 16))
    (String (hex_digit (code c mod 16)) EmptyString).

Fixpoint hex_bytes (s : string) : string :=
  match s with
  | EmptyString => EmptyString
  | String c s => String.append (print_2x c) (hex_bytes s)
  end.

Section Values.
Context `{CDouble}.

Definition alloc (mem : bool) (s : string) : option string :=
  if mem then Some s else None.

Definition _bx_uint2str (mem : bool) (v : BXUInteger) : option string :=
  alloc mem (if uint_isset v then dec (uint_value v) else "0").
Definition _bx_int2str (mem : bool) (v : BXInteger) : option string :=
  alloc mem (if int_isset v then dec (int_value v) else "0").
Definition _bx_str2str (mem : bool) (v : BXString) : option string :=
  alloc mem (if str_isset v then bytes_of (str_value v) else "").
Definition _bx_bytes2str (mem : bool) (v : BXBytes) : option string :=
  alloc mem (if bytes_isset v then hex_bytes (bytes_of (bytes_value v)) else "").
Definition _bx_bool2str (mem : bool) (v : BXBool) : option string :=
  alloc mem (if bool_isset v then (if bool_value v then "true" else "false") else "").

Definition bx_object_value_to_string (mem : bool) (v : BXAny) : option string :=
  match v with
  | VUInteger v => _bx_uint2str mem v
  | VInteger v => _bx_int2str mem v
  | VFloat _ => None
  | VString v => _bx_str2str mem v
  | VBool v => _bx_bool2str mem v
  | VBytes v => _bx_bytes2str mem v
  | VUuid _ | VIntID _ => None
  end.

Definition bx_any_to_str (mem : bool) (a : option BXAny) : option string :=
  match a with
  | None => None
  | Some (VIntID _) => None
  | Some a => bx_object_value_to_string mem a
  end.

Definition bx_any_to_generic (a : option BXAny) : option BXAny :=
  match a with
  | None => None
  | Some (VIntID _) => None
  | Some a => Some a
  end.

Definition bx_object_value_to_index `{XXH3} (v : BXAny) : Z :=
  match v with
  | VInteger v => if int_isset v then u64 (int_value v) else 0
  | VUInteger v => if uint_isset v then uint_value v else 0
  | VBool v => if bool_isset v then Z.b2z (bool_value v) else 0
  | VFloat v => if float_isset v then XXH3_64bits (double_bytes (float_value v)) else 0
  | VString v => if str_isset v then XXH3_64bits (bytes_of (str_value v)) else 0
  | VBytes v => if bytes_isset v then XXH3_64bits (bytes_of (bytes_value v)) else 0
  | VUuid v => if uuid_isset v
               then XXH3_64bits (String.append (le_bytes 8 (uuid_hi v)) (le_bytes 8 (uuid_lo v)))
               else 0
  | VIntID _ => 0
  end.

Definition cmp_double (a b : double) : Z :=
  if double_lt a b then -1 else if double_lt b a then 1 else 0.

(** [strncmp] and the byte loop on two buffers of the same length. *)
Definition cmp_str (a b : string) : Z :=
  if strlen a =? strlen b then strcmp (cstr a) (cstr b) else cmp_Z (strlen a) (strlen b).
Definition cmp_bytes (a b : string) : Z :=
  if strlen a =? strlen b then strcmp a b else cmp_Z (strlen a) (strlen b).

Definition bx_object_value_compare (mem : bool) (a b : BXAny) : Z :=
  match a, b with
  | VBool a, VBool b => cmp_Z (Z.b2z (bool_value a)) (Z.b2z (bool_value b))
  | VInteger a, VInteger b => cmp_Z (int_value a) (int_value b)
  | VUInteger a, VUInteger b => cmp_Z (uint_value a) (uint_value b)
  | VFloat a, VFloat b => cmp_double (float_value a) (float_value b)
  | VUuid a, VUuid b =>
      if uuid_hi a =? uuid_hi b then cmp_Z (uuid_lo a) (uuid_lo b)
      else cmp_Z (uuid_hi a) (uuid_hi b)
  | VString a, VString b => cmp_str (bytes_of (str_value a)) (bytes_of (str_value b))
  | VBytes a, VBytes b => cmp_bytes (bytes_of (bytes_value a)) (bytes_of (bytes_value b))
  | VIntID _, VIntID _ => 0
  | _, _ =>
      match bx_any_to_str mem (Some a), bx_object_value_to_string mem b with
      | Some sa, Some sb => strcmp (cstr sa) (cstr sb)
      | _, _ => 0
      end
  end.

(** The copy made in [dest], when the call returns [true]. *)
Definition bx_object_value_copy (mem : bool) (src : BXAny) : option BXAny :=
  match src with
  | VBytes v => if mem then Some (VBytes (mkBytes (bytes_isset v) (Some (bytes_of (bytes_value v)))))
                else None
  | VString v => if mem then Some (VString (mkString (str_isset v) (Some (bytes_of (str_value v)))))
                 else None
  | VIntID _ => None
  | _ => Some src
  end.
End Values.

(** ** Properties *)

Lemma strcmp_antisym a b : strcmp a b = - strcmp b a.
Proof.
  revert b. induction a as [|x a IH]; intros [|y b]; [done..|]. cbn [strcmp].
  rewrite IH. destruct (Z.ltb_spec (code x) (code y)), (Z.ltb_spec (code y) (code x)); lia.
Qed.

Lemma code_inj x y : code x = code y -> x = y.
Proof.
  unfold code. intros E%N2Z.inj.
  by rewrite <- (ascii_N_embedding x), E, ascii_N_embedding.
Qed.

Lemma strcmp_eq a b : strcmp a b = 0 <-> a = b.
Proof.
  revert b. induction a as [|x a IH]; intros [|y b]; [done..|]. cbn [strcmp].
  destruct (Z.ltb_spec (code x) (code y)), (Z.ltb_spec (code y) (code x)).
  1-3: split; [done|]; intros [= -> ->]; lia.
  assert (x = y) as -> by (apply code_inj; lia). rewrite IH. split; [by intros ->|by intros [= ->]].
Qed.

Lemma cmp_Z_antisym a b : cmp_Z a b = - cmp_Z b a.
Proof. unfold cmp_Z. destruct (Z.ltb_spec a b), (Z.ltb_spec b a); lia. Qed.
Lemma cmp_Z_eq a b : cmp_Z a b = 0 <-> a = b.
Proof. unfold cmp_Z. destruct (Z.ltb_spec a b), (Z.ltb_spec b a); lia. Qed.

Section Compare.
Context `{CDouble}.
Hypothesis double_lt_asym : forall a b, double_lt a b = true -> double_lt b a = false.

Lemma cmp_double_antisym a b : cmp_double a b = - cmp_double b a.
Proof.
  unfold cmp_double. destruct (double_lt a b) eqn:E; [by rewrite (double_lt_asym _ _ E)|].
  by destruct (double_lt b a).
Qed.

Lemma cmp_str_antisym a b : cmp_str a b = - cmp_str b a.
Proof.
  unfold cmp_str. rewrite (Z.eqb_sym (strlen b)).
  destruct (_ =? _); [apply strcmp_antisym | apply cmp_Z_antisym].
Qed.

Lemma cmp_bytes_antisym a b : cmp_bytes a b = - cmp_bytes b a.
Proof.
  unfold cmp_bytes. rewrite (Z.eqb_sym (strlen b)).
  destruct (_ =? _); [apply strcmp_antisym | apply cmp_Z_antisym].
Qed.

Lemma cmp_strings_antisym mem (a b : BXAny) :
  match bx_any_to_str mem (Some a), bx_object_value_to_string mem b with
  | Some sa, Some sb => strcmp (cstr sa) (cstr sb)
  | _, _ => 0
  end
  = - match bx_any_to_str mem (Some b), bx_object_value_to_string mem a with
      | Some sb, Some sa => strcmp (cstr sb) (cstr sa)
      | _, _ => 0
      end.
Proof.
  assert (forall x, bx_any_to_str mem (Some x) = bx_object_value_to_string mem x) as E
    by by intros [].
  rewrite !E. destruct (bx_object_value_to_string mem a), (bx_object_value_to_string mem b);
    [apply strcmp_antisym | done..].
Qed.

(** [bx_object_value_compare] is antisymmetric on all values, of one type or
    of two. *)
Theorem value_compare_antisym mem a b :
  bx_object_value_compare mem a b = - bx_object_value_compare mem b a.
Proof.
  destruct a, b; cbn [bx_object_value_compare];
    try apply cmp_strings_antisym; try apply cmp_Z_antisym;
    try apply cmp_double_antisym; try apply cmp_str_antisym; try apply cmp_bytes_antisym;
    [|done].
  rewrite (Z.eqb_sym (uuid_hi v0)). destruct (_ =? _); apply cmp_Z_antisym.
Qed.
End Compare.

Lemma value_compare_antisym_witness :
  bx_object_value_compare true (VInteger (mkInteger true 12)) (VString (mkString true (Some "9")))
  = - bx_object_value_compare true (VString (mkString true (Some "9"))) (VInteger (mkInteger true 12)).
Proof.
  apply value_compare_antisym. intros a b Hab. apply Z.ltb_lt in Hab. apply Z.ltb_ge. lia.
Defined.
