(* ===== verification/HtmlEntities.v ===== *)
(** * Replacing HTML entities in place ([src/src/include/bx_html_entities.h])

    [bx_html_entities_replaces] reads at [i] and writes at [j] in the buffer of a
    [BXString].  It is the reference substitution when no entity grows; two rows
    of the table grow, and on them it overwrites bytes it has not read. *)
From S2P Require Import Prelude CLib Values HtmlTable.

Definition NUL : ascii := chr 0.

(** [strncmp(e, &buf[i], n) == 0] *)
Fixpoint strncmp_at (e buf : list ascii) (i : Z) (n : nat) : option bool :=
  match n with
  | O => Some true
  | S n =>
      match aload buf i with
      | None => None
      | Some x =>
          match e with
          | [] => Some (Ascii.eqb x NUL)
          | c :: e =>
              if Ascii.eqb c x then
                if Ascii.eqb c NUL then Some true else strncmp_at e buf (i + 1) n
              else Some false
          end
      end
  end.

(** The first row that matches at [i]. *)
Fixpoint find_entity (table : list html_entity) (buf : list ascii) (i : Z)
    : outcome (option html_entity) :=
  match table with
  | [] => Done None
  | h :: table =>
      match strncmp_at (list_of (he_entity h)) buf i (Z.to_nat (he_elen h)) with
      | None => Fault
      | Some true => Done (Some h)
      | Some false => find_entity table buf i
      end
  end.

(** [memset] to zero, then [memcpy] of the replacement. *)
Definition write_entity (h : html_entity) (buf : list ascii) (j : Z) : option (list ascii) :=
  match afill buf j (he_elen h) NUL with
  | None => None
  | Some buf => acopy buf j (take (Z.to_nat (he_ulen h)) (list_of (he_utf8 h) ++ [NUL]))
  end.

(** The [while] loop: the buffer and [j] at its end. *)
Fixpoint replaces_loop (fuel : nat) (table : list html_entity) (buf : list ascii)
    (len i j : Z) : outcome (list ascii * Z) :=
  match fuel with
  | O => OutOfFuel
  | S fuel =>
      if negb (i <? len) then Done (buf, j)
      else
        match aload buf i with
        | None => Fault
        | Some c =>
            if Ascii.eqb c NUL then Done (buf, j)
            else
              let keep := match astore buf j c with
                          | None => Fault
                          | Some buf => replaces_loop fuel table buf len (i + 1) (j + 1)
                          end in
              if negb (Ascii.eqb c "&") then keep
              else
                match find_entity table buf i with
                | Done None => keep
                | Done (Some h) =>
                    match write_entity h buf j with
                    | None => Fault
                    | Some buf =>
                        replaces_loop fuel table buf len (i + he_elen h) (j + he_ulen h)
                    end
                | Fault => Fault
                | OutOfFuel => OutOfFuel
                end
        end
  end.

(** The buffer and [value_len] afterwards; the last [memset] has a [size_t]
    length.  [buf] is the whole allocation of the string. *)
Definition replaces (table : list html_entity) (buf : list ascii) (len : Z)
    : outcome (list ascii * Z) :=
  if len =? 0 then Done (buf, len)
  else
    match replaces_loop (S (Z.to_nat len)) table buf len 0 0 with
    | Done (buf, j) =>
        match afill buf j (u64 (len - j)) NUL with
        | None => Fault
        | Some buf => Done (buf, j)
        end
    | Fault => Fault
    | OutOfFuel => OutOfFuel
    end.

(** On a [BXString] whose buffer has one byte more than [value_len], as the
    objects allocate it. *)
Definition bx_html_entities_replaces (str : BXString) : outcome BXString :=
  match str_value str with
  | None => Done str
  | Some s =>
      match replaces BXHTMLEntities (list_of s ++ [NUL]) (strlen s) with
      | Done (buf, j) => Done (mkString (str_isset str) (Some (string_of (take (Z.to_nat j) buf))))
      | Fault => Fault
      | OutOfFuel => OutOfFuel
      end
  end.

Example replaces_ex :
  bx_html_entities_replaces (mkString true (Some "a &lt; b &amp;amp; &x &bne;"))
  = Done (mkString true (Some "a < b &amp; &x =⃥")).
Proof. by vm_compute. Qed.

(** ** Reference *)

Fixpoint bprefix (e l : list ascii) : bool :=
  match e, l with
  | [], _ => true
  | c :: e, x :: l => Ascii.eqb c x && bprefix e l
  | _ :: _, [] => false
  end.

Fixpoint first_match (table : list html_entity) (l : list ascii) : option html_entity :=
  match table with
  | [] => None
  | h :: table => if bprefix (list_of (he_entity h)) l then Some h else first_match table l
  end.

(** The substitution, from left to right; [skip] bytes belong to an entity. *)
Fixpoint substitute (table : list html_entity) (skip : nat) (l : list ascii) : list ascii :=
  match l with
  | [] => []
  | c :: r =>
      match skip with
      | S skip => substitute table skip r
      | O =>
          if Ascii.eqb c "&" then
            match first_match table l with
            | Some h => list_of (he_utf8 h) ++ substitute table (Nat.pred (Z.to_nat (he_elen h))) r
            | None => c :: substitute table 0 r
            end
          else c :: substitute table 0 r
      end
  end.

(** The rows are what their lengths say, start with [&] and hold no [NUL]. *)
Definition row_ok (h : html_entity) : bool :=
  (he_elen h =? strlen (he_entity h)) && (he_ulen h =? strlen (he_utf8 h))
  && (0 <? he_elen h)
  && forallb (fun c => negb (Ascii.eqb c NUL)) (list_of (he_entity h)).
Definition row_shrinks (h : html_entity) : bool := he_ulen h <=? he_elen h.

Lemma table_ok : forallb row_ok BXHTMLEntities = true.
Proof. by vm_compute. Qed.

(** The rows that grow. *)
Lemma table_growing :
  filter (fun h => row_shrinks h = false) BXHTMLEntities
  = [mkEntity "&nLt;" "≪⃒" 5 6; mkEntity "&nGt;" "≫⃒" 5 6].
Proof. by vm_compute. Qed.

(** A string made of one of them makes the last [memset] run off the buffer. *)
Theorem growing_entity_overruns :
  bx_html_entities_replaces (mkString true (Some "&nLt;")) = Fault
  /\ bx_html_entities_replaces (mkString true (Some "&nGt;")) = Fault
  /\ bx_html_entities_replaces (mkString true (Some "x&nLt;yz"))
     <> Done (mkString true (Some (string_of (substitute BXHTMLEntities 0 (list_of "x&nLt;yz"))))).
Proof. by vm_compute. Qed.

(** ** In place is the substitution *)

Definition no_nul (l : list ascii) : Prop := Forall (fun c => c <> NUL) l.

Lemma strncmp_at_eq e pre l :
  no_nul e -> strncmp_at e (pre ++ l ++ [NUL]) (Z.of_nat (length pre)) (length e)
              = Some (bprefix e l).
Proof.
  intros He. revert pre l. induction He as [|c e Hc He IH]; intros pre l; [done|].
  cbn [length strncmp_at bprefix]. destruct l as [|x l].
  - cbn [app]. rewrite aload_middle. by destruct (Ascii.eqb_spec c NUL).
  - cbn [app]. rewrite aload_middle. destruct (Ascii.eqb_spec c x) as [<-|]; [|done].
    destruct (Ascii.eqb_spec c NUL); [done|].
    specialize (IH (pre ++ [c]) l). rewrite <- app_assoc, length_app in IH. cbn in IH.
    cbn [andb]. etrans; [|exact IH]. f_equal. lia.
Qed.

Lemma row_ok_spec h :
  row_ok h = true ->
  he_elen h = Z.of_nat (length (list_of (he_entity h)))
  /\ he_ulen h = Z.of_nat (length (list_of (he_utf8 h)))
  /\ 0 < he_elen h /\ no_nul (list_of (he_entity h)).
Proof.
  unfold row_ok. rewrite !andb_true_iff, Z.ltb_lt, !Z.eqb_eq, !strlen_list_of.
  intros [[[H1 H2] H3] H4]. split_and!; [done..|].
  apply Forall_forall. intros c Hc. rewrite forallb_forall in H4.
  specialize (H4 c (proj1 (list_elem_of_In _ _) Hc)). by destruct (Ascii.eqb_spec c NUL).
Qed.

Lemma find_entity_eq table pre l :
  forallb row_ok table = true ->
  find_entity table (pre ++ l ++ [NUL]) (Z.of_nat (length pre)) = Done (first_match table l).
Proof.
  induction table as [|h table IH]; [done|]. cbn [forallb find_entity first_match].
  intros [Hh Ht]%andb_true_iff. destruct (row_ok_spec h Hh) as (He & _ & _ & Hn).
  rewrite He, Nat2Z.id, strncmp_at_eq by done.
  destruct (bprefix _ l); [done | by apply IH].
Qed.

Lemma bprefix_app e l : bprefix e l = true -> exists r, l = e ++ r.
Proof.
  revert l. induction e as [|c e IH]; intros l; [by exists l|].
  destruct l as [|x l]; [done|]. cbn. intros [->%Ascii.eqb_eq [r ->]%IH]%andb_true_iff. by exists r.
Qed.

Lemma first_match_spec table l h :
  forallb row_ok table = true -> first_match table l = Some h ->
  h ∈ table /\ row_ok h = true /\ exists r, l = list_of (he_entity h) ++ r.
Proof.
  induction table as [|h' table IH]; [done|]. cbn. intros [Hh Ht]%andb_true_iff.
  destruct (bprefix _ l) eqn:E.
  - intros [= <-]. split_and!; [left|done|by apply bprefix_app].
  - intros Hf. destruct (IH Ht Hf) as (? & ? & ?). split_and!; [by right|done..].
Qed.

Lemma substitute_skip table a b :
  substitute table (length a) (a ++ b) = substitute table 0 b.
Proof. induction a as [|x a IH]; [done|]. cbn. apply IH. Qed.

(** No row that grows matches anywhere in the text. *)
Definition shrinks_on (table : list html_entity) (l : list ascii) : Prop :=
  forall l1 l2 h, l = l1 ++ l2 -> first_match table l2 = Some h -> row_shrinks h = true.

Lemma shrinks_on_app table l1 l2 : shrinks_on table (l1 ++ l2) -> shrinks_on table l2.
Proof. intros Hs a b h ->. apply (Hs (l1 ++ a)). by rewrite app_assoc. Qed.

Lemma write_entity_eq h out junk r :
  row_ok h = true -> row_shrinks h = true ->
  let m := list_of (he_entity h) in let u := list_of (he_utf8 h) in
  exists junk',
    write_entity h (out ++ junk ++ m ++ r) (Z.of_nat (length out)) = Some (out ++ u ++ junk' ++ r)
    /\ (length u + length junk' = length junk + length m)%nat.
Proof.
  intros Hok Hsh m u. destruct (row_ok_spec h Hok) as (He & Hu & _ & _).
  unfold row_shrinks in Hsh. apply Z.leb_le in Hsh. fold m in He. fold u in Hu.
  set (a := take (length m) (junk ++ m)). set (b := drop (length m) (junk ++ m)).
  assert (length a = length m) as Ha by (unfold a; rewrite length_take, length_app; lia).
  assert (length b = length junk) as Hb by (unfold b; rewrite length_drop, length_app; lia).
  exists (replicate (length m - length u) NUL ++ b). unfold write_entity.
  rewrite (app_assoc junk), <- (take_drop (length m) (junk ++ m)). fold a b.
  rewrite <- (app_assoc a).
  rewrite (afill_middle out a (b ++ r)) by lia. rewrite Ha.
  replace (take _ _) with u.
  2: { rewrite take_app_le by (fold u; lia). rewrite take_ge; [done|]. fold u. lia. }
  replace (length m) with (length u + (length m - length u))%nat at 1 by lia.
  rewrite replicate_add, <- !app_assoc.
  rewrite (acopy_middle out (replicate (length u) NUL)) by (rewrite ?length_replicate; lia).
  split; [done|]. rewrite length_app, length_replicate. lia.
Qed.

Lemma keep_eq (out junk : list ascii) c tail :
  exists junk' : list ascii,
    astore (out ++ junk ++ c :: tail) (Z.of_nat (length out)) c
    = Some ((out ++ [c]) ++ junk' ++ tail) /\ length junk' = length junk.
Proof.
  destruct junk as [|y junk]; cbn [app].
  - exists []. by rewrite astore_middle, <- app_assoc.
  - exists (junk ++ [c]). rewrite astore_middle, <- !app_assoc, length_app. cbn.
    split; [done|lia].
Qed.

(** What the loop computes from a state where [out] is written, [junk] is free
    and [rest] is to be read. *)
Definition loop_ok (table : list html_entity) (fuel : nat) (out junk rest : list ascii)
    : Prop :=
  forall len i j : Z,
    len = Z.of_nat (length out + length junk + length rest) ->
    i = Z.of_nat (length out + length junk) -> j = Z.of_nat (length out) ->
    exists junk',
      replaces_loop fuel table (out ++ junk ++ rest ++ [NUL]) len i j
      = Done (out ++ substitute table 0 rest ++ junk' ++ [NUL],
              j + Z.of_nat (length (substitute table 0 rest)))
      /\ (length (substitute table 0 rest) + length junk' = length junk + length rest)%nat.

(** Moving past an input [m] replaced by [u]. *)
Lemma loop_ok_step table fuel out (junk : list ascii) junk1 m u rest :
  loop_ok table fuel (out ++ u) junk1 rest ->
  (length u + length junk1 = length junk + length m)%nat ->
  substitute table 0 (m ++ rest) = u ++ substitute table 0 rest ->
  forall len i j : Z,
    len = Z.of_nat (length out + length junk + length (m ++ rest)) ->
    i = Z.of_nat (length out + length junk + length m) -> j = Z.of_nat (length out + length u) ->
    exists junk',
      replaces_loop fuel table ((out ++ u) ++ junk1 ++ rest ++ [NUL]) len i j
      = Done (out ++ substitute table 0 (m ++ rest) ++ junk' ++ [NUL],
              Z.of_nat (length out) + Z.of_nat (length (substitute table 0 (m ++ rest))))
      /\ (length (substitute table 0 (m ++ rest)) + length junk'
          = length junk + length (m ++ rest))%nat.
Proof.
  intros Hok Hl Hsub len i j -> -> ->. rewrite length_app.
  edestruct Hok as (junk' & E & Hl'); [..|exists junk'; rewrite Hsub, !length_app; split; [|lia]].
  4: { etrans; [exact E|]. rewrite <- !app_assoc. do 2 f_equal. lia. }
  all: rewrite length_app; lia.
Qed.

Lemma replaces_loop_ok table fuel out junk rest :
  forallb row_ok table = true -> no_nul rest -> shrinks_on table rest ->
  (length rest < fuel)%nat -> loop_ok table fuel out junk rest.
Proof.
  intros Ht. revert out junk rest.
  induction fuel as [|fuel IH]; intros out junk rest Hn Hs Hf len i j -> -> ->; [lia|].
  cbn [replaces_loop]. destruct rest as [|c rest].
  { rewrite (proj2 (Z.ltb_ge _ _)) by (cbn; lia). exists junk. cbn.
    rewrite Z.add_0_r. split; [done|lia]. }
  rewrite (proj2 (Z.ltb_lt _ _)) by (cbn [length]; lia). cbn [negb].
  assert (aload (out ++ junk ++ (c :: rest) ++ [NUL]) (Z.of_nat (length out + length junk))
          = Some c) as ->.
  { rewrite <- length_app, (app_assoc out). apply aload_middle. }
  pose proof Hn as [Hc Hn']%Forall_cons. destruct (Ascii.eqb_spec c NUL); [done|].
  destruct (keep_eq out junk c (rest ++ [NUL])) as (junk1 & Hst & Hl1).
  assert (substitute table 0 (c :: rest) = [c] ++ substitute table 0 rest -> exists junk',
    match astore (out ++ junk ++ (c :: rest) ++ [NUL]) (Z.of_nat (length out)) c with
    | Some buf => replaces_loop fuel table buf (Z.of_nat (length out + length junk + length (c :: rest)))
        (Z.of_nat (length out + length junk) + 1) (Z.of_nat (length out) + 1)
    | None => Fault
    end = Done (out ++ substitute table 0 (c :: rest) ++ junk' ++ [NUL],
            Z.of_nat (length out) + Z.of_nat (length (substitute table 0 (c :: rest))))
    /\ (length (substitute table 0 (c :: rest)) + length junk'
        = length junk + length (c :: rest))%nat) as Hkeep.
  { intros Hsub. change ((c :: rest) ++ [NUL]) with (c :: rest ++ [NUL]). rewrite Hst.
    apply (loop_ok_step _ _ _ _ _ [c] [c]); [|cbn; lia|done|cbn [length app]; lia..].
    apply IH; [done|by apply (shrinks_on_app _ [c])|cbn in Hf; lia]. }
  destruct (Ascii.eqb_spec c "&") as [->|Hne]; cbn [negb].
  2: { apply Hkeep. cbn [substitute]. by destruct (Ascii.eqb_spec c "&"). }
  rewrite <- (length_app out junk), (app_assoc out junk), find_entity_eq by done.
  destruct (first_match table ("&"%char :: rest)) as [h|] eqn:Em.
  2: { rewrite <- app_assoc, length_app. apply Hkeep. cbn [substitute]. by rewrite Em. }
  destruct (first_match_spec _ _ _ Ht Em) as (_ & Hok & r & Er).
  destruct (row_ok_spec h Hok) as (He & Hu & Hpos & _).
  set (m := list_of (he_entity h)) in *. set (u := list_of (he_utf8 h)) in *.
  destruct (write_entity_eq h out junk (r ++ [NUL]) Hok (Hs [] _ _ eq_refl Em)) as (junk2 & Hw & Hl2).
  fold m u in Hw, Hl2. rewrite <- app_assoc, length_app, Er, <- (app_assoc m), Hw.
  rewrite (app_assoc out u). apply loop_ok_step; [|done| |lia..].
  - apply IH.
    + rewrite Er in Hn. by apply Forall_app in Hn as [_ ?].
    + rewrite Er in Hs. by apply shrinks_on_app in Hs.
    + apply (f_equal length) in Er. rewrite length_app in Er. cbn in Er, Hf. lia.
  - rewrite <- Er. cbn [substitute]. change (Ascii.eqb "&" "&") with true. cbv iota.
    rewrite Em. fold u. f_equal. destruct m as [|x m']; [cbn in He; lia|].
    injection Er as _ ->. rewrite He, Nat2Z.id. cbn [length Nat.pred]. apply substitute_skip.
Qed.

Lemma prefix_of_app p r : prefix_of p (p +:+ r) = true.
Proof. induction p as [|c p IH]; [done|]. cbn. by rewrite Ascii.eqb_refl. Qed.

Lemma contains_infix p s l1 r : list_of s = l1 ++ list_of p ++ r -> contains p s = true.
Proof.
  revert s. induction l1 as [|c l1 IH]; intros s E.
  - assert (s = p +:+ string_of r) as ->
      by (apply list_of_inj; by rewrite list_of_app, list_of_string_of).
    generalize (prefix_of_app p (string_of r)). generalize (p +:+ string_of r).
    intros [|x t] Hp; cbn [contains]; by rewrite Hp.
  - destruct s as [|x s]; [done|]. injection E as _ E. cbn [contains].
    by rewrite (IH s E), orb_true_r.
Qed.

Lemma clean_shrinks s :
  contains "&nLt;" s = false -> contains "&nGt;" s = false ->
  shrinks_on BXHTMLEntities (list_of s).
Proof.
  intros Hl Hg l1 l2 h E Hm.
  destruct (first_match_spec _ _ _ table_ok Hm) as (Hin & _ & r & ->).
  destruct (row_shrinks h) eqn:Hs; [done|]. exfalso.
  assert (h ∈ filter (fun h => row_shrinks h = false) BXHTMLEntities) as Hf
    by by apply list_elem_of_filter.
  rewrite table_growing, !elem_of_cons in Hf.
  destruct Hf as [-> |[-> |Hf%elem_of_nil]]; [| |done]; apply contains_infix in E;
    cbn [he_entity] in E; congruence.
Qed.

(** Claim C39. Replacing entities in place is the left-to-right substitution of the table,
    on every text without the two entities that grow. *)
Theorem html_replaces_spec b s :
  strlen s <= INT_MAX ->
  no_nul (list_of s) -> contains "&nLt;" s = false -> contains "&nGt;" s = false ->
  bx_html_entities_replaces (mkString b (Some s))
  = Done (mkString b (Some (string_of (substitute BXHTMLEntities 0 (list_of s))))).
Proof.
  intros Hmax Hn Hl Hg. unfold bx_html_entities_replaces, replaces. cbn [str_value str_isset].
  unfold INT_MAX in Hmax. rewrite strlen_list_of in *. set (l := list_of s) in *.
  destruct (Z.eqb_spec (Z.of_nat (length l)) 0) as [E|_].
  { destruct l; [done|cbn in E; lia]. }
  rewrite Nat2Z.id.
  destruct (replaces_loop_ok BXHTMLEntities (S (length l)) [] [] l table_ok Hn) with
    (len := Z.of_nat (length l)) (i := 0) (j := 0) as (junk & E & Hlen);
    [by apply clean_shrinks|lia|cbn; lia|done|done|].
  cbn [app] in E. rewrite E. cbn beta iota.
  set (out := substitute BXHTMLEntities 0 l) in *. cbn [length] in Hlen.
  rewrite u64_small by (unfold is_u64; lia).
  rewrite (afill_middle out junk [NUL]) by lia.
  rewrite Z.add_0_l, Nat2Z.id, take_app_length. done.
Qed.

Lemma html_replaces_spec_witness :
  bx_html_entities_replaces (mkString true (Some "R&amp;D"))
  = Done (mkString true (Some (string_of (substitute BXHTMLEntities 0 (list_of "R&amp;D"))))).
Proof.
  apply html_replaces_spec.
  - vm_compute. discriminate.
  - repeat constructor; discriminate.
  - vm_compute. reflexivity.
  - vm_compute. reflexivity.
Defined.
