(* ===== verification/Objects.v ===== *)
(** * Reading objects ([src/src/bx_object.c], [src/src/include/bx_object.h])

    A field of a JSON object becomes a value and feeds the checksum of the
    object.  The hash state is an [option]: the callers may pass [NULL]. *)
From S2P Require Import Prelude CLib Env Samples Values HtmlTable HtmlEntities.

Section Objects.
Context `{Jansson} `{XXH3}.

Definition hash_state : Type := option XXH3_state_t.

Definition feed (state : hash_state) (bytes : string) : hash_state :=
  match state with Some st => Some (XXH3_64bits_update st bytes) | None => None end.

Definition is_json (t : json_type) (j : json_t) : bool := bool_decide (json_typeof j = t).

(** The field, unless it is absent or [null]. *)
Definition field (object : option json_t) (key : string) : option json_t :=
  match object_get object key with
  | Some value => if is_json JSON_NULL value then None else Some value
  | None => None
  end.

Definition bool_of (value : json_t) : bool :=
  if is_json JSON_STRING value then
    let s := json_string_value value in
    strcasecmp_eq "true" s || strcasecmp_eq "yes" s || strcasecmp_eq "on" s
  else if is_json JSON_TRUE value || is_json JSON_FALSE value then
    negb (is_json JSON_FALSE value)
  else if is_json JSON_INTEGER value then negb (json_integer_value value =? 0)
  else false.

Definition bx_object_get_json_bool (object : option json_t) (key : string)
    (state : hash_state) : BXBool * hash_state :=
  match field object key with
  | None => (mkBool false false, state)
  | Some value =>
      let b := bool_of value in
      (mkBool true b, feed state (String (chr (if b then 255 else 0)) EmptyString))
  end.

Definition strtoll (s : string) : Z := (strtol_range INT64_MIN INT64_MAX s).1.

Definition bx_object_get_json_int (object : option json_t) (key : string)
    (state : hash_state) : BXInteger * hash_state :=
  match field object key with
  | None => (mkInteger false 0, state)
  | Some value =>
      let i := if is_json JSON_STRING value then strtoll (json_string_value value)
               else if is_json JSON_INTEGER value then json_integer_value value
               else 0 in
      (mkInteger true i, feed state (le_bytes 8 (u64 i)))
  end.

Definition bx_object_get_json_uint (object : option json_t) (key : string)
    (state : hash_state) : BXUInteger * hash_state :=
  match field object key with
  | None => (mkUInteger false 0, state)
  | Some value =>
      let i := if is_json JSON_STRING value then u64 (strtoll (json_string_value value))
               else if is_json JSON_INTEGER value then u64 (json_integer_value value)
               else if is_json JSON_TRUE value then 1
               else 0 in
      (mkUInteger true i, feed state (le_bytes 8 i))
  end.

Definition bx_object_get_json_double (object : option json_t) (key : string)
    (state : hash_state) : BXFloat * hash_state :=
  match field object key with
  | None => (mkFloat false double_zero, state)
  | Some value =>
      let d := if is_json JSON_STRING value then strtod (json_string_value value)
               else if is_json JSON_REAL value then json_real_value value
               else double_zero in
      (mkFloat true d, feed state (double_bytes d))
  end.

(** [snprintf(buf, n, ...)] keeps [n - 1] bytes of the text. *)
Definition snprintf (n : Z) (text : string) : string :=
  string_of (take (Z.to_nat (n - 1)) (list_of text)).

(** The text of a field before its entities are replaced; [None]: no text. *)
Definition text_of (value : json_t) : option string :=
  if is_json JSON_STRING value then Some (json_string_value value)
  else if is_json JSON_INTEGER value then Some (dec (json_integer_value value))
  else if is_json JSON_REAL value then
    let text := print_e (json_real_value value) in
    let value_len := strlen text - 1 in
    Some (snprintf (value_len + 1) text)
  else None.

(** [mem] tells whether [calloc] succeeds. *)
Definition bx_object_get_json_string (mem : bool) (object : option json_t)
    (key : string) (state : hash_state) : outcome (BXString * hash_state) :=
  match field object key with
  | None => Done (mkString false None, state)
  | Some value =>
      match text_of value with
      | Some text =>
          if negb mem then Done (mkString false None, state)
          else
            match bx_html_entities_replaces (mkString true (Some text)) with
            | Done str => Done (str, feed state (bytes_of (str_value str)))
            | Fault => Fault
            | OutOfFuel => OutOfFuel
            end
      | None => Done (mkString false None, state)
      end
  end.

(** *** UUIDs *)

Definition segment_lengths : list nat := [8; 4; 4; 4; 12]%nat.

Definition nibble_of (c : ascii) : option Z :=
  let c := tolower c in
  if (48 <=? code c) && (code c <=? 57) then Some (code c - 48)
  else if (97 <=? code c) && (code c <=? 102) then Some (code c - 97 + 10)
  else None.

(** [bytes[k / 2] |= nibble << ((1 - (k % 2)) * 4)] *)
Definition put_nibble (bytes : list Z) (k : nat) (nibble : Z) : list Z :=
  alter (fun b => Z.lor b (Z.shiftl nibble (if Nat.even k then 4 else 0))) (Nat.div k 2) bytes.

(** The scan: segment, position in it, digits read, bytes. *)
Fixpoint uuid_loop (s : list ascii) (segment pos hex_count : nat) (bytes : list Z)
    : option (nat * nat * nat * list Z) :=
  match s with
  | [] => Some (segment, pos, hex_count, bytes)
  | c :: s =>
      if (segment <? 5)%nat && bool_decide (segment_lengths !! segment = Some pos) then
        if negb (Ascii.eqb c "-") then None else uuid_loop s (S segment) 0 hex_count bytes
      else
        match nibble_of c with
        | None => None
        | Some n => uuid_loop s segment (S pos) (S hex_count) (put_nibble bytes hex_count n)
        end
  end.

(** [(v << 8) | b] in 64 bits, over some bytes. *)
Definition be_value (bytes : list Z) : Z :=
  fold_left (fun v b => Z.lor (u64 (Z.shiftl v 8)) b) bytes 0.

Definition parse_uuid (text : string) : option (Z * Z) :=
  if negb (strlen text =? 36) then None
  else
    match uuid_loop (list_of text) 0 0 0 (replicate 16 0) with
    | Some (segment, pos, hex_count, bytes) =>
        if negb (hex_count =? 32)%nat || negb (segment =? 4)%nat || negb (pos =? 12)%nat
        then None
        else Some (be_value (take 8 bytes), be_value (drop 8 bytes))
    | None => None
    end.

Definition bx_object_get_json_uuid (object : option json_t) (key : string)
    (state : hash_state) : BXUuid * hash_state :=
  match field object key with
  | None => (mkUuid false 0 0, state)
  | Some value =>
      if negb (is_json JSON_STRING value) then (mkUuid false 0 0, state)
      else
        match parse_uuid (json_string_value value) with
        | None => (mkUuid false 0 0, state)
        | Some (hi, lo) =>
            (mkUuid true hi lo, feed state (le_bytes 8 hi +:+ le_bytes 8 lo))
        end
  end.

(** [bx_object_free_value] clears the flag; the memory is not modelled. *)
Definition bx_object_free_value (v : BXAny) : BXAny :=
  match v with
  | VString s => VString (mkString false (str_value s))
  | VBytes b => VBytes (mkBytes false (bytes_value b))
  | VInteger i => VInteger (mkInteger false (int_value i))
  | VUInteger i => VUInteger (mkUInteger false (uint_value i))
  | VFloat f => VFloat (mkFloat false (float_value f))
  | VBool b => VBool (mkBool false (bool_value b))
  | VUuid _ => VUuid (mkUuid false 0 0)
  | VIntID i => VIntID i
  end.
End Objects.

Example uuid_ex :
  parse_uuid "00112233-4455-6677-8899-aAbBcCdDeEfF"
  = Some (4822678189205111, 9843086184167632639)
  /\ parse_uuid "00112233-4455-6677-8899-aAbBcCdDeEf" = None
  /\ parse_uuid "001122334-455-6677-8899-aabbccddeeff" = None.
Proof. by vm_compute. Qed.

(** ** UUIDs: the parser reads back the canonical text *)

(** Two hexadecimal digits. *)
Definition hex2 (b : Z) : list ascii := [hex_digit (b / 16); hex_digit (b mod 16)].

Fixpoint hex_seq (bs : list Z) : list ascii :=
  match bs with [] => [] | b :: bs => hex2 b ++ hex_seq bs end.

(** The canonical 8-4-4-4-12 form of sixteen bytes. *)
Definition print_uuid (bs : list Z) : string :=
  string_of (hex_seq (take 4 bs) ++ "-"%char :: hex_seq (take 2 (drop 4 bs))
    ++ "-"%char :: hex_seq (take 2 (drop 6 bs)) ++ "-"%char :: hex_seq (take 2 (drop 8 bs))
    ++ "-"%char :: hex_seq (drop 10 bs)).

(** Big-endian value. *)
Definition be (bs : list Z) : Z := fold_left (fun v b => v * 256 + b) bs 0.

Definition is_byte (b : Z) : Prop := 0 <= b < 256.

Lemma nibble_of_hex n : 0 <= n < 16 -> nibble_of (hex_digit n) = Some n.
Proof.
  intros Hn.
  pose proof (forallb_seqZ (fun n => if nibble_of (hex_digit n) is Some m then m =? n else false)
                0 16 n) as Hf.
  specialize (Hf ltac:(by vm_compute) ltac:(lia)). cbv beta in Hf.
  destruct (nibble_of (hex_digit n)) as [m|]; [|done]. f_equal. by apply Z.eqb_eq.
Qed.

Lemma lor_byte v b : 0 <= v -> is_byte b -> Z.lor (Z.shiftl v 8) b = v * 256 + b.
Proof.
  intros Hv Hb. rewrite <- Z.add_nocarry_lor.
  - rewrite Z.shiftl_mul_pow2 by lia. lia.
  - apply Z.bits_inj'. intros k Hk. rewrite Z.land_spec, Z.bits_0.
    destruct (decide (k < 8)).
    + by rewrite Z.shiftl_spec_low.
    + rewrite (Z.bits_above_log2 b); [by rewrite andb_false_r|unfold is_byte in Hb; lia|].
      unfold is_byte in Hb. destruct (decide (b = 0)) as [->|]; [cbn; lia|].
      assert (Z.log2 b < 8); [|lia]. apply Z.log2_lt_pow2; lia.
Qed.

Lemma lor_nibbles b :
  is_byte b ->
  Z.lor (Z.lor 0 (Z.shiftl (b / 16) 4)) (Z.shiftl (b mod 16) 0) = b.
Proof.
  unfold is_byte. intros Hb. apply Z.eqb_eq.
  apply (forallb_seqZ (fun b => Z.lor (Z.lor 0 (Z.shiftl (b / 16) 4)) (Z.shiftl (b mod 16) 0) =? b)
           0 256); [by vm_compute | lia].
Qed.

Lemma be_value_eq bs v :
  Forall is_byte bs -> 0 <= v -> v * 256 ^ Z.of_nat (length bs) + 256 ^ Z.of_nat (length bs) <= 2 ^ 64 ->
  fold_left (fun v b => Z.lor (u64 (Z.shiftl v 8)) b) bs v
  = fold_left (fun v b => v * 256 + b) bs v.
Proof.
  intros Hbs. revert v. induction Hbs as [|b bs Hb Hbs IH]; intros v Hv Hmax; [done|].
  cbn [fold_left length] in *. rewrite Nat2Z.inj_succ, Z.pow_succ_r in Hmax by lia.
  assert (0 < 256 ^ Z.of_nat (length bs)) by (apply Z.pow_pos_nonneg; lia).
  pose proof Hb as Hb'. unfold is_byte in Hb'.
  rewrite u64_small; [|unfold is_u64; rewrite Z.shiftl_mul_pow2 by lia; nia].
  rewrite lor_byte by done. apply IH; nia.
Qed.

(** *** The scan of the canonical text *)

Lemma uuid_loop_hyphen s seg k bytes p :
  segment_lengths !! seg = Some p -> (seg < 5)%nat ->
  uuid_loop ("-"%char :: s) seg p k bytes = uuid_loop s (S seg) 0 k bytes.
Proof.
  intros Hp Hs. cbn [uuid_loop]. rewrite bool_decide_eq_true_2 by done.
  by rewrite (proj2 (Nat.ltb_lt seg 5)).
Qed.

(** The digits of one byte, in a segment that has room for them. *)
Lemma uuid_loop_byte s seg pos i b bytes n :
  is_byte b -> segment_lengths !! seg = Some n -> (S pos < n)%nat ->
  bytes !! i = Some 0 ->
  uuid_loop (hex2 b ++ s) seg pos (2 * i) bytes
  = uuid_loop s seg (S (S pos)) (2 * S i) (<[i := b]> bytes).
Proof.
  intros Hb Hseg Hpos Hi. unfold hex2. pose proof Hb as Hb'. unfold is_byte in Hb'.
  assert (0 <= b / 16 < 16) by (split; [apply Z.div_pos | apply Z.div_lt_upper_bound]; lia).
  assert (0 <= b mod 16 < 16) by (apply Z.mod_pos_bound; lia).
  assert (forall q, (q < n)%nat -> bool_decide (segment_lengths !! seg = Some q) = false) as Hno.
  { intros q Hq. apply bool_decide_eq_false_2. rewrite Hseg. intros [= ->]. lia. }
  cbn [app uuid_loop]. rewrite !Hno, !andb_false_r by lia. rewrite !nibble_of_hex by done.
  replace (S (S (2 * i)))%nat with (2 * S i)%nat by lia. f_equal.
  unfold put_nibble.
  replace (Nat.even (2 * i)) with true by (symmetry; apply Nat.even_spec; exists i; lia).
  replace (Nat.even (S (2 * i))) with false
    by (symmetry; apply Bool.not_true_iff_false; rewrite Nat.even_spec; intros [m Hm]; lia).
  replace ((2 * i) / 2)%nat with i by (rewrite Nat.mul_comm; symmetry; apply Nat.div_mul; lia).
  replace (S (2 * i) / 2)%nat with i by (apply (Nat.div_unique (S (2 * i)) 2 i 1); lia).
  apply list_eq. intros j.
  destruct (decide (i = j)) as [<-|Hne].
  - rewrite !list_lookup_alter_eq, Hi, list_lookup_insert_eq by by eapply lookup_lt_Some.
    cbn. by rewrite lor_nibbles.
  - by rewrite !list_lookup_alter_ne, list_lookup_insert_ne by done.
Qed.

(** The bytes of one segment. *)
Lemma uuid_loop_bytes bs s seg pos n done_ todo :
  Forall is_byte bs -> segment_lengths !! seg = Some n ->
  (pos + 2 * length bs <= n)%nat -> (length bs <= todo)%nat ->
  uuid_loop (hex_seq bs ++ s) seg pos (2 * length done_) (done_ ++ replicate todo 0)
  = uuid_loop s seg (pos + 2 * length bs) (2 * length (done_ ++ bs))
      ((done_ ++ bs) ++ replicate (todo - length bs) 0).
Proof.
  intros Hbs Hseg. revert pos done_ todo.
  induction Hbs as [|b bs Hb Hbs IH]; intros pos done_ todo Hn Ht.
  - cbn. rewrite app_nil_r, Nat.sub_0_r. f_equal. lia.
  - cbn [hex_seq length] in *. destruct todo as [|todo]; [lia|].
    rewrite <- app_assoc, (uuid_loop_byte _ _ _ (length done_) b _ n) by
      (done || lia || by rewrite lookup_app_r, Nat.sub_diag by lia).
    rewrite insert_app_r_alt, Nat.sub_diag by lia. cbn [replicate].
    change (<[0%nat:=b]> (0 :: replicate todo 0)) with ([b] ++ replicate todo 0).
    rewrite app_assoc. replace (2 * S (length done_))%nat with (2 * length (done_ ++ [b]))%nat
      by (rewrite length_app; cbn; lia).
    rewrite IH by lia. rewrite <- app_assoc. cbn [app]. f_equal. lia.
Qed.

Lemma hex_seq_length bs : length (hex_seq bs) = (2 * length bs)%nat.
Proof. induction bs as [|b bs IH]; [done|]. cbn [hex_seq length]. rewrite length_app, IH. cbn. lia. Qed.

Lemma uuid_loop_segments (b1 b2 b3 b4 b5 : list Z) :
  Forall is_byte (b1 ++ b2 ++ b3 ++ b4 ++ b5) ->
  length b1 = 4%nat -> length b2 = 2%nat -> length b3 = 2%nat -> length b4 = 2%nat ->
  length b5 = 6%nat ->
  uuid_loop (hex_seq b1 ++ "-"%char :: hex_seq b2 ++ "-"%char :: hex_seq b3
    ++ "-"%char :: hex_seq b4 ++ "-"%char :: hex_seq b5) 0 0 0 (replicate 16 0)
  = Some (4%nat, 12%nat, 32%nat, b1 ++ b2 ++ b3 ++ b4 ++ b5).
Proof.
  rewrite !Forall_app. intros (H1 & H2 & H3 & H4 & H5) L1 L2 L3 L4 L5.
  pose proof (uuid_loop_bytes b1) as E1. specialize (E1) with (done_ := []) (todo := 16%nat).
  cbn [length app] in E1. change (2 * 0)%nat with 0%nat in E1.
  rewrite (E1 _ 0%nat 0%nat 8%nat) by (done || lia).
  rewrite uuid_loop_hyphen by (rewrite ?L1; done || lia).
  rewrite (uuid_loop_bytes b2 _ 1 0 4) by (done || lia).
  rewrite uuid_loop_hyphen by (rewrite ?L2; done || lia).
  rewrite (uuid_loop_bytes b3 _ 2 0 4) by (done || lia).
  rewrite uuid_loop_hyphen by (rewrite ?L3; done || lia).
  rewrite (uuid_loop_bytes b4 _ 3 0 4) by (done || lia).
  rewrite uuid_loop_hyphen by (rewrite ?L4; done || lia).
  rewrite <- (app_nil_r (hex_seq b5)).
  rewrite (uuid_loop_bytes b5 _ 4 0 12) by (done || lia).
  cbn [uuid_loop]. rewrite L5. rewrite !length_app, L1, L2, L3, L4, L5. cbn [Nat.sub].
  rewrite app_nil_r. by rewrite <- !app_assoc.
Qed.

Lemma split_uuid {A} (bs : list A) :
  bs = take 4 bs ++ take 2 (drop 4 bs) ++ take 2 (drop 6 bs) ++ take 2 (drop 8 bs) ++ drop 10 bs.
Proof.
  rewrite <- (take_drop 4 bs) at 1. f_equal. rewrite <- (take_drop 2 (drop 4 bs)) at 1. f_equal.
  rewrite drop_drop. rewrite <- (take_drop 2 (drop (4 + 2) bs)) at 1. f_equal.
  rewrite drop_drop. rewrite <- (take_drop 2 (drop (4 + 2 + 2) bs)) at 1. f_equal.
  by rewrite drop_drop.
Qed.

(** The canonical text of sixteen bytes parses to its two big-endian halves. *)
Theorem parse_print_uuid bs :
  Forall is_byte bs -> length bs = 16%nat ->
  parse_uuid (print_uuid bs) = Some (be (take 8 bs), be (drop 8 bs)).
Proof.
  intros Hb Hl. unfold parse_uuid, print_uuid.
  rewrite strlen_list_of, list_of_string_of.
  rewrite !length_app. cbn [length]. rewrite !length_app. cbn [length]. rewrite !length_app.
  cbn [length]. rewrite !length_app. cbn [length].
  rewrite !hex_seq_length, !length_take, !length_drop, Hl. cbn [Nat.min Nat.sub].
  change (negb (Z.of_nat _ =? 36)) with false. cbv iota.
  rewrite uuid_loop_segments by
    (rewrite <- ?split_uuid, ?length_take, ?length_drop, ?Hl; done).
  cbn [negb orb Nat.eqb]. rewrite <- split_uuid.
  unfold be_value, be. rewrite !be_value_eq; [done|..].
  all: rewrite ?length_take, ?length_drop, ?Hl; try done.
  all: first [by apply Forall_take | by apply Forall_drop].
Qed.

(** ** What the checksum sees *)

Section Checksum.
Context `{Jansson} `{XXH3}.

(** A real read as text loses the last digit of its exponent. *)
Theorem real_text_truncated v t c :
  json_typeof v = JSON_REAL -> print_e (json_real_value v) = t +:+ String c EmptyString ->
  text_of v = Some t.
Proof.
  intros Ht He. unfold text_of, is_json. rewrite Ht. cbn.
  rewrite He, strlen_list_of, list_of_app, length_app. cbn [list_of length].
  unfold snprintf. rewrite list_of_app. cbn [list_of].
  replace (Z.to_nat _) with (length (list_of t)) by lia.
  by rewrite take_app_length, string_of_list_of.
Qed.

(** A field that is absent or [null] adds nothing to the hash: moving a value
    from one field to the next one gives the same checksum. *)
Theorem checksum_blind_to_field o1 o2 k1 k2 v st :
  field o1 k1 = Some v -> field o1 k2 = None ->
  field o2 k1 = None -> field o2 k2 = Some v ->
  let read o := (bx_object_get_json_int o k2 (bx_object_get_json_int o k1 st).2).2 in
  read o1 = read o2
  /\ (bx_object_get_json_int o1 k1 st).1 <> (bx_object_get_json_int o2 k1 st).1.
Proof.
  intros Ha Hb Hc Hd. unfold bx_object_get_json_int. cbn.
  rewrite Ha, Hb, Hc, Hd. cbn. split; [done|]. by intros [=].
Qed.

(** An integer field: [null] and an absent key leave it unset, a number or a
    decimal text sets it, and its eight bytes are hashed. *)
Theorem get_json_int_number o k st v z :
  field o k = Some v -> is_i64 z ->
  (json_typeof v = JSON_INTEGER /\ json_integer_value v = z
   \/ json_typeof v = JSON_STRING /\ json_string_value v = dec z) ->
  bx_object_get_json_int o k st = (mkInteger true z, feed st (le_bytes 8 (u64 z))).
Proof.
  intros Hf Hz Hv. unfold bx_object_get_json_int. rewrite Hf. unfold is_json, is_i64 in *.
  destruct Hv as [[-> <-]|[-> ->]]; [done|]. cbn. unfold strtoll.
  by rewrite strtol_dec by (unfold INT64_MIN, INT64_MAX; lia).
Qed.
End Checksum.

(** ** Concrete fields *)

Definition sample_bytes : list Z := [0; 17; 34; 51; 68; 85; 102; 119; 136; 153; 170; 187; 204; 221; 238; 255].

Lemma parse_print_uuid_witness :
  parse_uuid (print_uuid sample_bytes) = Some (be (take 8 sample_bytes), be (drop 8 sample_bytes)).
Proof.
  apply parse_print_uuid; [|reflexivity].
  unfold sample_bytes, is_byte. repeat (constructor; [lia|]). constructor.
Defined.

Lemma real_text_truncated_witness : text_of (J (JReal 1500)) = Some "1500e-0".
Proof. apply (real_text_truncated (J (JReal 1500)) "1500e-0" "3"); vm_compute; reflexivity. Defined.

Definition moved_from : sample_json := JObject [("user_id", JInteger 5); ("owner_id", JNull)].
Definition moved_to : sample_json := JObject [("user_id", JNull); ("owner_id", JInteger 5)].

Lemma checksum_blind_to_field_witness :
  let read o := (bx_object_get_json_int o "owner_id"
                   (bx_object_get_json_int o "user_id" (Some XXH3_64bits_reset)).2).2 in
  read (Some (J moved_from)) = read (Some (J moved_to)).
Proof.
  apply (checksum_blind_to_field (Some (J moved_from)) (Some (J moved_to)) "user_id" "owner_id"
           (J (JInteger 5)) (Some XXH3_64bits_reset)); vm_compute; reflexivity.
Defined.

Lemma get_json_int_number_witness :
  bx_object_get_json_int (Some (J (JObject [("id", JString "-42")]))) "id" None
  = (mkInteger true (-42), None).
Proof.
  apply (get_json_int_number _ _ None (J (JString "-42")) (-42)).
  - vm_compute. reflexivity.
  - unfold is_i64. lia.
  - right. split; vm_compute; reflexivity.
Defined.
