(* ===== verification/Utils.v ===== *)
(** * Utilities ([src/src/bx_utils.c])

    The conversion of an id list to an array, the construction of a request
    path from its format, and the prefix comparison of header names. *)
From S2P Require Import Prelude CLib Env Samples Values.

(** ** Integer arrays *)

Definition BUFFER_LEN : Z := 21.

(** [strtoll(buffer, NULL, 10)]: the buffer is read up to a byte that is not a
    digit, so a buffer full of digits is read past its end. *)
Definition strtoll_buffer (buffer : string) : outcome Z :=
  if strlen buffer <? BUFFER_LEN then Done (strtol_range INT64_MIN INT64_MAX buffer).1
  else Fault.

(** [mem] tells whether [calloc] or [realloc] succeeds. *)
Definition _bx_utils_buffer_into_array (mem : bool) (array : option (list Z))
    (buffer : string) : outcome (option (list Z)) :=
  match strtoll_buffer buffer with
  | Done n =>
      if mem then
        match array with
        | None => Done (Some [1; n])
        | Some (count :: l) => Done (Some ((count + 1) :: l ++ [n]))
        | Some [] => Fault
        end
      else Done array
  | Fault => Fault
  | OutOfFuel => OutOfFuel
  end.

(** The loop: [buffer] holds its [j] first bytes. *)
Fixpoint int_array_loop (mem : bool) (str buffer : string) (array : option (list Z))
    : outcome (option (list Z)) :=
  match str with
  | EmptyString =>
      if 0 <? strlen buffer then _bx_utils_buffer_into_array mem array buffer
      else Done array
  | String c str =>
      if isdigit c then
        if 20 <? strlen buffer then int_array_loop mem str buffer array
        else int_array_loop mem str (String.append buffer (String c EmptyString)) array
      else if strlen buffer <=? 0 then int_array_loop mem str buffer array
      else
        match _bx_utils_buffer_into_array mem array buffer with
        | Done array => int_array_loop mem str EmptyString array
        | Fault => Fault
        | OutOfFuel => OutOfFuel
        end
  end.

Definition bx_int_string_array_to_int_array (mem : bool) (str : option string)
    : outcome (option (list Z)) :=
  match str with
  | None => Done None
  | Some str => int_array_loop mem str EmptyString None
  end.

Example int_array_ex :
  bx_int_string_array_to_int_array true (Some "1,22/x333") = Done (Some [3; 1; 22; 333]).
Proof. by vm_compute. Qed.

(** ** Paths *)

Section Paths.
Context `{CDouble}.

(** [path] is the buffer built so far, [seg] the bytes of the format since
    [origin], [ap] the remaining arguments. *)
Fixpoint item_to_path_loop (mem : bool) (fmt : string) (ap : list (option BXAny))
    (path : option string) (seg : string) : outcome (option string) :=
  match fmt with
  | EmptyString =>
      match seg with
      | EmptyString => Done path
      | _ => Done (alloc mem (String.append (bytes_of path) seg))
      end
  | String c fmt =>
      if Ascii.eqb c "$" then
        match ap with
        | [] => Fault
        | None :: _ => Done None
        | Some item :: ap =>
            match bx_object_value_to_string mem item with
            | None => Done None
            | Some str =>
                if strlen (cstr str) =? 0 then Done None
                else if negb mem then Done None
                else item_to_path_loop mem fmt ap
                       (Some (String.append (String.append (bytes_of path) seg) (cstr str)))
                       EmptyString
            end
        end
      else item_to_path_loop mem fmt ap path (String.append seg (String c EmptyString))
  end.

Definition _bx_item_to_path (mem : bool) (fmt : option string)
    (ap : list (option BXAny)) : outcome (option string) :=
  match fmt with
  | None | Some EmptyString => Fault
  | Some fmt => item_to_path_loop mem fmt ap None EmptyString
  end.

Definition bx_item_to_path := _bx_item_to_path.

(** Specification: the format with its [$] replaced in order. *)
Fixpoint subst_args (fmt : string) (ss : list string) : string :=
  match fmt with
  | EmptyString => EmptyString
  | String c fmt =>
      if Ascii.eqb c "$" then
        match ss with
        | s :: ss => String.append s (subst_args fmt ss)
        | [] => EmptyString
        end
      else String c (subst_args fmt ss)
  end.

Fixpoint count_args (fmt : string) : nat :=
  match fmt with
  | EmptyString => O
  | String c fmt => (if Ascii.eqb c "$" then 1 else 0) + count_args fmt
  end%nat.
End Paths.

(** [bx_string_compare] *)
Fixpoint bx_string_compare (str1 str2 : string) (max : nat) : bool :=
  match max, str1, str2 with
  | S max, String a str1, String b str2 =>
      if Ascii.eqb a b then bx_string_compare str1 str2 max else false
  | _, _, _ => true
  end.

(** [bx_walker_cycle_mark]: [now] is the result of [time], [None] for its
    failure; the new [*ts] and the seconds logged. *)
Definition bx_walker_cycle_mark (now : option Z) (ts : Z) : Z * option Z :=
  match now with
  | None => (ts, None)
  | Some now =>
      (now, if negb (ts =? 0) && (ts <=? now) then Some (now - ts) else None)
  end.

(** ** Strings *)

Create Rewrite HintDb cstring.

Lemma append_assoc a b c :
  String.append (String.append a b) c = String.append a (String.append b c).
Proof. induction a as [|x a IH]; [done|]. cbn. by rewrite IH. Qed.
Lemma append_nil_r a : String.append a EmptyString = a.
Proof. induction a as [|x a IH]; [done|]. cbn. by rewrite IH. Qed.
Lemma strlen_append a b : strlen (String.append a b) = strlen a + strlen b.
Proof. unfold strlen. induction a as [|x a IH]; [done|]. cbn [String.append String.length] in *. lia. Qed.
Lemma strlen_cons c s : strlen (String c s) = strlen s + 1.
Proof. unfold strlen. cbn [String.length]. lia. Qed.
Lemma strlen_nonneg s : 0 <= strlen s.
Proof. unfold strlen. lia. Qed.
#[export] Hint Rewrite append_assoc append_nil_r strlen_append strlen_cons : cstring.

(** ** The path is the substituted format *)

Section PathsSpec.
Context `{CDouble}.

(** The arguments a [$] accepts, and what it prints. *)
Definition prints (v : option BXAny) (s : string) : Prop :=
  exists item str, v = Some item /\ bx_object_value_to_string true item = Some str
                   /\ s = cstr str /\ s <> EmptyString.

Lemma item_to_path_loop_eq fmt ap ss rest path seg :
  Forall2 prints ap ss -> length ap = count_args fmt ->
  item_to_path_loop true fmt (ap ++ rest) path seg
  = let s := String.append seg (subst_args fmt ss) in
    Done (match s, path with
          | EmptyString, _ => path
          | _, _ => Some (String.append (bytes_of path) s)
          end).
Proof.
  intros Hap. revert fmt path seg.
  induction Hap as [|v s ap ss (item & str & -> & Hs & -> & Hne) Hap IHap];
    intros fmt; induction fmt as [|c fmt IH]; intros path seg Hn.
  - cbn. rewrite append_nil_r. by destruct seg.
  - cbn [item_to_path_loop subst_args count_args] in *.
    destruct (Ascii.eqb c "$"); [done|]. rewrite IH by done.
    by rewrite append_assoc.
  - done.
  - cbn [item_to_path_loop subst_args count_args app] in *.
    destruct (Ascii.eqb c "$").
    + rewrite Hs. destruct (Z.eqb_spec (strlen (cstr str)) 0) as [E|_].
      { destruct (cstr str); [done|]. rewrite strlen_cons in E.
        pose proof (strlen_nonneg s). lia. }
      cbn [negb]. rewrite IHap by (cbn in Hn; lia). cbn [bytes_of default String.append].
      destruct (cstr str) as [|c' str'] eqn:Ec; [done|].
      destruct (String.append seg (String.append (String c' str') (subst_args fmt ss)))
        eqn:E2; [by destruct seg|]. rewrite <- E2.
      unfold id. destruct (subst_args fmt ss) eqn:E3; rewrite ?append_nil_r, ?append_assoc; done.
    + rewrite IH by done. by rewrite append_assoc.
Qed.

(** When every [$] of the format has an argument that prints, the path is the
    format with each [$] replaced by its argument, in order. *)
Theorem item_to_path_substitutes fmt ap ss rest :
  fmt <> EmptyString -> Forall2 prints ap ss -> length ap = count_args fmt ->
  bx_item_to_path true (Some fmt) (ap ++ rest) = Done (Some (subst_args fmt ss)).
Proof.
  intros Hne Hap Hn. unfold bx_item_to_path, _bx_item_to_path.
  destruct fmt as [|c fmt]; [done|].
  rewrite (item_to_path_loop_eq _ ap ss rest) by done. cbn zeta.
  cbn [String.append bytes_of default].
  destruct (subst_args (String c fmt) ss) eqn:E; [|done]. exfalso.
  cbn in E, Hn. revert E Hn. destruct (Ascii.eqb c "$"); [intros E Hn|done].
  destruct Hap as [|v s ap ss (? & ? & _ & _ & _ & Hs) _]; [done|].
  apply Hs. by destruct s.
Qed.

(** The first argument that does not print makes the path [NULL]. *)
Theorem item_to_path_unprintable fmt1 fmt2 ap ss v rest :
  Forall2 prints ap ss -> length ap = count_args fmt1 ->
  match v with
  | None => True
  | Some item => match bx_object_value_to_string true item with
                 | None => True | Some s => cstr s = EmptyString end
  end ->
  bx_item_to_path true (Some (String.append fmt1 (String "$" fmt2))) (ap ++ v :: rest)
  = Done None.
Proof.
  intros Hap Hn Hv. unfold bx_item_to_path, _bx_item_to_path.
  assert (forall path seg,
    item_to_path_loop true (String.append fmt1 (String "$" fmt2)) (ap ++ v :: rest) path seg
    = Done None) as E.
  { clear -Hap Hn Hv. revert fmt1 Hn.
    induction Hap as [|v' s ap ss (item & str & -> & Hs & -> & Hne) Hap IHap];
      intros fmt1; induction fmt1 as [|c fmt IH]; intros Hn path seg.
    - cbn. destruct v as [item|]; [|done]. destruct (bx_object_value_to_string _ _); [|done].
      by rewrite Hv.
    - cbn [item_to_path_loop count_args String.append] in *.
      destruct (Ascii.eqb c "$"); [done|]. by apply IH.
    - done.
    - cbn [item_to_path_loop count_args String.append app] in *.
      destruct (Ascii.eqb c "$"); [|by apply IH]. rewrite Hs.
      destruct (_ =? _); [done|]. cbn. apply IHap. cbn in Hn. lia. }
  destruct (String.append fmt1 (String "$" fmt2)) eqn:E2; [by destruct fmt1|].
  apply E.
Qed.
End PathsSpec.

(** ** The id list is parsed run by run *)

(** The maximal runs of digits, [cur] being the one that is open. *)
Fixpoint digit_runs (cur str : string) : list string :=
  match str with
  | EmptyString => match cur with EmptyString => [] | _ => [cur] end
  | String c str =>
      if isdigit c then digit_runs (cur +:+ String c EmptyString) str
      else match cur with
           | EmptyString => digit_runs EmptyString str
           | _ => cur :: digit_runs EmptyString str
           end
  end.

Definition run_value (s : string) : Z := (strtol_range INT64_MIN INT64_MAX s).1.

(** The array as the code lays it out: the count, then the values. *)
Definition int_array_of (l : list Z) : option (list Z) :=
  match l with [] => None | _ => Some (Z.of_nat (length l) :: l) end.

Definition fits (s : string) : bool := strlen s <? BUFFER_LEN.

Lemma buffer_into_array_eq l buffer :
  _bx_utils_buffer_into_array true (int_array_of l) buffer
  = if fits buffer then Done (int_array_of (l ++ [run_value buffer])) else Fault.
Proof.
  unfold _bx_utils_buffer_into_array, strtoll_buffer, fits, run_value.
  destruct (_ <? _); [|done]. destruct l as [|x l]; [done|].
  cbn [int_array_of app]. do 3 f_equal. cbn [length]. rewrite length_app. cbn [length]. lia.
Qed.

Lemma int_array_loop_eq str l cur buffer :
  (buffer = cur /\ strlen cur < BUFFER_LEN
   \/ strlen buffer = BUFFER_LEN /\ BUFFER_LEN <= strlen cur) ->
  int_array_loop true str buffer (int_array_of l)
  = if forallb fits (digit_runs cur str)
    then Done (int_array_of (l ++ (run_value <$> digit_runs cur str))) else Fault.
Proof.
  assert (forall b : string, (b = EmptyString /\ strlen b = 0) \/ (b <> EmptyString /\ 0 < strlen b))
    as Hlen.
  { intros [|c b]; [by left|right]. rewrite strlen_cons. pose proof (strlen_nonneg b). auto with lia. }
  assert (forall b c : string, (b = c /\ strlen c < BUFFER_LEN
       \/ strlen b = BUFFER_LEN /\ BUFFER_LEN <= strlen c) -> fits b = fits c
       /\ (fits c = true -> b = c) /\ (strlen b = 0 <-> c = EmptyString)) as Hsame.
  { unfold fits, BUFFER_LEN. intros b c [[-> Hc]|[Hb Hc]].
    - split_and!; [done..|]. destruct (Hlen c) as [[-> ?]|[? ?]]; [done|].
      split; [lia | done].
    - rewrite (proj2 (Z.ltb_ge _ _)), (proj2 (Z.ltb_ge _ _)) by lia.
      split_and!; [done..|]. destruct (Hlen c) as [[-> ?]|[? ?]]; [lia|].
      split; [lia | done]. }
  revert l cur buffer. induction str as [|c str IH]; intros l cur buffer Hb;
    destruct (Hsame _ _ Hb) as (Hf & Heq & H0); cbn [int_array_loop digit_runs].
  - rewrite buffer_into_array_eq, Hf. destruct cur as [|c cur].
    + rewrite (proj2 H0) by done. by rewrite fmap_nil, app_nil_r.
    + destruct (Hlen buffer) as [[-> E]|[_ E]]; [naive_solver|].
      rewrite (proj2 (Z.ltb_lt _ _)) by done. cbn [forallb]. rewrite andb_true_r.
      destruct (fits (String c cur)) eqn:E2; [|done]. by rewrite Heq.
  - destruct (isdigit c).
    + destruct (Z.ltb_spec 20 (strlen buffer)) as [Hfull|Hroom].
      * apply IH. right. rewrite strlen_append. unfold BUFFER_LEN in *.
        change (strlen (String c "")) with 1. destruct Hb as [[-> ?]|[? ?]]; lia.
      * apply IH. unfold BUFFER_LEN in *. rewrite !strlen_append.
        change (strlen (String c "")) with 1.
        destruct Hb as [[-> ?]|[? ?]]; [|lia].
        destruct (Z.ltb_spec (strlen cur) 20); [left; auto with lia | right; lia].
    + destruct cur as [|c' cur].
      * rewrite (proj2 H0) by done. change (0 <=? 0) with true. apply IH. left.
        destruct Hb as [[-> ?]|[? Hb]]; [done|]. by change (strlen EmptyString) with 0 in Hb.
      * destruct (Hlen buffer) as [[-> E]|[_ E]]; [naive_solver|].
        rewrite (proj2 (Z.leb_gt _ _)) by done. rewrite buffer_into_array_eq, Hf.
        cbn [forallb]. destruct (fits (String c' cur)) eqn:E2; [|done]. cbn [andb].
        rewrite (IH _ EmptyString) by by left. rewrite Heq by done.
        by rewrite fmap_cons, <- app_assoc.
Qed.

(** [bx_int_string_array_to_int_array] returns the count and the value of every
    run of digits when each run fits the buffer with its terminator; a longer
    run makes it read past the buffer. *)
Theorem int_array_spec str :
  bx_int_string_array_to_int_array true (Some str)
  = if forallb fits (digit_runs EmptyString str)
    then Done (int_array_of (run_value <$> digit_runs EmptyString str)) else Fault.
Proof. apply (int_array_loop_eq str [] EmptyString). by left. Qed.

(** The header comparison accepts any prefix: it stops at the first
    terminator of either string. *)
Lemma string_compare_prefix a b n :
  prefix_of a b = true -> bx_string_compare a b n = true.
Proof.
  revert b n. induction a as [|x a IH]; intros b [|n] Hp; [done..|].
  destruct b as [|y b]; [done|]. cbn in *. apply andb_true_iff in Hp as [-> Hp].
  by apply IH.
Qed.

(** ** Ids of the snowflake library *)

Class SnowflakeEnv (W : Type) := {
  SNOWFLAKE_INVALID : Z;
  snowflake_open : prog W bool;
  snowflake_get : prog W Z;
  snowflake_close : prog W unit
}.

Section Snowflake.
Context {W : Type} `{!SnowflakeEnv W}.

Definition bx_utils_init : prog W bool := snowflake_open.
(** The id is stored in every case; [id_ok]: the pointer is not [NULL]. *)
Definition bx_utils_gen_id (id_ok : bool) : prog W (bool * Z) :=
  if negb id_ok then fault else
  id <- snowflake_get ;;
  ret (negb (id =? SNOWFLAKE_INVALID), id).
Definition bx_utils_close : prog W unit := snowflake_close.
End Snowflake.

(** ** Concrete paths *)

Lemma item_to_path_substitutes_witness :
  bx_item_to_path true (Some "3.0/files/$/download")
    ([Some (VUInteger (mkUInteger true 42))] ++ [])
  = Done (Some (subst_args "3.0/files/$/download" ["42"])).
Proof.
  apply item_to_path_substitutes.
  - discriminate.
  - repeat constructor. exists (VUInteger (mkUInteger true 42)), "42".
    split; [reflexivity|]. split; [vm_compute; reflexivity|]. split; [reflexivity | discriminate].
  - reflexivity.
Defined.

Lemma item_to_path_unprintable_witness :
  bx_item_to_path true (Some ("2.0/contact/" +:+ String "$" "?x"))
    ([] ++ Some (VUuid (mkUuid true 1 2)) :: []) = Done None.
Proof.
  apply (item_to_path_unprintable "2.0/contact/" "?x" [] []); [constructor | reflexivity | exact I].
Defined.
