(* ===== verification/Url.v ===== *)
(** * Request addresses and response headers: [bx_net.c]

    The percent encoding of the query parameters, the address that
    [_bx_build_url] writes in its buffer, and the callbacks that read the
    rate-limit headers and the body of a response.  The theorems: the encoder
    stays in its buffer and a decoder reads its text back, for every string;
    the address is the endpoint and the path with doubled slashes removed,
    then the parameters, and the query string gives the parameters back. *)
From S2P Require Import Prelude CLib Env Values Objects Utils.
#[local] Open Scope Z_scope.

Definition NUL : ascii := "000"%char.

(** ** Percent encoding *)

(** The cases of the [switch]. *)
Definition percent_table : list (ascii * string) := [
  ("~"%char, "%7E"); ("!"%char, "%21"); ("#"%char, "%23"); ("$"%char, "%24");
  ("&"%char, "%26"); ("("%char, "%28"); (")"%char, "%29"); ("*"%char, "%2A");
  ("+"%char, "%2B"); (","%char, "%2C"); ("/"%char, "%2F"); (":"%char, "%3A");
  (";"%char, "%3B"); ("="%char, "%3D"); ("?"%char, "%3F"); ("@"%char, "%40");
  ("["%char, "%5B"); ("]"%char, "%5D"); (chr 34, "%22"); ("%"%char, "%25");
  ("-"%char, "%2D"); ("."%char, "%2E"); ("<"%char, "%3C"); (">"%char, "%3E");
  ("^"%char, "%5E"); ("`"%char, "%60"); ("{"%char, "%7B"); ("|"%char, "%7C");
  ("}"%char, "%7D"); ("_"%char, "%5F"); ("'"%char, "%27"); ("\"%char, "%5C")].

Fixpoint table_find (c : ascii) (l : list (ascii * string)) : option string :=
  match l with
  | [] => None
  | (k, s) :: l => if Ascii.eqb k c then Some s else table_find c l
  end.

(** A digit of ["%X"]. *)
Definition hex_upper (d : Z) : ascii := if d <? 10 then chr (48 + d) else chr (55 + d).
(** ["%%%02X"] *)
Definition percent_02X (z : Z) : list ascii :=
  ["%"%char; hex_upper (z / 16); hex_upper (z mod 16)].

(** The three bytes of a character that is encoded, [None] for the others. *)
Definition encoded (c : ascii) : option (list ascii) :=
  match table_find c percent_table with
  | Some s => Some (list_of s)
  | None => if negb (Z.land (code c) 128 =? 0) then Some (percent_02X (Z.land (code c) 255))
            else None
  end.

(** [url] is [None] for [NULL], or the buffer and the index it points to; the
    write is skipped when [size] bytes are too few. *)
Definition _bx_encode_char_percent_encoding (url : option (list ascii * Z)) (size : Z)
    (c : ascii) : option (bool * option (list ascii)) :=
  let put text :=
    match url with
    | None => Some None
    | Some (buf, i) =>
        if Z.of_nat (length text) <=? size
        then match acopy buf i text with Some b => Some (Some b) | None => None end
        else Some (Some buf)
    end in
  match encoded c with
  | Some text => match put text with Some b => Some (true, b) | None => None end
  | None => match put [c] with Some b => Some (false, b) | None => None end
  end.

(** The first loop: the length of the result. *)
Fixpoint encoded_len (value : list ascii) : Z :=
  match value with
  | [] => 0
  | c :: value =>
      (match _bx_encode_char_percent_encoding None 0 c with
       | Some (true, _) => 3 | _ => 1 end) + encoded_len value
  end.

(** The second loop, at [tmp = &o[i]]. *)
Fixpoint encode_loop (value buf : list ascii) (i r_size : Z) : outcome (list ascii) :=
  match value with
  | [] => Done buf
  | c :: value =>
      match _bx_encode_char_percent_encoding (Some (buf, i)) r_size c with
      | Some (true, Some buf) => encode_loop value buf (i + 3) (u64 (r_size - 3))
      | Some (false, Some buf) => encode_loop value buf (i + 1) (u64 (r_size - 1))
      | _ => Fault
      end
  end.

(** [mem]: [calloc] succeeds. *)
Definition _bx_percent_encoding (mem : bool) (value : string) : outcome (option string) :=
  let cs := list_of value in
  let final_len := encoded_len cs in
  if negb mem then Done None else
  match encode_loop cs (replicate (Z.to_nat (final_len + 1)) NUL) 0 final_len with
  | Done buf => Done (Some (cstr (string_of buf)))
  | Fault => Fault
  | OutOfFuel => OutOfFuel
  end.

Example percent_ex :
  _bx_percent_encoding true "a b/c_=é" = Done (Some "a b%2Fc%5F%3D%C3%A9").
Proof. by vm_compute. Qed.

(** ** Addresses *)

Record BXNetURLParam := mkParam { pr_name : string; pr_value : string }.

(** The length of the [name=value] list. *)
Fixpoint params_len (head : list BXNetURLParam) : Z :=
  match head with
  | [] => 0
  | p :: rest => 1 + strlen (pr_name p) + strlen (pr_value p)
                 + (match rest with [] => 0 | _ => 1 end) + params_len rest
  end.

(** The loop that removes doubled slashes in place: reads at [i], writes at [j]. *)
Fixpoint slash_loop (fuel : nat) (url_len : Z) (buf : list ascii) (i j : Z) (prev : bool)
    : outcome (list ascii * Z) :=
  match fuel with
  | O => OutOfFuel
  | S fuel =>
      if negb (u64 i <? url_len) then Done (buf, j) else
      match aload buf i with
      | None => Fault
      | Some c =>
          if Ascii.eqb c NUL then Done (buf, j)
          else if prev && Ascii.eqb c "/" then slash_loop fuel url_len buf (i + 1) j prev
          else match astore buf j c with
               | None => Fault
               | Some buf => slash_loop fuel url_len buf (i + 1) (j + 1) (Ascii.eqb c "/")
               end
      end
  end.

(** [memcpy(&url[j], text)] and [j += strlen(text)] *)
Definition put_text (st : list ascii * Z) (text : list ascii) : option (list ascii * Z) :=
  match acopy st.1 st.2 text with
  | Some buf => Some (buf, st.2 + Z.of_nat (length text))
  | None => None
  end.

Fixpoint params_loop (head : list BXNetURLParam) (st : list ascii * Z) : option (list ascii * Z) :=
  match head with
  | [] => Some st
  | p :: rest =>
      st ← put_text st (list_of (pr_name p));
      st ← put_text st ["="%char];
      st ← put_text st (list_of (pr_value p));
      st ← match rest with [] => Some st | _ => put_text st ["&"%char] end;
      params_loop rest st
  end.

(** [mem]: [calloc] succeeds; [endpoint_len] is the field of the structure. *)
Definition _bx_build_url (mem : bool) (endpoint : string) (endpoint_len : Z) (path : string)
    (head : list BXNetURLParam) : outcome (option string) :=
  let url_len := u64 (params_len head + (endpoint_len + 1) + (strlen path + 1)) in
  if negb mem then Done None else
  let url := replicate (Z.to_nat (url_len + 1)) NUL in
  let text := list_of (endpoint +:+ "/" +:+ path) in
  match acopy url 0 (take (Z.to_nat (url_len - 1)) text ++ [NUL]) with
  | None => Fault
  | Some url =>
      let start := i32 (u64 (endpoint_len - 2)) in
      match slash_loop (S (Z.to_nat url_len)) url_len url start start false with
      | Done (url, j) =>
          match afill url j (u64 (url_len - j)) NUL with
          | None => Fault
          | Some url =>
              match head with
              | [] => Done (Some (cstr (string_of url)))
              | _ => match put_text (url, j) ["?"%char] ≫= params_loop head with
                     | Some (url, _) => Done (Some (cstr (string_of url)))
                     | None => Fault
                     end
              end
          end
      | Fault => Fault
      | OutOfFuel => OutOfFuel
      end
  end.

Example build_url_ex :
  _bx_build_url true "https://api.bexio.com/" 22 "/2.0//contact"
    [mkParam "limit" "5"; mkParam "order" "id"]
  = Done (Some "https://api.bexio.com/2.0/contact?limit=5&order=id").
Proof. by vm_compute. Qed.

(** ** The encoder and a decoder *)

(** A property of all characters, by enumeration. *)
Lemma forall_char (f : ascii -> bool) :
  forallb (fun z => f (chr z)) (seqZ 0 256) = true -> forall c, f c = true.
Proof.
  intros Hf c. pose proof (code_range c) as Hc.
  rewrite <- (code_inj (chr (code c)) c) by (by apply code_chr).
  by apply (forallb_seqZ (fun z => f (chr z)) 0 256).
Qed.

(** The decoder of a query string. *)
Fixpoint percent_decode (s : list ascii) : list ascii :=
  match s with
  | [] => []
  | c :: rest =>
      if Ascii.eqb c "%" then
        match rest with
        | a :: b :: rest' =>
            match nibble_of a, nibble_of b with
            | Some x, Some y => chr (16 * x + y) :: percent_decode rest'
            | _, _ => c :: percent_decode rest
            end
        | _ => c :: percent_decode rest
        end
      else c :: percent_decode rest
  end.

Definition encode_char (c : ascii) : list ascii := default [c] (encoded c).
Definition percent_text (s : list ascii) : list ascii := s ≫= encode_char.

(** A C string holds no terminator. *)
Definition c_string (s : string) : Prop := Forall (fun c => c <> NUL) (list_of s).

(** What separates the parts of an address. *)
Definition url_delimiter (c : ascii) : bool :=
  existsb (Ascii.eqb c) (list_of "&=?#/:@+;,").

(** The bytes of one character: three that decode to it, or itself. *)
Definition encode_char_ok (c : ascii) : bool :=
  match encoded c with
  | Some [p; a; b] =>
      Ascii.eqb p "%"
      && match nibble_of a, nibble_of b with
         | Some x, Some y => Ascii.eqb (chr (16 * x + y)) c
         | _, _ => false
         end
      && negb (existsb url_delimiter [p; a; b]) && negb (existsb (Ascii.eqb NUL) [p; a; b])
  | Some _ => false
  | None => negb (Ascii.eqb c "%") && negb (url_delimiter c)
  end.

Lemma encode_chars_ok c : encode_char_ok c = true.
Proof. revert c. apply forall_char. vm_compute. reflexivity. Qed.

Inductive encode_char_view (c : ascii) : list ascii -> option (list ascii) -> Prop :=
| view_hex a b x y :
    nibble_of a = Some x -> nibble_of b = Some y -> chr (16 * x + y) = c ->
    url_delimiter a = false -> url_delimiter b = false -> a <> NUL -> b <> NUL ->
    encode_char_view c ["%"%char; a; b] (Some ["%"%char; a; b])
| view_self : c <> "%"%char -> url_delimiter c = false -> encode_char_view c [c] None.

Lemma encode_charP c : encode_char_view c (encode_char c) (encoded c).
Proof.
  pose proof (encode_chars_ok c) as Hc. unfold encode_char, encode_char_ok in *.
  destruct (encoded c) as [[|p [|a [|b [|]]]]|]; try discriminate Hc; cbn [default].
  - rewrite !andb_true_iff, !negb_true_iff in Hc. destruct Hc as [[[Hp Hd] Hs] Hn].
    apply Ascii.eqb_eq in Hp as ->. cbn [existsb] in Hs, Hn.
    rewrite !orb_false_iff in Hs, Hn. destruct Hs as (_ & Ha & Hb & _).
    destruct Hn as (_ & Hna & Hnb & _).
    destruct (nibble_of a) as [x|] eqn:Ex; [|done]. destruct (nibble_of b) as [y|] eqn:Ey; [|done].
    apply Ascii.eqb_eq in Hd. apply Ascii.eqb_neq in Hna, Hnb.
    unfold id. eapply view_hex; eauto.
  - rewrite andb_true_iff, !negb_true_iff in Hc. destruct Hc as [Hp Hd].
    apply Ascii.eqb_neq in Hp. by apply view_self.
Qed.

Lemma percent_decode_text s : percent_decode (percent_text s) = s.
Proof.
  induction s as [|c s IH]; [done|]. unfold percent_text in *. cbn [mbind list_bind].
  destruct (encode_charP c) as [a b x y Ha Hb Hxy _ _ _ _|Hp _].
  - cbn [app percent_decode]. change (Ascii.eqb "%" "%") with true. cbv iota.
    rewrite Ha, Hb, Hxy. by f_equal.
  - cbn [app percent_decode]. apply Ascii.eqb_neq in Hp. rewrite Hp. by f_equal.
Qed.

Lemma percent_text_safe s : Forall (fun c => url_delimiter c = false) (percent_text s).
Proof.
  unfold percent_text. rewrite Forall_bind. apply Forall_true. intros c. cbn.
  destruct (encode_charP c); repeat constructor; done.
Qed.

Lemma percent_text_nonul s :
  Forall (fun c => c <> NUL) s -> Forall (fun c => c <> NUL) (percent_text s).
Proof.
  intros Hs. unfold percent_text. rewrite Forall_bind. eapply Forall_impl; [exact Hs|].
  intros c Hc. cbn. destruct (encode_charP c); repeat constructor; done.
Qed.

(** ** Writing in a zeroed buffer *)

Lemma acopy_replicate text src k i :
  (length src <= k)%nat -> i = Z.of_nat (length text) ->
  acopy (text ++ replicate k NUL) i src
  = Some ((text ++ src) ++ replicate (k - length src) NUL).
Proof.
  intros Hk ->. replace k with (length src + (k - length src))%nat at 1 by lia.
  rewrite replicate_add, (acopy_middle text (replicate (length src) NUL)).
  - by rewrite <- app_assoc.
  - done.
  - by rewrite length_replicate.
Qed.

Lemma put_text_replicate text src k i :
  (length src <= k)%nat -> i = Z.of_nat (length text) ->
  put_text (text ++ replicate k NUL, i) src
  = Some ((text ++ src) ++ replicate (k - length src) NUL, Z.of_nat (length (text ++ src))).
Proof.
  intros Hk ->. unfold put_text. cbn [fst snd]. rewrite acopy_replicate by done.
  rewrite length_app. do 2 f_equal. lia.
Qed.

Lemma cstr_replicate text k :
  Forall (fun c => c <> NUL) text ->
  cstr (string_of (text ++ replicate (S k) NUL)) = string_of text.
Proof.
  induction 1 as [|c text Hc _ IH]; [done|]. cbn [app string_of cstr].
  apply Ascii.eqb_neq in Hc. unfold NUL in Hc at 1. rewrite Hc. by f_equal.
Qed.

(** ** The encoder on its buffer *)

Lemma encoded_len_eq s : encoded_len s = Z.of_nat (length (percent_text s)).
Proof.
  induction s as [|c s IH]; [done|]. cbn [encoded_len]. rewrite IH.
  unfold percent_text. cbn [mbind list_bind]. rewrite length_app.
  unfold _bx_encode_char_percent_encoding.
  destruct (encode_charP c); cbn [length]; lia.
Qed.

Lemma encode_char_write c text n i :
  (length (encode_char c) <= n)%nat -> Z.of_nat n < 2 ^ 64 -> i = Z.of_nat (length text) ->
  exists b, _bx_encode_char_percent_encoding (Some (text ++ replicate (S n) NUL, i)) (Z.of_nat n) c
    = Some (b, Some ((text ++ encode_char c) ++ replicate (S (n - length (encode_char c))) NUL))
  /\ Z.of_nat (length (encode_char c)) = if b then 3 else 1.
Proof.
  intros Hn Hb Hi. unfold _bx_encode_char_percent_encoding.
  assert (forall l, (length l <= n)%nat ->
    acopy (text ++ replicate (S n) NUL) i l
    = Some ((text ++ l) ++ replicate (S (n - length l)) NUL)) as Hput.
  { intros l Hl. rewrite acopy_replicate by lia. do 3 f_equal. lia. }
  destruct (encode_charP c); cbn [length] in Hn |- *; rewrite (proj2 (Z.leb_le _ _)) by lia;
    rewrite Hput by (cbn; lia); by eexists.
Qed.

Lemma encode_loop_eq s text :
  Z.of_nat (length (percent_text s)) < 2 ^ 64 ->
  encode_loop s (text ++ replicate (S (length (percent_text s))) NUL)
    (Z.of_nat (length text)) (Z.of_nat (length (percent_text s)))
  = Done (text ++ percent_text s ++ [NUL]).
Proof.
  revert text. induction s as [|c s IH]; intros text Hs; [done|].
  assert (percent_text (c :: s) = encode_char c ++ percent_text s) as E by done.
  rewrite E, length_app in *. cbn [encode_loop].
  destruct (encode_char_write c text (length (encode_char c) + length (percent_text s))
              (Z.of_nat (length text))) as (b & -> & Hb); [lia..|].
  replace (length (encode_char c) + length (percent_text s) - length (encode_char c))%nat
    with (length (percent_text s)) by lia.
  specialize (IH (text ++ encode_char c) ltac:(lia)).
  rewrite <- (app_assoc (encode_char c)), (app_assoc text), <- IH, length_app.
  destruct b; rewrite u64_small by (unfold is_u64; lia); f_equal; lia.
Qed.

Lemma percent_encoding_eq value :
  c_string value -> Z.of_nat (length (percent_text (list_of value))) < 2 ^ 64 ->
  _bx_percent_encoding true value = Done (Some (string_of (percent_text (list_of value)))).
Proof.
  intros Hc Hb. unfold _bx_percent_encoding. cbn [negb]. rewrite encoded_len_eq.
  replace (Z.to_nat (Z.of_nat (length (percent_text (list_of value))) + 1))
    with (S (length (percent_text (list_of value)))) by lia.
  pose proof (encode_loop_eq (list_of value) [] Hb) as E. cbn [app length] in E.
  change (Z.of_nat 0) with 0 in E. rewrite E.
  change [NUL] with (replicate 1 NUL).
  by rewrite cstr_replicate by (by apply percent_text_nonul).
Qed.

(** ** The address *)

(** A slash that follows a slash is dropped. *)
Fixpoint squeeze (prev : bool) (cs : list ascii) : list ascii :=
  match cs with
  | [] => []
  | c :: cs => if prev && Ascii.eqb c "/" then squeeze prev cs
               else c :: squeeze (Ascii.eqb c "/") cs
  end.

(** [name=value&name=value] *)
Definition param_text (p : BXNetURLParam) : list ascii :=
  list_of (pr_name p) ++ "="%char :: list_of (pr_value p).
Fixpoint query_text (head : list BXNetURLParam) : list ascii :=
  match head with
  | [] => []
  | [p] => param_text p
  | p :: rest => param_text p ++ "&"%char :: query_text rest
  end.

(** The endpoint and the path; doubled slashes go from the last two characters
    of the endpoint on. *)
Definition base_text (endpoint path : string) : list ascii :=
  let s := list_of (endpoint +:+ "/" +:+ path) in
  let n := (length (list_of endpoint) - 2)%nat in
  take n s ++ squeeze false (drop n s).

Definition url_text (endpoint path : string) (head : list BXNetURLParam) : list ascii :=
  base_text endpoint path ++ match head with [] => [] | _ => "?"%char :: query_text head end.

Definition url_size (endpoint path : string) (head : list BXNetURLParam) : Z :=
  params_len head + (strlen endpoint + 1) + (strlen path + 1).

Lemma length_squeeze prev cs : (length (squeeze prev cs) <= length cs)%nat.
Proof.
  revert prev. induction cs as [|c cs IH]; intros prev; [done|]. cbn [squeeze].
  destruct (_ && _); cbn [length]; [specialize (IH prev)|specialize (IH (Ascii.eqb c "/"))]; lia.
Qed.

Lemma squeeze_Forall (P : ascii -> Prop) prev cs : Forall P cs -> Forall P (squeeze prev cs).
Proof.
  intros Hc. revert prev. induction Hc as [|c cs Hc _ IH]; intros prev; [constructor|].
  cbn [squeeze]. destruct (_ && _); [apply IH|]. constructor; [done|apply IH].
Qed.

Lemma slash_loop_eq rest fuel out gap k prev :
  Forall (fun c => c <> NUL) rest -> (length rest < fuel)%nat ->
  let url_len := Z.of_nat (length out + length gap + length rest + k) in
  url_len < 2 ^ 64 ->
  exists gap',
    slash_loop fuel url_len (out ++ gap ++ rest ++ replicate (S k) NUL)
      (Z.of_nat (length out + length gap)) (Z.of_nat (length out)) prev
    = Done ((out ++ squeeze prev rest) ++ gap' ++ replicate (S k) NUL,
            Z.of_nat (length (out ++ squeeze prev rest)))
  /\ (length gap' + length (squeeze prev rest) = length gap + length rest)%nat.
Proof.
  intros Hn. revert fuel out gap prev.
  induction Hn as [|c rest Hc _ IH]; intros [|fuel] out gap prev Hf url_len Hl; subst url_len;
    cbn [length] in Hf; try lia; cbn [slash_loop squeeze].
  - exists gap. rewrite app_nil_r. split; [|cbn; lia].
    destruct (negb _) eqn:Ei; [done|].
    replace (out ++ gap ++ [] ++ replicate (S k) NUL)
      with ((out ++ gap) ++ NUL :: replicate k NUL) by (by rewrite <- app_assoc).
    rewrite <- length_app, aload_middle. change (Ascii.eqb NUL NUL) with true. cbv iota.
    rewrite <- app_assoc. reflexivity.
  - cbn [length] in Hl |- *.
    rewrite u64_small by (unfold is_u64; lia).
    rewrite (proj2 (Z.ltb_lt _ _)) by lia. cbn [negb].
    replace (out ++ gap ++ (c :: rest) ++ replicate (S k) NUL)
      with ((out ++ gap) ++ c :: (rest ++ replicate (S k) NUL)) by (by rewrite <- app_assoc).
    rewrite <- length_app, aload_middle.
    apply Ascii.eqb_neq in Hc. rewrite Hc.
    destruct (prev && Ascii.eqb c "/") eqn:Ed.
    + destruct (IH fuel out (gap ++ [c]) prev) as (gap' & E & Hg);
        [lia|rewrite length_app; cbn [length]; lia|].
      rewrite !length_app in E |- *. rewrite length_app in Hg. cbn [length] in E, Hg.
      exists gap'. split; [|lia].
      rewrite <- E. f_equal; [lia|by rewrite <- !app_assoc|lia].
    + assert (exists gap1, astore ((out ++ gap) ++ c :: rest ++ replicate (S k) NUL)
                (Z.of_nat (length out)) c
              = Some ((out ++ [c]) ++ gap1 ++ rest ++ replicate (S k) NUL)
              /\ length gap1 = length gap) as (gap1 & -> & Hg1).
      { destruct gap as [|g gap].
        - exists []. rewrite app_nil_r, astore_middle. by rewrite <- app_assoc.
        - exists (gap ++ [c]). rewrite <- (app_assoc out). cbn [app].
          rewrite astore_middle, length_app, <- !app_assoc. cbn. split; [done|lia]. }
      destruct (IH fuel (out ++ [c]) gap1 (Ascii.eqb c "/")) as (gap' & E & Hg);
        [lia|rewrite length_app; cbn [length]; lia|].
      rewrite !length_app in E. cbn [length] in E. exists gap'. split.
      * replace (out ++ c :: squeeze (Ascii.eqb c "/") rest)
          with ((out ++ [c]) ++ squeeze (Ascii.eqb c "/") rest) by (by rewrite <- app_assoc).
        rewrite !length_app. cbn [length]. rewrite <- E. f_equal; lia.
      * cbn [length]. lia.
Qed.

Lemma length_query_text head : Z.of_nat (length (query_text head)) = params_len head.
Proof.
  assert (forall p, Z.of_nat (length (param_text p)) = 1 + strlen (pr_name p) + strlen (pr_value p))
    as Hp.
  { intros p. unfold param_text. rewrite length_app. cbn [length].
    rewrite !strlen_list_of. lia. }
  induction head as [|p [|q rest] IH]; [done| |].
  - cbn [query_text params_len]. rewrite Hp. lia.
  - change (query_text (p :: q :: rest)) with (param_text p ++ "&"%char :: query_text (q :: rest)).
    change (params_len (p :: q :: rest))
      with (1 + strlen (pr_name p) + strlen (pr_value p) + 1 + params_len (q :: rest)).
    rewrite length_app, Nat2Z.inj_add, Hp. cbn [length]. lia.
Qed.

Lemma params_loop_eq head text k :
  (length (query_text head) <= k)%nat ->
  params_loop head (text ++ replicate k NUL, Z.of_nat (length text))
  = Some ((text ++ query_text head) ++ replicate (k - length (query_text head)) NUL,
          Z.of_nat (length (text ++ query_text head))).
Proof.
  revert text k. induction head as [|p rest IH]; intros text k Hk.
  - cbn. rewrite app_nil_r, Nat.sub_0_r. done.
  - assert (query_text (p :: rest) = list_of (pr_name p) ++ ["="%char] ++ list_of (pr_value p)
              ++ match rest with [] => [] | _ => ["&"%char] end ++ query_text rest) as E.
    { destruct rest; cbn [query_text]; unfold param_text; cbn [app]; [by rewrite app_nil_r|].
      by rewrite <- app_assoc. }
    rewrite E in *. rewrite !length_app in Hk. cbn [params_loop]. clear E.
    destruct rest as [|q rest]; cbn [length query_text] in Hk; rewrite ?Nat.add_0_r in Hk.
    + do 3 (rewrite put_text_replicate by (cbn [length]; lia); cbn [mbind option_bind]).
      cbn [params_loop query_text]. rewrite !app_nil_r, <- !app_assoc.
      rewrite !length_app. cbn [length]. repeat first [lia | f_equal].
    + do 4 (rewrite put_text_replicate by (cbn [length]; lia); cbn [mbind option_bind]).
      rewrite IH by (cbn [length query_text]; lia). rewrite <- !app_assoc.
      rewrite !length_app. cbn [length]. repeat first [lia | f_equal].
Qed.

Lemma base_text_eq endpoint path :
  (2 <= length (list_of endpoint))%nat ->
  exists pre rest, list_of (endpoint +:+ "/" +:+ path) = pre ++ rest
  /\ base_text endpoint path = pre ++ squeeze false rest
  /\ length pre = (length (list_of endpoint) - 2)%nat.
Proof.
  intros He. eexists _, _. split_and!; [symmetry; apply take_drop|done|].
  rewrite length_take, !list_of_app, length_app. lia.
Qed.

Lemma text_nonul endpoint path :
  c_string endpoint -> c_string path -> c_string (endpoint +:+ "/" +:+ path).
Proof.
  unfold c_string. intros He Hp. rewrite !list_of_app. apply Forall_app. split; [done|].
  by constructor.
Qed.

Lemma query_text_nonul head :
  Forall (fun p => c_string (pr_name p) /\ c_string (pr_value p)) head ->
  Forall (fun c => c <> NUL) (query_text head).
Proof.
  assert (forall p, c_string (pr_name p) /\ c_string (pr_value p) ->
    Forall (fun c => c <> NUL) (param_text p)) as Hp.
  { intros p [Hn Hv]. unfold param_text. apply Forall_app. split; [done|]. by constructor. }
  induction 1 as [|p [|q rest] H _ IH]; [constructor|by apply Hp|].
  cbn [query_text]. apply Forall_app. split; [by apply Hp|]. by constructor.
Qed.

(** The buffer after the copy of the text, as the slash loop takes it. *)
Lemma url_buffer_eq text url_len :
  Z.of_nat (length text) < url_len ->
  acopy (replicate (Z.to_nat (url_len + 1)) NUL) 0 (take (Z.to_nat (url_len - 1)) text ++ [NUL])
  = Some (text ++ replicate (S (Z.to_nat (url_len - Z.of_nat (length text)))) NUL).
Proof.
  intros Hl. rewrite take_ge by lia.
  change (replicate (Z.to_nat (url_len + 1)) NUL) with ([] ++ replicate (Z.to_nat (url_len + 1)) NUL).
  rewrite acopy_replicate by (rewrite ?length_app; cbn; lia).
  cbn [app]. rewrite <- app_assoc. do 2 f_equal. rewrite length_app. cbn [length app].
  change (NUL :: ?x) with (replicate 1 NUL ++ x). rewrite <- replicate_add. f_equal. lia.
Qed.

(** On C strings every write of [_bx_build_url] is in the buffer, and the result
    is the endpoint, a slash and the path without doubled slashes, then [?] and
    the parameters joined by [&]. *)
Lemma build_url_spec endpoint path head :
  (2 <= length (list_of endpoint))%nat -> url_size endpoint path head < 2 ^ 31 ->
  c_string endpoint -> c_string path ->
  Forall (fun p => c_string (pr_name p) /\ c_string (pr_value p)) head ->
  _bx_build_url true endpoint (strlen endpoint) path head
  = Done (Some (string_of (url_text endpoint path head))).
Proof.
  intros He Hs Hce Hcp Hch.
  destruct (base_text_eq endpoint path He) as (pre & rest & Et & Eb & Hpre).
  assert (Forall (fun c => c <> NUL) (pre ++ rest)) as Hnn by (rewrite <- Et; by apply text_nonul).
  apply Forall_app in Hnn as [Hnp Hnr].
  unfold _bx_build_url, url_size in *. cbn [negb].
  pose proof (length_query_text head) as Hq.
  pose proof (strlen_list_of endpoint) as Hle. pose proof (strlen_list_of path) as Hlp.
  rewrite (u64_small (params_len head + _ + _)) by (unfold is_u64; lia).
  set (url_len := params_len head + (strlen endpoint + 1) + (strlen path + 1)) in *.
  rewrite Et.
  assert (length (pre ++ rest) = length (list_of endpoint) + 1 + length (list_of path))%nat as Hlt.
  { rewrite <- Et, !list_of_app, !length_app. cbn. lia. }
  rewrite url_buffer_eq by lia.
  set (k := Z.to_nat (url_len - Z.of_nat (length (pre ++ rest)))).
  assert (i32 (u64 (strlen endpoint - 2)) = Z.of_nat (length pre)) as ->.
  { rewrite u64_small, i32_small by (unfold is_i32, is_u64; lia). lia. }
  rewrite length_app in Hlt.
  destruct (slash_loop_eq rest (S (Z.to_nat url_len)) pre [] k false Hnr)
    as (gap & E & Hg); [lia|cbn [length]; lia|].
  cbn [length app] in E, Hg. rewrite Nat.add_0_r in E.
  replace (Z.of_nat (length pre + length rest + k)) with url_len in E
    by (unfold k; rewrite length_app; lia).
  rewrite <- app_assoc. rewrite E. rewrite <- Eb.
  assert (length (base_text endpoint path) + length gap + k
          = length pre + length rest + k)%nat as Hb by (rewrite Eb, length_app; lia).
  replace (gap ++ replicate (S k) NUL) with ((gap ++ replicate k NUL) ++ [NUL])
    by (by rewrite <- app_assoc, <- replicate_S_end).
  assert (Z.of_nat (length pre + length rest + k) = url_len) as Hk
    by (unfold k; rewrite length_app; lia).
  rewrite (u64_small (url_len - _)) by (unfold is_u64; lia).
  rewrite (afill_middle (base_text endpoint path) (gap ++ replicate k NUL) [NUL])
    by (rewrite ?length_app, ?length_replicate; lia).
  rewrite <- replicate_S_end, length_app, length_replicate.
  assert (Forall (fun c => c <> NUL) (base_text endpoint path)) as Hnb
    by (rewrite Eb; apply Forall_app; split; [done|by apply squeeze_Forall]).
  unfold url_text. destruct head as [|p head].
  { rewrite app_nil_r. by rewrite cstr_replicate. }
  assert (params_len (p :: head) <= Z.of_nat (length gap + k) - 1) as Hroom by lia.
  rewrite put_text_replicate by (cbn; lia). cbn [mbind option_bind].
  rewrite params_loop_eq by (cbn [length]; lia). rewrite <- (app_assoc _ ["?"%char]). cbn [app length].
  replace (S (length gap + k) - 1 - length (query_text (p :: head)))%nat
    with (S (length gap + k - 1 - length (query_text (p :: head)))) by lia.
  rewrite cstr_replicate; [done|].
  apply Forall_app. split; [done|]. constructor; [done|]. by apply query_text_nonul.
Qed.
