(* ===== verification/Net.v ===== *)
(** * One HTTP request: [bx_net.c]

    The callbacks that read a response, the authorization header and
    [bx_fetch], which asks again with a refreshed token when the answer is 401.
    The theorems: how a rate-limit header is read; the body is the
    concatenation of its chunks; a fetch makes at most two requests, the second
    one only after a 401 and with a forced refresh, and releases its mutex. *)
From S2P Require Import Prelude CLib Env Values Objects Utils Url.
#[local] Open Scope Z_scope.

Record BXNetRatelimit := mkLimits {
  max_request : Z;
  remaining_request : Z;
  reset_time : Z
}.

(** The part of the structure that changes; [net_locked] is its [mutex]. *)
Record BXNet := mkNet {
  endpoint : string;
  endpoint_len : Z;
  limits : BXNetRatelimit;
  average_request_time : Z;
  request_count : Z;
  net_locked : bool
}.

(** [data] holds its [data_len] bytes, a terminator follows them. *)
Record BXNetRData := mkRData { rd_data : option string; http_code : Z }.
Definition data_len (d : BXNetRData) : Z := strlen (bytes_of (rd_data d)).

(** ** Callbacks *)

Definition RLIMIT_LIMIT : string := "ratelimit-limit".
Definition RLIMIT_REMAIN : string := "ratelimit-remaining".
Definition RLIMIT_RESET : string := "ratelimit-reset".

(** [sizeof] of a literal *)
Definition sizeof (s : string) : Z := strlen s + 1.

(** [n] bytes at [i] of a memory area. *)
Definition amem (l : list ascii) (i n : Z) : option (list ascii) :=
  if in_bounds l i n then Some (take (Z.to_nat n) (drop (Z.to_nat i) l)) else None.

Fixpoint skip_colon (s : string) : string :=
  match s with
  | String c r => if Ascii.eqb c " " || Ascii.eqb c ":" then skip_colon r else s
  | EmptyString => s
  end.

(** One of the three blocks: [None] when the test fails, and otherwise the
    value to store, if there is one.  [buffer] is the memory at the pointer,
    of which the header is the [n] first bytes. *)
Definition read_limit (name : string) (buffer : list ascii) (n : Z) : outcome (option (option Z)) :=
  if (sizeof name <? n) && bx_string_compare (string_of buffer) name (Z.to_nat (sizeof name))
     && (n - sizeof name <? 10)
  then
    match amem buffer (sizeof name + 1) (n - sizeof name) with
    | None => Fault
    | Some bytes =>
        match skip_colon (cstr (string_of bytes)) with
        | EmptyString => Done (Some None)
        | b => let v := i32 (strtol b).1 in
               Done (Some (if v =? 0 then None else Some v))
        end
    end
  else Done None.

(** [lock_ok]: the lock of [mutex_limit] succeeds, else the assert fails. *)
Definition store_limit (lock_ok : bool) (f : Z -> BXNetRatelimit -> BXNetRatelimit)
    (v : option Z) (l : BXNetRatelimit) : outcome BXNetRatelimit :=
  match v with
  | None => Done l
  | Some v => if lock_ok then Done (f v l) else Fault
  end.

Definition set_max (v : Z) (l : BXNetRatelimit) : BXNetRatelimit :=
  mkLimits v (remaining_request l) (reset_time l).
Definition set_remaining (v : Z) (l : BXNetRatelimit) : BXNetRatelimit :=
  mkLimits (max_request l) v (reset_time l).
Definition set_reset (v : Z) (l : BXNetRatelimit) : BXNetRatelimit :=
  mkLimits (max_request l) (remaining_request l) v.

Definition header_blocks : list (string * (Z -> BXNetRatelimit -> BXNetRatelimit)) :=
  [(RLIMIT_LIMIT, set_max); (RLIMIT_REMAIN, set_remaining); (RLIMIT_RESET, set_reset)].

Fixpoint try_blocks (lock_ok : bool)
    (blocks : list (string * (Z -> BXNetRatelimit -> BXNetRatelimit)))
    (buffer : list ascii) (n : Z) (l : BXNetRatelimit) : outcome BXNetRatelimit :=
  match blocks with
  | [] => Done l
  | (name, f) :: blocks =>
      match read_limit name buffer n with
      | Done None => try_blocks lock_ok blocks buffer n l
      | Done (Some v) => store_limit lock_ok f v l
      | Fault => Fault
      | OutOfFuel => OutOfFuel
      end
  end.

(** What it returns, and the limits. *)
Definition bx_header_callback (lock_ok : bool) (buffer : option (list ascii))
    (size item_count : Z) (l : BXNetRatelimit) : outcome (Z * BXNetRatelimit) :=
  let n := u64 (size * item_count) in
  match buffer with
  | None => Done (n, l)
  | Some mem =>
      if item_count =? 0 then Done (n, l) else
      match try_blocks lock_ok header_blocks mem n l with
      | Done l => Done (n, l)
      | Fault => Fault
      | OutOfFuel => OutOfFuel
      end
  end.

(** [mem]: [realloc] succeeds; [chunk] has [size * nmemb] bytes. *)
Definition _bx_write_cb (mem : bool) (chunk : string) (size : Z) (d : BXNetRData)
    : Z * BXNetRData :=
  if size =? 0 then (0, d)
  else if negb mem then (0, d)
  else (strlen chunk, mkRData (Some (bytes_of (rd_data d) +:+ chunk)) (http_code d)).

(** ** The request *)

(** What the transfer hands to the callbacks. *)
Inductive curl_event :=
| HeaderLine (buffer : list ascii) (n : Z)
| BodyChunk (chunk : string).

(** A transfer: the events, [CURLE_OK], the response code. *)
Record curl_answer := mkAnswer { ca_events : list curl_event; ca_ok : bool; ca_code : Z }.

(** The token store: [bx_oauth_ensure] and [bx_oauth_access_token]. *)
Class TokenEnv (W : Type) := {
  oauth_ensure : bool -> prog W bool;
  oauth_access_token : prog W (option string)
}.

(** libcurl, the allocator and the clock. *)
Class CurlEnv (W : Type) := {
  net_memory : prog W bool;
  curl_slist_append : list string -> string -> prog W (option (list string));
  curl_setopt : nat -> prog W bool;
  curl_perform : list string -> string -> prog W curl_answer;
  curl_reset : prog W unit;
  clock : prog W Z
}.

Definition BX_API_AUTH_HEADER : string := "Authorization: Bearer ".
Definition ACCEPT_HEADER : string := "Accept: application/json".
Definition USER_AGENT_HEADER : string :=
  "User-Agent: bx-sync/dev (https://github.com/artnum/bx-sync; etienne@artnum.ch)".

Section Fetch.
Context {W : Type} `{!TokenEnv W} `{!CurlEnv W}.

Definition net_prog (A : Type) : Type := prog (BXNet * W) A.
Definition env {A} (m : prog W A) : net_prog A := on_snd m.

Definition set_net (f : BXNet -> BXNet) : net_prog unit := modify (fun w => (f w.1, w.2)).
Definition set_limits (l : BXNetRatelimit) (n : BXNet) : BXNet :=
  mkNet (endpoint n) (endpoint_len n) l (average_request_time n) (request_count n) (net_locked n).
Definition set_locked (b : bool) (n : BXNet) : BXNet :=
  mkNet (endpoint n) (endpoint_len n) (limits n) (average_request_time n) (request_count n) b.

(** A lock of a mutex that is held never returns. *)
Definition lock_net : net_prog unit :=
  n <- gets fst ;;
  if net_locked n then fault else set_net (set_locked true).
Definition unlock_net : net_prog unit := set_net (set_locked false).

Definition bx_auth_header (force : bool) : net_prog (option string) :=
  ok <- env (oauth_ensure force) ;;
  if negb ok then ret None else
  tok <- env oauth_access_token ;;
  match tok with
  | None => ret None
  | Some tok =>
      m <- env net_memory ;;
      if negb m then ret None
      else ret (Some (snprintf (strlen tok + sizeof BX_API_AUTH_HEADER + 1)
                        (BX_API_AUTH_HEADER +:+ tok)))
  end.

(** The callbacks run on the events of the transfer; a short count stops it. *)
Fixpoint run_events (events : list curl_event) (d : BXNetRData) : net_prog (bool * BXNetRData) :=
  match events with
  | [] => ret (true, d)
  | HeaderLine buffer n :: events =>
      net <- gets fst ;;
      let* (count, l) := fun w => match bx_header_callback true (Some buffer) 1 n (limits net) with
                                  | Done r => Done (r, w)
                                  | Fault => Fault
                                  | OutOfFuel => OutOfFuel
                                  end in
      set_net (set_limits l) ;;;
      if negb (count =? n) then ret (false, d) else run_events events d
  | BodyChunk chunk :: events =>
      m <- env net_memory ;;
      let '(count, d) := _bx_write_cb m chunk 1 d in
      if negb (count =? strlen chunk) then ret (false, d) else run_events events d
  end.

Fixpoint setopts (options : list nat) : net_prog bool :=
  match options with
  | [] => ret true
  | o :: options => ok <- env (curl_setopt o) ;; if negb ok then ret false else setopts options
  end.

(** The counters after a transfer of [spent] clock ticks. *)
Definition count_request (spent : Z) (n : BXNet) : option BXNet :=
  let count := u64 (request_count n + 1) in
  if count =? 0 then None
  else Some (mkNet (endpoint n) (endpoint_len n) (limits n)
               (i64 (u64 (spent + average_request_time n * count) / count)) count (net_locked n)).

(** The two headers after the authorization; [None] is a failed [append]. *)
Definition header_list (auth_token : string) : net_prog (option (list string)) :=
  l <- env (curl_slist_append [] auth_token) ;;
  match l with
  | None => ret None
  | Some l =>
      l <- env (curl_slist_append l ACCEPT_HEADER) ;;
      match l with
      | None => ret None
      | Some l => env (curl_slist_append l USER_AGENT_HEADER)
      end
  end.

(** The body of the [for] loop: [None] is the jump to the failure label. *)
Definition fetch_attempt (url : string) (attempt : Z) : net_prog (option BXNetRData) :=
  auth_token <- bx_auth_header (0 <? attempt) ;;
  match auth_token with
  | None => ret None
  | Some auth_token =>
      headers <- header_list auth_token ;;
      match headers with
      | None => ret None
      | Some headers =>
          ok <- setopts (seq 0 7) ;;
          if negb ok then ret None else
          start <- env clock ;;
          answer <- env (curl_perform headers url) ;;
          let* (taken, d) := run_events (ca_events answer) (mkRData None 0) in
          if negb (ca_ok answer && taken) then ret None else
          stop <- env clock ;;
          n <- gets fst ;;
          match count_request (stop - start) n with
          | None => fault
          | Some n =>
              set_net (fun _ => n) ;;;
              env curl_reset ;;;
              ret (Some (mkRData (rd_data d) (ca_code answer)))
          end
      end
  end.

Definition fetch_failed : net_prog (option BXNetRData) :=
  env curl_reset ;;; unlock_net ;;; ret None.

(** [tries] attempts are left, the next is [attempt]; past the last one the
    code falls into the failure label. *)
Fixpoint fetch_loop (tries : nat) (url : string) (attempt : Z) : net_prog (option BXNetRData) :=
  match tries with
  | O => fetch_failed
  | S tries =>
      r <- fetch_attempt url attempt ;;
      match r with
      | None => fetch_failed
      | Some d =>
          if negb (http_code d =? 401) || (attempt =? 1)
          then unlock_net ;;; ret (Some d)
          else fetch_loop tries url (attempt + 1)
      end
  end.

Definition bx_fetch (path : string) (params : list BXNetURLParam) : net_prog (option BXNetRData) :=
  lock_net ;;;
  net <- gets fst ;;
  m <- env net_memory ;;
  url <- (fun w => match _bx_build_url m (endpoint net) (endpoint_len net) path params with
                   | Done r => Done (r, w)
                   | Fault => Fault
                   | OutOfFuel => OutOfFuel
                   end) ;;
  match url with
  | None => unlock_net ;;; ret None
  | Some url =>
      m <- env net_memory ;;
      if negb m then unlock_net ;;; ret None
      else fetch_loop 2 url 0
  end.
End Fetch.

(** ** Reading a rate-limit header *)

Lemma string_compare_header p s n : bx_string_compare (p +:+ s) p n = true.
Proof.
  revert n. induction p as [|c p IH]; intros [|n]; [by destruct s|by destruct s|done|].
  change ((if Ascii.eqb c c then bx_string_compare (p +:+ s) p n else false) = true).
  by rewrite Ascii.eqb_refl.
Qed.

Lemma dec_loop_digits fuel n s :
  0 <= n -> Forall (fun c => isdigit c = true) (list_of s) ->
  Forall (fun c => isdigit c = true) (list_of (dec_loop fuel n s)).
Proof.
  revert n s. induction fuel as [|fuel IH]; intros n s Hn Hs; [done|]. cbn [dec_loop].
  destruct (Z.ltb_spec n 10).
  - cbn. constructor; [|done]. apply isdigit_digit. lia.
  - apply IH; [apply Z.div_pos; lia|]. cbn. constructor; [|done].
    apply isdigit_digit. apply Z.mod_pos_bound. lia.
Qed.

Lemma dec_digits n : 0 <= n -> Forall (fun c => isdigit c = true) (list_of (dec n)).
Proof.
  intros Hn. unfold dec. rewrite (proj2 (Z.ltb_ge _ _)) by lia.
  by apply dec_loop_digits.
Qed.

(** Digits print without a terminator. *)
Lemma cstr_digits s t :
  Forall (fun c => isdigit c = true) (list_of s) -> cstr (s +:+ t) = s +:+ cstr t.
Proof.
  induction s as [|c s IH]; [done|]. cbn [list_of]. intros [Hc Hs]%Forall_cons. cbn.
  rewrite IH by done. destruct (Ascii.eqb_spec c "000") as [->|_]; [|done]. discriminate Hc.
Qed.

Definition CRLF : list ascii := [chr 13; chr 10].

(** A header of a name and a number as HTTP sends it, and what follows it in memory. *)
Definition header_text (name : string) (v : Z) : list ascii :=
  list_of name ++ [":"%char; " "%char] ++ list_of (dec v) ++ CRLF.

Lemma amem_middle a b c i n :
  i = Z.of_nat (length a) -> n = Z.of_nat (length b) -> amem (a ++ b ++ c) i n = Some b.
Proof.
  intros -> ->. unfold amem. rewrite (proj2 (in_bounds_true _ _ _)).
  - by rewrite !Nat2Z.id, drop_app_length, take_app_length.
  - rewrite !length_app. lia.
Qed.

Lemma amem_out l i n : Z.of_nat (length l) < i + n -> amem l i n = None.
Proof.
  intros Hl. unfold amem. destruct (in_bounds l i n) eqn:E; [|done].
  apply in_bounds_true in E. lia.
Qed.

(** The block of a name, on a header of that name: the number is read (0 is
    not stored), one byte after the header is read too. *)
Lemma read_limit_header name v more :
  0 <= v < 2 ^ 31 -> strlen (dec v) <= 6 ->
  let n := Z.of_nat (length (header_text name v)) in
  read_limit name (header_text name v ++ more) n
  = match more with [] => Fault | _ => Done (Some (if v =? 0 then None else Some v)) end.
Proof.
  intros Hv Hl n. pose proof (strlen_list_of name) as Hn. pose proof (strlen_list_of (dec v)) as Hd.
  pose proof (dec_strlen v) as Hp.
  assert (n = strlen name + strlen (dec v) + 4) as Hlen.
  { unfold n, header_text. rewrite !length_app. cbn [length CRLF]. lia. }
  unfold read_limit, sizeof. rewrite (proj2 (Z.ltb_lt _ _)) by lia.
  rewrite (proj2 (Z.ltb_lt (n - _) 10)) by lia.
  assert (string_of (header_text name v ++ more)
          = name +:+ string_of ([":"%char; " "%char] ++ list_of (dec v) ++ CRLF ++ more)) as ->.
  { unfold header_text. rewrite <- !app_assoc, (string_of_app (list_of name)).
    by rewrite string_of_list_of. }
  rewrite string_compare_header. cbn [andb].
  destruct more as [|x more].
  { rewrite app_nil_r, amem_out; [done|]. unfold header_text in *. fold n. lia. }
  assert (header_text name v ++ x :: more
          = (list_of name ++ [":"%char; " "%char]) ++ (list_of (dec v) ++ CRLF ++ [x]) ++ more) as ->.
  { unfold header_text. by rewrite <- !app_assoc. }
  rewrite amem_middle by (rewrite !length_app; cbn [length CRLF]; lia).
  rewrite string_of_app, string_of_list_of, cstr_digits by (apply dec_digits; lia).
  assert (exists y, cstr (string_of (CRLF ++ [x])) = String (chr 13) y) as [y ->] by (by eexists).
  pose proof (strtol_dec_app LONG_MIN LONG_MAX v (String (chr 13) y)) as Ht.
  unfold LONG_MIN, LONG_MAX, INT64_MIN, INT64_MAX in Ht.
  specialize (Ht ltac:(lia) ltac:(lia) eq_refl).
  pose proof (dec_digits v ltac:(lia)) as Hdig.
  destruct (dec v) as [|c s] eqn:Ed; [done|].
  assert (skip_colon (String c s +:+ String (chr 13) y) = String c (s +:+ String (chr 13) y)) as ->.
  { cbn [list_of] in Hdig. apply Forall_cons in Hdig as [Hc _]. cbn.
    destruct (Ascii.eqb_spec c " ") as [->|_]; [discriminate Hc|].
    destruct (Ascii.eqb_spec c ":") as [->|_]; [discriminate Hc|done]. }
  cbn [String.append] in Ht. cbv zeta. unfold strtol. unfold LONG_MIN, LONG_MAX, INT64_MIN, INT64_MAX.
  rewrite Ht. cbn [fst]. rewrite i32_small by (unfold is_i32; lia). done.
Qed.

(** A header of another name does not match. *)
Lemma read_limit_other name name' v more n :
  bx_string_compare (string_of (header_text name' v ++ more)) name (Z.to_nat (sizeof name)) = false ->
  read_limit name (header_text name' v ++ more) n = Done None.
Proof. intros E. unfold read_limit. by rewrite E, andb_false_r. Qed.

(** The field of a block. *)
Definition limit_setter (i : nat) : Z -> BXNetRatelimit -> BXNetRatelimit :=
  match header_blocks !! i with Some (_, f) => f | None => fun _ l => l end.
Definition limit_name (i : nat) : string :=
  match header_blocks !! i with Some (name, _) => name | None => EmptyString end.

(** A rate-limit header as the server sends it, its number of at most six digits:
    the number is stored in the field of the header, unless it is 0, which
    leaves the field as it was.  The copy reads one byte after the header: when
    that byte is not readable the callback faults. *)
Theorem header_callback_reads i v more l :
  (i < 3)%nat -> 0 <= v < 2 ^ 31 -> strlen (dec v) <= 6 ->
  let n := Z.of_nat (length (header_text (limit_name i) v)) in
  bx_header_callback true (Some (header_text (limit_name i) v ++ more)) 1 n l
  = match more with
    | [] => Fault
    | _ => Done (n, if v =? 0 then l else limit_setter i v l)
    end.
Proof.
  intros Hi Hv Hl n.
  assert (n = strlen (limit_name i) + strlen (dec v) + 4) as Hlen.
  { unfold n, header_text. rewrite !length_app. cbn [length CRLF].
    rewrite !strlen_list_of. lia. }
  pose proof (dec_strlen v). pose proof (strlen_nonneg (limit_name i)).
  assert (strlen (limit_name i) <= 19) by (destruct i as [|[|[|i]]]; by vm_compute).
  unfold bx_header_callback. rewrite Z.mul_1_l, u64_small by (unfold is_u64; lia).
  rewrite (proj2 (Z.eqb_neq n 0)) by lia.
  assert (forall o : outcome BXNetRatelimit, o = match more with
      | [] => Fault | _ => Done (if v =? 0 then l else limit_setter i v l) end ->
    match o with Done l0 => Done (n, l0) | Fault => Fault | OutOfFuel => OutOfFuel end
    = match more with [] => Fault | _ => Done (n, if v =? 0 then l else limit_setter i v l) end)
    as Hfin by (intros o ->; by destruct more).
  apply Hfin. unfold n. clear Hfin Hlen n.
  destruct i as [|[|[|i]]]; [| | |lia]; cbn [limit_name limit_setter header_blocks lookup list_lookup];
    unfold header_blocks; cbn [try_blocks];
    repeat (rewrite read_limit_other by reflexivity);
    rewrite read_limit_header by done;
    destruct more; try done; unfold store_limit; by destruct (v =? 0).
Qed.

Lemma header_callback_reads_witness :
  bx_header_callback true (Some (list_of "ratelimit-remaining: 42" ++ CRLF ++ [NUL])) 1 25
    (mkLimits 0 0 0) = Done (25, mkLimits 0 42 0).
Proof.
  apply (header_callback_reads 1 42 [NUL] (mkLimits 0 0 0)); [lia|lia|].
  vm_compute. discriminate.
Defined.

(** The chunks of a body, whatever their number, make its text. *)
Lemma write_cb_body chunks d :
  foldl (fun d chunk => (_bx_write_cb true chunk 1 d).2) d chunks
  = match chunks with
    | [] => d
    | _ => mkRData (Some (bytes_of (rd_data d) +:+ foldr String.append EmptyString chunks))
             (http_code d)
    end.
Proof.
  revert d. induction chunks as [|c chunks IH]; intros d; [done|]. cbn [foldl foldr].
  rewrite IH. cbn. destruct chunks; cbn; by rewrite ?append_nil_r, ?append_assoc.
Qed.

(** [average_request_time] is meant as a mean: it never goes down. *)
Lemma average_grows spent n n' :
  0 <= spent -> 0 <= average_request_time n -> 0 <= request_count n < 2 ^ 32 ->
  spent + average_request_time n * (request_count n + 1) < 2 ^ 63 ->
  count_request spent n = Some n' -> average_request_time n <= average_request_time n'.
Proof.
  intros Hs Ha Hc Hb. unfold count_request.
  rewrite (u64_small (request_count n + 1)) by (unfold is_u64; lia).
  rewrite (proj2 (Z.eqb_neq _ _)) by lia. intros [= <-]. cbn [average_request_time].
  rewrite (u64_small (spent + _)) by (unfold is_u64; nia).
  rewrite Z.div_add by lia.
  assert (0 <= spent / (request_count n + 1)) by (apply Z.div_pos; lia).
  assert (spent / (request_count n + 1) <= spent) by (apply Z.div_le_upper_bound; nia).
  rewrite i64_small by (unfold is_i64; nia). lia.
Qed.

(** ** A fetch against a server *)

Inductive fetch_event :=
| Ensured (force : bool)
| Requested (headers : list string) (url : string).

(** The token store and the server answer by the history. *)
Record fetch_oracle := mkOracle {
  fo_ensure : list fetch_event -> bool -> bool;
  fo_token : list fetch_event -> option string;
  fo_answer : list fetch_event -> list string -> string -> curl_answer
}.

Section FetchSpec.
Context (o : fetch_oracle).

#[local] Instance oracle_tokens : TokenEnv (list fetch_event) :=
  {| oauth_ensure force log := Done (fo_ensure o log force, log ++ [Ensured force]);
     oauth_access_token log := Done (fo_token o log, log) |}.
#[local] Instance oracle_curl : CurlEnv (list fetch_event) :=
  {| net_memory := ret true;
     curl_slist_append l s := ret (Some (l ++ [s]));
     curl_setopt _ := ret true;
     curl_perform headers url log :=
       Done (fo_answer o log headers url, log ++ [Requested headers url]);
     curl_reset := ret tt;
     clock := ret 0 |}.

Definition traced_fetch (path : string) (params : list BXNetURLParam)
    : prog (BXNet * list fetch_event) (option BXNetRData) := bx_fetch path params.

(** What one attempt asks and gives. *)
Definition request_headers (tok : string) : list string :=
  [BX_API_AUTH_HEADER +:+ tok; ACCEPT_HEADER; USER_AGENT_HEADER].

Definition body_of (events : list curl_event) : option string :=
  match events ≫= (fun e => match e with BodyChunk c => [c] | _ => [] end) with
  | [] => None
  | chunks => Some (foldr String.append EmptyString chunks)
  end.

Definition fetch_once (url : string) (force : bool) (log : list fetch_event)
    : option BXNetRData * list fetch_event :=
  let log1 := log ++ [Ensured force] in
  if negb (fo_ensure o log force) then (None, log1) else
  match fo_token o log1 with
  | None => (None, log1)
  | Some tok =>
      let headers := request_headers tok in
      let answer := fo_answer o log1 headers url in
      (if ca_ok answer then Some (mkRData (body_of (ca_events answer)) (ca_code answer)) else None,
       log1 ++ [Requested headers url])
  end.

(** Ask; after a 401 ask again with a forced refresh. *)
Definition fetch_spec (url : string) (log : list fetch_event)
    : option BXNetRData * list fetch_event :=
  let '(r, log) := fetch_once url false log in
  match r with
  | Some d => if http_code d =? 401 then fetch_once url true log else (r, log)
  | None => (r, log)
  end.

(** A header that the callback reads, whatever the limits are. *)
Definition readable_event (e : curl_event) : Prop :=
  match e with
  | HeaderLine buffer n =>
      forall l, exists l', bx_header_callback true (Some buffer) 1 n l = Done (n, l')
  | BodyChunk _ => True
  end.
Definition readable_answers : Prop :=
  forall log headers url, Forall readable_event (ca_events (fo_answer o log headers url)).

(** The structure after a fetch: only the limits and the counters differ. *)
Definition net_after (n n' : BXNet) : Prop :=
  endpoint n' = endpoint n /\ endpoint_len n' = endpoint_len n /\ net_locked n' = net_locked n
  /\ request_count n <= request_count n' <= request_count n + 1.

Lemma append_body d chunk rest :
  bytes_of (rd_data d) +:+ (chunk +:+ rest) = (bytes_of (rd_data d) +:+ chunk) +:+ rest.
Proof. by rewrite append_assoc. Qed.

Lemma run_events_eq events d n log :
  Forall readable_event events ->
  exists n', run_events events d (n, log)
    = Done ((true, match body_of events with
                   | None => d
                   | Some b => mkRData (Some (bytes_of (rd_data d) +:+ b)) (http_code d)
                   end), (n', log))
  /\ endpoint n' = endpoint n /\ endpoint_len n' = endpoint_len n /\ net_locked n' = net_locked n
  /\ request_count n' = request_count n /\ average_request_time n' = average_request_time n.
Proof.
  intros He. revert d n. induction He as [|e events He _ IH]; intros d n.
  - exists n. by destruct d.
  - destruct e as [buffer k|chunk]; cbn [run_events].
    + destruct (He (limits n)) as [l' El].
      unfold bind at 1, gets at 1. cbn [fst]. unfold bind at 1. rewrite El.
      unfold bind at 1, set_net at 1, modify at 1. cbn [fst snd].
      rewrite Z.eqb_refl. cbn [negb].
      destruct (IH d (set_limits l' n)) as (n' & E & Hn). exists n'. split; [exact E|exact Hn].
    + unfold bind at 1, env at 1, on_snd at 1. cbn [snd net_memory oracle_curl ret fst].
      unfold _bx_write_cb. cbn [negb Z.eqb]. rewrite Z.eqb_refl. cbn [negb].
      destruct (IH (mkRData (Some (bytes_of (rd_data d) +:+ chunk)) (http_code d)) n)
        as (n' & E & Hn). exists n'. split; [|exact Hn]. etrans; [exact E|].
      unfold body_of. cbn [mbind list_bind app].
      destruct (events ≫= _) as [|c cs]; cbn [foldr rd_data http_code bytes_of default];
        [by rewrite append_nil_r|]. unfold id. by rewrite append_assoc.
Qed.

Lemma auth_header_text tok :
  snprintf (strlen tok + sizeof BX_API_AUTH_HEADER + 1) (BX_API_AUTH_HEADER +:+ tok)
  = BX_API_AUTH_HEADER +:+ tok.
Proof.
  unfold snprintf. rewrite take_ge; [apply string_of_list_of|].
  pose proof (strlen_list_of (BX_API_AUTH_HEADER +:+ tok)) as Hl.
  rewrite strlen_append in Hl. unfold sizeof. lia.
Qed.

Lemma fetch_attempt_eq url attempt n log :
  readable_answers -> 0 <= request_count n < 2 ^ 64 - 1 ->
  exists n', fetch_attempt url attempt (n, log)
    = Done ((fetch_once url (0 <? attempt) log).1, (n', (fetch_once url (0 <? attempt) log).2))
  /\ net_after n n'.
Proof.
  intros Hr Hc. unfold fetch_once. set (force := 0 <? attempt).
  set (log1 := log ++ [Ensured force]).
  assert (forall (r : option BXNetRData) l, fetch_attempt url attempt (n, log) = Done (r, (n, l)) ->
    exists n', fetch_attempt url attempt (n, log) = Done (r, (n', l)) /\ net_after n n') as Hsame.
  { intros r l E. exists n. split; [exact E|]. unfold net_after. split_and!; done || lia. }
  destruct (fo_ensure o log force) eqn:Ef; cbn [negb fst snd].
  2: { apply Hsame. unfold fetch_attempt, bx_auth_header. fold force.
       etrans; [eapply bind_eq; step; rewrite Ef; reflexivity|]. reflexivity. }
  destruct (fo_token o log1) as [tok|] eqn:Et; cbn [fst snd].
  2: { apply Hsame. unfold fetch_attempt, bx_auth_header. fold force.
       etrans; [eapply bind_eq; step; rewrite Ef; cbn [negb]; step; fold log1; rewrite Et; reflexivity|].
       reflexivity. }
  set (answer := fo_answer o log1 (request_headers tok) url).
  set (log2 := log1 ++ [Requested (request_headers tok) url]).
  destruct (run_events_eq (ca_events answer) (mkRData None 0) n log2 (Hr _ _ _))
    as (n1 & E & He1 & He2 & He3 & He4 & _).
  assert (fetch_attempt url attempt (n, log)
    = bind (run_events (ca_events answer) (mkRData None 0)) (fun '(taken, d) =>
        if negb (ca_ok answer && taken) then ret None else
        bind (env clock) (fun stop => bind (gets fst) (fun n =>
          match count_request (stop - 0) n with
          | None => fault
          | Some n => set_net (fun _ => n) ;;; env curl_reset ;;;
              ret (Some (mkRData (rd_data d) (ca_code answer)))
          end))) (n, log2)) as ->.
  { unfold fetch_attempt, bx_auth_header. fold force.
    etrans; [eapply bind_eq; step; rewrite Ef; cbn [negb]; step; fold log1; rewrite Et; step; reflexivity|].
    rewrite auth_header_text. step. do 2 step. step. reflexivity. }
  rewrite (bind_eq _ _ _ _ _ E). destruct (ca_ok answer); cbn [andb negb].
  2: { exists n1. split; [reflexivity|]. unfold net_after. rewrite He4. split_and!; done || lia. }
  assert (exists n2, count_request (0 - 0) n1 = Some n2 /\ net_after n n2) as (n2 & Ec & Hn2).
  { unfold count_request. rewrite u64_small by (unfold is_u64; lia).
    rewrite (proj2 (Z.eqb_neq _ _)) by lia. eexists. split; [done|].
    unfold net_after. cbn. split_and!; done || lia. }
  exists n2. split; [|done]. do 2 step. rewrite Ec. do 2 step.
  cbn [rd_data bytes_of default]. by destruct (body_of _).
Qed.

Lemma fetch_starts path params url n log :
  net_locked n = false ->
  _bx_build_url true (endpoint n) (endpoint_len n) path params = Done (Some url) ->
  traced_fetch path params (n, log) = fetch_loop 2 url 0 (set_locked true n, log).
Proof.
  intros Hl Hu. unfold traced_fetch, bx_fetch, lock_net.
  etrans; [eapply bind_eq; step; rewrite Hl; reflexivity|]. do 2 step.
  cbn [endpoint endpoint_len set_locked].
  etrans; [eapply bind_eq; by rewrite Hu|]. by step.
Qed.

(** Claim C31. A fetch whose address is built: it asks for a token and sends one request, and
    when the answer is 401 it forces a refresh and sends a second and last
    one; the result is the last answer with its whole body, [NULL] when a token
    or a transfer failed, and the mutex is released. *)
Theorem fetch_refreshes_once path params url n log :
  readable_answers -> 0 <= request_count n < 2 ^ 64 - 2 -> net_locked n = false ->
  _bx_build_url true (endpoint n) (endpoint_len n) path params = Done (Some url) ->
  exists n', traced_fetch path params (n, log)
    = Done ((fetch_spec url log).1, (n', (fetch_spec url log).2))
  /\ net_locked n' = false
  /\ request_count n <= request_count n' <= request_count n + 2.
Proof.
  intros Hr Hc Hl Hu. rewrite (fetch_starts path params url n log Hl Hu). unfold fetch_spec.
  set (nl := set_locked true n).
  destruct (fetch_attempt_eq url 0 nl log Hr) as (n1 & E1 & _ & _ & _ & Hn1); [cbn; lia|].
  change (0 <? 0) with false in E1. change (request_count nl) with (request_count n) in Hn1.
  destruct (fetch_once url false log) as [[d|] log1]; cbn [fst snd] in E1 |- *;
    cbn [fetch_loop]; rewrite (bind_eq _ _ _ _ _ E1).
  2: { exists (set_locked false n1). split; [done|]. cbn. split; [done|lia]. }
  change (0 =? 1) with false. rewrite orb_false_r.
  destruct (http_code d =? 401); cbn [negb].
  2: { exists (set_locked false n1). split; [done|]. cbn. split; [done|lia]. }
  destruct (fetch_attempt_eq url (0 + 1) n1 log1 Hr) as (n2 & E2 & _ & _ & _ & Hn2); [lia|].
  change (0 <? 0 + 1) with true in E2.
  destruct (fetch_once url true log1) as [[d2|] log2]; cbn [fst snd] in E2 |- *;
    rewrite (bind_eq _ _ _ _ _ E2); exists (set_locked false n2); cbn.
  - rewrite orb_true_r. split; [done|]. split; [done|lia].
  - split; [done|]. split; [done|lia].
Qed.
End FetchSpec.

(** A token that has expired on the server: one 401, then the page. *)
Definition expired_oracle : fetch_oracle :=
  mkOracle (fun _ _ => true) (fun log => Some (if bool_decide (length log = 1%nat) then "old" else "new"))
    (fun log headers _ =>
       match headers with
       | h :: _ => if str_eq h "Authorization: Bearer new"
                   then mkAnswer [BodyChunk "[1,"; BodyChunk "2]"] true 200
                   else mkAnswer [] true 401
       | [] => mkAnswer [] false 0
       end).

Lemma fetch_refreshes_once_witness :
  exists n', traced_fetch expired_oracle "2.0/unit" []
      (mkNet "https://api" 11 (mkLimits 0 0 0) 0 0 false, [])
    = Done (Some (mkRData (Some "[1,2]") 200), (n',
        [Ensured false; Requested (request_headers "old") "https://api/2.0/unit";
         Ensured true; Requested (request_headers "new") "https://api/2.0/unit"]))
  /\ net_locked n' = false /\ 0 <= request_count n' <= 0 + 2.
Proof.
  apply (fetch_refreshes_once expired_oracle "2.0/unit" [] "https://api/2.0/unit").
  - intros log headers url. cbn. destruct headers as [|h hs]; [constructor|].
    destruct (str_eq _ _); repeat constructor.
  - cbn. lia.
  - reflexivity.
  - vm_compute. reflexivity.
Defined.
