(* ===== verification/NetQueue.v ===== *)
(** * The request queue and its worker: [bx_net.c]

    Data threads push requests on a list, one worker thread takes the oldest,
    fetches it and pushes it on a second list, where the thread that asked
    finds it by its id.  The operations are functions on the two lists; the
    threads interleave as a step relation whose steps are the critical sections
    of the code.  The theorems: every request is in exactly one place, pending or
    finished as the place says; requests are fetched in the order of their ids;
    while the run flag is up a request that waits is answered after a bounded
    number of steps of the worker; and the shutdown of an idle
    queue leaves the worker blocked for ever on a mutex that it holds. *)
From S2P Require Import Prelude CLib Env Values Objects Utils Url Net.
#[local] Open Scope Z_scope.

(** ** Requests *)

Record BXNetRequest := mkRequest {
  rq_done : bool;
  rq_cancel : bool;
  rq_id : Z;
  rq_path : option string;
  rq_params : list BXNetURLParam;
  rq_response : option BXNetRData
}.

(** [mem]: [calloc] succeeds; [dup]: [strdup] succeeds, which is not tested. *)
Definition bx_net_request_new (mem dup : bool) (path : string) : option BXNetRequest :=
  if negb mem then None
  else Some (mkRequest false false 0 (if dup then Some path else None) [] None).

Definition with_id (id : Z) (r : BXNetRequest) : BXNetRequest :=
  mkRequest (rq_done r) (rq_cancel r) id (rq_path r) (rq_params r) (rq_response r).
Definition with_cancel (r : BXNetRequest) : BXNetRequest :=
  mkRequest (rq_done r) true (rq_id r) (rq_path r) (rq_params r) (rq_response r).
Definition with_params (ps : list BXNetURLParam) (r : BXNetRequest) : BXNetRequest :=
  mkRequest (rq_done r) (rq_cancel r) (rq_id r) (rq_path r) ps (rq_response r).

(** The parameter goes to the end of the list; the three flags are the
    allocations of the parameter, of its name and of its value. *)
Definition bx_net_request_add_param (mem mem_name mem_value : bool) (r : BXNetRequest)
    (name value : string) : outcome (bool * BXNetRequest) :=
  if negb mem then Done (false, r) else
  match _bx_percent_encoding mem_name name with
  | Done None => Done (false, r)
  | Done (Some e_name) =>
      match _bx_percent_encoding mem_value value with
      | Done None => Done (false, r)
      | Done (Some e_value) =>
          Done (true, with_params (rq_params r ++ [mkParam e_name e_value]) r)
      | Fault => Fault
      | OutOfFuel => OutOfFuel
      end
  | Fault => Fault
  | OutOfFuel => OutOfFuel
  end.

(** What the worker does with the answer of [bx_fetch]. *)
Definition answered (response : option BXNetRData) (r : BXNetRequest) : BXNetRequest :=
  match response with
  | None => mkRequest true true (rq_id r) (rq_path r) (rq_params r) None
  | Some _ => mkRequest true false (rq_id r) (rq_path r) (rq_params r) response
  end.

(** ** The two lists

    A list is kept from its head: [in] and [out] are pushed at the head, so
    the oldest request of [in] is the last. *)
Record BXNetRequestList := mkRequests {
  run : bool;
  standby : bool;
  next_id : Z;
  q_in : list BXNetRequest;
  q_out : list BXNetRequest
}.

Definition bx_net_request_list_init : BXNetRequestList := mkRequests true false 0 [] [].

Definition bx_net_request_list_add (l : BXNetRequestList) (r : BXNetRequest)
    : Z * BXNetRequestList :=
  let id := u64 (next_id l + 1) in
  (id, mkRequests (run l) (standby l) id (with_id id r :: q_in l) (q_out l)).

(** One scan of [out]: the request and the list without it. *)
Fixpoint find_request (id : Z) (l : list BXNetRequest)
    : option (BXNetRequest * list BXNetRequest) :=
  match l with
  | [] => None
  | r :: l =>
      if rq_id r =? id then Some (r, l)
      else match find_request id l with
           | Some (r', l') => Some (r', r :: l')
           | None => None
           end
  end.

(** One turn of the loop of [bx_net_request_list_get_finished], between the
    lock and the next wait: [Some] is the value it returns. *)
Definition get_finished_turn (l : BXNetRequestList) (id : Z)
    : option (option BXNetRequest) * BXNetRequestList :=
  match find_request id (q_out l) with
  | Some (r, out) => (Some (Some r), mkRequests (run l) (standby l) (next_id l) (q_in l) out)
  | None => if run l then (None, l) else (Some None, l)
  end.

(** The walk to the end of [in]. *)
Fixpoint take_oldest (l : list BXNetRequest) : option (BXNetRequest * list BXNetRequest) :=
  match l with
  | [] => None
  | [r] => Some (r, [])
  | r :: l => match take_oldest l with
              | Some (o, l') => Some (o, r :: l')
              | None => None
              end
  end.

Definition put_back (r : BXNetRequest) (l : BXNetRequestList) : BXNetRequestList :=
  mkRequests (run l) (standby l) (next_id l) (q_in l) (r :: q_out l).

(** [bx_net_request_list_cancel], in its two critical sections. *)
Definition cancel_in (l : BXNetRequestList) : list BXNetRequest * BXNetRequestList :=
  (with_cancel <$> q_in l, mkRequests (run l) (standby l) (next_id l) [] (q_out l)).
Definition cancel_out (cancelled : list BXNetRequest) (l : BXNetRequestList) : BXNetRequestList :=
  mkRequests (run l) (standby l) (next_id l) (q_in l)
    (match q_out l with [] => cancelled | out => out ++ cancelled end).
Definition bx_net_request_list_cancel (l : BXNetRequestList) : BXNetRequestList :=
  let '(cancelled, l) := cancel_in l in cancel_out cancelled l.

(** The requests that [bx_net_request_list_destroy] frees, in order. *)
Definition bx_net_request_list_destroy (l : BXNetRequestList) : list BXNetRequest :=
  match q_out l with [] => q_in l | out => out ++ q_in l end.

(** ** The worker thread

    [WWait] is inside [pthread_cond_wait]; [WQuit] is the label [quit_task],
    before the lock of [bx_net_request_list_cancel]. *)
Inductive worker_pc :=
| WTop
| WLock
| WWait
| WFetch (r : BXNetRequest)
| WPut (r : BXNetRequest)
| WQuit
| WCancel (cancelled : list BXNetRequest)
| WUnlock
| WEnd.

(** [q_held]: the worker keeps [in_mutex] between two steps.  The last two
    fields are history: the ids it fetched and the requests handed over. *)
Record queue := mkQueue {
  q_lists : BXNetRequestList;
  q_held : bool;
  q_worker : worker_pc;
  q_fetched : list Z;
  q_delivered : list BXNetRequest
}.

Definition start_queue : queue := mkQueue bx_net_request_list_init false WTop [] [].

Definition goto (pc : worker_pc) (q : queue) : queue :=
  mkQueue (q_lists q) (q_held q) pc (q_fetched q) (q_delivered q).

(** With [in_mutex] held and [in] tested: wait, or take the oldest and unlock. *)
Definition take_or_wait (q : queue) : queue :=
  let l := q_lists q in
  match take_oldest (q_in l) with
  | None => goto WWait q
  | Some (r, rest) =>
      mkQueue (mkRequests (run l) (standby l) (next_id l) rest (q_out l)) false (WFetch r)
        (q_fetched q ++ [rq_id r]) (q_delivered q)
  end.

(** A step of the worker, [response] being what [bx_fetch] would answer;
    [None] is a worker that cannot go on. *)
Definition worker_step (response : option BXNetRData) (q : queue) : option queue :=
  let l := q_lists q in
  match q_worker q with
  | WTop => Some (goto (if run l then WLock else WQuit) q)
  | WLock => if q_held q then None else Some (take_or_wait q)
  | WWait =>                       (* woken: the mutex is locked again *)
      if q_held q then None
      else if run l then Some (take_or_wait q)
      else Some (mkQueue l true WQuit (q_fetched q) (q_delivered q))
  | WFetch r => Some (goto (WPut (answered response r)) q)
  | WPut r => Some (mkQueue (put_back r l) (q_held q) WTop (q_fetched q) (q_delivered q))
  | WQuit =>
      if q_held q then None        (* the second lock of the same mutex *)
      else let '(cancelled, l) := cancel_in l in
           Some (mkQueue l true (WCancel cancelled) (q_fetched q) (q_delivered q))
  | WCancel cancelled =>
      Some (mkQueue (cancel_out cancelled l) (q_held q) WUnlock (q_fetched q) (q_delivered q))
  | WUnlock => Some (mkQueue l false WEnd (q_fetched q) (q_delivered q))
  | WEnd => None
  end.

(** Who moves. *)
Inductive mover := Client | Worker | Main.

(** The steps of the process.  The counter of ids does not wrap. *)
Inductive qstep : mover -> queue -> queue -> Prop :=
| step_add q r :
    q_held q = false -> next_id (q_lists q) < UINT64_MAX ->
    rq_done r = false -> rq_cancel r = false -> rq_response r = None ->
    qstep Client q (mkQueue (bx_net_request_list_add (q_lists q) r).2 (q_held q) (q_worker q)
                      (q_fetched q) (q_delivered q))
| step_get q id r l :
    get_finished_turn (q_lists q) id = (Some (Some r), l) ->
    qstep Client q (mkQueue l (q_held q) (q_worker q) (q_fetched q) (q_delivered q ++ [r]))
| step_worker q q' response :
    worker_step response q = Some q' -> qstep Worker q q'
| step_stop q :
    qstep Main q (mkQueue (mkRequests false (standby (q_lists q)) (next_id (q_lists q))
                             (q_in (q_lists q)) (q_out (q_lists q)))
                    (q_held q) (q_worker q) (q_fetched q) (q_delivered q)).

(** An execution, and how many steps of the worker it has. *)
Inductive qsteps : nat -> queue -> queue -> Prop :=
| qsteps_refl q : qsteps 0 q q
| qsteps_step m n q q1 q' :
    qstep m q q1 -> qsteps n q1 q' ->
    qsteps (match m with Worker => S n | _ => n end) q q'.

Definition reachable (q : queue) : Prop := exists n, qsteps n start_queue q.

(** The worker alone, on the answers of the server. *)
Fixpoint run_worker (responses : list (option BXNetRData)) (q : queue) : option queue :=
  match responses with
  | [] => Some q
  | response :: responses =>
      match worker_step response q with
      | Some q => run_worker responses q
      | None => None
      end
  end.

Definition sample_request : BXNetRequest := mkRequest false false 0 (Some "2.0/unit") [] None.
Definition sample_answer : BXNetRData := mkRData (Some "[]") 200.

Example one_request :
  let l := (bx_net_request_list_add bx_net_request_list_init sample_request).2 in
  match run_worker [None; None; Some sample_answer; None] (mkQueue l false WTop [] []) with
  | Some q => get_finished_turn (q_lists q) 1
  | None => (None, l)
  end = (Some (Some (mkRequest true false 1 (Some "2.0/unit") [] (Some sample_answer))),
         mkRequests true false 1 [] []).
Proof. reflexivity. Qed.

(** ** Lists *)

Definition ids (l : list BXNetRequest) : list Z := rq_id <$> l.

Lemma take_oldest_spec l :
  match take_oldest l with
  | None => l = []
  | Some (r, rest) => l = rest ++ [r]
  end.
Proof.
  induction l as [|r l IH]; [done|]. cbn [take_oldest].
  destruct l as [|r' l]; [done|]. destruct (take_oldest (r' :: l)) as [[o rest]|]; [|done].
  by rewrite IH.
Qed.

Lemma find_request_spec id l :
  match find_request id l with
  | None => id ∉ ids l
  | Some (r, rest) => rq_id r = id /\ exists l1 l2, l = l1 ++ r :: l2 /\ rest = l1 ++ l2
  end.
Proof.
  induction l as [|r l IH]; cbn [find_request].
  - apply not_elem_of_nil.
  - destruct (Z.eqb_spec (rq_id r) id) as [He|He]; [by split; [|exists [], l]|].
    destruct (find_request id l) as [[r' rest]|].
    + destruct IH as (Hi & l1 & l2 & -> & ->). split; [done|]. by exists (r :: l1), l2.
    + cbn. rewrite not_elem_of_cons. naive_solver.
Qed.

Lemma cancel_out_eq c l :
  cancel_out c l = mkRequests (run l) (standby l) (next_id l) (q_in l) (q_out l ++ c).
Proof. unfold cancel_out. by destruct (q_out l). Qed.

(** How many requests of the list are older than that of an id. *)
Fixpoint older (id : Z) (l : list BXNetRequest) : option nat :=
  match l with
  | [] => None
  | r :: l => if rq_id r =? id then Some (length l) else older id l
  end.

Lemma older_None id l : older id l = None <-> id ∉ ids l.
Proof.
  induction l as [|r l IH]; cbn [older ids fmap list_fmap].
  - split; [intros _; apply not_elem_of_nil|done].
  - rewrite not_elem_of_cons. destruct (Z.eqb_spec (rq_id r) id); naive_solver.
Qed.

Lemma older_snoc id l r :
  id ∉ ids l ∨ rq_id r ≠ id ->
  older id (l ++ [r]) = if rq_id r =? id then Some O else S <$> older id l.
Proof.
  intros Hn. induction l as [|r' l IH]; cbn [app older].
  - by destruct (rq_id r =? id).
  - cbn [ids fmap list_fmap] in Hn. rewrite not_elem_of_cons in Hn.
    destruct (Z.eqb_spec (rq_id r') id) as [He|He].
    + destruct Hn as [[Hn _]|Hn]; [congruence|]. apply Z.eqb_neq in Hn. rewrite Hn.
      cbn. f_equal. rewrite length_app. cbn. lia.
    + apply IH. naive_solver.
Qed.

(** ** The invariant *)

Definition in_flight (q : queue) : list BXNetRequest :=
  match q_worker q with
  | WFetch r | WPut r => [r]
  | WCancel cancelled => cancelled
  | _ => []
  end.

(** Every request, wherever it is. *)
Definition all_requests (q : queue) : list BXNetRequest :=
  q_in (q_lists q) ++ in_flight q ++ q_out (q_lists q) ++ q_delivered q.

(** It is cancelled exactly when it has no response. *)
Definition finished (r : BXNetRequest) : Prop :=
  rq_cancel r = bool_decide (rq_response r = None).
Definition pending (r : BXNetRequest) : Prop := rq_cancel r = false /\ rq_response r = None.

Definition worker_ok (q : queue) : Prop :=
  match q_worker q with
  | WTop | WLock | WWait => q_held q = false
  | WFetch r => q_held q = false /\ pending r
  | WPut r => q_held q = false /\ finished r
  | WQuit => run (q_lists q) = false
  | WCancel cancelled =>
      q_held q = true /\ run (q_lists q) = false /\ Forall finished cancelled
  | WUnlock => q_held q = true /\ run (q_lists q) = false
  | WEnd => q_held q = false /\ run (q_lists q) = false
  end.

Definition before_cancel (q : queue) : Prop :=
  match q_worker q with WCancel _ | WUnlock | WEnd => False | _ => True end.

Record queue_inv (q : queue) : Prop := mkInv {
  inv_next : 0 <= next_id (q_lists q) <= UINT64_MAX;
  inv_ids : ids (all_requests q) ≡ₚ seqZ 1 (next_id (q_lists q));
  inv_in : Forall pending (q_in (q_lists q));
  inv_out : Forall finished (q_out (q_lists q) ++ q_delivered q);
  inv_worker : worker_ok q;
  inv_fifo : exists k, 0 <= k <= next_id (q_lists q) /\ q_fetched q = seqZ 1 k
             /\ (before_cancel q ->
                 reverse (ids (q_in (q_lists q))) = seqZ (k + 1) (next_id (q_lists q) - k))
}.

Lemma start_inv : queue_inv start_queue.
Proof.
  split; cbn; try constructor; try done.
  exists 0. split; [lia|]. split; [done|]. by intros _.
Qed.

Lemma answered_finished response r : finished (answered response r).
Proof. unfold finished, answered. by destruct response. Qed.
Lemma answered_id response r : rq_id (answered response r) = rq_id r.
Proof. by destruct response. Qed.
#[local] Hint Resolve answered_finished : core.

Lemma ids_app a b : ids (a ++ b) = ids a ++ ids b.
Proof. apply fmap_app. Qed.

Lemma seqZ_snoc a n : 0 <= n -> seqZ a (n + 1) = seqZ a n ++ [a + n].
Proof. intros Hn. rewrite seqZ_app by lia. done. Qed.

Lemma ids_same a x y b : rq_id x = rq_id y -> ids (a ++ x :: b) = ids (a ++ y :: b).
Proof. intros E. unfold ids. rewrite !fmap_app. cbn. by rewrite E. Qed.
Lemma ids_cancel l : ids (with_cancel <$> l) = ids l.
Proof. unfold ids. by rewrite <- list_fmap_compose. Qed.

(** Adding a request. *)
Lemma add_inv q r :
  queue_inv q -> q_held q = false -> next_id (q_lists q) < UINT64_MAX ->
  rq_cancel r = false -> rq_response r = None ->
  queue_inv (mkQueue (bx_net_request_list_add (q_lists q) r).2 (q_held q) (q_worker q)
               (q_fetched q) (q_delivered q)).
Proof.
  intros [Hn Hids Hin Hout Hw (k & Hk & Hf & Hfifo)] Hh Hb Hc Hr.
  assert (u64 (next_id (q_lists q) + 1) = next_id (q_lists q) + 1) as Hu.
  { apply u64_small. unfold is_u64, UINT64_MAX in *. lia. }
  split; cbn [q_lists q_held q_worker q_fetched q_delivered]; unfold bx_net_request_list_add;
    cbn [snd next_id q_in q_out run]; rewrite ?Hu.
  - lia.
  - unfold all_requests, in_flight in *. cbn [q_lists q_in q_out q_delivered q_worker].
    rewrite seqZ_snoc by lia. rewrite <- Permutation_cons_append.
    cbn [app ids fmap list_fmap with_id rq_id].
    rewrite (Z.add_comm 1). by apply Permutation_cons.
  - constructor; [by split|done].
  - done.
  - unfold worker_ok in *. cbn [q_worker q_lists run q_held]. by destruct (q_worker q).
  - exists k. split; [lia|]. split; [done|]. intros Ha. cbn [ids fmap list_fmap with_id rq_id].
    rewrite reverse_cons. unfold ids in Hfifo. rewrite Hfifo by exact Ha.
    replace (next_id (q_lists q) + 1 - k) with ((next_id (q_lists q) - k) + 1) by lia.
    rewrite seqZ_snoc by lia. do 2 f_equal. lia.
Qed.

Lemma ids_perm (a b : list BXNetRequest) (l : list Z) : a ≡ₚ b -> ids a ≡ₚ l -> ids b ≡ₚ l.
Proof. unfold ids. by intros ->. Qed.

(** Handing a request over. *)
Lemma get_inv q id r l :
  queue_inv q -> get_finished_turn (q_lists q) id = (Some (Some r), l) ->
  queue_inv (mkQueue l (q_held q) (q_worker q) (q_fetched q) (q_delivered q ++ [r])).
Proof.
  intros [Hn Hids Hin Hout Hw Hf]. unfold get_finished_turn.
  pose proof (find_request_spec id (q_out (q_lists q))) as Hspec.
  destruct (find_request id _) as [[r' rest]|]; [|by destruct (run _)].
  destruct Hspec as (_ & l1 & l2 & Eo & ->). intros [= -> <-].
  assert (q_out (q_lists q) ++ q_delivered q ≡ₚ (l1 ++ l2) ++ q_delivered q ++ [r]) as Hp.
  { rewrite Eo, <- (Permutation_cons_append (q_delivered q)), <- !app_assoc.
    apply Permutation_app_head, Permutation_middle. }
  split; cbn [q_lists q_held q_worker q_fetched q_delivered next_id q_in q_out run]; try done.
  - eapply ids_perm; [|exact Hids]. unfold all_requests, in_flight.
    cbn [q_lists q_worker q_in q_out q_delivered]. by rewrite Hp.
  - by rewrite <- Hp.
Qed.

Lemma stop_inv q :
  queue_inv q ->
  queue_inv (mkQueue (mkRequests false (standby (q_lists q)) (next_id (q_lists q))
    (q_in (q_lists q)) (q_out (q_lists q))) (q_held q) (q_worker q) (q_fetched q) (q_delivered q)).
Proof.
  intros [Hn Hids Hin Hout Hw Hf]. split; try done.
  unfold worker_ok in *. cbn [q_worker q_held q_lists run]. by destruct (q_worker q); naive_solver.
Qed.

(** The worker, with its mutex free, before or after a wait. *)
Lemma take_inv q :
  queue_inv q -> q_held q = false -> q_worker q = WLock \/ q_worker q = WWait ->
  queue_inv (take_or_wait q).
Proof.
  intros [Hn Hids Hin Hout Hw (k & Hk & Hf & Hfifo)] Hh Hpc.
  assert (in_flight q = []) as Hfl by (unfold in_flight; by destruct Hpc as [-> | ->]).
  assert (before_cancel q) as Hb by (unfold before_cancel; by destruct Hpc as [-> | ->]).
  unfold take_or_wait. pose proof (take_oldest_spec (q_in (q_lists q))) as Ht.
  unfold all_requests in Hids. rewrite Hfl in Hids. specialize (Hfifo Hb).
  destruct (take_oldest _) as [[r rest]|].
  - rewrite Ht in *. apply Forall_app in Hin as [Hin [Hr _]%Forall_cons].
    split; cbn [q_lists q_held q_worker q_fetched q_delivered next_id q_in q_out run]; try done.
    + eapply ids_perm; [|exact Hids]. unfold all_requests, in_flight.
      cbn [q_lists q_worker q_in q_out q_delivered app]. by rewrite <- app_assoc.
    + rewrite ids_app in Hfifo. cbn [ids fmap list_fmap] in Hfifo.
      rewrite reverse_app in Hfifo. cbn [reverse rev_append app] in Hfifo.
      change (reverse [rq_id r]) with [rq_id r] in Hfifo. cbn [app] in Hfifo.
      assert (k < next_id (q_lists q)) as Hlt.
      { destruct (decide (k < next_id (q_lists q))); [done|].
        rewrite seqZ_nil in Hfifo by lia. discriminate Hfifo. }
      rewrite seqZ_cons in Hfifo by lia. injection Hfifo as Hid Hrest.
      exists (k + 1). split; [lia|]. rewrite Hf, Hid, seqZ_snoc by lia. split; [by rewrite Z.add_comm|].
      intros _. etrans; [exact Hrest|]. f_equal; lia.
  - split; cbn [q_lists q_held q_worker q_fetched q_delivered goto]; try done.
    by exists k.
Qed.

Lemma worker_inv q response q' :
  queue_inv q -> worker_step response q = Some q' -> queue_inv q'.
Proof.
  intros Hinv. pose proof Hinv as [Hn Hids Hin Hout Hw (k & Hk & Hf & Hfifo)].
  unfold worker_step, worker_ok, all_requests, in_flight, before_cancel in *.
  destruct (q_worker q) as [| | |r|r| |cancelled| |] eqn:Epc.
  - intros [= <-]. split; unfold all_requests, in_flight, worker_ok; cbn; try done.
    + by destruct (run _) eqn:Er; cbn.
    + by destruct (run (q_lists q)) eqn:Er; cbn.
    + exists k. split; [done|]. split; [done|]. intros _. by apply Hfifo.
  - destruct (q_held q) eqn:Eh; [done|]. intros [= <-]. apply take_inv; auto.
  - destruct (q_held q) eqn:Eh; [done|]. destruct (run (q_lists q)) eqn:Er; intros [= <-].
    + apply take_inv; auto.
    + split; unfold all_requests, in_flight, worker_ok; cbn; try done. by exists k.
  - intros [= <-]. destruct Hw as [Hh Hp].
    split; unfold all_requests, in_flight, worker_ok; cbn; try done.
    + rewrite (ids_same _ _ r) by apply answered_id. exact Hids.
    + by exists k.
  - intros [= <-]. destruct Hw as [Hh Hp].
    split; unfold all_requests, in_flight, worker_ok; cbn; try done.
    + constructor; [done|]. exact Hout.
    + by exists k.
  - destruct (q_held q) eqn:Eh; [done|]. intros [= <-].
    split; unfold all_requests, in_flight, worker_ok; cbn; try done.
    + rewrite ids_app, ids_cancel, <- ids_app. exact Hids.
    + split_and!; [done..|]. apply Forall_fmap. eapply Forall_impl; [exact Hin|].
      intros r [_ Hr]. unfold finished. cbn. by rewrite Hr.
    + by exists k.
  - intros [= <-]. destruct Hw as (Hh & Hr & Hc).
    split; unfold all_requests, in_flight, worker_ok; rewrite cancel_out_eq; cbn; try done.
    + eapply ids_perm; [|exact Hids]. apply Permutation_app_head. cbn [app].
      rewrite (app_assoc cancelled), (Permutation_app_comm cancelled). by rewrite <- app_assoc.
    + rewrite <- app_assoc. apply Forall_app in Hout as [Ho Hd].
      apply Forall_app. split; [done|]. by apply Forall_app.
    + by exists k.
  - intros [= <-]. destruct Hw as [_ Hr].
    split; unfold all_requests, in_flight, worker_ok; cbn; try done. by exists k.
  - discriminate.
Qed.

Lemma qstep_inv m q q' : queue_inv q -> qstep m q q' -> queue_inv q'.
Proof.
  intros Hq Hs. destruct Hs as [q r|q id r l|q q' response|q].
  - by apply add_inv.
  - by eapply get_inv.
  - by eapply worker_inv.
  - by apply stop_inv.
Qed.

Lemma qsteps_inv n q q' : qsteps n q q' -> queue_inv q -> queue_inv q'.
Proof. induction 1; eauto using qstep_inv. Qed.

Lemma reachable_inv q : reachable q -> queue_inv q.
Proof. intros [n Hs]. eapply qsteps_inv; [exact Hs|apply start_inv]. Qed.

(** ** Safety *)

(** What the place of a request says of it: it is pending in the list [in] and until
    [bx_fetch] has returned, finished from then on. *)
Definition placed (q : queue) : Prop :=
  Forall pending (q_in (q_lists q))
  /\ Forall finished (q_out (q_lists q)) /\ Forall finished (q_delivered q)
  /\ match q_worker q with
     | WFetch r => pending r
     | WPut r => finished r
     | WCancel cancelled => Forall finished cancelled
     | _ => True
     end.

Lemma inv_placed q : queue_inv q -> placed q.
Proof.
  intros [_ _ Hin Hout Hw _]. apply Forall_app in Hout as [Ho Hd].
  split_and!; [done..|]. unfold worker_ok in Hw. destruct (q_worker q); naive_solver.
Qed.

(** Claim C6. In every reachable state each id handed out so far belongs to exactly one
    request, which waits in the list [in], is held by the worker, waits in the list
    [out] or was handed over.  It is pending, neither cancelled nor with a response,
    while it waits to be fetched and during the fetch; once fetched or cancelled, on the
    list [out] and when it is handed over, it is cancelled exactly when it has no
    response. *)
Theorem requests_conserved q :
  reachable q ->
  ids (q_in (q_lists q) ++ in_flight q ++ q_out (q_lists q) ++ q_delivered q)
    ≡ₚ seqZ 1 (next_id (q_lists q))
  /\ NoDup (ids (all_requests q)) /\ placed q.
Proof.
  intros Hq%reachable_inv. split; [apply (inv_ids q Hq)|].
  split; [rewrite (inv_ids q Hq); apply NoDup_seqZ | by apply inv_placed].
Qed.

(** The worker fetches the requests in the order of their ids, without a hole. *)
Theorem fetched_in_order q :
  reachable q -> exists k, 0 <= k <= next_id (q_lists q) /\ q_fetched q = seqZ 1 k.
Proof. intros Hq. destruct (reachable_inv q Hq) as [_ _ _ _ _ (k & Hk & Hf & _)]. by exists k. Qed.

(** ** Progress *)

(** How many steps of the worker until the request of an id is answered; 0
    once it is. *)
Definition waiting (id : Z) (base : nat) (q : queue) : nat :=
  match older id (q_in (q_lists q)) with Some p => base + 4 * p | None => 0 end%nat.
Definition distance (id : Z) (q : queue) : nat :=
  match q_worker q with
  | WTop => waiting id 4 q
  | WLock | WWait => waiting id 3 q
  | WFetch r => if (rq_id r =? id)%Z then 2 else waiting id 6 q
  | WPut r => if (rq_id r =? id)%Z then 1 else waiting id 5 q
  | _ => 0
  end%nat.

Definition known (id : Z) (q : queue) : Prop := 1 <= id <= next_id (q_lists q).

Lemma take_distance id q :
  NoDup (ids (q_in (q_lists q))) -> (distance id (take_or_wait q) <= waiting id 3 q - 1)%nat.
Proof.
  intros Hd. unfold take_or_wait, waiting. pose proof (take_oldest_spec (q_in (q_lists q))) as Ht.
  destruct (take_oldest _) as [[r rest]|].
  - rewrite Ht in *. rewrite ids_app in Hd. apply NoDup_app in Hd as (Hd & Hx & _).
    rewrite older_snoc.
    2: { destruct (decide (rq_id r = id)) as [<-|]; [left|by right].
         intros Hin. apply (Hx _ Hin). by constructor. }
    unfold distance, waiting. cbn [q_worker q_lists q_in].
    destruct (Z.eqb_spec (rq_id r) id); [lia|].
    destruct (older id rest) as [p|]; cbn [fmap option_fmap option_map]; lia.
  - unfold distance, waiting. cbn [goto q_worker q_lists]. rewrite Ht. cbn. lia.
Qed.

Lemma inv_nodup q : queue_inv q -> NoDup (ids (all_requests q)).
Proof. intros Hq. rewrite (inv_ids q Hq). apply NoDup_seqZ. Qed.

Lemma worker_distance id q response q' :
  queue_inv q -> worker_step response q = Some q' -> run (q_lists q') = true ->
  (distance id q' <= distance id q - 1)%nat.
Proof.
  intros Hq Hs Hr. pose proof (inv_nodup q Hq) as Hd. pose proof (inv_worker q Hq) as Hw.
  unfold all_requests, in_flight, worker_ok in *. rewrite ids_app in Hd.
  apply NoDup_app in Hd as (Hd & Hx & _).
  unfold worker_step in Hs. unfold distance at 2.
  destruct (q_worker q) as [| | |r|r| |cancelled| |].
  - injection Hs as <-. cbn [goto q_lists] in Hr. rewrite Hr.
    unfold distance, waiting. cbn [goto q_worker q_lists]. destruct (older _ _); lia.
  - rewrite Hw in Hs. injection Hs as <-. by apply take_distance.
  - rewrite Hw in Hs. destruct (run (q_lists q)) eqn:Er; injection Hs as <-;
      [by apply take_distance|]. cbn in Hr. congruence.
  - injection Hs as <-. unfold distance, waiting. cbn [goto q_worker q_lists].
    rewrite answered_id. destruct (rq_id r =? id); [lia|]. destruct (older _ _); lia.
  - injection Hs as <-. unfold distance, waiting. cbn [q_worker q_lists put_back q_in].
    destruct (Z.eqb_spec (rq_id r) id) as [<-|].
    + rewrite (proj2 (older_None _ _)); [lia|]. intros Hin. apply (Hx _ Hin). by constructor.
    + destruct (older _ _); lia.
  - unfold worker_step in Hs. destruct (q_held q); [done|]. injection Hs as <-. cbn in Hr. congruence.
  - injection Hs as <-. rewrite cancel_out_eq in Hr. cbn in Hr. naive_solver congruence.
  - injection Hs as <-. cbn in Hr. naive_solver congruence.
  - done.
Qed.

Lemma worker_step_same q response q' :
  worker_step response q = Some q' ->
  next_id (q_lists q') = next_id (q_lists q) /\ run (q_lists q') = run (q_lists q).
Proof.
  assert (next_id (q_lists (take_or_wait q)) = next_id (q_lists q)
          /\ run (q_lists (take_or_wait q)) = run (q_lists q)) as Ht.
  { unfold take_or_wait. by destruct (take_oldest _) as [[]|]. }
  unfold worker_step. destruct (q_worker q) as [| | |r|r| |cancelled| |];
    try (destruct (q_held q); [done|]); intros Hs; try (by injection Hs as <-).
  - destruct (run (q_lists q)) eqn:Er; injection Hs as <-; [|done].
    by destruct Ht as [-> ->].
  - done.
Qed.

Lemma step_distance id m q q' :
  queue_inv q -> known id q -> qstep m q q' -> run (q_lists q') = true ->
  known id q' /\ (distance id q' <= distance id q - match m with Worker => 1 | _ => 0 end)%nat.
Proof.
  intros Hq Hk Hs Hr. destruct Hs as [q r Hh Hb _ _ _|q id' r l Hg|q q' response Hs|q].
  - split.
    + unfold known in *. cbn. rewrite u64_small; [lia|].
      pose proof (inv_next q Hq). unfold is_u64, UINT64_MAX in *. lia.
    + unfold distance, waiting. cbn [q_worker q_lists bx_net_request_list_add snd q_in older].
      assert (rq_id (with_id (u64 (next_id (q_lists q) + 1)) r) =? id = false) as ->.
      { apply Z.eqb_neq. cbn. rewrite u64_small; unfold known, is_u64, UINT64_MAX in *; [lia|].
        pose proof (inv_next q Hq). lia. }
      lia.
  - unfold get_finished_turn in Hg.
    destruct (find_request _ _) as [[r' out]|]; [|by destruct (run _)].
    injection Hg as -> <-. split; [exact Hk|]. unfold distance, waiting. cbn. lia.
  - split; [|by eapply worker_distance].
    unfold known in *. by rewrite (proj1 (worker_step_same _ _ _ Hs)).
  - discriminate Hr.
Qed.

Lemma run_monotone m q q' : qstep m q q' -> run (q_lists q') = true -> run (q_lists q) = true.
Proof.
  intros Hs. destruct Hs as [q r|q id r l Hg|q q' response Hs|q]; try done.
  - unfold get_finished_turn in Hg.
    destruct (find_request _ _) as [[r' out]|]; [|by destruct (run _)]. by injection Hg as _ <-.
  - by rewrite <- (proj2 (worker_step_same _ _ _ Hs)).
Qed.

Lemma steps_run n q q' : qsteps n q q' -> run (q_lists q') = true -> run (q_lists q) = true.
Proof. induction 1; eauto using run_monotone. Qed.

Lemma steps_distance id n q q' :
  qsteps n q q' -> queue_inv q -> known id q -> run (q_lists q') = true ->
  known id q' /\ (distance id q' <= distance id q - n)%nat.
Proof.
  induction 1 as [q|m n q q1 q' Hs Hss IH]; intros Hq Hk Hr; [split; [done|lia]|].
  pose proof (steps_run _ _ _ Hss Hr) as Hr1.
  destruct (step_distance id m q q1 Hq Hk Hs Hr1) as [Hk1 Hd1].
  destruct (IH (qstep_inv _ _ _ Hq Hs) Hk1 Hr) as [Hk2 Hd2].
  split; [done|]. destruct m; lia.
Qed.

Lemma distance_zero id q :
  queue_inv q -> known id q -> run (q_lists q) = true -> distance id q = O ->
  id ∈ ids (q_out (q_lists q) ++ q_delivered q).
Proof.
  intros Hq Hk Hr Hd. pose proof (inv_worker q Hq) as Hw.
  assert (id ∈ ids (all_requests q)) as Hin.
  { rewrite (inv_ids q Hq). apply elem_of_seqZ. unfold known in Hk. lia. }
  assert (forall base, base <> O -> waiting id base q = O -> id ∉ ids (q_in (q_lists q))) as Hnot.
  { intros base Hb. unfold waiting. destruct (older id _) eqn:Eo; [lia|]. intros _.
    by apply older_None. }
  unfold all_requests in Hin. rewrite !ids_app, !elem_of_app in Hin.
  rewrite ids_app, elem_of_app.
  unfold distance, worker_ok, in_flight in *.
  destruct (q_worker q) as [| | |r|r| |cancelled| |]; try (exfalso; naive_solver congruence);
    try (destruct (Z.eqb_spec (rq_id r) id); [lia|]); apply Hnot in Hd; try done;
    destruct Hin as [|[Hin|]]; try done.
  - exfalso. by apply not_elem_of_nil in Hin.
  - exfalso. by apply not_elem_of_nil in Hin.
  - exfalso. by apply not_elem_of_nil in Hin.
  - apply list_elem_of_singleton in Hin. congruence.
  - apply list_elem_of_singleton in Hin. congruence.
Qed.

Lemma worker_never_blocks q :
  queue_inv q -> run (q_lists q) = true -> forall response, exists q', worker_step response q = Some q'.
Proof.
  intros Hq Hr response. pose proof (inv_worker q Hq) as Hw. unfold worker_ok, worker_step in *.
  destruct (q_worker q); rewrite ?Hr; try (rewrite Hw; rewrite ?Hr); eauto; naive_solver congruence.
Qed.

Lemma older_length id l p : older id l = Some p -> (p < length l)%nat.
Proof.
  induction l as [|r l IH]; cbn [older]; [done|].
  destruct (_ =? _); [intros [= <-]; cbn; lia | intros E%IH; cbn; lia].
Qed.

Lemma distance_bound id q : (distance id q <= 4 * length (q_in (q_lists q)) + 2)%nat.
Proof.
  assert (forall base, (base <= 6)%nat ->
    (waiting id base q <= 4 * length (q_in (q_lists q)) + 2)%nat) as Hw.
  { intros base Hb. unfold waiting. destruct (older _ _) eqn:E; [apply older_length in E|]; lia. }
  unfold distance. destruct (q_worker q); repeat case_match; try (apply Hw; lia); lia.
Qed.

(** Claim C5. While the run flag is up, a request that was added is answered, whatever
    the other threads do and however they interleave.  The worker can make its next step
    at any moment, and after at most four of its steps for each request in the list [in]
    and two more the request is on the list of the answers or handed over, with a
    response or cancelled.  The step in which the worker fetches lasts as long as the
    fetch; nothing is said of the requests that wait when the run flag goes down. *)
Theorem request_served id q n q' :
  reachable q -> 1 <= id <= next_id (q_lists q) ->
  qsteps n q q' -> run (q_lists q') = true ->
  (forall response, exists q1, worker_step response q' = Some q1)
  /\ (distance id q <= 4 * length (q_in (q_lists q)) + 2)%nat
  /\ ((distance id q <= n)%nat ->
      exists r, r ∈ q_out (q_lists q') ++ q_delivered q' /\ rq_id r = id /\ finished r).
Proof.
  intros Hq%reachable_inv Hk Hs Hr. pose proof (qsteps_inv _ _ _ Hs Hq) as Hq'.
  split; [by apply worker_never_blocks|]. split; [apply distance_bound|]. intros Hn.
  destruct (steps_distance id n q q' Hs Hq Hk Hr) as [Hk' Hd].
  pose proof (distance_zero id q' Hq' Hk' Hr ltac:(lia)) as Hin.
  apply list_elem_of_fmap in Hin as (r & -> & Hin). exists r. split_and!; [done..|].
  by apply (proj1 (Forall_forall _ _) (inv_out q' Hq')).
Qed.

(** ** Shutdown *)

(** The worker waits on the mutex that it holds. *)
Definition stuck (q : queue) : Prop := q_worker q = WQuit /\ q_held q = true.

Lemma stuck_step m q q' : stuck q -> qstep m q q' -> stuck q' /\ m <> Worker.
Proof.
  intros [Hw Hh] Hs. destruct Hs as [q r|q id r l|q q' response Hs|q]; try done.
  exfalso. unfold worker_step in Hs. rewrite Hw, Hh in Hs. done.
Qed.

(** Claim C33. The shutdown of an idle queue: the worker that is woken from its wait after
    [run] was cleared goes to [quit_task] with [in_mutex] locked and locks it
    again; from then on it makes no step, and nobody can add a request. *)
Theorem idle_shutdown_deadlocks q response q1 n q2 :
  reachable q -> q_worker q = WWait -> run (q_lists q) = false ->
  worker_step response q = Some q1 -> qsteps n q1 q2 ->
  n = O /\ (forall r, worker_step r q2 = None) /\ q_worker q2 <> WEnd
  /\ next_id (q_lists q2) = next_id (q_lists q).
Proof.
  intros Hq Hw Hr Hs Hss. apply reachable_inv, inv_worker in Hq. unfold worker_ok in Hq.
  rewrite Hw in Hq. unfold worker_step in Hs. rewrite Hw, Hq, Hr in Hs. injection Hs as <-.
  assert (forall q0 n, stuck q0 -> qsteps n q0 q2 ->
    n = O /\ stuck q2 /\ next_id (q_lists q2) = next_id (q_lists q0)) as Hstay.
  { clear. intros q0 n Hst Hss. induction Hss as [q|m n q q1 q2 Hs Hss IH]; [done|].
    destruct (stuck_step m q q1 Hst Hs) as [Hst1 Hm]. destruct (IH Hst1) as (-> & Hst2 & ->).
    split; [by destruct m|]. split; [done|].
    destruct Hs as [q r Hh|q id r l Hg|q q' response Hs|q]; try done.
    - destruct Hst as [_ Hst]. congruence.
    - unfold get_finished_turn in Hg.
      destruct (find_request _ _) as [[r' out]|]; [|by destruct (run _)]. by injection Hg as _ <-. }
  apply Hstay in Hss as (-> & [Hw2 Hh2] & Hn2); [|by split].
  split; [done|]. split; [|by rewrite Hw2].
  intros r. unfold worker_step. by rewrite Hw2, Hh2.
Qed.

(** ** Small runs *)

Definition one_added : queue :=
  mkQueue (bx_net_request_list_add bx_net_request_list_init sample_request).2 false WTop [] [].

Lemma one_added_reachable : reachable one_added.
Proof.
  exists 0%nat. apply (qsteps_step Client 0 _ one_added); [|constructor].
  by apply (step_add start_queue sample_request).
Qed.

Definition one_answered : queue :=
  default start_queue (run_worker [None; None; Some sample_answer; None] one_added).

Lemma one_answered_steps : qsteps 4 one_added one_answered.
Proof.
  do 2 (eapply (qsteps_step Worker); [by eapply (step_worker _ _ None)|]).
  eapply (qsteps_step Worker); [by eapply (step_worker _ _ (Some sample_answer))|].
  eapply (qsteps_step Worker); [by eapply (step_worker _ _ None)|]. constructor.
Qed.

Lemma request_served_witness :
  exists r, r ∈ q_out (q_lists one_answered) ++ q_delivered one_answered
            /\ rq_id r = 1 /\ finished r.
Proof.
  apply (request_served 1 one_added 4 one_answered).
  - exact one_added_reachable.
  - split; vm_compute; discriminate.
  - exact one_answered_steps.
  - reflexivity.
  - vm_compute. repeat constructor.
Defined.

Lemma requests_conserved_witness :
  ids (all_requests one_added) ≡ₚ seqZ 1 1 /\ NoDup (ids (all_requests one_added))
  /\ placed one_added.
Proof. exact (requests_conserved one_added one_added_reachable). Defined.

Lemma fetched_in_order_witness :
  exists k, 0 <= k <= 1 /\ q_fetched one_added = seqZ 1 k.
Proof. exact (fetched_in_order one_added one_added_reachable). Defined.

(** An idle worker, then [run] is cleared. *)
Definition idle_stopped : queue := mkQueue (mkRequests false false 0 [] []) false WWait [] [].
Definition after_wake : queue := mkQueue (mkRequests false false 0 [] []) true WQuit [] [].

Lemma idle_stopped_reachable : reachable idle_stopped.
Proof.
  exists 2%nat.
  eapply (qsteps_step Worker); [by eapply (step_worker _ _ None)|].
  eapply (qsteps_step Worker); [by eapply (step_worker _ _ None)|].
  apply (qsteps_step Main 0 _ idle_stopped); [|constructor].
  apply (step_stop (mkQueue (mkRequests true false 0 [] []) false WWait [] [])).
Qed.

Lemma idle_shutdown_deadlocks_witness :
  0%nat = 0%nat /\ (forall r, worker_step r after_wake = None) /\ q_worker after_wake <> WEnd
  /\ next_id (q_lists after_wake) = next_id (q_lists idle_stopped).
Proof.
  apply (idle_shutdown_deadlocks idle_stopped None after_wake 0 after_wake).
  - exact idle_stopped_reachable.
  - reflexivity.
  - reflexivity.
  - reflexivity.
  - constructor.
Defined.
