(* ===== verification/Walk.v ===== *)
(** * The page walk ([src/src/bx_walk.c])

    A list endpoint is fetched page by page; every item of a page is handed to
    [sync], and [on_page] is told the offset of the next request once the whole
    page synced.  The requests and the callbacks are programs over any world;
    the specification runs them in a world that records a trace, where they
    answer by an arbitrary function of the history. *)
From S2P Require Import Prelude CLib Env Samples Values Utils.

(** What the walk uses of the request queue and of the C library. *)
Class WalkEnv `{Jansson} (W : Type) := {
  (* [bx_do_request]: the decoded body, [None] for a [NULL] request *)
  do_request : string -> list (option BXAny) -> prog W (option json_t);
  thrd_sleep : prog W unit
}.

Section Walk.
Context `{Jansson} {W : Type} `{!WalkEnv W}.

Definition as_array (root : option json_t) : option json_t :=
  if json_is JSON_ARRAY root then root
  else if json_is JSON_OBJECT root then
    let data := object_get root "data" in
    if json_is JSON_ARRAY data then data else None
  else None.

Definition int_arg (z : Z) : option BXAny := Some (VInteger (mkInteger true z)).

(** The [for] loop over one page: [n] items are left, [i] is the next. *)
Fixpoint sync_items (sync : option json_t -> prog W BXillError)
    (arr : json_t) (n : nat) (i : Z) : prog W BXillError :=
  match n with
  | O => ret NoError
  | S n =>
      e <- sync (json_array_get arr i) ;;
      if decide (e = NoError) then sync_items sync arr n (i + 1) else ret e
  end.

Record walk_conf := mkWalk {
  wk_path : string;
  wk_extra : option BXAny;
  wk_sleep : bool;
  wk_sync : option json_t -> prog W BXillError;
  wk_on_page : option (Z -> prog W BXillError)
}.

Definition use_page (path : string) : bool := contains "page=$" path.
Definition paged (path : string) : bool := contains "$" path.

Definition request_args (k : walk_conf) (offset : Z) : list (option BXAny) :=
  if negb (paged (wk_path k)) then []
  else match wk_extra k with
       | Some extra => [int_arg BXILL_LIST_LIMIT; int_arg offset; Some extra]
       | None => [int_arg BXILL_LIST_LIMIT; int_arg offset]
       end.

Definition next_offset (path : string) (offset : Z) : Z :=
  if paged path then
    if use_page path then offset + 1 else offset + BXILL_LIST_LIMIT
  else offset.

Fixpoint walk_loop (fuel : nat) (k : walk_conf) (offset : Z) : prog W BXillError :=
  match fuel with
  | O => out_of_fuel
  | S fuel =>
      request <- do_request (wk_path k) (request_args k offset) ;;
      match request with
      | None => ret ErrorNet
      | Some decoded =>
          match as_array (Some decoded) with
          | None => ret ErrorJSON
          | Some arr =>
              let arr_len := json_array_size arr in
              e <- sync_items (wk_sync k) arr (Z.to_nat arr_len) 0 ;;
              if negb (bool_decide (e = NoError)) then ret e
              else
                let next := next_offset (wk_path k) offset in
                pe <- match wk_on_page k with
                      | Some on_page =>
                          if 0 <? arr_len then on_page next else ret NoError
                      | None => ret NoError
                      end ;;
                if negb (bool_decide (pe = NoError)) then ret pe
                else if negb (paged (wk_path k)) then ret NoError
                else
                  (if wk_sleep k then thrd_sleep else ret tt) ;;;
                  if 0 <? arr_len then walk_loop fuel k next else ret NoError
          end
      end
  end.

Definition start_value (path : string) (start_offset : Z) : Z :=
  let start := if start_offset <? 0 then 0 else start_offset in
  if use_page path then (if 0 <? start then start else 1) else start.

(** [args_ok] is the test of the pointers [app], [conn] and [sync]. *)
Definition bx_walk_pages_from (fuel : nat) (args_ok : bool) (path_fmt : option string)
    (extra : option BXAny) (page_sleep : bool)
    (sync : option json_t -> prog W BXillError) (start_offset : Z)
    (on_page : option (Z -> prog W BXillError)) : prog W BXillError :=
  match path_fmt with
  | None => ret ErrorGeneric
  | Some path =>
      if negb args_ok then ret ErrorGeneric
      else walk_loop fuel (mkWalk path extra page_sleep sync on_page)
             (start_value path start_offset)
  end.

Definition bx_walk_pages (fuel : nat) (args_ok : bool) (path_fmt : option string)
    (extra : option BXAny) (page_sleep : bool)
    (sync : option json_t -> prog W BXillError) : prog W BXillError :=
  bx_walk_pages_from fuel args_ok path_fmt extra page_sleep sync 0 None.
End Walk.

(** What every request and callback does to the world, the walk does. *)
Section WalkMoves.
Context `{Jansson} {W : Type} `{!WalkEnv W} (R : relation W) `{!PreOrder R}.

Lemma sync_items_moves sync arr n i :
  (forall item, moves R (sync item)) -> moves R (sync_items sync arr n i).
Proof.
  intros Hs. revert i. induction n as [|n IH]; intros i; cbn [sync_items].
  - auto with moves.
  - apply moves_bind; [done..|]. intros e. destruct (decide _); auto with moves.
Qed.

Lemma walk_moves fuel args_ok path extra page_sleep sync start on_page :
  (forall p args, moves R (do_request p args)) -> moves R thrd_sleep ->
  (forall item, moves R (sync item)) ->
  (if on_page is Some f then forall n, moves R (f n) else True) ->
  moves R (bx_walk_pages_from fuel args_ok path extra page_sleep sync start on_page).
Proof.
  intros Hr Hz Hs Hp. unfold bx_walk_pages_from.
  destruct path as [path|]; [|auto with moves].
  destruct (negb args_ok); [auto with moves|].
  generalize (start_value path start). induction fuel as [|fuel IH]; intros off;
    cbn [walk_loop]; [auto with moves|].
  apply moves_bind; [done..|]. intros [root|]; [|auto with moves].
  destruct (as_array _) as [arr|]; [|auto with moves].
  apply moves_bind; [done|by apply sync_items_moves|]. intros e.
  destruct (negb _); [auto with moves|].
  apply moves_bind; [done| |].
  { cbn. destruct on_page as [f|]; [|auto with moves].
    destruct (_ <? _); [apply Hp | auto with moves]. }
  intros pe. destruct (negb _); [auto with moves|]. destruct (negb _); [auto with moves|].
  apply moves_bind; [done| |].
  { cbn. destruct page_sleep; [done | auto with moves]. }
  intros _. destruct (_ <? _); [apply IH | auto with moves].
Qed.
End WalkMoves.

(** What every request and callback keeps, the walk keeps. *)
Section WalkPreserves.
Context `{Jansson} {W : Type} `{!WalkEnv W} (P : W -> Prop).

Lemma sync_items_preserves sync arr n i :
  (forall item, preserves P (sync item)) -> preserves P (sync_items sync arr n i).
Proof.
  intros Hs. revert i. induction n as [|n IH]; intros i; cbn [sync_items]; [auto with preserves|].
  apply preserves_bind; [done|]. intros e. destruct (decide _); auto with preserves.
Qed.

Lemma walk_preserves fuel args_ok path extra page_sleep sync start on_page :
  (forall p args, preserves P (do_request p args)) -> preserves P thrd_sleep ->
  (args_ok = true -> forall item, preserves P (sync item)) ->
  (args_ok = true -> if on_page is Some f then forall n, preserves P (f n) else True) ->
  preserves P (bx_walk_pages_from fuel args_ok path extra page_sleep sync start on_page).
Proof.
  intros Hr Hz Hs Hp. unfold bx_walk_pages_from. destruct path as [path|]; [|auto with preserves].
  destruct args_ok; cbn [negb]; [|auto with preserves]. specialize (Hs eq_refl). specialize (Hp eq_refl).
  generalize (start_value path start). induction fuel as [|fuel IH]; intros off;
    cbn [walk_loop]; [auto with preserves|].
  apply preserves_bind; [done|]. intros [root|]; [|auto with preserves].
  destruct (as_array _) as [arr|]; [|auto with preserves].
  apply preserves_bind; [by apply sync_items_preserves|]. intros e.
  destruct (negb _); [auto with preserves|]. apply preserves_bind.
  { cbn. destruct on_page as [f|]; [|auto with preserves].
    destruct (_ <? _); [apply Hp | auto with preserves]. }
  intros pe. destruct (negb _); [auto with preserves|]. destruct (negb _); [auto with preserves|].
  apply preserves_bind; [cbn; destruct page_sleep; [done | auto with preserves]|].
  intros _. destruct (_ <? _); [apply IH | auto with preserves].
Qed.
End WalkPreserves.

(** Walks whose requests, items and pages agree, agree. *)
Section WalkAgree.
Context `{Jansson} {W : Type} `{!WalkEnv W} (D : W -> Prop).

Lemma sync_items_agree (sync sync' : option json_t -> prog W BXillError) arr n i :
  (forall item, agree D (sync item) (sync' item)) ->
  agree D (sync_items sync arr n i) (sync_items sync' arr n i).
Proof.
  intros Hs. revert i. induction n as [|n IH]; intros i; cbn [sync_items]; [auto with agree|].
  apply agree_bind; [done|]. intros e. destruct (decide _); auto with agree.
Qed.

Lemma walk_agree fuel path extra page_sleep (sync sync' : option json_t -> prog W BXillError)
    start (on_page on_page' : Z -> prog W BXillError) :
  (forall p args, agree D (do_request p args) (do_request p args)) ->
  agree D thrd_sleep thrd_sleep ->
  (forall item, agree D (sync item) (sync' item)) ->
  (forall n, agree D (on_page n) (on_page' n)) ->
  agree D (bx_walk_pages_from fuel true (Some path) extra page_sleep sync start (Some on_page))
    (bx_walk_pages_from fuel true (Some path) extra page_sleep sync' start (Some on_page')).
Proof.
  intros Hr Hz Hs Hp. unfold bx_walk_pages_from. cbn [negb].
  generalize (start_value path start). induction fuel as [|fuel IH]; intros off;
    cbn [walk_loop]; [auto with agree|].
  apply agree_bind; [apply Hr|]. intros [root|]; [|auto with agree].
  destruct (as_array _) as [arr|]; [|auto with agree].
  apply agree_bind; [by apply sync_items_agree|]. intros e.
  apply agree_if; [auto with agree|]. apply agree_bind; [cbn; auto with agree|].
  intros pe. cbn [wk_path wk_sleep]. apply agree_if; [auto with agree|].
  apply agree_if; [auto with agree|]. apply agree_bind; [auto with agree|].
  intros _. apply agree_if; auto with agree.
Qed.
End WalkAgree.

(** ** Traces

    An environment answers by a function of everything that happened before. *)
Section Trace.
Context `{Jansson}.

Inductive event :=
| ERequest (path : string) (args : list (option BXAny))
| ESync (item : option json_t)
| EPage (next : Z)
| ESleep.

Record oracle := mkOracle {
  o_request : list event -> string -> list (option BXAny) -> option json_t;
  o_sync : list event -> option json_t -> BXillError;
  o_page : list event -> Z -> BXillError
}.

Definition ask {A} (ev : event) (answer : list event -> A) : prog (list event) A :=
  fun h => Done (answer h, h ++ [ev]).

Definition trace_env (o : oracle) : WalkEnv (list event) :=
  {| do_request := fun p args => ask (ERequest p args) (fun h => o_request o h p args);
     thrd_sleep := ask ESleep (fun _ => tt) |}.

(** The walk in the recording world. *)
Definition trace_walk (o : oracle) (with_page page_sleep : bool) (path : string)
    (extra : option BXAny) : @walk_conf _ _ (list event) :=
  mkWalk path extra page_sleep
    (fun item => ask (ESync item) (fun h => o_sync o h item))
    (if with_page then Some (fun next => ask (EPage next) (fun h => o_page o h next))
     else None).

(** The items of a decoded page. *)
Definition items_from (arr : json_t) (i : Z) (n : nat) : list (option json_t) :=
  (fun j => json_array_get arr (i + Z.of_nat j)) <$> seq 0 n.
Definition page_items (arr : json_t) : list (option json_t) :=
  items_from arr 0 (Z.to_nat (json_array_size arr)).

(** [synced o h items h']: from history [h] all of [items] sync, in order. *)
Inductive synced (o : oracle) : list event -> list (option json_t) -> list event -> Prop :=
| synced_nil h : synced o h [] h
| synced_cons h item items h' :
    o_sync o h item = NoError ->
    synced o (h ++ [ESync item]) items h' ->
    synced o h (item :: items) h'.
End Trace.

Section WalkSpec.
Context `{Jansson} (o : oracle) (with_page page_sleep : bool)
  (path : string) (extra : option BXAny).

Local Instance env : WalkEnv (list event) := trace_env o.
Local Definition k := trace_walk o with_page page_sleep path extra.
Definition req (off : Z) : event := ERequest path (request_args k off).
Definition next := next_offset path.

Definition page_events (off : Z) (items : list (option json_t)) : list event :=
  match items with
  | [] => []
  | _ => if with_page then [EPage (next off)] else []
  end.
Definition sleep_events : list event := if page_sleep then [ESleep] else [].

(** The page callback, if it ran after history [h], accepted. *)
Definition page_accepted (h : list event) (off : Z) (items : list (option json_t)) : Prop :=
  items <> [] -> with_page = true -> o_page o h (next off) = NoError.

(** The runs of a walk at an offset: the history before, after, the result. *)
Inductive walk_run : Z -> list event -> list event -> BXillError -> Prop :=
| run_no_request off h :
    o_request o h path (request_args k off) = None ->
    walk_run off h (h ++ [req off]) ErrorNet
| run_not_array off h root :
    o_request o h path (request_args k off) = Some root ->
    as_array (Some root) = None ->
    walk_run off h (h ++ [req off]) ErrorJSON
| run_item_failed off h root arr l1 item l2 h1 e :
    o_request o h path (request_args k off) = Some root ->
    as_array (Some root) = Some arr -> page_items arr = l1 ++ item :: l2 ->
    synced o (h ++ [req off]) l1 h1 -> o_sync o h1 item = e -> e <> NoError ->
    walk_run off h (h1 ++ [ESync item]) e
| run_page_refused off h root arr h1 e :
    o_request o h path (request_args k off) = Some root ->
    as_array (Some root) = Some arr -> page_items arr <> [] -> with_page = true ->
    synced o (h ++ [req off]) (page_items arr) h1 ->
    o_page o h1 (next off) = e -> e <> NoError ->
    walk_run off h (h1 ++ [EPage (next off)]) e
| run_single off h root arr h1 :
    paged path = false ->
    o_request o h path (request_args k off) = Some root ->
    as_array (Some root) = Some arr ->
    synced o (h ++ [req off]) (page_items arr) h1 ->
    page_accepted h1 off (page_items arr) ->
    walk_run off h (h1 ++ page_events off (page_items arr)) NoError
| run_end off h root arr :
    paged path = true ->
    o_request o h path (request_args k off) = Some root ->
    as_array (Some root) = Some arr -> page_items arr = [] ->
    walk_run off h (h ++ [req off] ++ sleep_events) NoError
| run_next off h root arr h1 h' e :
    paged path = true ->
    o_request o h path (request_args k off) = Some root ->
    as_array (Some root) = Some arr -> page_items arr <> [] ->
    synced o (h ++ [req off]) (page_items arr) h1 ->
    page_accepted h1 off (page_items arr) ->
    walk_run (next off) (h1 ++ page_events off (page_items arr) ++ sleep_events) h' e ->
    walk_run off h h' e.

Lemma items_from_cons arr i n :
  items_from arr i (S n) = json_array_get arr i :: items_from arr (i + 1) n.
Proof.
  unfold items_from. rewrite <- cons_seq, fmap_cons, <- fmap_S_seq, <- list_fmap_compose.
  f_equal; [f_equal; lia|]. apply list_fmap_ext. intros j x _. cbn. f_equal. lia.
Qed.

Lemma sync_items_synced arr n i h e h' :
  sync_items (wk_sync k) arr n i h = Done (e, h') ->
  (e = NoError /\ synced o h (items_from arr i n) h')
  \/ (exists l1 item l2 h1, items_from arr i n = l1 ++ item :: l2 /\ synced o h l1 h1
        /\ o_sync o h1 item = e /\ e <> NoError /\ h' = h1 ++ [ESync item]).
Proof.
  revert i h. induction n as [|n IH]; intros i h E.
  - injection E as <- <-. left. split; [done|constructor].
  - rewrite items_from_cons. cbn in E. unfold bind, ask in E.
    destruct (decide (o_sync o h (json_array_get arr i) = NoError)) as [Hok|Hko].
    + apply IH in E as [[-> Hs]|(l1 & item & l2 & h1 & El & Hs & Hrest)].
      * left. split; [done|]. by constructor.
      * right. exists (json_array_get arr i :: l1), item, l2, h1.
        rewrite El. split; [done|]. split; [by constructor|done].
    + injection E as <- <-. right.
      eexists [], _, _, h. split; [done|]. split; [constructor|done].
Qed.

Lemma sync_items_ok arr n i h h' :
  synced o h (items_from arr i n) h' ->
  sync_items (wk_sync k) arr n i h = Done (NoError, h').
Proof.
  revert i h. induction n as [|n IH]; intros i h Hs.
  - by inversion Hs.
  - rewrite items_from_cons in Hs. inversion Hs as [|? ? ? ? Hok Hs']; subst.
    cbn. unfold bind, ask. rewrite Hok. cbn. by apply IH.
Qed.

Lemma page_items_nil arr : page_items arr = [] <-> (0 <? json_array_size arr) = false.
Proof.
  unfold page_items. rewrite Z.ltb_ge. destruct (Z.to_nat _) eqn:E.
  - split; [lia|done].
  - rewrite items_from_cons. split; [done|lia].
Qed.

Lemma page_items_some arr : page_items arr <> [] <-> (0 <? json_array_size arr) = true.
Proof. rewrite page_items_nil. by destruct (_ <? _). Qed.

(** The page callback of the recording world. *)
Lemma page_call arr off h :
  match wk_on_page k with
  | Some on_page => if 0 <? json_array_size arr then on_page (next off) else ret NoError
  | None => ret NoError
  end h
  = let run := with_page && (0 <? json_array_size arr) in
    Done (if run then o_page o h (next off) else NoError,
          if run then h ++ [EPage (next off)] else h).
Proof. cbn. destruct with_page; [|done]. cbn. by destruct (_ <? _). Qed.

Lemma page_events_eq arr off h :
  (if with_page && (0 <? json_array_size arr) then h ++ [EPage (next off)] else h)
  = h ++ page_events off (page_items arr).
Proof.
  unfold page_events. destruct (page_items arr) eqn:E.
  - apply page_items_nil in E. by rewrite E, andb_false_r, app_nil_r.
  - assert (page_items arr <> []) as Hne by by rewrite E.
    apply page_items_some in Hne. rewrite Hne, andb_true_r.
    by destruct with_page; rewrite ?app_nil_r.
Qed.

Lemma sleep_eq h :
  (if wk_sleep k then thrd_sleep else ret tt) h = Done (tt, h ++ sleep_events).
Proof. cbn. unfold sleep_events. by destruct page_sleep; rewrite ?app_nil_r. Qed.

Lemma walk_loop_run fuel off h e h' :
  walk_loop fuel k off h = Done (e, h') -> walk_run off h h' e.
Proof.
  revert off h. induction fuel as [|fuel IH]; intros off h E; [done|].
  cbn [walk_loop] in E. unfold bind at 1 in E.
  change (do_request (wk_path k) (request_args k off) h)
    with (Done (o_request o h path (request_args k off), h ++ [req off])) in E.
  cbn beta iota in E.
  destruct (o_request o h path (request_args k off)) as [root|] eqn:Er.
  2: { injection E as <- <-. by apply run_no_request. }
  destruct (as_array (Some root)) as [arr|] eqn:Ea.
  2: { injection E as <- <-. by eapply run_not_array. }
  apply bind_Done in E as (e1 & h1 & E1 & E).
  apply sync_items_synced in E1 as [[-> Hs]|(l1 & item & l2 & h2 & El & Hs & He & Hne & ->)].
  2: { rewrite bool_decide_eq_false_2 in E by done. injection E as <- <-.
       by eapply run_item_failed. }
  cbn [negb bool_decide] in E. rewrite bool_decide_eq_true_2 in E by done.
  cbn [negb] in E. unfold bind at 1 in E.
  rewrite (page_call arr off) in E. cbn zeta beta iota in E.
  assert (page_accepted h1 off (page_items arr) \/
          (page_items arr <> [] /\ with_page = true /\ o_page o h1 (next off) <> NoError))
    as [Hacc|(Hne & Hwp & Hno)].
  { unfold page_accepted. destruct (page_items arr), with_page, (decide (o_page o h1 (next off) = NoError));
      naive_solver. }
  2: { rewrite (proj1 (page_items_some arr)), Hwp in E by done. cbn in E.
       rewrite bool_decide_eq_false_2 in E by done. injection E as <- <-.
       by eapply run_page_refused. }
  assert ((if with_page && (0 <? json_array_size arr) then o_page o h1 (next off) else NoError)
          = NoError) as Hpe.
  { unfold page_accepted in Hacc. rewrite page_items_some in Hacc.
    destruct with_page, (0 <? json_array_size arr); cbn; auto. }
  rewrite Hpe, page_events_eq in E. cbn [bool_decide negb] in E.
  rewrite bool_decide_eq_true_2 in E by done. cbn [negb] in E.
  cbn [wk_path k trace_walk] in E. destruct (paged path) eqn:Hp; cbn [negb] in E.
  2: { injection E as <- <-. by eapply run_single. }
  rewrite (bind_eq _ _ _ _ _ (sleep_eq _)) in E.
  destruct (0 <? json_array_size arr) eqn:Hsz.
  - apply page_items_some in Hsz. eapply run_next; [done..|].
    rewrite app_assoc. by apply IH.
  - apply page_items_nil in Hsz. injection E as <- <-.
    assert (h1 = h ++ [req off]) as -> by (unfold page_items in Hsz; rewrite Hsz in Hs; by inversion Hs).
    rewrite Hsz. cbn [page_events]. rewrite app_nil_r, <- app_assoc.
    by eapply run_end.
Qed.

(** *** A server that lists some pages *)

Definition answers (off : Z) (items : list (option json_t)) : Prop :=
  exists root arr, (forall h, o_request o h path (request_args k off) = Some root)
    /\ as_array (Some root) = Some arr /\ page_items arr = items.

(** Non-empty pages from an offset on, then an empty one. *)
Fixpoint serves (off : Z) (pages : list (list (option json_t))) : Prop :=
  match pages with
  | [] => answers off []
  | p :: pages => p <> [] /\ answers off p /\ serves (next off) pages
  end.

(** What walking them does: request, items, callback, pause; page by page. *)
Fixpoint walk_events (off : Z) (pages : list (list (option json_t))) : list event :=
  match pages with
  | [] => req off :: sleep_events
  | p :: pages =>
      req off :: (ESync <$> p) ++ page_events off p ++ sleep_events
        ++ walk_events (next off) pages
  end.

Lemma synced_all items h :
  (forall h item, o_sync o h item = NoError) ->
  synced o h items (h ++ (ESync <$> items)).
Proof.
  intros Hs. revert h. induction items as [|item items IH]; intros h.
  - rewrite app_nil_r. constructor.
  - constructor; [done|]. specialize (IH (h ++ [ESync item])).
    by rewrite <- app_assoc in IH.
Qed.

Lemma walk_loop_serves pages fuel off h :
  paged path = true -> serves off pages ->
  (forall h item, o_sync o h item = NoError) ->
  (forall h n, o_page o h n = NoError) ->
  (length pages < fuel)%nat ->
  walk_loop fuel k off h = Done (NoError, h ++ walk_events off pages).
Proof.
  intros Hp Hserve Hsync Hpage. revert fuel off h Hserve.
  induction pages as [|p pages IH]; intros [|fuel] off h Hserve Hf; [lia| |lia|].
  all: cbn [walk_loop]; unfold bind at 1;
    change (do_request (wk_path k) (request_args k off) h)
      with (Done (o_request o h path (request_args k off), h ++ [req off]));
    cbn beta iota.
  - destruct Hserve as (root & arr & -> & -> & Hi).
    rewrite (bind_eq _ _ _ NoError (h ++ [req off])).
    2: { unfold page_items in Hi. rewrite <- (app_nil_r (h ++ [req off])) at 2.
         apply sync_items_ok. rewrite Hi, app_nil_r. constructor. }
    rewrite bool_decide_eq_true_2 by done. cbn [negb]. unfold bind at 1.
    rewrite page_call. apply page_items_nil in Hi. rewrite Hi, andb_false_r.
    cbn zeta beta iota. rewrite bool_decide_eq_true_2 by done. cbn [negb].
    cbn [wk_path k trace_walk]. rewrite Hp. cbn [negb].
    rewrite (bind_eq _ _ _ _ _ (sleep_eq _)). by rewrite <- app_assoc.
  - destruct Hserve as (Hne & (root & arr & -> & -> & Hi) & Hserve).
    rewrite (bind_eq _ _ _ NoError ((h ++ [req off]) ++ (ESync <$> p))).
    2: { apply sync_items_ok. fold (page_items arr). rewrite Hi. by apply synced_all. }
    rewrite bool_decide_eq_true_2 by done. cbn [negb]. unfold bind at 1.
    rewrite page_call. cbn zeta beta iota. rewrite Hpage, page_events_eq.
    replace (if _ && _ then NoError else NoError) with NoError by by destruct (_ && _).
    rewrite bool_decide_eq_true_2 by done. cbn [negb].
    cbn [wk_path k trace_walk]. rewrite Hp. cbn [negb].
    rewrite (bind_eq _ _ _ _ _ (sleep_eq _)).
    rewrite <- Hi in Hne. apply page_items_some in Hne. rewrite Hne.
    fold next. rewrite IH by (done || (cbn in Hf; lia)).
    cbn [walk_events]. rewrite Hi, <- !app_assoc. done.
Qed.
End WalkSpec.

(** ** The two theorems on [bx_walk_pages_from] *)

Section WalkTheorems.
Context `{Jansson}.

Definition traced_walk (o : oracle) (fuel : nat) (with_page page_sleep : bool)
    (path : string) (extra : option BXAny) (start : Z) : prog (list event) BXillError :=
  let _ := trace_env o in
  bx_walk_pages_from fuel true (Some path) extra page_sleep
    (fun item => ask (ESync item) (fun h => o_sync o h item)) start
    (if with_page then Some (fun next => ask (EPage next) (fun h => o_page o h next))
     else None).

(** Claim C3. What a walk does, whatever the server, the callbacks and the sleep answer:
    every completed run makes the requests, item and page callbacks of
    [walk_run], in its order, and returns its error. *)
Theorem walk_pages_trace o fuel with_page page_sleep path extra start h e h' :
  traced_walk o fuel with_page page_sleep path extra start h = Done (e, h') ->
  walk_run o with_page page_sleep path extra (start_value path start) h h' e.
Proof. apply walk_loop_run. Qed.

(** Claim C4. Against a server that lists the pages and then an empty one, the walk
    returns, without error, after syncing every item of every page in order. *)
Theorem walk_pages_lists o with_page page_sleep path extra start pages fuel h :
  paged path = true ->
  serves o with_page page_sleep path extra (start_value path start) pages ->
  (forall h item, o_sync o h item = NoError) ->
  (forall h n, o_page o h n = NoError) ->
  (length pages < fuel)%nat ->
  traced_walk o fuel with_page page_sleep path extra start h
  = Done (NoError, h ++ walk_events o with_page page_sleep path extra
                          (start_value path start) pages).
Proof. intros. by apply walk_loop_serves. Qed.
End WalkTheorems.

(** ** A server with one page *)

Definition one_page : oracle :=
  mkOracle
    (fun _ _ args => match args with
                     | _ :: Some (VInteger off) :: _ =>
                         Some (JArray (if int_value off =? 0 then [JInteger 7] else []))
                     | _ => None
                     end)
    (fun _ _ => NoError) (fun _ _ => NoError).

Definition list_path : string := "2.0/pr_project?limit=$&offset=$".

Lemma walk_pages_lists_witness :
  traced_walk one_page 2 true false list_path None 0 []
  = Done (NoError, [] ++ walk_events one_page true false list_path None
                           (start_value list_path 0) [[Some (JInteger 7)]]).
Proof.
  apply walk_pages_lists.
  - vm_compute. reflexivity.
  - split; [discriminate|]. split.
    + exists (JArray [JInteger 7]), (JArray [JInteger 7]). repeat split.
    + exists (JArray []), (JArray []). repeat split.
  - reflexivity.
  - reflexivity.
  - cbn. lia.
Defined.

Definition one_page_events : list event :=
  match traced_walk one_page 2 true false list_path None 0 [] with
  | Done (_, h) => h
  | _ => []
  end.

Lemma walk_pages_trace_witness :
  walk_run one_page true false list_path None (start_value list_path 0) [] one_page_events NoError.
Proof.
  apply (walk_pages_trace one_page 2 true false list_path None 0).
  reflexivity.
Defined.
