(* ===== verification/Request.v ===== *)
(** * From a path to a decoded answer: [bx_net.c], [bx_utils.c], [bx_decode.c]

    A turn of [_bx_net_loop_worker] (fetch, standby flag, pause between two
    requests) and [bx_do_request], which builds a path, queues a request, waits
    for it and decodes its body.  The theorems: with the worker at work a call
    is one fetch of its path and gives the decoded body, an answer with an
    empty body faults; the parameters that were added come back from the query
    string unless they hold a space or a control character, which makes it
    illegal; the pause is between one microsecond and the default; which answers
    raise the standby flag. *)
From S2P Require Import Prelude CLib Env Samples Values Objects Utils Url Net NetQueue Walk.
#[local] Open Scope Z_scope.

Definition BX_NET_DEFAULT_MS_SLEEP : Z := 125.
Definition MS_TO_US (x : Z) : Z := x * 1000.
Definition SEC_TO_US (x : Z) : Z := x * 1000 * 1000.

(** ** The table of decoders

    Nothing calls [bx_decode_select_decoder].  A function pointer is the name of
    its function. *)
Inductive e_BXObjectType :=
| BXTypeNone | BXTypeInvoice | BXTypeContact | BXTypeContactGroup | BXTypeContactSector
| BXTypeInvoiceTax | BXTypeInvoicePositionCE | BXTypeInvoicePositionAE
| BXTypeInvoicePositionDE | BXTypeInvoicePositionSE | BXTypeInvoicePositionPE
| BXTypeInvoicePositionTE | BXTypeUser | BXTypeLanguage | BXTypeProject | BXTypeAccount
| BXTypeUnit | BXTypeSalutation | BXTypeTitle | BXTypePaymentType | BXTypeCurrency.
#[global] Instance e_BXObjectType_eq_dec : EqDecision e_BXObjectType.
Proof. solve_decision. Defined.

Record BXObjectFunctions := mkFunctions {
  fn_type : e_BXObjectType;
  decode_function : option string;
  free_function : option string;
  dump_function : option string
}.

Definition position_functions (t : e_BXObjectType) : BXObjectFunctions :=
  mkFunctions t (Some "bx_object_position_decode") (Some "bx_object_position_free")
    (Some "bx_object_position_dump").

Definition FunctionHandlers : list BXObjectFunctions := [
  mkFunctions BXTypeInvoice (Some "bx_object_invoice_decode") (Some "bx_object_invoice_free")
    (Some "bx_object_invoice_dump");
  mkFunctions BXTypeContact (Some "bx_object_contact_decode") (Some "bx_object_contact_free")
    (Some "bx_object_contact_dump");
  mkFunctions BXTypeInvoiceTax (Some "bx_object_tax_decode") (Some "bx_object_tax_free") None;
  position_functions BXTypeInvoicePositionCE;
  position_functions BXTypeInvoicePositionAE;
  position_functions BXTypeInvoicePositionTE;
  position_functions BXTypeInvoicePositionSE;
  position_functions BXTypeInvoicePositionPE;
  position_functions BXTypeInvoicePositionDE;
  mkFunctions BXTypeNone None None None].

(** The loop reads past the table when its end is missing. *)
Fixpoint select_loop (table : list BXObjectFunctions) (decoder : e_BXObjectType)
    : outcome (option BXObjectFunctions) :=
  match table with
  | [] => Fault
  | f :: table =>
      if bool_decide (fn_type f = BXTypeNone) then Done None
      else if bool_decide (fn_type f = decoder) then Done (Some f)
      else select_loop table decoder
  end.

Definition bx_decode_select_decoder (decoder : e_BXObjectType) : outcome (option BXObjectFunctions) :=
  if bool_decide (decoder = BXTypeNone) then Fault else select_loop FunctionHandlers decoder.

(** A search of a table with its end: the first entry of the type. *)
Lemma select_loop_first table last rest decoder :
  decoder <> BXTypeNone -> Forall (fun f => fn_type f <> BXTypeNone) table -> fn_type last = BXTypeNone ->
  select_loop (table ++ last :: rest) decoder
  = Done (snd <$> list_find (fun f => fn_type f = decoder) table).
Proof.
  intros Hd Ht Hl. induction Ht as [|f table Hf Ht IH]; cbn [app select_loop list_find].
  - by rewrite bool_decide_true.
  - rewrite bool_decide_false by done. case_bool_decide as E; [by rewrite decide_True|].
    rewrite decide_False by done. rewrite IH. by destruct (list_find _ table) as [[]|].
Qed.

Example select_decoder_ex :
  bx_decode_select_decoder BXTypeInvoicePositionSE = Done (Some (position_functions BXTypeInvoicePositionSE))
  /\ bx_decode_select_decoder BXTypeCurrency = Done None /\ bx_decode_select_decoder BXTypeNone = Fault.
Proof. split; [|split]; vm_compute; reflexivity. Qed.

(** C [float]; the conversion to [int] is undefined out of its range. *)
Class CFloat := {
  float : Type;
  f_of_Z : Z -> float;
  f_add : float -> float -> float;
  f_mul : float -> float -> float;
  f_div : float -> float -> float;
  f_to_int : float -> option Z
}.

(** ** The pause after a request *)

Definition int_ok (z : Z) : bool := (- 2 ^ 31 <=? z) && (z <? 2 ^ 31).

Section Pause.
Context `{CFloat}.

(** [us_sleep] after a turn, from its value before it. *)
Definition next_sleep (us_sleep : Z) (l : BXNetRatelimit) (request_count : Z) : outcome Z :=
  let max_request_share := f_of_Z 1 in
  let us_sleep_1 :=
    if max_request l =? 0 then Done (f_of_Z (MS_TO_US BX_NET_DEFAULT_MS_SLEEP))
    else if int_ok (SEC_TO_US (reset_time l))
    then Done (f_div (f_of_Z (SEC_TO_US (reset_time l)))
                 (f_mul max_request_share (f_of_Z (remaining_request l))))
    else Fault in
  match us_sleep_1 with
  | Done us_sleep_1 =>
      let average := f_div (f_add us_sleep_1
                              (f_of_Z (u64 (us_sleep * u64 (request_count - 1)))))
                       (f_of_Z request_count) in
      match f_to_int average with
      | None => Fault
      | Some us => Done (if (us <=? 0) || (MS_TO_US BX_NET_DEFAULT_MS_SLEEP <? us)
                         then MS_TO_US BX_NET_DEFAULT_MS_SLEEP else us)
      end
  | Fault => Fault
  | OutOfFuel => OutOfFuel
  end.

(** The pause between two requests is never shorter than one microsecond nor
    longer than the default of 125 milliseconds. *)
Theorem next_sleep_bounds us_sleep l request_count us :
  next_sleep us_sleep l request_count = Done us -> 1 <= us <= 125000.
Proof.
  unfold next_sleep. destruct (if max_request l =? 0 then _ else _); [|done..].
  destruct (f_to_int _) as [v|]; [|done]. intros [= <-].
  change (MS_TO_US BX_NET_DEFAULT_MS_SLEEP) with 125000.
  destruct (Z.leb_spec v 0), (Z.ltb_spec 125000 v); cbn; lia.
Qed.

(** When the first request of the process fails the mean has no terms: the
    division is by zero and its conversion to [int] is undefined. *)
Lemma next_sleep_first_failure us_sleep l :
  (forall x, f_to_int (f_div x (f_of_Z 0)) = None) ->
  next_sleep us_sleep l 0 = Fault.
Proof.
  intros Hz. unfold next_sleep. destruct (if max_request l =? 0 then _ else _) eqn:E.
  - by rewrite Hz.
  - done.
  - by repeat case_match.
Qed.

Lemma next_sleep_overflow us_sleep l request_count :
  max_request l <> 0 -> 2148 <= reset_time l ->
  next_sleep us_sleep l request_count = Fault.
Proof.
  intros Hm Hr. unfold next_sleep. rewrite (proj2 (Z.eqb_neq _ _)) by done.
  assert (int_ok (SEC_TO_US (reset_time l)) = false) as ->; [|done].
  unfold int_ok, SEC_TO_US. apply andb_false_iff. right. apply Z.ltb_ge. lia.
Qed.
End Pause.

(** ** The standby flag *)

Definition server_busy (code : Z) : bool := (code =? 429) || (code =? 500) || (code =? 503).

(** The local variable and the flag of the list, after an answer. *)
Definition answer_standby (response : option BXNetRData) (st : bool * bool) : bool * bool :=
  let '(local_, shared) := st in
  match response with
  | None => (true, shared)
  | Some d =>
      if server_busy (http_code d) then (if local_ then st else (true, true))
      else (if local_ then (false, false) else st)
  end.

Definition normal (response : option BXNetRData) : bool :=
  match response with Some d => negb (server_busy (http_code d)) | None => false end.
Definition busy (response : option BXNetRData) : bool :=
  match response with Some d => server_busy (http_code d) | None => false end.

(** The answers since the last normal one. *)
Fixpoint since_normal (acc responses : list (option BXNetRData)) : list (option BXNetRData) :=
  match responses with
  | [] => acc
  | r :: responses => since_normal (if normal r then [] else acc ++ [r]) responses
  end.

Definition standby_after (acc : list (option BXNetRData)) : bool * bool :=
  match acc with [] => (false, false) | r :: _ => (true, busy r) end.

Lemma standby_fold responses acc :
  Forall (fun r => normal r = false) acc ->
  foldl (fun st r => answer_standby r st) (standby_after acc) responses
  = standby_after (since_normal acc responses).
Proof.
  revert acc. induction responses as [|r responses IH]; intros acc Ha; [done|].
  cbn [foldl since_normal]. rewrite <- IH.
  - f_equal. unfold normal, busy in *. destruct r as [d|]; cbn.
    + unfold standby_after. destruct (server_busy (http_code d)) eqn:Eb; cbn.
      * destruct acc as [|a acc]; cbn; by rewrite ?Eb.
      * destruct acc as [|a acc]; cbn; by rewrite ?Eb.
    + by destruct acc as [|a acc].
  - destruct (normal r) eqn:E; [constructor|]. apply Forall_app. by repeat constructor.
Qed.

(** The flag that makes the data threads wait: after any sequence of answers it is
    set exactly when the first answer that is not normal since the last normal
    one is a 429, a 500 or a 503; an answer of these that follows a failed
    transfer does not set it. *)
Theorem standby_flag_spec responses :
  (foldl (fun st r => answer_standby r st) (false, false) responses).2
  = match since_normal [] responses with r :: _ => busy r | [] => false end.
Proof.
  change (false, false) with (standby_after []). rewrite standby_fold by constructor.
  by destruct (since_normal [] responses).
Qed.

Example standby_missed :
  foldl (fun st r => answer_standby r st) (false, false) [None; Some (mkRData None 429)]
  = (true, false).
Proof. reflexivity. Qed.

(** ** A turn of the worker, and a call *)

(** [json_loadb] of the body. *)
Class JsonLoad `{Jansson} := { json_loadb : string -> option json_t }.

Section Worker.
Context `{CFloat} {W : Type} `{!TokenEnv W} `{!CurlEnv W}.

(** The world of the requests: the lists and the connection. *)
Definition rworld : Type := BXNetRequestList * (BXNet * W).

Definition set_lists (f : BXNetRequestList -> BXNetRequestList) : prog rworld unit :=
  modify (fun w => (f w.1, w.2)).

(** From the test of [in] to the broadcast on [out_cond], when [in] is not
    empty; the local [standby] of the thread. *)
Definition net_serve (standby_ : bool) : prog rworld bool :=
  l <- gets fst ;;
  match take_oldest (q_in l) with
  | None => ret standby_
  | Some (r, rest) =>
      set_lists (fun l => mkRequests (run l) (standby l) (next_id l) rest (q_out l)) ;;;
      path <- lift_option (rq_path r) ;;                  (* assert(path != NULL) *)
      response <- on_snd (bx_fetch path (rq_params r)) ;;
      l <- gets fst ;;
      let '(local_, shared) := answer_standby response (standby_, standby l) in
      set_lists (fun l => put_back (answered response r)
                            (mkRequests (run l) shared (next_id l) (q_in l) (q_out l))) ;;;
      ret local_
  end.

(** What follows: the new [us_sleep], and what the thread sleeps. *)
Definition net_pause (us_sleep : Z) : prog rworld Z :=
  fun w => match next_sleep us_sleep (limits w.2.1) (request_count w.2.1) with
           | Done us => Done (us, w)
           | Fault => Fault
           | OutOfFuel => OutOfFuel
           end.

Definition net_turn (st : bool * Z) : prog rworld (bool * Z) :=
  standby_ <- net_serve st.1 ;;
  us_sleep <- net_pause st.2 ;;
  ret (standby_, us_sleep).
End Worker.

Section Call.
Context `{JsonLoad} {W : Type} `{!TokenEnv W} `{!CurlEnv W}.
Notation rw := (rworld (W := W)).

(** [pthread_cond_wait]: the other threads run. *)
Context (cond_wait : prog rw unit).

Definition item_path (fmt : string) (ap : list (option BXAny)) : prog rw (option string) :=
  m <- on_snd (on_snd net_memory) ;;
  fun w => match bx_item_to_path m (Some fmt) ap with
           | Done r => Done (r, w)
           | Fault => Fault
           | OutOfFuel => OutOfFuel
           end.

(** [fuel] bounds the waits. *)
Fixpoint bx_net_request_list_get_finished (fuel : nat) (id : Z) : prog rw (option BXNetRequest) :=
  match fuel with
  | O => out_of_fuel
  | S fuel =>
      l <- gets fst ;;
      let '(r, l) := get_finished_turn l id in
      set_lists (fun _ => l) ;;;
      match r with
      | Some r => ret r
      | None => cond_wait ;;; bx_net_request_list_get_finished fuel id
      end
  end.

Definition bx_do_request_wait (fuel : nat) (path_fmt : string) (ap : list (option BXAny))
    : prog rw (option BXNetRequest) :=
  path <- item_path path_fmt ap ;;
  match path with
  | None => ret None
  | Some path =>
      m <- on_snd (on_snd net_memory) ;;
      dup <- on_snd (on_snd net_memory) ;;
      match bx_net_request_new m dup path with
      | None => ret None
      | Some r =>
          l <- gets fst ;;
          let '(request_id, l) := bx_net_request_list_add l r in
          set_lists (fun _ => l) ;;;
          if request_id =? 0 then ret None else
          request <- bx_net_request_list_get_finished fuel request_id ;;
          match request with
          | None => ret None
          | Some r => if rq_cancel r || bool_decide (rq_response r = None)
                      then ret None else ret (Some r)
          end
      end
  end.

(** The asserts on the body, then [json_loadb]. *)
Definition bx_decode_net (r : BXNetRequest) : prog rw (option json_t) :=
  match rq_response r with
  | None => fault
  | Some d =>
      match rd_data d with
      | None => fault
      | Some data => if data_len d =? 0 then fault else ret (json_loadb data)
      end
  end.

(** The request with its decoded body. *)
Definition bx_do_request (fuel : nat) (path_fmt : string) (ap : list (option BXAny))
    : prog rw (option (BXNetRequest * json_t)) :=
  request <- bx_do_request_wait fuel path_fmt ap ;;
  match request with
  | None => ret None
  | Some r =>
      json <- bx_decode_net r ;;
      ret (match json with Some j => Some (r, j) | None => None end)
  end.

Definition bx_do_request_raw (fuel : nat) (path_fmt : string) (ap : list (option BXAny))
    : prog rw (option BXNetRequest) := bx_do_request_wait fuel path_fmt ap.
End Call.

(** ** A call is a fetch *)

Lemma find_request_fresh id l :
  Forall (fun r => rq_id r < id) l -> find_request id l = None.
Proof.
  induction 1 as [|r l Hr _ IH]; [done|]. cbn. rewrite IH.
  by rewrite (proj2 (Z.eqb_neq _ _)) by lia.
Qed.

Section CallSpec.
Context `{JsonLoad} {W : Type} `{!TokenEnv W} `{!CurlEnv W}.
Hypothesis memory_ok : forall w : W, net_memory w = Done (true, w).

(** The worker at work while the caller waits. *)
Definition served_call (standby_ : bool) (fuel : nat) (fmt : string) (ap : list (option BXAny))
    : prog (rworld (W := W)) (option (BXNetRequest * json_t)) :=
  bx_do_request (net_serve standby_ ;;; ret tt) fuel fmt ap.

(** The request of a path, answered. *)
Definition done_request (id : Z) (path : string) (d : BXNetRData) : BXNetRequest :=
  mkRequest true false id (Some path) [] (Some d).

(** What the call makes of the answer: the asserts want a body. *)
Definition decoded_answer (r : BXNetRequest) : outcome (option (BXNetRequest * json_t)) :=
  match rq_response r with
  | Some d =>
      match rd_data d with
      | Some data => if strlen data =? 0 then Fault
                     else Done (match json_loadb data with Some j => Some (r, j) | None => None end)
      | None => Fault
      end
  | None => Fault
  end.

Lemma serve_one standby_ (l : BXNetRequestList) r path (n n' : BXNet) (w w' : W) response :
  q_in l = [r] -> rq_path r = Some path -> rq_params r = [] ->
  bx_fetch path [] (n, w) = Done (response, (n', w')) ->
  (net_serve standby_ ;;; ret tt) (l, (n, w))
  = Done (tt, (put_back (answered response r)
                 (mkRequests (run l) (answer_standby response (standby_, standby l)).2
                    (next_id l) [] (q_out l)), (n', w'))).
Proof.
  intros Hin Hp Hps Hf. unfold net_serve.
  etrans; [apply (bind_eq _ _ _ (answer_standby response (standby_, standby l)).1)|reflexivity].
  step. rewrite Hin. cbn [take_oldest]. step. rewrite Hp. step.
  rewrite Hps. etrans; [eapply bind_eq; unfold on_snd; cbn [snd]; rewrite Hf; reflexivity|].
  cbn [fst snd]. step. cbn [standby].
  destruct (answer_standby response (standby_, standby l)) as [loc shared]. reflexivity.
Qed.

Lemma memory_step {A} (k : bool -> prog (rworld (W := W)) A) x :
  bind (on_snd (on_snd net_memory)) k x = k true x.
Proof.
  destruct x as [l0 [n0 w0]]. unfold bind, on_snd. cbn [fst snd]. rewrite memory_ok. reflexivity.
Qed.

Lemma get_finished_served (cw : prog (rworld (W := W)) unit) fuel r response st sh id qo x x' :
  cw (mkRequests true st id [r] qo, x)
  = Done (tt, (put_back (answered response r) (mkRequests true sh id [] qo), x')) ->
  rq_id r = id -> find_request id qo = None ->
  bx_net_request_list_get_finished cw (S (S fuel)) id (mkRequests true st id [r] qo, x)
  = Done (Some (answered response r), (mkRequests true sh id [] qo, x')).
Proof.
  intros Hcw Hid Hnone. cbn [bx_net_request_list_get_finished]. step.
  unfold get_finished_turn at 1. cbn [q_out run]. rewrite Hnone. step.
  etrans; [eapply bind_eq; exact Hcw|]. step.
  unfold get_finished_turn. cbn [q_out put_back find_request run standby next_id q_in].
  rewrite answered_id, Hid, Z.eqb_refl. by step.
Qed.

(** Claim C7. A call on an idle queue while the worker runs: one fetch of the path, then the
    request with its decoded body; [NULL] when the fetch failed or the body
    does not parse; an answer without a body, whatever its code, makes the
    asserts of [bx_decode_net] fail. *)
Theorem do_request_is_fetch standby_ fuel fmt ap path l n n' w w' response :
  run l = true -> q_in l = [] -> 0 <= next_id l < UINT64_MAX ->
  Forall (fun r => rq_id r < next_id l + 1) (q_out l) ->
  bx_item_to_path true (Some fmt) ap = Done (Some path) ->
  bx_fetch path [] (n, w) = Done (response, (n', w')) ->
  let w1 := (mkRequests true (answer_standby response (standby_, standby l)).2
               (next_id l + 1) [] (q_out l), (n', w')) in
  served_call standby_ (S (S fuel)) fmt ap (l, (n, w))
  = match response with
    | None => Done (None, w1)
    | Some d => match decoded_answer (done_request (next_id l + 1) path d) with
                | Done r => Done (r, w1)
                | _ => Fault
                end
    end.
Proof.
  intros Hrun Hin Hn Hfresh Hpath Hfetch w1. destruct l as [rn st id qi qo].
  cbn [run q_in next_id q_out standby] in *. subst rn qi.
  assert (u64 (id + 1) = id + 1) as Hu by (apply u64_small; unfold is_u64, UINT64_MAX in *; lia).
  set (r := mkRequest false false (id + 1) (Some path) [] None).
  unfold served_call, bx_do_request. set (cw := net_serve standby_ ;;; ret tt).
  assert (bx_do_request_wait cw (S (S fuel)) fmt ap (mkRequests true st id [] qo, (n, w))
    = Done (match response with None => None | Some d => Some (done_request (id + 1) path d) end, w1))
    as E.
  - unfold bx_do_request_wait, item_path.
    etrans; [eapply bind_eq; rewrite memory_step; by rewrite Hpath|]. cbn beta iota.
    rewrite !memory_step. cbn [bx_net_request_new negb]. step.
    cbn [bx_net_request_list_add next_id]. rewrite Hu. step.
    rewrite (proj2 (Z.eqb_neq _ _)) by lia. cbn [run standby next_id q_in q_out with_id].
    pose proof (serve_one standby_ (mkRequests true st (id + 1) [r] qo) r path n n' w w' response
      eq_refl eq_refl eq_refl Hfetch) as Hserve.
    etrans; [eapply bind_eq; apply (get_finished_served cw fuel r response _ _ _ _ _ _ Hserve)|];
      [done|by apply find_request_fresh|].
    by destruct response.
  - rewrite (bind_eq _ _ _ _ _ E). clear E. destruct response as [d|]; [|done].
    unfold decoded_answer, bx_decode_net. cbn [rq_response done_request].
    unfold bind. cbn [rq_response done_request].
    destruct (rd_data d) as [data|] eqn:Ed; [|done].
    assert (data_len d = strlen data) as Hdl by (unfold data_len; by rewrite Ed).
    rewrite Hdl. by destruct (strlen data =? 0).
Qed.
End CallSpec.

(** ** The parameters of a request and its address *)

(** Added one after the other, as the callers of [bx_net_request_add_param]
    do; [None] when one could not be added. *)
Fixpoint add_params (r : BXNetRequest) (ps : list (string * string)) : outcome (option BXNetRequest) :=
  match ps with
  | [] => Done (Some r)
  | (name, value) :: ps =>
      match bx_net_request_add_param true true true r name value with
      | Done (true, r) => add_params r ps
      | Done (false, _) => Done None
      | Fault => Fault
      | OutOfFuel => OutOfFuel
      end
  end.

(** What a server does: cut at the first [?], at each [&], at the first [=] of
    each pair, and decode. *)
Fixpoint cut (d : ascii) (s : list ascii) : list ascii * option (list ascii) :=
  match s with
  | [] => ([], None)
  | c :: s => if Ascii.eqb c d then ([], Some s) else let '(a, b) := cut d s in (c :: a, b)
  end.

Fixpoint split_on (d : ascii) (s : list ascii) : list (list ascii) :=
  match s with
  | [] => [[]]
  | c :: s => if Ascii.eqb c d then [] :: split_on d s
              else match split_on d s with [] => [[c]] | w :: ws => (c :: w) :: ws end
  end.

Definition parse_pair (s : list ascii) : string * string :=
  let '(name, value) := cut "=" s in
  (string_of (percent_decode name), string_of (percent_decode (default [] value))).

(** The bytes that a query may hold (RFC 3986, 3.4, with the [%] of an escape). *)
Definition query_char (c : ascii) : bool :=
  let n := code c in
  (48 <=? n) && (n <=? 57) || (65 <=? n) && (n <=? 90) || (97 <=? n) && (n <=? 122)
  || existsb (Ascii.eqb c) (list_of "-._~!$&'()*+,;=:@/?%").

(** What the server gets; [None] for an address that it refuses. *)
Definition read_parameters (url : string) : option (list (string * string)) :=
  match (cut "?" (list_of url)).2 with
  | None => Some []
  | Some query => if forallb query_char query then Some (parse_pair <$> split_on "&" query) else None
  end.

(** Neither a space nor a control character. *)
Definition visible (c : ascii) : bool := (32 <? code c) && negb (code c =? 127).
Definition visible_param (p : string * string) : bool :=
  forallb visible (list_of p.1) && forallb visible (list_of p.2).

Definition lacks (d : ascii) (s : list ascii) : Prop := Forall (fun c => c <> d) s.

Lemma cut_at d a b : lacks d a -> cut d (a ++ d :: b) = (a, Some b).
Proof.
  induction 1 as [|c a Hc _ IH]; cbn; [by rewrite Ascii.eqb_refl|].
  by rewrite (proj2 (Ascii.eqb_neq _ _) Hc), IH.
Qed.

Lemma cut_none d a : lacks d a -> cut d a = (a, None).
Proof.
  induction 1 as [|c a Hc _ IH]; cbn; [done|]. by rewrite (proj2 (Ascii.eqb_neq _ _) Hc), IH.
Qed.

Lemma split_on_last d a : lacks d a -> split_on d a = [a].
Proof.
  induction 1 as [|c a Hc _ IH]; cbn; [done|]. by rewrite (proj2 (Ascii.eqb_neq _ _) Hc), IH.
Qed.

Lemma split_on_cons d a b : lacks d a -> split_on d (a ++ d :: b) = a :: split_on d b.
Proof.
  induction 1 as [|c a Hc _ IH]; cbn; [by rewrite Ascii.eqb_refl|].
  by rewrite (proj2 (Ascii.eqb_neq _ _) Hc), IH.
Qed.

Lemma safe_lacks d s :
  url_delimiter d = true -> Forall (fun c => url_delimiter c = false) s -> lacks d s.
Proof. intros Hd Hs. eapply Forall_impl; [exact Hs|]. intros c Hc ->. congruence. Qed.

Definition encode_param (p : string * string) : BXNetURLParam :=
  mkParam (string_of (percent_text (list_of p.1))) (string_of (percent_text (list_of p.2))).

Lemma encode_param_text p :
  param_text (encode_param p) = percent_text (list_of p.1) ++ "="%char :: percent_text (list_of p.2).
Proof. unfold param_text. cbn. by rewrite !list_of_string_of. Qed.

Lemma param_text_lacks p : lacks "&" (param_text (encode_param p)).
Proof.
  rewrite encode_param_text. apply Forall_app. split; [by apply safe_lacks, percent_text_safe|].
  constructor; [done|]. by apply safe_lacks, percent_text_safe.
Qed.

Lemma parse_pair_text p : parse_pair (param_text (encode_param p)) = p.
Proof.
  unfold parse_pair. rewrite encode_param_text, cut_at by (by apply safe_lacks, percent_text_safe).
  cbn. rewrite !percent_decode_text, !string_of_list_of. by destruct p.
Qed.

Lemma split_query ps :
  ps <> [] -> parse_pair <$> split_on "&" (query_text (encode_param <$> ps)) = ps.
Proof.
  induction ps as [|p [|q ps] IH]; intros Hne; [done|..]; cbn [fmap list_fmap query_text].
  - rewrite split_on_last by apply param_text_lacks. cbn [fmap list_fmap]. by rewrite parse_pair_text.
  - rewrite split_on_cons by apply param_text_lacks. cbn [fmap list_fmap].
    rewrite parse_pair_text. f_equal. by apply IH.
Qed.

(** The encoding of a byte is legal in a query, but for the bytes it forgets. *)
Lemma encode_char_legal c : forallb query_char (encode_char c) = visible c.
Proof.
  apply eqb_prop. revert c. apply (forall_char (fun c => Bool.eqb (forallb query_char (encode_char c)) (visible c))).
  vm_compute. reflexivity.
Qed.
Lemma percent_text_legal s : forallb query_char (percent_text s) = forallb visible s.
Proof.
  induction s as [|c s IH]; [done|]. unfold percent_text in *. cbn [mbind list_bind forallb].
  by rewrite forallb_app, encode_char_legal, IH.
Qed.
Lemma param_text_legal p : forallb query_char (param_text (encode_param p)) = visible_param p.
Proof.
  rewrite encode_param_text, forallb_app. cbn [forallb]. by rewrite !percent_text_legal.
Qed.
Lemma query_legal ps :
  forallb query_char (query_text (encode_param <$> ps)) = forallb visible_param ps.
Proof.
  induction ps as [|p [|q ps] IH]; [done|..]; cbn [fmap list_fmap query_text forallb].
  - by rewrite param_text_legal, andb_true_r.
  - rewrite forallb_app, param_text_legal. f_equal. exact IH.
Qed.

Definition param_ok (p : string * string) : Prop :=
  c_string p.1 /\ c_string p.2
  /\ Z.of_nat (length (percent_text (list_of p.1))) < 2 ^ 64
  /\ Z.of_nat (length (percent_text (list_of p.2))) < 2 ^ 64.

Lemma add_params_eq r ps :
  Forall param_ok ps ->
  add_params r ps = Done (Some (with_params (rq_params r ++ (encode_param <$> ps)) r)).
Proof.
  intros Hps. revert r. induction Hps as [|[name value] ps (Hn & Hv & Hbn & Hbv) _ IH]; intros r.
  - cbn. rewrite app_nil_r. by destruct r.
  - cbn [add_params]. unfold bx_net_request_add_param. cbn [negb].
    rewrite !percent_encoding_eq by done. rewrite IH. cbn. by rewrite <- app_assoc.
Qed.

Lemma base_lacks endpoint path :
  lacks "?" (list_of endpoint) -> lacks "?" (list_of path) -> lacks "?" (base_text endpoint path).
Proof.
  intros He Hp. unfold base_text. set (s := list_of (_ +:+ _)).
  assert (lacks "?" s) as Hs.
  { unfold s, lacks. rewrite !list_of_app. apply Forall_app. split; [done|]. by constructor. }
  apply Forall_app. split; [by apply Forall_take|]. by apply squeeze_Forall, Forall_drop.
Qed.

Lemma encoded_c_strings ps :
  Forall param_ok ps ->
  Forall (fun p => c_string (pr_name p) /\ c_string (pr_value p)) (encode_param <$> ps).
Proof.
  intros Hps. apply Forall_fmap. eapply Forall_impl; [exact Hps|]. intros p (Hn & Hv & _).
  unfold c_string, compose. cbn. rewrite !list_of_string_of. by split; apply percent_text_nonul.
Qed.

(** Claim C32. The parameters that are added to a request, against a server that reads a
    query as RFC 3986 has it.  When no name or value holds a space or a control character,
    the server reads exactly the names and values that were added, in order: no byte of
    them is taken for a separator, and none is lost.  Those bytes are not in the table of
    encodings: with one of them the address is no legal one and is refused. *)
Theorem parameters_round_trip endpoint path r ps :
  rq_params r = [] -> Forall param_ok ps ->
  (2 <= length (list_of endpoint))%nat -> c_string endpoint -> c_string path ->
  lacks "?" (list_of endpoint) -> lacks "?" (list_of path) ->
  url_size endpoint path (encode_param <$> ps) < 2 ^ 31 ->
  exists r' url,
    add_params r ps = Done (Some r')
    /\ _bx_build_url true endpoint (strlen endpoint) path (rq_params r') = Done (Some url)
    /\ read_parameters url = (if forallb visible_param ps then Some ps else None).
Proof.
  intros Hr Hps He Hce Hcp Hqe Hqp Hs.
  exists (with_params (encode_param <$> ps) r), (string_of (url_text endpoint path (encode_param <$> ps))).
  split_and!.
  - by rewrite add_params_eq, Hr by done.
  - cbn [rq_params with_params]. by apply build_url_spec, encoded_c_strings.
  - unfold read_parameters, url_text. rewrite list_of_string_of.
    pose proof (base_lacks endpoint path Hqe Hqp) as Hb. destruct ps as [|p ps].
    + cbn. by rewrite app_nil_r, cut_none by done.
    + cbn [fmap list_fmap]. rewrite cut_at by done.
      pose proof (query_legal (p :: ps)) as Hq. cbn [fmap list_fmap] in Hq. cbn [snd]. rewrite Hq. destruct (forallb visible_param (p :: ps)); [|done].
      f_equal. by apply (split_query (p :: ps)).
Qed.

(** ** Concrete inputs *)

#[local] Instance sample_float : CFloat :=
  {| float := Z; f_of_Z z := z; f_add := Z.add; f_mul := Z.mul; f_div := Z.div;
     f_to_int z := if int_ok z then Some z else None |}.

(** A limit of 100 requests of which 20 remain for 4 seconds. *)
Lemma next_sleep_bounds_witness :
  next_sleep 125000 (mkLimits 100 20 4) 2 = Done 125000
  /\ next_sleep 125000 (mkLimits 1000 800 4) 10 = Done 113000
  /\ 1 <= 113000 <= 125000.
Proof.
  split; [vm_compute; reflexivity|]. split; [vm_compute; reflexivity|].
  apply (next_sleep_bounds 125000 (mkLimits 1000 800 4) 10). vm_compute. reflexivity.
Defined.

Lemma parameters_round_trip_witness :
  (exists r' url,
    add_params (mkRequest false false 0 (Some "2.0/contact") [] None)
      [("name", "A&B=50%"); ("q?", "")] = Done (Some r')
    /\ _bx_build_url true "https://api" 11 "2.0/contact" (rq_params r') = Done (Some url)
    /\ read_parameters url = Some [("name", "A&B=50%"); ("q?", "")])
  /\ (exists r' url,
    add_params (mkRequest false false 0 (Some "2.0/contact") [] None) [("name", "A B")] = Done (Some r')
    /\ _bx_build_url true "https://api" 11 "2.0/contact" (rq_params r') = Done (Some url)
    /\ read_parameters url = None).
Proof.
  split; [apply (parameters_round_trip "https://api" "2.0/contact"
    (mkRequest false false 0 (Some "2.0/contact") [] None) [("name", "A&B=50%"); ("q?", "")])
  | apply (parameters_round_trip "https://api" "2.0/contact"
    (mkRequest false false 0 (Some "2.0/contact") [] None) [("name", "A B")])];
  solve [reflexivity | repeat constructor; done | cbn; lia].
Defined.

#[local] Instance sample_load : JsonLoad := {| json_loadb s := Some (JString s) |}.
#[local] Instance sample_tokens : TokenEnv unit :=
  {| oauth_ensure _ := ret true; oauth_access_token := ret (Some "t") |}.
#[local] Instance sample_curl : CurlEnv unit :=
  {| net_memory := ret true; curl_slist_append l s := ret (Some (l ++ [s]));
     curl_setopt _ := ret true;
     curl_perform _ _ := ret (mkAnswer [BodyChunk "[]"] true 200);
     curl_reset := ret tt; clock := ret 0 |}.

Lemma do_request_is_fetch_witness :
  let n := mkNet "https://api" 11 (mkLimits 0 0 0) 0 0 false in
  served_call (W := unit) false 2 "2.0/unit" [] (bx_net_request_list_init, (n, tt))
  = Done (Some (done_request 1 "2.0/unit" (mkRData (Some "[]") 200), JString "[]"),
          (mkRequests true false 1 [] [],
           (mkNet "https://api" 11 (mkLimits 0 0 0) 0 1 false, tt))).
Proof.
  intros n. assert (forall w : unit, net_memory w = Done (true, w)) as Hm by (intros w; reflexivity).
  etrans; [apply (do_request_is_fetch (W := unit) Hm false 0 "2.0/unit" [] "2.0/unit"
    bx_net_request_list_init n (mkNet "https://api" 11 (mkLimits 0 0 0) 0 1 false) tt tt
    (Some (mkRData (Some "[]") 200)))|vm_compute; reflexivity].
  - reflexivity.
  - reflexivity.
  - cbn. unfold UINT64_MAX. lia.
  - constructor.
  - vm_compute. reflexivity.
  - vm_compute. reflexivity.
Defined.
