(* ===== verification/Chain.v ===== *)
(** * The sync chain ([src/src/bx_chain.c], [src/src/bx_chain_db.c])

    Contacts (active, archived), projects, invoices (list, missed ids) are
    walked one phase per call; the cursor is kept in memory and in the
    configuration table.  The static variables of the C file are [ChainStatics],
    next to the world [W] of the process. *)
From S2P Require Import Prelude CLib Env Samples Values Utils Walk.

Definition BX_CHAIN_KEY : string := "sync-chain".
Definition BX_CHAIN_KEY_STEP : string := "sync-chain-step".
Definition BX_CHAIN_KEY_OFFSET : string := "sync-chain-offset".
Definition BX_CHAIN_KEY_CYCLE : string := "sync-chain-cycle".

(** [BXChainPhase]: the constants of the C [enum], which can hold others. *)
Definition BX_CHAIN_CONTACT_ACTIVE : Z := 0.
Definition BX_CHAIN_CONTACT_ARCHIVED : Z := 1.
Definition BX_CHAIN_PROJECT : Z := 2.
Definition BX_CHAIN_INVOICE_LIST : Z := 3.
Definition BX_CHAIN_INVOICE_MISSED : Z := 4.

Record BXChainCursor := mkCursor { cu_phase : Z; cu_offset : Z }.
#[global] Instance BXChainCursor_eq_dec : EqDecision BXChainCursor.
Proof. solve_decision. Defined.

Record BXChainResult := mkResult {
  r_error : BXillError;
  r_prune_contact : bool;
  r_prune_project : bool;
  r_prune_invoice : bool;
  r_bump_contact : bool;
  r_bump_project : bool;
  r_bump_invoice : bool;
  r_pause : bool
}.

Record ChainStatics := mkStatics {
  cursor : BXChainCursor;
  contact_from_zero : bool;
  invoice_from_zero : bool
}.

(** ** The cursor and its text form *)

Definition bx_chain_phase_name (phase : Z) : string :=
  if phase =? BX_CHAIN_CONTACT_ARCHIVED then "contact-archived"
  else if phase =? BX_CHAIN_PROJECT then "project"
  else if phase =? BX_CHAIN_INVOICE_LIST then "invoice-list"
  else if phase =? BX_CHAIN_INVOICE_MISSED then "invoice-missed"
  else "contact-active".

Definition phases : list Z :=
  [BX_CHAIN_CONTACT_ACTIVE; BX_CHAIN_CONTACT_ARCHIVED; BX_CHAIN_PROJECT;
   BX_CHAIN_INVOICE_LIST; BX_CHAIN_INVOICE_MISSED].

(** The first phase of the table with this name. *)
Definition parse_phase (name : string) : option Z :=
  list_find (fun p => bx_chain_phase_name p = name) phases ≫= fun '(_, p) => Some p.

Definition normalize (c : BXChainCursor) : BXChainCursor :=
  let phase :=
    if negb (cu_phase c =? BX_CHAIN_CONTACT_ACTIVE)
       && negb (cu_phase c =? BX_CHAIN_CONTACT_ARCHIVED)
       && negb (cu_phase c =? BX_CHAIN_PROJECT)
       && negb (cu_phase c =? BX_CHAIN_INVOICE_LIST)
       && negb (cu_phase c =? BX_CHAIN_INVOICE_MISSED)
    then BX_CHAIN_CONTACT_ACTIVE else cu_phase c in
  let offset := if cu_offset c <? 0 then 0 else cu_offset c in
  mkCursor phase (if phase =? BX_CHAIN_INVOICE_MISSED then 0 else offset).

Definition parse_stored (text : option string) : option BXChainCursor :=
  match text with
  | None => None
  | Some text =>
      match split_chr ":" text with
      | None | Some (EmptyString, _) => None
      | Some (name, rest) =>
          match parse_phase name with
          | None => None
          | Some phase =>
              let '(offset, tail) := strtol rest in
              if str_eq tail rest || negb (str_eq tail EmptyString)
                 || (offset <? 0) || (INT_MAX <? offset)
              then None
              else Some (normalize (mkCursor phase (i32 offset)))
          end
      end
  end.

Definition parse_legacy (step : option string) (offset pass : Z) : option BXChainCursor :=
  match step with
  | None => None
  | Some step =>
      let offset := if offset <? 0 then 0 else offset in
      if str_eq step "contact" then
        Some (mkCursor (if pass =? 1 then BX_CHAIN_CONTACT_ARCHIVED
                        else BX_CHAIN_CONTACT_ACTIVE) offset)
      else if str_eq step "project" then Some (mkCursor BX_CHAIN_PROJECT offset)
      else if str_eq step "invoice" then
        Some (if pass =? 1 then mkCursor BX_CHAIN_INVOICE_MISSED 0
              else mkCursor BX_CHAIN_INVOICE_LIST offset)
      else None
  end.

Definition bx_chain_decode (sync_chain legacy_step : option string)
    (legacy_offset legacy_pass : Z) : BXChainCursor :=
  match parse_stored sync_chain with
  | Some out => out
  | None =>
      normalize
        (match parse_legacy legacy_step legacy_offset legacy_pass with
         | Some out => out
         | None => mkCursor BX_CHAIN_CONTACT_ACTIVE 0
         end)
  end.

(** The text [bx_chain_save] stores. *)
Definition bx_chain_encode (c : BXChainCursor) : string :=
  bx_chain_phase_name (cu_phase c) +:+ String ":" (dec (cu_offset c)).

Example decode_ex :
  bx_chain_decode (Some "invoice-list: +500") None 0 0 = mkCursor 3 500
  /\ bx_chain_decode (Some "project:2147483648") (Some "contact") 7 1 = mkCursor 1 7
  /\ bx_chain_decode (Some "nonsense") None 3 3 = mkCursor 0 0.
Proof. by vm_compute. Qed.

(** ** The configuration table, the connection and the item modules *)

(** A [MYSQL *]: [None] is [NULL]. *)
Definition MYSQL : Type := option Z.

Class ConfEnv (W : Type) := {
  conf_get_string : string -> prog W (option string);
  conf_get_int : string -> prog W Z;
  (* [bx_conf_put_database_conn] of a string value *)
  conf_put_database : MYSQL -> string -> string -> prog W bool
}.

(** What the object modules do with one item of a page. *)
Class ChainItems `{Jansson} (W : Type) := {
  contact_sync_item : MYSQL -> bool -> option json_t -> prog W BXillError;
  project_sync_item : MYSQL -> option json_t -> prog W BXillError;
  invoice_sync_item : MYSQL -> option json_t -> prog W BXillError;
  invoice_fetch_missed : MYSQL -> prog W BXillError
}.

Section Database.
Context {W : Type} `{!ConfEnv W}.

(** [conf_ok]: neither [app] nor [app->conf] is [NULL]. *)
Definition bx_chain_load (conf_ok : bool) : prog W BXChainCursor :=
  if conf_ok then
    stored <- conf_get_string BX_CHAIN_KEY ;;
    step <- conf_get_string BX_CHAIN_KEY_STEP ;;
    offset <- conf_get_int BX_CHAIN_KEY_OFFSET ;;
    pass <- conf_get_int BX_CHAIN_KEY_CYCLE ;;
    ret (bx_chain_decode stored step offset pass)
  else ret (bx_chain_decode None None 0 0).

Definition bx_chain_save (conf_ok : bool) (conn : MYSQL) (c : BXChainCursor)
    : prog W bool :=
  if negb conf_ok || bool_decide (conn = None) then ret false
  else
    let value := bx_chain_encode c in
    if 64 <=? strlen value then ret false
    else conf_put_database conn BX_CHAIN_KEY value.
End Database.

(** ** The chain *)

Section Chain.
Context `{Jansson} {W : Type} `{!WalkEnv W} `{!ConfEnv W} `{!ChainItems W}.

Definition chain_prog (A : Type) : Type := prog (ChainStatics * W) A.

Definition get_statics : chain_prog ChainStatics := gets fst.
Definition set_cursor (c : BXChainCursor) : chain_prog unit :=
  modify (fun '(s, w) => (mkStatics c (contact_from_zero s) (invoice_from_zero s), w)).
Definition set_contact_from_zero (b : bool) : chain_prog unit :=
  modify (fun '(s, w) => (mkStatics (cursor s) b (invoice_from_zero s), w)).
Definition set_invoice_from_zero (b : bool) : chain_prog unit :=
  modify (fun '(s, w) => (mkStatics (cursor s) (contact_from_zero s) b, w)).

#[global] Instance chain_walk_env : WalkEnv (ChainStatics * W) :=
  {| do_request := fun p args => on_snd (do_request p args);
     thrd_sleep := on_snd thrd_sleep |}.

Definition bx_chain_init (conf_ok : bool) : chain_prog unit :=
  loaded <- on_snd (bx_chain_load conf_ok) ;;
  let loaded := normalize loaded in
  set_cursor loaded ;;;
  set_contact_from_zero false ;;;
  set_invoice_from_zero false.

Definition bx_chain_read : chain_prog BXChainCursor := gets (fun w => cursor w.1).

Definition checkpoint (conf_ok : bool) (conn : MYSQL) (phase offset : Z)
    : chain_prog BXillError :=
  let next := normalize (mkCursor phase offset) in
  saved <- on_snd (bx_chain_save conf_ok conn next) ;;
  if negb saved then ret ErrorGeneric
  else set_cursor next ;;; ret NoError.

Definition advance_phase (conf_ok : bool) (conn : MYSQL) (phase : Z)
    : chain_prog BXillError :=
  let next := normalize (mkCursor phase 0) in
  set_cursor next ;;;
  saved <- on_snd (bx_chain_save conf_ok conn next) ;;
  ret (if negb saved then ErrorGeneric else NoError).

Definition on_validated_page (conf_ok : bool) (conn : MYSQL) (phase : Z)
    (next_offset : Z) : chain_prog BXillError :=
  if (next_offset <? 0) || (INT_MAX <? next_offset) then ret ErrorGeneric
  else checkpoint conf_ok conn phase (i32 next_offset).

Definition fail_resource (error : BXillError) (contact project invoice : bool)
    : BXChainResult :=
  mkResult error false false false contact project invoice false.

Definition finish_resource (conf_ok : bool) (conn : MYSQL) (next : Z)
    (contact project invoice : bool) : chain_prog BXChainResult :=
  error <- advance_phase conf_ok conn next ;;
  ret (mkResult error false false false contact project invoice
         (bool_decide (error = NoError))).

Definition WALK_CONTACT_PATH : string := "2.0/contact?limit=$&offset=$&show_archived=$".
Definition WALK_PROJECT_PATH : string := "2.0/pr_project?limit=$&offset=$".
Definition WALK_INVOICE_PATH : string := "2.0/kb_invoice?limit=$&offset=$&order_by=id".

Definition contact_page_item (conn : MYSQL) (archived : bool) (item : option json_t)
    : chain_prog BXillError :=
  e <- on_snd (contact_sync_item conn archived item) ;;
  ret (if decide (e = ErrorSQLReconnect) then e else NoError).

(** The walks of the three object modules; [fuel] bounds the pages. *)
Definition bx_contact_walk_pass (fuel : nat) (conn : MYSQL) (archived : bool)
    (start_offset : Z) (on_page : Z -> chain_prog BXillError) : chain_prog BXillError :=
  bx_walk_pages_from fuel (bool_decide (conn <> None)) (Some WALK_CONTACT_PATH)
    (Some (VBool (mkBool true archived))) false (contact_page_item conn archived)
    start_offset (Some on_page).

Definition project_page_item (conn : MYSQL) (item : option json_t)
    : chain_prog BXillError :=
  on_snd (project_sync_item conn item).

Definition bx_project_walk_item_from (fuel : nat) (conn : MYSQL) (start_offset : Z)
    (on_page : Z -> chain_prog BXillError) : chain_prog BXillError :=
  bx_walk_pages_from fuel (bool_decide (conn <> None)) (Some WALK_PROJECT_PATH)
    None false (project_page_item conn) start_offset (Some on_page).

Definition invoice_page_item (conn : MYSQL) (item : option json_t)
    : chain_prog BXillError :=
  on_snd (invoice_sync_item conn item).

Definition bx_invoice_walk_list (fuel : nat) (conn : MYSQL) (start_offset : Z)
    (on_page : Z -> chain_prog BXillError) : chain_prog BXillError :=
  bx_walk_pages_from fuel (bool_decide (conn <> None)) (Some WALK_INVOICE_PATH)
    None false (invoice_page_item conn) start_offset (Some on_page).

Definition bx_invoice_fetch_missed (conn : MYSQL) : chain_prog BXillError :=
  on_snd (invoice_fetch_missed conn).

Definition is_ok (e : BXillError) : bool := bool_decide (e = NoError).

Definition set_prune (contact project invoice : bool) (r : BXChainResult)
    : BXChainResult :=
  mkResult (r_error r) contact project invoice
    (r_bump_contact r) (r_bump_project r) (r_bump_invoice r) (r_pause r).

Definition sync_contact_active (fuel : nat) (conf_ok : bool) (conn : MYSQL)
    (phase offset : Z) : chain_prog BXChainResult :=
  set_contact_from_zero false ;;;
  let from_zero := offset =? 0 in
  error <- bx_contact_walk_pass fuel conn false offset
             (on_validated_page conf_ok conn phase) ;;
  if negb (is_ok error) then ret (fail_resource error true false false)
  else
    (if from_zero then set_contact_from_zero true else ret tt) ;;;
    r <- finish_resource conf_ok conn BX_CHAIN_CONTACT_ARCHIVED false false false ;;
    ret (mkResult (r_error r) false false false (negb (is_ok (r_error r))) false false false).

Definition sync_contact_archived (fuel : nat) (conf_ok : bool) (conn : MYSQL)
    (phase offset : Z) : chain_prog BXChainResult :=
  error <- bx_contact_walk_pass fuel conn true offset
             (on_validated_page conf_ok conn phase) ;;
  if negb (is_ok error) then ret (fail_resource error true false false)
  else
    r <- finish_resource conf_ok conn BX_CHAIN_PROJECT true false false ;;
    s <- get_statics ;;
    let r := if is_ok (r_error r) then set_prune (contact_from_zero s) false false r else r in
    set_contact_from_zero false ;;;
    ret r.

Definition sync_project (fuel : nat) (conf_ok : bool) (conn : MYSQL)
    (phase offset : Z) : chain_prog BXChainResult :=
  let from_zero := offset =? 0 in
  error <- bx_project_walk_item_from fuel conn offset
             (on_validated_page conf_ok conn phase) ;;
  if negb (is_ok error) then ret (fail_resource error false true false)
  else
    r <- finish_resource conf_ok conn BX_CHAIN_INVOICE_LIST false true false ;;
    ret (if is_ok (r_error r) then set_prune false from_zero false r else r).

Definition sync_invoice_list (fuel : nat) (conf_ok : bool) (conn : MYSQL)
    (phase offset : Z) : chain_prog BXChainResult :=
  set_invoice_from_zero false ;;;
  let from_zero := offset =? 0 in
  error <- bx_invoice_walk_list fuel conn offset
             (on_validated_page conf_ok conn phase) ;;
  if negb (is_ok error) then ret (fail_resource error false false true)
  else if negb from_zero then
    finish_resource conf_ok conn BX_CHAIN_CONTACT_ACTIVE false false true
  else
    set_invoice_from_zero true ;;;
    r <- finish_resource conf_ok conn BX_CHAIN_INVOICE_MISSED false false false ;;
    ret (mkResult (r_error r) false false false false false (negb (is_ok (r_error r))) false).

Definition sync_invoice_missed (conf_ok : bool) (conn : MYSQL)
    : chain_prog BXChainResult :=
  error <- bx_invoice_fetch_missed conn ;;
  if negb (is_ok error) then ret (fail_resource error false false true)
  else
    s <- get_statics ;;
    let from_zero := invoice_from_zero s in
    set_invoice_from_zero false ;;;
    r <- finish_resource conf_ok conn BX_CHAIN_CONTACT_ACTIVE false false true ;;
    ret (if is_ok (r_error r) then set_prune false false from_zero r else r).

(** [bx_chain_sync]; [app_ok]: [app] is not [NULL]; one case of its [switch]
    is one of the definitions above. *)
Definition bx_chain_sync (fuel : nat) (app_ok conf_ok : bool) (conn : MYSQL)
    : chain_prog BXChainResult :=
  s <- get_statics ;;
  let phase := cu_phase (cursor s) in
  let offset := cu_offset (cursor s) in
  if negb app_ok || bool_decide (conn = None)
  then ret (fail_resource ErrorGeneric false false false)
  else if phase =? BX_CHAIN_CONTACT_ACTIVE then
    sync_contact_active fuel conf_ok conn phase offset
  else if phase =? BX_CHAIN_CONTACT_ARCHIVED then
    sync_contact_archived fuel conf_ok conn phase offset
  else if phase =? BX_CHAIN_PROJECT then
    sync_project fuel conf_ok conn phase offset
  else if phase =? BX_CHAIN_INVOICE_LIST then
    sync_invoice_list fuel conf_ok conn phase offset
  else if phase =? BX_CHAIN_INVOICE_MISSED then
    sync_invoice_missed conf_ok conn
  else ret (fail_resource ErrorGeneric false false false).
End Chain.

(** ** The cursor *)

Definition valid_cursor (c : BXChainCursor) : Prop :=
  0 <= cu_phase c <= 4 /\ 0 <= cu_offset c <= INT_MAX
  /\ (cu_phase c = BX_CHAIN_INVOICE_MISSED -> cu_offset c = 0).

Lemma normalize_valid c : cu_offset c <= INT_MAX -> valid_cursor (normalize c).
Proof.
  unfold normalize, valid_cursor, INT_MAX, BX_CHAIN_CONTACT_ACTIVE, BX_CHAIN_CONTACT_ARCHIVED,
    BX_CHAIN_PROJECT, BX_CHAIN_INVOICE_LIST, BX_CHAIN_INVOICE_MISSED.
  intros Ho. cbn. repeat case_match; lia.
Qed.

Lemma normalize_id c : valid_cursor c -> normalize c = c.
Proof.
  destruct c as [p o]. unfold normalize, valid_cursor, BX_CHAIN_CONTACT_ACTIVE,
    BX_CHAIN_CONTACT_ARCHIVED, BX_CHAIN_PROJECT, BX_CHAIN_INVOICE_LIST, BX_CHAIN_INVOICE_MISSED.
  cbn. intros (Hp & Ho & Hm). f_equal; repeat case_match; lia.
Qed.

Lemma valid_phase c :
  valid_cursor c ->
  cu_phase c = BX_CHAIN_CONTACT_ACTIVE \/ cu_phase c = BX_CHAIN_CONTACT_ARCHIVED
  \/ cu_phase c = BX_CHAIN_PROJECT \/ cu_phase c = BX_CHAIN_INVOICE_LIST
  \/ cu_phase c = BX_CHAIN_INVOICE_MISSED.
Proof.
  unfold valid_cursor, BX_CHAIN_CONTACT_ACTIVE, BX_CHAIN_CONTACT_ARCHIVED,
    BX_CHAIN_PROJECT, BX_CHAIN_INVOICE_LIST, BX_CHAIN_INVOICE_MISSED. lia.
Qed.

Lemma split_phase_name p t :
  split_chr ":" (bx_chain_phase_name p +:+ String ":" t) = Some (bx_chain_phase_name p, t).
Proof. unfold bx_chain_phase_name. by repeat case_match. Qed.

Lemma phase_name_nonempty p : bx_chain_phase_name p <> EmptyString.
Proof. unfold bx_chain_phase_name. by repeat case_match. Qed.

Lemma parse_phase_name c :
  valid_cursor c -> parse_phase (bx_chain_phase_name (cu_phase c)) = Some (cu_phase c).
Proof. intros Hv. destruct (valid_phase c Hv) as [E|[E|[E|[E|E]]]]; by rewrite E. Qed.

Lemma parse_stored_encode c :
  valid_cursor c -> parse_stored (Some (bx_chain_encode c)) = Some c.
Proof.
  intros Hv. unfold parse_stored, bx_chain_encode. rewrite split_phase_name.
  destruct (bx_chain_phase_name (cu_phase c)) eqn:En; [by apply phase_name_nonempty in En|].
  rewrite <- En, parse_phase_name by done.
  pose proof Hv as (_ & Ho & _). unfold INT_MAX in Ho. unfold strtol.
  rewrite strtol_dec by (unfold LONG_MIN, LONG_MAX, INT64_MIN, INT64_MAX; lia).
  assert (str_eq EmptyString (dec (cu_offset c)) = false) as ->.
  { apply not_true_iff_false. rewrite str_eq_true. intros E. symmetry in E. revert E.
    unfold dec. rewrite (proj2 (Z.ltb_ge _ _)) by lia.
    destruct (dec_nonneg_spec (cu_offset c)) as [(d & t & -> & _) _]; [lia|done]. }
  cbn [orb negb]. rewrite (proj2 (str_eq_true EmptyString EmptyString)) by done.
  rewrite (proj2 (Z.ltb_ge _ _)) by lia.
  rewrite (proj2 (Z.ltb_ge INT_MAX _)) by (unfold INT_MAX; lia).
  cbn [orb negb]. rewrite i32_small by (unfold is_i32; lia).
  rewrite normalize_id by by destruct c. by destruct c.
Qed.

(** The text of a checkpoint reads back as the cursor, whatever the rows of the
    former format hold. *)
Theorem chain_decode_encode c step offset pass :
  valid_cursor c ->
  bx_chain_decode (Some (bx_chain_encode c)) step offset pass = c.
Proof. intros Hv. unfold bx_chain_decode. by rewrite parse_stored_encode. Qed.

(** Whatever the rows hold, the decoded cursor is one of the five phases with an
    offset in [0..INT_MAX], 0 for the missed ids. *)
Theorem chain_decode_valid stored step offset pass :
  offset <= INT_MAX -> valid_cursor (bx_chain_decode stored step offset pass).
Proof.
  intros Ho. unfold bx_chain_decode. destruct (parse_stored stored) as [c|] eqn:E.
  - unfold parse_stored in E. destruct stored as [text|]; [|done].
    destruct (split_chr ":" text) as [[[|x name] rest]|]; [done| |done].
    destruct (parse_phase _); [|done]. destruct (strtol rest) as [v tail].
    destruct (_ || _ || _ || _) eqn:Hc; [done|]. injection E as <-.
    apply normalize_valid. cbn.
    apply orb_false_iff in Hc as [[_ H1%Z.ltb_ge]%orb_false_iff H2%Z.ltb_ge].
    unfold INT_MAX in *. rewrite i32_small by (unfold is_i32; lia). done.
  - apply normalize_valid. unfold parse_legacy. destruct step as [step|]; [|done].
    unfold INT_MAX in *. repeat case_match; simplify_eq/=; lia.
Qed.

(** The text fits the 64-byte buffer of [bx_chain_save]. *)
Lemma dec_nonneg_len n : 0 <= n <= INT_MAX -> strlen (dec n) <= 40.
Proof.
  unfold INT_MAX. intros Hn. unfold dec. rewrite (proj2 (Z.ltb_ge _ _)) by lia.
  unfold dec_nonneg.
  assert (forall f m s, strlen (dec_loop f m s) <= strlen s + Z.of_nat f) as Hl.
  { induction f as [|f IH]; intros m s; cbn [dec_loop]; [lia|].
    destruct (m <? 10); [rewrite strlen_cons; lia|].
    etrans; [apply IH|]. rewrite strlen_cons. lia. }
  etrans; [apply Hl|]. change (strlen EmptyString) with 0.
  assert (Z.log2 n <= 31); [|pose proof (Z.log2_nonneg n); lia].
  trans (Z.log2 (2 ^ 31)); [apply Z.log2_le_mono; lia | done].
Qed.

Lemma encode_fits c : valid_cursor c -> strlen (bx_chain_encode c) < 64.
Proof.
  intros (_ & Ho & _). unfold bx_chain_encode. rewrite strlen_append, strlen_cons.
  assert (strlen (bx_chain_phase_name (cu_phase c)) <= 16)
    by (unfold bx_chain_phase_name; by repeat case_match).
  pose proof (dec_nonneg_len (cu_offset c) Ho). lia.
Qed.

(** The decimal text of an offset is short, so a save reaches the table. *)
Lemma chain_save_eq {W} `{!ConfEnv W} (conn : MYSQL) c :
  valid_cursor c -> conn <> None ->
  bx_chain_save true conn c = conf_put_database conn BX_CHAIN_KEY (bx_chain_encode c).
Proof.
  intros Hv Hc. unfold bx_chain_save. rewrite bool_decide_eq_false_2 by done. cbn.
  rewrite (proj2 (Z.leb_gt _ _)); [done|by apply encode_fits].
Qed.

(** ** The abstract chain

    A call of [bx_chain_sync] has one of these outcomes; [spec_sync] says what it
    returns and leaves in the static variables. *)
Inductive pass_outcome :=
| Refused                                            (* no [app] or no connection *)
| PassFailed (e : BXillError) (c : BXChainCursor)    (* the cursor it reached *)
| PassDone (saved : bool).                           (* was the next phase stored? *)

Definition saved_error (saved : bool) : BXillError := if saved then NoError else ErrorGeneric.

Definition spec_failed (s : ChainStatics) (e : BXillError) (c : BXChainCursor)
    : BXChainResult * ChainStatics :=
  let p := cu_phase (cursor s) in
  (fail_resource e ((p =? BX_CHAIN_CONTACT_ACTIVE) || (p =? BX_CHAIN_CONTACT_ARCHIVED))
     (p =? BX_CHAIN_PROJECT)
     ((p =? BX_CHAIN_INVOICE_LIST) || (p =? BX_CHAIN_INVOICE_MISSED)),
   mkStatics c (if p =? BX_CHAIN_CONTACT_ACTIVE then false else contact_from_zero s)
     (if p =? BX_CHAIN_INVOICE_LIST then false else invoice_from_zero s)).

Definition spec_done (s : ChainStatics) (saved : bool) : BXChainResult * ChainStatics :=
  let p := cu_phase (cursor s) in
  let from_zero := cu_offset (cursor s) =? 0 in
  let e := saved_error saved in
  if p =? BX_CHAIN_CONTACT_ACTIVE then
    (mkResult e false false false (negb saved) false false false,
     mkStatics (mkCursor BX_CHAIN_CONTACT_ARCHIVED 0) from_zero (invoice_from_zero s))
  else if p =? BX_CHAIN_CONTACT_ARCHIVED then
    (mkResult e (saved && contact_from_zero s) false false true false false saved,
     mkStatics (mkCursor BX_CHAIN_PROJECT 0) false (invoice_from_zero s))
  else if p =? BX_CHAIN_PROJECT then
    (mkResult e false (saved && from_zero) false false true false saved,
     mkStatics (mkCursor BX_CHAIN_INVOICE_LIST 0) (contact_from_zero s) (invoice_from_zero s))
  else if p =? BX_CHAIN_INVOICE_LIST then
    if from_zero then
      (mkResult e false false false false false (negb saved) false,
       mkStatics (mkCursor BX_CHAIN_INVOICE_MISSED 0) (contact_from_zero s) true)
    else
      (mkResult e false false false false false true saved,
       mkStatics (mkCursor BX_CHAIN_CONTACT_ACTIVE 0) (contact_from_zero s) false)
  else
    (mkResult e false false (saved && invoice_from_zero s) false false true saved,
     mkStatics (mkCursor BX_CHAIN_CONTACT_ACTIVE 0) (contact_from_zero s) false).

Definition spec_sync (s : ChainStatics) (o : pass_outcome) : BXChainResult * ChainStatics :=
  match o with
  | Refused => (fail_resource ErrorGeneric false false false, s)
  | PassFailed e c => spec_failed s e c
  | PassDone saved => spec_done s saved
  end.

(** A failed pass leaves the cursor in its phase; the missed ids have no
    checkpoint. *)
Definition outcome_ok (s : ChainStatics) (o : pass_outcome) : Prop :=
  match o with
  | PassFailed e c =>
      e <> NoError /\ valid_cursor c /\ cu_phase c = cu_phase (cursor s)
  | _ => True
  end.

(** The flags a pass starts with: the first phase of a resource forgets what an
    earlier pass listed. *)
Definition at_start (s : ChainStatics) : ChainStatics :=
  let p := cu_phase (cursor s) in
  mkStatics (cursor s)
    (if p =? BX_CHAIN_CONTACT_ACTIVE then false else contact_from_zero s)
    (if p =? BX_CHAIN_INVOICE_LIST then false else invoice_from_zero s).

Definition next_cursor (s : ChainStatics) : BXChainCursor := cursor (spec_done s true).2.

Section Spec.
Context `{Jansson} {W : Type} `{!WalkEnv W} `{!ConfEnv W} `{!ChainItems W}.

Definition store_cursor (conf_ok : bool) (conn : MYSQL) (c : BXChainCursor) : prog W bool :=
  if conf_ok then conf_put_database conn "sync-chain" (bx_chain_encode c) else ret false.

(** A page is done when its offset is stored and the cursor is on it. *)
Definition store_page (conf_ok : bool) (conn : MYSQL) (p n : Z)
    : chain_prog (W := W) BXillError :=
  if bool_decide (0 <= n <= INT_MAX) then
    saved <- on_snd (store_cursor conf_ok conn (mkCursor p n)) ;;
    if (saved : bool) then set_cursor (mkCursor p n) ;;; ret NoError else ret ErrorGeneric
  else ret ErrorGeneric.

(** The pass of a cursor: which list is walked from which offset, with what done
    for an item, or the missed ids. *)
Definition chain_pass (fuel : nat) (conf_ok : bool) (conn : MYSQL) (c : BXChainCursor)
    : chain_prog (W := W) BXillError :=
  let p := cu_phase c in
  let walk path extra (item : option json_t -> prog W BXillError) :=
    bx_walk_pages_from fuel true (Some path) extra false (fun j => on_snd (item j))
      (cu_offset c) (Some (store_page conf_ok conn p)) in
  let contacts archived :=
    walk "2.0/contact?limit=$&offset=$&show_archived=$" (Some (VBool (mkBool true archived)))
      (fun j => e <- contact_sync_item conn archived j ;;
                ret (if decide (e = ErrorSQLReconnect) then e else NoError)) in
  if p =? BX_CHAIN_CONTACT_ACTIVE then contacts false
  else if p =? BX_CHAIN_CONTACT_ARCHIVED then contacts true
  else if p =? BX_CHAIN_PROJECT then
    walk "2.0/pr_project?limit=$&offset=$" None (project_sync_item conn)
  else if p =? BX_CHAIN_INVOICE_LIST then
    walk "2.0/kb_invoice?limit=$&offset=$&order_by=id" None (invoice_sync_item conn)
  else on_snd (invoice_fetch_missed conn).

(** How a call ends: what the pass returned decides, and after a pass without
    error whether the cursor of the next phase could be stored. *)
Inductive outcome_of (fuel : nat) (app_ok conf_ok : bool) (conn : MYSQL)
    (s : ChainStatics) (w : W) : pass_outcome -> W -> Prop :=
| outcome_refused :
    app_ok = false \/ conn = None ->
    outcome_of fuel app_ok conf_ok conn s w Refused w
| outcome_failed e s1 w1 :
    app_ok = true -> conn <> None ->
    chain_pass fuel conf_ok conn (cursor s) (at_start s, w) = Done (e, (s1, w1)) ->
    e <> NoError ->
    outcome_of fuel app_ok conf_ok conn s w (PassFailed e (cursor s1)) w1
| outcome_done s1 w1 saved w2 :
    app_ok = true -> conn <> None ->
    chain_pass fuel conf_ok conn (cursor s) (at_start s, w) = Done (NoError, (s1, w1)) ->
    store_cursor conf_ok conn (next_cursor s) w1 = Done (saved, w2) ->
    outcome_of fuel app_ok conf_ok conn s w (PassDone saved) w2.
End Spec.

Section Refinement.
Context `{Jansson} {W : Type} `{!WalkEnv W} `{!ConfEnv W} `{!ChainItems W}.
Implicit Types (x y : ChainStatics * W).

(** *** What a pass does to the static variables *)

Definition pass_moved (p : Z) : relation (ChainStatics * W) := fun x y =>
  contact_from_zero y.1 = contact_from_zero x.1
  /\ invoice_from_zero y.1 = invoice_from_zero x.1
  /\ (cursor y.1 = cursor x.1 \/ (cu_phase (cursor y.1) = p /\ valid_cursor (cursor y.1))).

#[local] Instance pass_moved_preorder p : PreOrder (pass_moved p).
Proof.
  split.
  - intros x. unfold pass_moved. auto.
  - intros x y z (H1 & H2 & H3) (H4 & H5 & H6). unfold pass_moved.
    rewrite H4, H5. split_and!; [done..|].
    destruct H6 as [->|?]; auto.
Qed.

Lemma on_snd_moved {A} p (m : prog W A) : moves (pass_moved p) (on_snd m).
Proof.
  intros [s w] a y E. unfold on_snd in E. cbn in E.
  destruct (m w) as [[? ?]| |]; simplify_eq. unfold pass_moved. cbn. auto.
Qed.

Lemma page_cursor_valid p n :
  0 <= p <= 3 -> 0 <= n <= INT_MAX -> valid_cursor (mkCursor p n).
Proof.
  intros Hp Hn. unfold valid_cursor, BX_CHAIN_INVOICE_MISSED. cbn. lia.
Qed.

Lemma store_page_moved b conn p n :
  0 <= p <= 3 -> moves (pass_moved p) (store_page b conn p n).
Proof.
  intros Hp. unfold store_page. case_bool_decide as Hn; [|auto with moves].
  apply moves_bind; [apply _ | apply on_snd_moved|]. intros [|]; [|auto with moves].
  apply moves_bind; [apply _ | | auto with moves].
  intros [s w] a y [= <- <-]. pose proof (page_cursor_valid p n Hp Hn).
  unfold pass_moved. cbn. auto.
Qed.

Lemma chain_pass_moved fuel b conn c :
  valid_cursor c -> moves (pass_moved (cu_phase c)) (chain_pass fuel b conn c).
Proof.
  intros Hv. unfold chain_pass.
  destruct (valid_phase c Hv) as [E|[E|[E|[E|E]]]]; rewrite E; cbn -[bx_walk_pages_from];
    try apply on_snd_moved.
  all: apply walk_moves; [apply _|..]; intros; try apply on_snd_moved;
    try (apply store_page_moved; done).
Qed.

(** What a pass of the phase of [s] leaves. *)
Lemma pass_cursor fuel b conn s (w : W) e s1 w1 :
  valid_cursor (cursor s) ->
  chain_pass fuel b conn (cursor s) (at_start s, w) = Done (e, (s1, w1)) ->
  valid_cursor (cursor s1) /\ cu_phase (cursor s1) = cu_phase (cursor s)
  /\ s1 = mkStatics (cursor s1) (contact_from_zero (at_start s)) (invoice_from_zero (at_start s)).
Proof.
  intros Hv E. apply chain_pass_moved in E as (H1 & H2 & H3); [|done]. cbn [fst] in *.
  rewrite <- H1, <- H2. split_and!; [by destruct H3 as [->|[? ?]]..|]. by destruct s1.
Qed.

(** *** The walks of the code are the passes *)

Lemma chain_save_store b conn c :
  valid_cursor c -> conn <> None -> bx_chain_save b conn c = store_cursor (W := W) b conn c.
Proof.
  intros Hv Hc. destruct b; [by apply chain_save_eq | done].
Qed.

Lemma page_same b conn p n :
  conn <> None -> 0 <= p <= 3 ->
  same (on_validated_page b conn p n) (store_page (W := W) b conn p n).
Proof.
  intros Hconn Hp. apply same_eq. intros x. unfold on_validated_page, store_page, checkpoint.
  case_bool_decide as Hn.
  - destruct Hn as [Hn1 Hn2]. rewrite (proj2 (Z.ltb_ge _ _)), (proj2 (Z.ltb_ge _ _)) by done.
    cbn [orb]. pose proof (page_cursor_valid p n Hp (conj Hn1 Hn2)) as Hv.
    unfold INT_MAX in Hn2. rewrite i32_small by (unfold is_i32; lia).
    rewrite normalize_id, chain_save_store by done.
    refine (proj1 (agree_bind (fun _ => True) _ _ _ _ _ _ x I)); [apply same_refl|].
    intros [|]; apply same_refl.
  - assert ((n <? 0) || (INT_MAX <? n) = true) as ->; [|done].
    apply orb_true_iff. rewrite !Z.ltb_lt. lia.
Qed.

Lemma walk_same fuel path extra (item item' : option json_t -> chain_prog (W := W) BXillError)
    off b conn p :
  conn <> None -> 0 <= p <= 3 -> (forall j, same (item j) (item' j)) ->
  same (bx_walk_pages_from fuel (bool_decide (conn <> None)) (Some path) extra false item off
          (Some (on_validated_page b conn p)))
    (bx_walk_pages_from fuel true (Some path) extra false item' off (Some (store_page b conn p))).
Proof.
  intros Hc Hp Hi. rewrite bool_decide_eq_true_2 by done.
  apply walk_agree; [intros; apply same_refl | apply same_refl | exact Hi|].
  intros n. by apply page_same.
Qed.

Lemma contact_item_same conn ar j :
  same (contact_page_item (W := W) conn ar j)
    (on_snd (e <- contact_sync_item conn ar j ;;
             ret (if decide (e = ErrorSQLReconnect) then e else NoError))).
Proof.
  apply same_eq. intros [s w]. unfold contact_page_item, on_snd, bind. cbn.
  by destruct (contact_sync_item conn ar j w) as [[? ?]| |].
Qed.

Lemma contact_pass_eq fuel b conn c ar x :
  conn <> None -> valid_cursor c ->
  cu_phase c = (if ar : bool then BX_CHAIN_CONTACT_ARCHIVED else BX_CHAIN_CONTACT_ACTIVE) ->
  bx_contact_walk_pass fuel conn ar (cu_offset c) (on_validated_page b conn (cu_phase c)) x
  = chain_pass fuel b conn c x.
Proof.
  intros Hc Hv Hp. revert x. apply same_eq. unfold chain_pass. rewrite Hp.
  destruct ar; cbn -[bx_walk_pages_from]; (apply walk_same; [done|by split|]);
    intros j; apply contact_item_same.
Qed.

Lemma project_pass_eq fuel b conn c x :
  conn <> None -> valid_cursor c -> cu_phase c = BX_CHAIN_PROJECT ->
  bx_project_walk_item_from fuel conn (cu_offset c) (on_validated_page b conn (cu_phase c)) x
  = chain_pass fuel b conn c x.
Proof.
  intros Hc Hv Hp. revert x. apply same_eq. unfold chain_pass. rewrite Hp.
  cbn -[bx_walk_pages_from]. apply walk_same; [done|by split|]. intros j. apply same_refl.
Qed.

Lemma invoice_pass_eq fuel b conn c x :
  conn <> None -> valid_cursor c -> cu_phase c = BX_CHAIN_INVOICE_LIST ->
  bx_invoice_walk_list fuel conn (cu_offset c) (on_validated_page b conn (cu_phase c)) x
  = chain_pass fuel b conn c x.
Proof.
  intros Hc Hv Hp. revert x. apply same_eq. unfold chain_pass. rewrite Hp.
  cbn -[bx_walk_pages_from]. apply walk_same; [done|by split|]. intros j. apply same_refl.
Qed.

(** *** The end of a phase *)

Lemma finish_resource_eq b conn next c1 c2 c3 s (w : W) :
  conn <> None -> 0 <= next <= 4 ->
  finish_resource b conn next c1 c2 c3 (s, w)
  = match store_cursor b conn (mkCursor next 0) w with
    | Done (saved, w2) =>
        Done (mkResult (saved_error saved) false false false c1 c2 c3 saved,
              (mkStatics (mkCursor next 0) (contact_from_zero s) (invoice_from_zero s), w2))
    | Fault => Fault
    | OutOfFuel => OutOfFuel
    end.
Proof.
  intros Hc Hn. assert (valid_cursor (mkCursor next 0)) as Hv.
  { unfold valid_cursor, BX_CHAIN_INVOICE_MISSED, INT_MAX. cbn. lia. }
  unfold finish_resource, advance_phase, set_cursor. rewrite normalize_id, chain_save_store by done.
  unfold bind, modify, on_snd, ret. cbn.
  by destruct (store_cursor b conn (mkCursor next 0) w) as [[[] w2]| |].
Qed.

Lemma is_ok_saved saved : is_ok (saved_error saved) = saved.
Proof. by destruct saved. Qed.

(** The call, as one pass and one store. *)
Definition pass_run (fuel : nat) (b : bool) (conn : MYSQL) (s : ChainStatics) (w : W)
    : outcome (BXChainResult * (ChainStatics * W)) :=
  match chain_pass fuel b conn (cursor s) (at_start s, w) with
  | Done (e, (s1, w1)) =>
      if decide (e = NoError) then
        match store_cursor b conn (next_cursor s) w1 with
        | Done (saved, w2) => Done ((spec_done s saved).1, ((spec_done s saved).2, w2))
        | Fault => Fault
        | OutOfFuel => OutOfFuel
        end
      else Done ((spec_failed s e (cursor s1)).1, ((spec_failed s e (cursor s1)).2, w1))
  | Fault => Fault
  | OutOfFuel => OutOfFuel
  end.

(** A phase is a pass and what follows it. *)
Lemma phase_run fuel b conn s (w : W) (pass : chain_prog BXillError)
    (k : BXillError -> chain_prog BXChainResult) :
  let left c := mkStatics c (contact_from_zero (at_start s)) (invoice_from_zero (at_start s)) in
  valid_cursor (cursor s) ->
  pass (at_start s, w) = chain_pass fuel b conn (cursor s) (at_start s, w) ->
  (forall e c w1, is_ok e = false ->
     k e (left c, w1) = Done ((spec_failed s e c).1, ((spec_failed s e c).2, w1))) ->
  (forall c w1, k NoError (left c, w1)
     = match store_cursor b conn (next_cursor s) w1 with
       | Done (saved, w2) => Done ((spec_done s saved).1, ((spec_done s saved).2, w2))
       | Fault => Fault
       | OutOfFuel => OutOfFuel
       end) ->
  bind pass k (at_start s, w) = pass_run fuel b conn s w.
Proof.
  intros left Hv Hpass Hfail Hdone. unfold bind, pass_run. rewrite Hpass.
  destruct (chain_pass _ _ _ _ _) as [[e [s1 w1]]| |] eqn:E; [|done..].
  destruct (pass_cursor fuel b conn s w e s1 w1 Hv E) as (_ & _ & ->).
  destruct (decide (e = NoError)) as [->|He]; [apply Hdone|].
  apply Hfail. by apply bool_decide_eq_false.
Qed.

(** The end of a phase, in the goal left by [phase_run]. *)
Ltac finish_phase :=
  change (is_ok NoError) with true; unfold bind, get_statics, gets, set_contact_from_zero,
    set_invoice_from_zero, modify, ret; cbn -[finish_resource store_cursor];
  rewrite finish_resource_eq by (done || by split); cbn -[store_cursor];
  match goal with |- context[store_cursor ?b ?conn ?c ?w] =>
    by destruct (store_cursor b conn c w) as [[[] ?]| |] end.

Section Phases.
Context (fuel : nat) (b : bool) (conn : MYSQL) (s : ChainStatics) (w : W).
Hypothesis connected : conn <> None.
Hypothesis valid : valid_cursor (cursor s).
#[local] Abbreviation off := (cu_offset (cursor s)).
#[local] Abbreviation ph := (cu_phase (cursor s)).

Lemma contact_active_eq :
  ph = BX_CHAIN_CONTACT_ACTIVE ->
  sync_contact_active fuel b conn ph off (s, w) = pass_run fuel b conn s w.
Proof.
  intros Hp. unfold sync_contact_active. unfold bind at 1. cbn [set_contact_from_zero modify].
  assert (mkStatics (cursor s) false (invoice_from_zero s) = at_start s) as ->
    by (unfold at_start; by rewrite Hp).
  apply phase_run; [done | by apply (contact_pass_eq _ _ _ _ false)|..].
  - intros e c w1 He. rewrite He. unfold spec_failed, at_start. by rewrite Hp.
  - intros c w1. unfold next_cursor, spec_done, at_start. rewrite Hp. cbn.
    destruct (off =? 0); finish_phase.
Qed.

Lemma contact_archived_eq :
  ph = BX_CHAIN_CONTACT_ARCHIVED ->
  sync_contact_archived fuel b conn ph off (s, w) = pass_run fuel b conn s w.
Proof.
  intros Hp. unfold sync_contact_archived.
  assert ((s, w) = (at_start s, w)) as -> by (unfold at_start; rewrite Hp; by destruct s).
  apply phase_run; [done | by apply (contact_pass_eq _ _ _ _ true)|..].
  - intros e c w1 He. rewrite He. unfold spec_failed, at_start. by rewrite Hp.
  - intros c w1. unfold next_cursor, spec_done, at_start. rewrite Hp. finish_phase.
Qed.

Lemma project_eq :
  ph = BX_CHAIN_PROJECT ->
  sync_project fuel b conn ph off (s, w) = pass_run fuel b conn s w.
Proof.
  intros Hp. unfold sync_project.
  assert ((s, w) = (at_start s, w)) as -> by (unfold at_start; rewrite Hp; by destruct s).
  apply phase_run; [done | by apply project_pass_eq|..].
  - intros e c w1 He. rewrite He. unfold spec_failed, at_start. by rewrite Hp.
  - intros c w1. unfold next_cursor, spec_done, at_start. rewrite Hp. finish_phase.
Qed.

Lemma invoice_list_eq :
  ph = BX_CHAIN_INVOICE_LIST ->
  sync_invoice_list fuel b conn ph off (s, w) = pass_run fuel b conn s w.
Proof.
  intros Hp. unfold sync_invoice_list. unfold bind at 1. cbn [set_invoice_from_zero modify].
  assert (mkStatics (cursor s) (contact_from_zero s) false = at_start s) as ->
    by (unfold at_start; by rewrite Hp).
  apply phase_run; [done | by apply invoice_pass_eq|..].
  - intros e c w1 He. rewrite He. unfold spec_failed, at_start. by rewrite Hp.
  - intros c w1. unfold next_cursor, spec_done, at_start. rewrite Hp. cbn.
    destruct (off =? 0); finish_phase.
Qed.

Lemma invoice_missed_eq :
  ph = BX_CHAIN_INVOICE_MISSED ->
  sync_invoice_missed b conn (s, w) = pass_run fuel b conn s w.
Proof.
  intros Hp. unfold sync_invoice_missed.
  assert ((s, w) = (at_start s, w)) as -> by (unfold at_start; rewrite Hp; by destruct s).
  apply phase_run; [done | unfold chain_pass; by rewrite Hp|..].
  - intros e c w1 He. rewrite He. unfold spec_failed, at_start. by rewrite Hp.
  - intros c w1. unfold next_cursor, spec_done, at_start. rewrite Hp. finish_phase.
Qed.
End Phases.

Lemma chain_sync_eq fuel app_ok b conn s (w : W) :
  valid_cursor (cursor s) ->
  bx_chain_sync fuel app_ok b conn (s, w)
  = if negb app_ok || bool_decide (conn = None)
    then Done (fail_resource ErrorGeneric false false false, (s, w))
    else pass_run fuel b conn s w.
Proof.
  intros Hv. unfold bx_chain_sync, get_statics. unfold bind at 1. cbn [gets fst].
  destruct (negb app_ok || bool_decide (conn = None)) eqn:Hr; [done|].
  apply orb_false_iff in Hr as [_ Hc%bool_decide_eq_false].
  destruct (valid_phase _ Hv) as [Hp|[Hp|[Hp|[Hp|Hp]]]]; rewrite Hp; cbn [Z.eqb Pos.eqb
    BX_CHAIN_CONTACT_ACTIVE BX_CHAIN_CONTACT_ARCHIVED BX_CHAIN_PROJECT BX_CHAIN_INVOICE_LIST
    BX_CHAIN_INVOICE_MISSED]; rewrite <- ?Hp.
  - by apply contact_active_eq.
  - by apply contact_archived_eq.
  - by apply project_eq.
  - by apply invoice_list_eq.
  - by apply invoice_missed_eq.
Qed.

(** Claim C1. [bx_chain_sync] implements the abstract chain, whatever the network, the
    database and the item modules do.  A call from a valid cursor ends with result [r]
    and static variables [s'] exactly when [spec_sync] gives them for the outcome of the
    call, and the outcome is the one of the pass: refused without [app] or connection
    (nothing is done then); failed with the error the walk of this phase from the stored
    offset returned, at the cursor it reached; done when the walk returned no error, and
    then with what the store of the next cursor answered.  The walk of a pass stores the
    offset of every page that synced and moves the cursor there. *)
Theorem chain_sync_refines fuel app_ok conf_ok conn s (w : W) r s' w' :
  valid_cursor (cursor s) ->
  bx_chain_sync fuel app_ok conf_ok conn (s, w) = Done (r, (s', w'))
  <-> exists o, outcome_of fuel app_ok conf_ok conn s w o w' /\ outcome_ok s o
        /\ spec_sync s o = (r, s').
Proof.
  intros Hv. rewrite chain_sync_eq by done. split.
  - destruct (negb app_ok || bool_decide (conn = None)) eqn:Hr.
    + intros [= <- <- <-]. exists Refused. split_and!; [|done..]. constructor.
      apply orb_true_iff in Hr as [Hr%negb_true_iff|Hr%bool_decide_eq_true]; tauto.
    + apply orb_false_iff in Hr as [Ha%negb_false_iff Hc%bool_decide_eq_false].
      unfold pass_run. destruct (chain_pass _ _ _ _ _) as [[e [s1 w1]]| |] eqn:E; [|done..].
      destruct (decide (e = NoError)) as [->|He].
      * destruct (store_cursor _ _ _ _) as [[saved w2]| |] eqn:Es; intros [= <- <- <-].
        exists (PassDone saved). split_and!; [by eapply outcome_done | done|].
        cbn. by destruct (spec_done s saved).
      * intros [= <- <- <-]. exists (PassFailed e (cursor s1)).
        destruct (pass_cursor fuel conf_ok conn s w e s1 w1 Hv E) as (Hv1 & Hp1 & _).
        split_and!; [by eapply outcome_failed | done..].
  - intros (o & Ho & _ & Hs). destruct Ho as [Hr|e s1 w1 -> Hc E He|s1 w1 saved w2 -> Hc E Es].
    + injection Hs as <- <-. assert (negb app_ok || bool_decide (conn = None) = true) as ->; [|done].
      apply orb_true_iff. destruct Hr as [->| ->]; [by left | right; by apply bool_decide_eq_true].
    + rewrite bool_decide_eq_false_2 by done. cbn [negb orb]. unfold pass_run. rewrite E.
      rewrite decide_False by done. injection Hs as <- <-. done.
    + rewrite bool_decide_eq_false_2 by done. cbn [negb orb]. unfold pass_run. rewrite E.
      rewrite decide_True, Es by done. cbn in Hs. by rewrite Hs.
Qed.
End Refinement.

(** ** Histories of calls

    The calls of [bx_chain_sync] a process makes; between two of them the world
    is whatever the rest of the process made of it. *)

Section Histories.
Context `{Jansson} {W : Type} `{!WalkEnv W} `{!ConfEnv W} `{!ChainItems W}.

(** A call: its arguments, the state it starts from, its result, the state it
    leaves. *)
Record call := mkCall {
  c_fuel : nat; c_app : bool; c_conf : bool; c_conn : MYSQL;
  c_before : ChainStatics; c_world : W;
  c_result : BXChainResult;
  c_after : ChainStatics; c_world' : W
}.

Definition made (c : call) : Prop :=
  bx_chain_sync (c_fuel c) (c_app c) (c_conf c) (c_conn c) (c_before c, c_world c)
  = Done (c_result c, (c_after c, c_world' c)).

(** A sequence of calls from [s0]; each starts from the static variables the one
    before left. *)
Inductive calls (s0 : ChainStatics) : list call -> ChainStatics -> Prop :=
| calls_nil : calls s0 [] s0
| calls_snoc tr c :
    calls s0 tr (c_before c) -> made c -> calls s0 (tr ++ [c]) (c_after c).

(** The pass of the call returned no error: its list was walked from the offset
    of the cursor to its end. *)
Definition listed (c : call) : Prop :=
  exists y, chain_pass (c_fuel c) (c_conf c) (c_conn c) (cursor (c_before c))
              (at_start (c_before c), c_world c) = Done (NoError, y).

(** The last calls: one that listed phase [p] from offset 0 and moved on to the
    start of phase [q], then only failures in [q]. *)
Definition opened_by (p q : Z) (tr : list call) : Prop :=
  exists tr1 ca tr2, tr = tr1 ++ ca :: tr2
    /\ cursor (c_before ca) = mkCursor p 0 /\ listed ca
    /\ cursor (c_after ca) = mkCursor q 0
    /\ Forall (fun c => cu_phase (cursor (c_before c)) = q
                        /\ r_error (c_result c) <> NoError) tr2.

Lemma opened_by_snoc p q tr c :
  opened_by p q tr -> cu_phase (cursor (c_before c)) = q -> r_error (c_result c) <> NoError ->
  opened_by p q (tr ++ [c]).
Proof.
  intros (tr1 & ca & tr2 & -> & Hc & Hl & Ha & Hall) Hq He.
  exists tr1, ca, (tr2 ++ [c]). rewrite <- app_assoc. split_and!; [done..|].
  apply Forall_app. by repeat constructor.
Qed.

Lemma opened_by_new p q tr c :
  cu_phase (cursor (c_before c)) = p -> (cu_offset (cursor (c_before c)) =? 0) = true ->
  listed c -> cursor (c_after c) = mkCursor q 0 -> opened_by p q (tr ++ [c]).
Proof.
  intros Hp Ho%Z.eqb_eq Hl Ha. exists tr, c, []. split_and!; [done| |done..|constructor].
  destruct (cursor (c_before c)). cbn in *. by subst.
Qed.

(** What a call is worth: the outcome of its pass. *)
Definition call_outcome (c : call) (o : pass_outcome) : Prop :=
  outcome_ok (c_before c) o /\ spec_sync (c_before c) o = (c_result c, c_after c)
  /\ (forall saved, o = PassDone saved -> listed c).

Lemma made_outcome c :
  valid_cursor (cursor (c_before c)) -> made c -> exists o, call_outcome c o.
Proof.
  intros Hv Hm. unfold made in Hm. rewrite chain_sync_eq in Hm by done. unfold call_outcome.
  destruct (negb (c_app c) || _).
  - injection Hm as Hr Hs _. exists Refused. by rewrite <- Hr, <- Hs.
  - unfold pass_run in Hm. destruct (chain_pass _ _ _ _ _) as [[e [s1 w1]]| |] eqn:E; [|done..].
    destruct (decide (e = NoError)) as [->|He].
    + destruct (store_cursor _ _ _ _) as [[saved w2]| |]; [|done..]. injection Hm as Hr Hs _.
      exists (PassDone saved). rewrite <- Hr, <- Hs. cbn. destruct (spec_done _ _).
      split_and!; [done..|]. intros saved' _. by eexists.
    + injection Hm as Hr Hs _. exists (PassFailed e (cursor s1)).
      destruct (pass_cursor _ _ _ _ _ e s1 w1 Hv E) as (Hv1 & Hp1 & _).
      by rewrite <- Hr, <- Hs.
Qed.

(** The flags of the static variables are justified by the history. *)
Record justified (tr : list call) (s : ChainStatics) : Prop := {
  just_valid : valid_cursor (cursor s);
  just_contact : contact_from_zero s = true ->
    cu_phase (cursor s) = BX_CHAIN_CONTACT_ARCHIVED
    /\ opened_by BX_CHAIN_CONTACT_ACTIVE BX_CHAIN_CONTACT_ARCHIVED tr;
  just_invoice : invoice_from_zero s = true ->
    cu_phase (cursor s) = BX_CHAIN_INVOICE_MISSED
    /\ opened_by BX_CHAIN_INVOICE_LIST BX_CHAIN_INVOICE_MISSED tr
}.

Lemma justified_step tr c :
  justified tr (c_before c) -> made c -> justified (tr ++ [c]) (c_after c).
Proof.
  intros [Hv Hc Hi] (o & Hok & Hs & Hl)%made_outcome; [|done].
  destruct o as [|e cu|saved]; cbn in Hs.
  - injection Hs as Hr <-. split; [done|..].
    + intros H1. destruct (Hc H1). split; [done|]. apply opened_by_snoc; by rewrite <- ?Hr.
    + intros H1. destruct (Hi H1). split; [done|]. apply opened_by_snoc; by rewrite <- ?Hr.
  - destruct Hok as (He & Hvc & Hpc). unfold spec_failed in Hs. injection Hs as Hr Ha.
    split; rewrite <- Ha; cbn; [done|..]; rewrite Hpc.
    + destruct (_ =? _) in |- *; [done|]. intros H1. destruct (Hc H1). split; [done|].
      apply opened_by_snoc; by rewrite <- ?Hr.
    + destruct (_ =? _) in |- *; [done|]. intros H1. destruct (Hi H1). split; [done|].
      apply opened_by_snoc; by rewrite <- ?Hr.
  - specialize (Hl saved eq_refl). unfold spec_done in Hs.
    destruct (valid_phase _ Hv) as [Hp|[Hp|[Hp|[Hp|Hp]]]]; rewrite Hp in Hs; cbn in Hs.
    4: destruct (cu_offset (cursor (c_before c)) =? 0) eqn:Hz.
    all: injection Hs as Hr Ha; split; rewrite <- Ha; [done|..]; cbn; try done.
    all: try (intros H1; destruct (Hc H1) as [E _]; rewrite Hp in E; discriminate).
    all: try (intros H1; destruct (Hi H1) as [E _]; rewrite Hp in E; discriminate).
    + intros Ho. split; [done|]. apply opened_by_new; by rewrite <- ?Ha.
    + intros _. split; [done|]. apply opened_by_new; by rewrite <- ?Ha.
Qed.

(** The statics [bx_chain_init] leaves. *)
Definition fresh (s : ChainStatics) : Prop :=
  valid_cursor (cursor s) /\ contact_from_zero s = false /\ invoice_from_zero s = false.

Lemma calls_justified s0 tr s : fresh s0 -> calls s0 tr s -> justified tr s.
Proof.
  intros (Hv & Hc & Hi). induction 1 as [|tr c Hr IH Hm].
  - by split; [|rewrite Hc|rewrite Hi].
  - by apply justified_step.
Qed.

Lemma calls_snoc_inv s0 tr c s' :
  calls s0 (tr ++ [c]) s' -> calls s0 tr (c_before c) /\ made c /\ s' = c_after c.
Proof.
  intros Hc. inversion Hc as [E|tr1 c1 Hr Hm E]; [by destruct tr|].
  apply app_inj_tail in E as [-> ->]. by subst.
Qed.

Lemma calls_nil_inv s0 s : calls s0 [] s -> s = s0.
Proof.
  intros Hc. remember [] as tr eqn:E. destruct Hc as [|tr c _ _]; [done|].
  by destruct tr.
Qed.

(** What a result with a prune flag says about the call. *)
Lemma prune_flags c :
  valid_cursor (cursor (c_before c)) -> made c ->
  (r_prune_contact (c_result c) = true -> contact_from_zero (c_before c) = true
     /\ listed c /\ r_error (c_result c) = NoError)
  /\ (r_prune_project (c_result c) = true ->
     cursor (c_before c) = mkCursor BX_CHAIN_PROJECT 0
     /\ listed c /\ r_error (c_result c) = NoError)
  /\ (r_prune_invoice (c_result c) = true -> invoice_from_zero (c_before c) = true
     /\ listed c /\ r_error (c_result c) = NoError).
Proof.
  intros Hv (o & Hok & Hs & Hl)%made_outcome; [|done].
  destruct o as [|e cu|saved]; cbn in Hs; [by injection Hs as <- _ ..|].
  specialize (Hl saved eq_refl). unfold spec_done in Hs.
  destruct (valid_phase _ Hv) as [Hp|[Hp|[Hp|[Hp|Hp]]]]; rewrite Hp in Hs; cbn in Hs.
  4: destruct (cu_offset (cursor (c_before c)) =? 0).
  all: injection Hs as <- _; cbn; split_and!; try done.
  all: intros [-> H1]%andb_true_iff; split_and!; try done.
  destruct (cursor (c_before c)). cbn in *. apply Z.eqb_eq in H1. by subst.
Qed.

(** Claim C2. A call that lets the process prune a resource follows, in this process, a
    complete listing of it.  Contacts: the walk of this call, over the archived ones,
    returned no error, and so did a walk of the active ones from offset 0, which moved
    the cursor to the start of the archived phase, with only failed calls in that phase
    in between.  Projects: the walk of this call returned no error and was from offset
    0.  Invoices: the missed ids of this call and a list walk from offset 0 ended
    without error, with only failed calls of the missed ids in between. *)
Theorem prune_flags_justified s0 tr c s' :
  fresh s0 -> calls s0 (tr ++ [c]) s' ->
  (r_prune_contact (c_result c) = true ->
     cu_phase (cursor (c_before c)) = BX_CHAIN_CONTACT_ARCHIVED
     /\ listed c /\ r_error (c_result c) = NoError
     /\ opened_by BX_CHAIN_CONTACT_ACTIVE BX_CHAIN_CONTACT_ARCHIVED tr)
  /\ (r_prune_project (c_result c) = true ->
     cursor (c_before c) = mkCursor BX_CHAIN_PROJECT 0
     /\ listed c /\ r_error (c_result c) = NoError)
  /\ (r_prune_invoice (c_result c) = true ->
     cu_phase (cursor (c_before c)) = BX_CHAIN_INVOICE_MISSED
     /\ listed c /\ r_error (c_result c) = NoError
     /\ opened_by BX_CHAIN_INVOICE_LIST BX_CHAIN_INVOICE_MISSED tr).
Proof.
  intros Hf (Htr & Hm & _)%calls_snoc_inv.
  destruct (calls_justified _ _ _ Hf Htr) as [Hv Hc Hi].
  destruct (prune_flags _ Hv Hm) as (Hpc & Hpp & Hpi). split_and!.
  - intros (Hz & Hl & He)%Hpc. by destruct (Hc Hz).
  - exact Hpp.
  - intros (Hz & Hl & He)%Hpi. by destruct (Hi Hz).
Qed.

(** *** A full cycle *)

Lemma made_ok c :
  valid_cursor (cursor (c_before c)) -> made c -> r_error (c_result c) = NoError ->
  spec_done (c_before c) true = (c_result c, c_after c).
Proof.
  intros Hv (o & Hok & Hs & _)%made_outcome He; [|done].
  destruct o as [|e cu|[]]; cbn in Hs; [| |done|].
  - injection Hs as Hr _. by rewrite <- Hr in He.
  - destruct Hok as [Hne _]. injection Hs as Hr _. by rewrite <- Hr in He.
  - unfold spec_done in Hs. exfalso.
    repeat case_match; injection Hs as Hr _; by rewrite <- Hr in He.
Qed.

Definition cycle_results : list BXChainResult :=
  [mkResult NoError false false false false false false false;
   mkResult NoError true false false true false false true;
   mkResult NoError false true false false true false true;
   mkResult NoError false false false false false false false;
   mkResult NoError false false true false false true true].

(** Five calls without error from the start are one cycle: they bump and prune
    contacts, projects and invoices in this order and end at the start. *)
Theorem chain_cycle s0 c1 c2 c3 c4 c5 s :
  cursor s0 = mkCursor BX_CHAIN_CONTACT_ACTIVE 0 ->
  calls s0 [c1; c2; c3; c4; c5] s ->
  Forall (fun c => r_error (c_result c) = NoError) [c1; c2; c3; c4; c5] ->
  c_result <$> [c1; c2; c3; c4; c5] = cycle_results
  /\ s = mkStatics (mkCursor BX_CHAIN_CONTACT_ACTIVE 0) false false.
Proof.
  intros Hstart Hc Hok. rewrite !Forall_cons in Hok. destruct Hok as (H1 & H2 & H3 & H4 & H5 & _).
  apply (calls_snoc_inv _ [_; _; _; _]) in Hc as (Hc & S5 & ->).
  apply (calls_snoc_inv _ [_; _; _]) in Hc as (Hc & S4 & B5).
  apply (calls_snoc_inv _ [_; _]) in Hc as (Hc & S3 & B4).
  apply (calls_snoc_inv _ [_]) in Hc as (Hc & S2 & B3).
  apply (calls_snoc_inv _ []) in Hc as (Hc & S1 & B2).
  apply calls_nil_inv in Hc.
  apply made_ok in S1; [|rewrite Hc, Hstart; by vm_compute|done].
  unfold spec_done in S1. rewrite Hc, Hstart in S1. cbn in S1. injection S1 as R1 A1.
  rewrite <- A1 in B2. apply made_ok in S2; [|by rewrite B2|done].
  rewrite B2 in S2. cbn in S2. injection S2 as R2 A2. rewrite <- A2 in B3.
  apply made_ok in S3; [|by rewrite B3|done].
  rewrite B3 in S3. cbn in S3. injection S3 as R3 A3. rewrite <- A3 in B4.
  apply made_ok in S4; [|by rewrite B4|done].
  rewrite B4 in S4. cbn in S4. injection S4 as R4 A4. rewrite <- A4 in B5.
  apply made_ok in S5; [|by rewrite B5|done].
  rewrite B5 in S5. cbn in S5. injection S5 as R5 A5.
  cbn. by rewrite <- R1, <- R2, <- R3, <- R4, <- R5, <- A5.
Qed.

(** *** Checkpoints *)

(** The page callback: an offset outside [0..INT_MAX] is refused; otherwise the
    cursor moves exactly when its row is stored, and the row reads back as the
    cursor. *)
Theorem validated_page_spec (conn : MYSQL) p n s (w : W) :
  conn <> None ->
  let next := normalize (mkCursor p n) in
  on_validated_page true conn p n (s, w)
  = (if bool_decide (0 <= n <= INT_MAX) then
      match conf_put_database conn BX_CHAIN_KEY (bx_chain_encode next) w with
      | Done (true, w') =>
          Done (NoError, (mkStatics next (contact_from_zero s) (invoice_from_zero s), w'))
      | Done (false, w') => Done (ErrorGeneric, (s, w'))
      | Fault => Fault
      | OutOfFuel => OutOfFuel
      end
    else Done (ErrorGeneric, (s, w)))
  /\ (0 <= n <= INT_MAX ->
      bx_chain_decode (Some (bx_chain_encode next)) None 0 0 = next).
Proof.
  intros Hconn next. assert (0 <= n <= INT_MAX -> valid_cursor next) as Hv.
  { intros Hn. apply normalize_valid. cbn. lia. }
  split.
  - unfold on_validated_page. case_bool_decide as Hn.
    + destruct Hn as [Hn1 Hn2]. rewrite (proj2 (Z.ltb_ge _ _)) by done.
      rewrite (proj2 (Z.ltb_ge _ _)) by done. cbn [orb].
      unfold checkpoint. unfold INT_MAX in Hn2. rewrite i32_small by (unfold is_i32; lia).
      fold next. unfold bind, on_snd. cbn [snd fst].
      rewrite chain_save_eq by (done || apply Hv; unfold INT_MAX; lia).
      destruct (conf_put_database conn BX_CHAIN_KEY (bx_chain_encode next) w) as [[[] w']| |];
        done.
    + assert ((n <? 0) || (INT_MAX <? n) = true) as ->; [|done].
      apply orb_true_iff. rewrite !Z.ltb_lt. lia.
  - intros Hn. apply chain_decode_encode. by apply Hv.
Qed.
End Histories.

(** ** A small process

    Every list is empty; the world is the stored row. *)
Module Tiny.
#[global] Instance walk : WalkEnv (option string) :=
  {| do_request _ _ := ret (Some (JArray [])); thrd_sleep := ret tt |}.
#[global] Instance conf : ConfEnv (option string) :=
  {| conf_get_string _ := get; conf_get_int _ := ret 0;
     conf_put_database _ _ value _ := Done (true, Some value) |}.
#[global] Instance items : ChainItems (option string) :=
  {| contact_sync_item _ _ _ := ret NoError; project_sync_item _ _ := ret NoError;
     invoice_sync_item _ _ := ret NoError; invoice_fetch_missed _ := ret NoError |}.

Definition s0 := mkStatics (mkCursor 0 0) false false.
Definition s1 := mkStatics (mkCursor 1 0) true false.
Definition s2 := mkStatics (mkCursor 2 0) false false.
Definition s3 := mkStatics (mkCursor 3 0) false false.
Definition s4 := mkStatics (mkCursor 4 0) false true.
Definition r (i : nat) : BXChainResult :=
  default (fail_resource ErrorGeneric false false false) (cycle_results !! i).

(** The [i]th call of a cycle, between these states. *)
Definition at_call (i : nat) (s s' : ChainStatics) : call :=
  mkCall (W := option string) 2 true true (Some 1) s None (r i) s'
    (Some (bx_chain_encode (cursor s'))).

Lemma two_calls : calls s0 ([at_call 0 s0 s1] ++ [at_call 1 s1 s2]) s2.
Proof.
  apply (calls_snoc _ [at_call 0 s0 s1] (at_call 1 s1 s2)); [|by vm_compute].
  apply (calls_snoc _ [] (at_call 0 s0 s1)); [constructor | by vm_compute].
Qed.

Definition cycle : list call :=
  [at_call 0 s0 s1; at_call 1 s1 s2; at_call 2 s2 s3; at_call 3 s3 s4; at_call 4 s4 s0].

Lemma five_calls : calls s0 cycle s0.
Proof.
  apply (calls_snoc _ [_; _; _; _] (at_call 4 s4 s0)); [|by vm_compute].
  apply (calls_snoc _ [_; _; _] (at_call 3 s3 s4)); [|by vm_compute].
  apply (calls_snoc _ [_; _] (at_call 2 s2 s3)); [|by vm_compute].
  apply two_calls.
Qed.
End Tiny.

Lemma chain_sync_refines_witness :
  valid_cursor (cursor Tiny.s0)
  /\ exists o, outcome_of 2 true true (Some 1) Tiny.s0 (None : option string) o
                (Some "contact-archived:0")
      /\ outcome_ok Tiny.s0 o /\ spec_sync Tiny.s0 o = (Tiny.r 0, Tiny.s1).
Proof.
  split; [by vm_compute|].
  apply (chain_sync_refines (W := option string)); by vm_compute.
Defined.

Lemma prune_flags_justified_witness :
  r_prune_contact (Tiny.r 1) = true
  /\ opened_by BX_CHAIN_CONTACT_ACTIVE BX_CHAIN_CONTACT_ARCHIVED [Tiny.at_call 0 Tiny.s0 Tiny.s1].
Proof.
  split; [reflexivity|].
  apply (prune_flags_justified (W := option string) Tiny.s0 [Tiny.at_call 0 Tiny.s0 Tiny.s1]
           (Tiny.at_call 1 Tiny.s1 Tiny.s2) Tiny.s2).
  - split; [by vm_compute | split; reflexivity].
  - exact Tiny.two_calls.
  - reflexivity.
Defined.

Lemma chain_cycle_witness :
  c_result <$> Tiny.cycle = cycle_results
  /\ Tiny.s0 = mkStatics (mkCursor BX_CHAIN_CONTACT_ACTIVE 0) false false.
Proof.
  apply (chain_cycle (W := option string) Tiny.s0); [reflexivity | exact Tiny.five_calls |].
  repeat constructor.
Defined.

Lemma chain_decode_encode_witness :
  bx_chain_decode (Some (bx_chain_encode (mkCursor 3 1500))) (Some "contact") 7 1 = mkCursor 3 1500.
Proof.
  apply chain_decode_encode. unfold valid_cursor, INT_MAX, BX_CHAIN_INVOICE_MISSED. cbn. lia.
Defined.

Lemma chain_decode_valid_witness : valid_cursor (bx_chain_decode (Some "project:x") (Some "invoice") 9 1).
Proof. apply chain_decode_valid. unfold INT_MAX. lia. Defined.

Lemma validated_page_spec_witness :
  on_validated_page (W := option string) true (Some 1) 0 500 (Tiny.s0, None)
  = Done (NoError, (mkStatics (mkCursor 0 500) false false, Some "contact-active:500")).
Proof.
  rewrite (proj1 (validated_page_spec (W := option string) (Some 1) 0 500 Tiny.s0 None
                    ltac:(discriminate))).
  vm_compute. reflexivity.
Defined.
