(* ===== verification/Conf.v ===== *)
(** * The configuration: [bx_conf.c]

    A list of typed values keyed by the hash of their names, filled from a JSON
    file, overlaid with the table [_configuration], and written back one row at
    a time.  The theorems: the list implements a finite map, whatever the
    allocations do; loading the file and the table are folds of insertions that
    leave the [mysql-] settings of the file alone; a row that is written is on
    the server before it is in memory, and the cursor of the chain survives a
    restart. *)
From S2P Require Import Prelude CLib Env Samples Values Chain.
#[local] Open Scope Z_scope.

(** ** Values *)

Inductive BXConfValueType := StringType | ByteType | IntegerType | FloatType | BoolType | BlobType.
#[global] Instance BXConfValueType_eq_dec : EqDecision BXConfValueType.
Proof. solve_decision. Defined.

(** [b_value] holds [b_len] bytes. *)
Record BXConfValue `{CDouble} := mkConfValue {
  cv_key : Z;
  cv_type : BXConfValueType;
  s_value : option string;
  i_value : Z;
  f_value : double;
  b_value : option string
}.
Arguments mkConfValue {_}.

(** The list, from its head. *)
Definition BXConf `{CDouble} : Type := list BXConfValue.

(** What the [void *value] of the callers points to. *)
Inductive conf_arg `{CDouble} :=
| PString (s : string)
| PInt (z : Z)
| PBool (b : bool)
| PDouble (d : double)
| PByte (z : Z)
| PBlob (data : option string) (len : Z).

(** The calls of the client library, of the allocator and of the file. *)
Record conf_row := mkConfRow {
  cr_name : option string;
  cr_type : option string;
  cr_ival : option string;
  cr_cval : option string;
  cr_bval : option string;
  cr_fval : option string
}.

Inductive conf_bind := BindText (s : option string) | BindLong (z : option Z).

Class ConfClient (W : Type) := {
  conf_memory : prog W bool;                              (* an allocation succeeds *)
  conf_mysql_init : prog W MYSQL;
  conf_mysql_options : Z -> prog W unit;
  conf_real_connect : Z -> string -> string -> option string -> string -> prog W bool;
  conf_set_character_set : Z -> string -> prog W unit;
  conf_query : Z -> string -> prog W bool;                (* true: returned 0 *)
  conf_store_result : Z -> prog W (option (list conf_row));
  conf_fetch_lengths : Z -> prog W bool;                  (* not [NULL] *)
  conf_close : Z -> prog W unit;
  conf_stmt_init : Z -> prog W (option Z);
  conf_stmt_prepare : Z -> string -> prog W bool;
  conf_stmt_bind : Z -> list conf_bind -> prog W bool;
  conf_stmt_execute : Z -> prog W bool;
  conf_stmt_close : Z -> prog W unit
}.

Class ConfFile `{Jansson} (W : Type) := {
  conf_file : Type;
  conf_fopen : string -> prog W (option conf_file);
  json_loadf : conf_file -> prog W (option json_t);
  conf_fclose : conf_file -> prog W unit;
  json_object_items : json_t -> list (string * json_t)    (* [json_object_foreach] *)
}.

(** [strtod(s, &end)] with [end != s] *)
Class StrtodEnd := { strtod_parses : string -> bool }.

Definition BX_CONF_TABLE_SQL : string :=
  "CREATE TABLE IF NOT EXISTS _configuration ( id BIGINT UNSIGNED NOT NULL AUTO_INCREMENT, name VARCHAR(191) NOT NULL, type VARCHAR(32) NOT NULL, ival INTEGER NULL, cval TEXT NULL, bval BLOB NULL, fval DOUBLE NULL, PRIMARY KEY (id), UNIQUE KEY configuration_name (name))".
Definition SELECT_CONFIGURATION : string :=
  "SELECT name, type, ival, cval, bval, fval FROM _configuration ORDER BY id".
Definition PUT_SQL : string :=
  "INSERT INTO _configuration (name, type, ival, cval) VALUES (?, ?, ?, ?) ON DUPLICATE KEY UPDATE type = VALUES(type), ival = VALUES(ival), cval = VALUES(cval), bval = NULL, fval = NULL".

(** ** Reading through the pointer *)

Section Conf.
Context `{CDouble}.

(** [*(bool * )value]: the low byte of an [int]; a byte other than 0 and 1 is
    no [bool]. *)
Definition read_bool (a : conf_arg) : outcome bool :=
  match a with
  | PBool b => Done b
  | PInt z => if u8 z =? 0 then Done false else if u8 z =? 1 then Done true else Fault
  | PByte z => if z =? 0 then Done false else if z =? 1 then Done true else Fault
  | _ => Fault
  end.
Definition read_int (a : conf_arg) : outcome Z :=
  match a with PInt z => Done z | _ => Fault end.
Definition read_string (a : conf_arg) : outcome string :=
  match a with PString s => Done s | _ => Fault end.
Definition read_double (a : conf_arg) : outcome double :=
  match a with PDouble d => Done d | _ => Fault end.
Definition read_byte (a : conf_arg) : outcome Z :=
  match a with
  | PByte z => Done z
  | PInt z => Done (u8 z)
  | PBool b => Done (if b then 1 else 0)
  | _ => Fault
  end.

Definition clear_value (v : BXConfValue) : BXConfValue :=
  mkConfValue (cv_key v) (cv_type v) None 0 double_zero None.
Definition with_type (t : BXConfValueType) (v : BXConfValue) : BXConfValue :=
  mkConfValue (cv_key v) t (s_value v) (i_value v) (f_value v) (b_value v).
Definition with_int (z : Z) (v : BXConfValue) : BXConfValue :=
  mkConfValue (cv_key v) (cv_type v) (s_value v) z (f_value v) (b_value v).
Definition with_string (s : option string) (v : BXConfValue) : BXConfValue :=
  mkConfValue (cv_key v) (cv_type v) s (i_value v) (f_value v) (b_value v).
Definition with_double (d : double) (v : BXConfValue) : BXConfValue :=
  mkConfValue (cv_key v) (cv_type v) (s_value v) (i_value v) d (b_value v).
Definition with_bytes (b : option string) (v : BXConfValue) : BXConfValue :=
  mkConfValue (cv_key v) (cv_type v) (s_value v) (i_value v) (f_value v) b.

Section Client.
Context `{!XXH3} {W : Type} `{!ConfClient W}.

Definition fill_value (v : BXConfValue) (value : conf_arg) (type : BXConfValueType)
    : prog W (bool * BXConfValue) :=
  let v := with_type type (clear_value v) in
  match type with
  | BoolType => b <- lift_outcome (read_bool value) ;;
                ret (true, with_int (if b : bool then 1 else 0) v)
  | IntegerType => z <- lift_outcome (read_int value) ;; ret (true, with_int z v)
  | StringType =>
      s <- lift_outcome (read_string value) ;;
      m <- conf_memory ;;
      ret (if m : bool then (true, with_string (Some s) v) else (false, v))
  | FloatType => d <- lift_outcome (read_double value) ;; ret (true, with_double d v)
  | ByteType => z <- lift_outcome (read_byte value) ;; ret (true, with_int z v)
  | BlobType =>
      match value with
      | PBlob data len =>
          match data with
          | None => ret (true, v)
          | Some data =>
              if len =? 0 then ret (true, v)
              else m <- conf_memory ;;
                   if negb m then ret (false, v)
                   else if len <=? strlen data
                        then ret (true, with_bytes (Some (String.substring 0 (Z.to_nat len) data)) v)
                        else fault
          end
      | _ => fault
      end
  end.

Fixpoint find_value (ikey : Z) (conf : BXConf) : option BXConfValue :=
  match conf with
  | [] => None
  | v :: conf => if cv_key v =? ikey then Some v else find_value ikey conf
  end.

(** The first value of this key, changed in place. *)
Fixpoint store_value (v' : BXConfValue) (conf : BXConf) : BXConf :=
  match conf with
  | [] => []
  | v :: conf => if cv_key v =? cv_key v' then v' :: conf else v :: store_value v' conf
  end.

(** An empty name fails the [assert]. *)
Definition _bx_conf_get (conf : BXConf) (key : string) : outcome (option BXConfValue) :=
  if strlen key =? 0 then Fault else Done (find_value (XXH3_64bits key) conf).

Definition bx_conf_init (m : bool) : option BXConf := if m then Some [] else None.

Definition conf_prog (A : Type) : Type := prog (BXConf * W) A.
Definition set_conf (f : BXConf -> BXConf) : conf_prog unit := modify (fun w => (f w.1, w.2)).
Definition client {A} (m : prog W A) : conf_prog A := on_snd m.

Definition bx_conf_set (key : string) (value : conf_arg) (type : BXConfValueType) : conf_prog bool :=
  if strlen key =? 0 then fault else
  conf <- gets fst ;;
  v <- lift_outcome (_bx_conf_get conf key) ;;
  match v with
  | Some v =>
      let* (ok, v) := client (fill_value v value type) in
      set_conf (store_value v) ;;; ret ok
  | None =>
      m <- client conf_memory ;;
      if negb m then ret false else
      let* (ok, v) := client (fill_value (mkConfValue (XXH3_64bits key) type None 0 double_zero None)
                                value type) in
      if negb ok then ret false
      else set_conf (fun conf => conf ++ [v]) ;;; ret true
  end.

Definition bx_conf_get_string (key : string) : conf_prog (option string) :=
  conf <- gets fst ;;
  v <- lift_outcome (_bx_conf_get conf key) ;;
  ret (match v with
       | Some v => if bool_decide (cv_type v = StringType) then s_value v else None
       | None => None
       end).

Definition bx_conf_get_int (key : string) : conf_prog Z :=
  conf <- gets fst ;;
  v <- lift_outcome (_bx_conf_get conf key) ;;
  ret (match v with
       | Some v => if negb (bool_decide (cv_type v = IntegerType))
                      && negb (bool_decide (cv_type v = BoolType)) then 0 else i_value v
       | None => 0
       end).

Definition bx_conf_release (key : string) : conf_prog unit := ret tt.
End Client.
End Conf.

(** ** The file *)

Section Load.
Context `{Jansson} `{!XXH3} {W : Type} `{!ConfClient W} `{!ConfFile W}.

(** One member of the object: what is set, if anything. *)
Definition file_value (value : json_t) : option (conf_arg * BXConfValueType) :=
  match json_typeof value with
  | JSON_STRING => Some (PString (json_string_value value), StringType)
  | JSON_INTEGER => Some (PInt (i32 (json_integer_value value)), IntegerType)
  | JSON_REAL => Some (PDouble (json_real_value value), FloatType)
  | JSON_TRUE => Some (PInt 1, BoolType)
  | JSON_FALSE => Some (PInt 0, BoolType)
  | _ => None
  end.

Fixpoint loadfile_loop (items : list (string * json_t)) : conf_prog (W := W) unit :=
  match items with
  | [] => ret tt
  | (key, value) :: items =>
      match file_value value with
      | Some (arg, type) => bx_conf_set key arg type ;;; loadfile_loop items
      | None => loadfile_loop items
      end
  end.

Definition bx_conf_loadfile (filepath : string) : conf_prog (W := W) bool :=
  fp <- client (conf_fopen filepath) ;;
  match fp with
  | None => ret false
  | Some fp =>
      jroot <- client (json_loadf fp) ;;
      client (conf_fclose fp) ;;;
      match jroot with
      | None => ret false
      | Some jroot =>
          if negb (json_is JSON_OBJECT (Some jroot)) then ret false
          else loadfile_loop (json_object_items jroot) ;;; ret true
      end
  end.
End Load.

(** ** The table *)

Definition type_is (type : option string) (a : string) (b : option string) : bool :=
  match type with
  | None => false
  | Some type => strcasecmp_eq type a
                 || match b with Some b => strcasecmp_eq type b | None => false end
  end.

Section Table.
Context `{CDouble} `{!XXH3} `{!StrtodEnd} {W : Type} `{!ConfClient W}.

Definition apply_database_row (name type ival cval bval : option string) (bval_len : Z)
    (fval : option string) : conf_prog (W := W) bool :=
  match name with
  | None | Some EmptyString => ret true
  | Some name =>
      if prefix_of "mysql-" name then ret true
      else if type_is type "string" (Some "text") || type_is type "char" (Some "varchar") then
        match cval with
        | None => ret false
        | Some cval => bx_conf_set name (PString cval) StringType
        end
      else if type_is type "integer" (Some "int") then
        match ival with
        | None => ret false
        | Some ival =>
            let '(parsed, tail) := strtol ival in
            if str_eq tail ival then ret false
            else bx_conf_set name (PInt (i32 parsed)) IntegerType
        end
      else if type_is type "bool" (Some "boolean") then
        match ival with
        | None => ret false
        | Some ival => bx_conf_set name (PBool (negb ((strtol ival).1 =? 0))) BoolType
        end
      else if type_is type "float" (Some "double") || type_is type "real" None then
        match fval with
        | None => ret false
        | Some fval => if negb (strtod_parses fval) then ret false
                       else bx_conf_set name (PDouble (strtod fval)) FloatType
        end
      else if type_is type "blob" (Some "byte") || type_is type "bytes" (Some "binary") then
        bx_conf_set name (PBlob bval (match bval with Some _ => bval_len | None => 0 end)) BlobType
      else ret false
  end.

Definition conf_connect : conf_prog (W := W) MYSQL :=
  host <- bx_conf_get_string "mysql-host" ;;
  user <- bx_conf_get_string "mysql-user" ;;
  password <- bx_conf_get_string "mysql-password" ;;
  database <- bx_conf_get_string "mysql-database" ;;
  match host, user, database with
  | Some host, Some user, Some database =>
      conn <- client conf_mysql_init ;;
      match conn with
      | None => ret None
      | Some conn =>
          client (conf_mysql_options conn) ;;;
          ok <- client (conf_real_connect conn host user password database) ;;
          if negb ok then client (conf_close conn) ;;; ret None else
          client (conf_set_character_set conn "utf8mb4") ;;;
          ok <- client (conf_query conn BX_CONF_TABLE_SQL) ;;
          if negb ok then client (conf_close conn) ;;; ret None
          else ret (Some conn)
      end
  | _, _, _ => ret None
  end.

Fixpoint apply_rows (conn : Z) (rows : list conf_row) : conf_prog (W := W) unit :=
  match rows with
  | [] => ret tt
  | row :: rows =>
      lengths <- client (conf_fetch_lengths conn) ;;
      let bval_len := if lengths : bool then match cr_bval row with Some b => strlen b | None => 0 end
                      else 0 in
      apply_database_row (cr_name row) (cr_type row) (cr_ival row) (cr_cval row) (cr_bval row)
        bval_len (cr_fval row) ;;;
      apply_rows conn rows
  end.

Definition bx_conf_load_database : conf_prog (W := W) bool :=
  conn <- conf_connect ;;
  match conn with
  | None => ret false
  | Some conn =>
      ok <- client (conf_query conn SELECT_CONFIGURATION) ;;
      if negb ok then client (conf_close conn) ;;; ret false else
      result <- client (conf_store_result conn) ;;
      match result with
      | None => client (conf_close conn) ;;; ret false
      | Some rows =>
          apply_rows conn rows ;;;
          client (conf_close conn) ;;; ret true
      end
  end.

(** The type name and the two values that are bound. *)
Definition put_binds (type : BXConfValueType) (value : conf_arg)
    : outcome (option (string * option Z * option string)) :=
  match type with
  | StringType => match read_string value with
                  | Done s => Done (Some ("string", None, Some s))
                  | Fault => Fault | OutOfFuel => OutOfFuel
                  end
  | IntegerType => match read_int value with
                   | Done z => Done (Some ("integer", Some z, None))
                   | Fault => Fault | OutOfFuel => OutOfFuel
                   end
  | BoolType => match read_bool value with
                | Done b => Done (Some ("bool", Some (if b : bool then 1 else 0), None))
                | Fault => Fault | OutOfFuel => OutOfFuel
                end
  | _ => Done None
  end.

Definition bx_conf_put_database_conn (conn : MYSQL) (name : string) (type : BXConfValueType)
    (value : conf_arg) : conf_prog (W := W) bool :=
  match conn with
  | None => ret false
  | Some conn =>
      if prefix_of "mysql-" name then ret false else
      binds <- lift_outcome (put_binds type value) ;;
      match binds with
      | None => ret false
      | Some (type_name, ival, cval) =>
          stmt <- client (conf_stmt_init conn) ;;
          match stmt with
          | None => ret false
          | Some stmt =>
              ok <- client (conf_stmt_prepare stmt PUT_SQL) ;;
              if negb ok then client (conf_stmt_close stmt) ;;; ret false else
              bound <- client (conf_stmt_bind stmt
                [BindText (Some name); BindText (Some type_name); BindLong ival; BindText cval]) ;;
              executed <- (if bound : bool then client (conf_stmt_execute stmt) else ret false) ;;
              ok <- (if executed : bool then bx_conf_set name value type else ret false) ;;
              client (conf_stmt_close stmt) ;;;
              ret ok
          end
      end
  end.

Definition bx_conf_put_database (name : string) (type : BXConfValueType) (value : conf_arg)
    : conf_prog (W := W) bool :=
  conn <- conf_connect ;;
  match conn with
  | None => ret false
  | Some c =>
      ok <- bx_conf_put_database_conn conn name type value ;;
      client (conf_close c) ;;;
      ret ok
  end.

(** What the chain asks of the configuration. *)
#[global] Instance conf_env : ConfEnv (BXConf * W) := {|
  conf_get_string := bx_conf_get_string;
  conf_get_int := bx_conf_get_int;
  conf_put_database conn name value := bx_conf_put_database_conn conn name StringType (PString value)
|}.
End Table.

(** ** The list is a finite map

    Keys are hashes of names: two names with one hash are one setting. *)

Section Map.
Context `{CDouble}.

Definition conf_map (conf : BXConf) : gmap Z BXConfValue :=
  list_to_map ((fun v => (cv_key v, v)) <$> conf).

(** The keys are distinct and every value has the fields of its type only. *)
Definition empty_value (k : Z) (t : BXConfValueType) : BXConfValue :=
  mkConfValue k t None 0 double_zero None.

Definition well_typed (v : BXConfValue) : Prop :=
  match cv_type v with
  | StringType => v = with_string (s_value v) (empty_value (cv_key v) StringType)
  | IntegerType => v = with_int (i_value v) (empty_value (cv_key v) IntegerType) /\ is_i32 (i_value v)
  | BoolType => v = with_int (i_value v) (empty_value (cv_key v) BoolType) /\ 0 <= i_value v <= 1
  | ByteType => v = with_int (i_value v) (empty_value (cv_key v) ByteType) /\ 0 <= i_value v <= 255
  | FloatType => v = with_double (f_value v) (empty_value (cv_key v) FloatType)
  | BlobType => v = with_bytes (b_value v) (empty_value (cv_key v) BlobType)
  end.

Definition conf_ok (conf : BXConf) : Prop := NoDup (cv_key <$> conf) /\ Forall well_typed conf.

Lemma find_value_map k conf : find_value k conf = conf_map conf !! k.
Proof.
  induction conf as [|v conf IH]; [done|]. unfold conf_map. cbn.
  destruct (Z.eqb_spec (cv_key v) k) as [->|Hne].
  - by rewrite lookup_insert_eq.
  - by rewrite lookup_insert_ne by done.
Qed.

Lemma find_value_key k conf v : find_value k conf = Some v -> cv_key v = k /\ v ∈ conf.
Proof.
  induction conf as [|x conf IH]; [done|]. cbn. destruct (Z.eqb_spec (cv_key x) k).
  - intros [= ->]. split; [done|]. by left.
  - intros [? ?]%IH. split; [done|]. by right.
Qed.

Lemma store_value_map v conf :
  is_Some (find_value (cv_key v) conf) ->
  conf_map (store_value v conf) = <[cv_key v := v]> (conf_map conf).
Proof.
  unfold conf_map. induction conf as [|x conf IH]; cbn; [by intros []|].
  destruct (Z.eqb_spec (cv_key x) (cv_key v)) as [E|Hne]; cbn.
  - intros _. by rewrite E, insert_insert_eq.
  - intros Hf. rewrite IH by done. by rewrite insert_insert_ne.
Qed.

Lemma append_value_map v conf :
  find_value (cv_key v) conf = None ->
  conf_map (conf ++ [v]) = <[cv_key v := v]> (conf_map conf).
Proof.
  unfold conf_map. induction conf as [|x conf IH]; cbn; [done|].
  destruct (Z.eqb_spec (cv_key x) (cv_key v)) as [|Hne]; [done|].
  intros Hf. rewrite IH by done. by rewrite insert_insert_ne.
Qed.

Lemma store_value_keys v conf : cv_key <$> store_value v conf = cv_key <$> conf.
Proof.
  induction conf as [|x conf IH]; [done|]. cbn.
  destruct (Z.eqb_spec (cv_key x) (cv_key v)) as [E|]; cbn; by rewrite ?E, ?IH.
Qed.

Lemma store_value_ok v conf : well_typed v -> conf_ok conf -> conf_ok (store_value v conf).
Proof.
  intros Hv [Hn Ht]. split; [by rewrite store_value_keys|]. clear Hn.
  induction Ht as [|x conf Hx Ht IH]; [constructor|]. cbn.
  destruct (_ =? _); by constructor.
Qed.

Lemma append_value_ok v conf :
  well_typed v -> find_value (cv_key v) conf = None -> conf_ok conf -> conf_ok (conf ++ [v]).
Proof.
  intros Hv Hf [Hn Ht]. split.
  - rewrite fmap_app. apply NoDup_app. split; [done|]. split; [|apply NoDup_singleton].
    intros k Hk. cbn. rewrite list_elem_of_singleton. intros ->.
    apply list_elem_of_fmap in Hk as (x & E & Hx).
    clear - Hf E Hx. induction conf as [|y conf IH]; [by apply elem_of_nil in Hx|].
    cbn in Hf. destruct (Z.eqb_spec (cv_key y) (cv_key v)) as [|Hne]; [done|].
    apply elem_of_cons in Hx as [->|Hx]; [congruence|by apply IH].
  - apply Forall_app. by repeat constructor.
Qed.

(** *** What a call of [bx_conf_set] stores *)

Definition value_of (k : Z) (a : conf_arg) (t : BXConfValueType) : outcome BXConfValue :=
  match t with
  | BoolType => match read_bool a with
                | Done b => Done (with_int (if b then 1 else 0) (empty_value k t))
                | _ => Fault
                end
  | IntegerType => match read_int a with Done z => Done (with_int z (empty_value k t)) | _ => Fault end
  | StringType => match read_string a with
                  | Done s => Done (with_string (Some s) (empty_value k t)) | _ => Fault end
  | FloatType => match read_double a with Done d => Done (with_double d (empty_value k t)) | _ => Fault end
  | ByteType => match read_byte a with Done z => Done (with_int z (empty_value k t)) | _ => Fault end
  | BlobType =>
      match a with
      | PBlob (Some data) len =>
          if len =? 0 then Done (empty_value k t)
          else if len <=? strlen data
               then Done (with_bytes (Some (String.substring 0 (Z.to_nat len) data)) (empty_value k t))
               else Fault
      | PBlob None _ => Done (empty_value k t)
      | _ => Fault
      end
  end.

(** The objects the callers point to. *)
Definition arg_ok (a : conf_arg) : Prop :=
  match a with
  | PInt z => is_i32 z
  | PByte z => 0 <= z <= 255
  | _ => True
  end.

Lemma value_of_typed k a t v : arg_ok a -> value_of k a t = Done v -> well_typed v /\ cv_key v = k.
Proof.
  unfold well_typed. intros Ha Hv.
  destruct t, a; cbn in *; repeat case_match; simplify_eq/=; auto;
    repeat split; unfold u8; lia || (pose proof (Z.mod_pos_bound z (2 ^ 8)); lia).
Qed.

Lemma empty_value_typed k t : well_typed (empty_value k t).
Proof. destruct t; cbn; repeat split; unfold is_i32; lia. Qed.

Section Set_.
Context `{!XXH3} {W : Type} `{!ConfClient W}.

Lemma fill_value_spec v a t w ok v' w' :
  fill_value v a t w = Done ((ok, v'), w') ->
  if ok : bool then value_of (cv_key v) a t = Done v' else v' = empty_value (cv_key v) t.
Proof.
  destruct t; cbn [fill_value value_of]; intros Hf.
  all: try (apply bind_Done in Hf as (r & w1 & Hr & Hf); unfold lift_outcome in Hr;
    match type of Hr with match ?x with _ => _ end = _ => destruct x; simplify_eq end).
  all: try (injection Hf as <- <- <-; reflexivity).
  - apply bind_Done in Hf as (m & w2 & _ & Hf). destruct m; by injection Hf as <- <- <-.
  - destruct a; try done. destruct data as [data|]; [|by injection Hf as <- <- <-].
    destruct (len =? 0); [by injection Hf as <- <- <-|].
    apply bind_Done in Hf as (m & w2 & _ & Hf). destruct m; cbn in Hf; [|by injection Hf as <- <- <-].
    destruct (len <=? strlen data); [|done]. by injection Hf as <- <- <-.
Qed.

(** The map after a call: the new value, or, when an allocation fails, an
    emptied value for a name that was set. *)
Definition set_spec (k : Z) (a : conf_arg) (t : BXConfValueType) (ok : bool)
    (m m' : gmap Z BXConfValue) : Prop :=
  if ok then exists v, value_of k a t = Done v /\ m' = <[k := v]> m
  else m' = (if decide (is_Some (m !! k)) then <[k := empty_value k t]> m else m).

Lemma conf_set_run key a t c w ok c' w' :
  arg_ok a -> conf_ok c ->
  bx_conf_set key a t (c, w) = Done (ok, (c', w')) ->
  key <> "" /\ set_spec (XXH3_64bits key) a t ok (conf_map c) (conf_map c') /\ conf_ok c'.
Proof.
  intros Ha Hc E. unfold bx_conf_set in E. destruct (Z.eqb_spec (strlen key) 0) as [|Hk]; [done|].
  split; [by intros ->|].
  apply bind_Done in E as (c0 & x & [= <- <-] & E).
  apply bind_Done in E as (v & x & Ev & E). unfold lift_outcome, _bx_conf_get in Ev.
  rewrite (proj2 (Z.eqb_neq _ _) Hk) in Ev. injection Ev as <- <-. cbn [fst] in E.
  destruct (find_value _ c) as [v|] eqn:Ef.
  - destruct (find_value_key _ _ _ Ef) as [Hvk Hin].
    apply bind_Done in E as ([ok1 v'] & [c1 w1] & Efill & E).
    unfold client, on_snd in Efill. cbn in Efill.
    destruct (fill_value v a t w) as [[[ok2 v2] w2]| |] eqn:Ev; [|done..].
    injection Efill as <- <- <- <-. injection E as <- <- <-. cbn [fst].
    apply fill_value_spec in Ev. rewrite Hvk in Ev.
    assert (is_Some (find_value (XXH3_64bits key) c)) as Hs by (by rewrite Ef).
    destruct ok2; cbn [set_spec].
    + destruct (value_of_typed _ _ _ _ Ha Ev) as [Hwt Hk2]. split; [|by apply store_value_ok].
      exists v2. split; [done|]. rewrite <- Hk2. apply store_value_map. by rewrite Hk2.
    + subst v2. split; [|apply store_value_ok; [apply empty_value_typed|done]].
      rewrite find_value_map in Hs. rewrite decide_True by done.
      apply (store_value_map (empty_value (XXH3_64bits key) t)). cbn. by rewrite Ef.
  - apply bind_Done in E as (m & [c1 w1] & Em & E). unfold client, on_snd in Em. cbn in Em.
    destruct (conf_memory w) as [[m' w2]| |]; [|done..]. injection Em as <- <- <-.
    assert (~ is_Some (conf_map c !! XXH3_64bits key)) as Hn.
    { rewrite <- find_value_map, Ef. by intros []. }
    destruct m'; cbn [negb] in E.
    2: { injection E as <- <- <-. cbn [set_spec fst]. by rewrite decide_False. }
    apply bind_Done in E as ([ok1 v'] & [c1 w1] & Efill & E).
    unfold client, on_snd in Efill. cbn [fst snd] in Efill.
    destruct (fill_value _ a t w2) as [[[ok2 v2] w3]| |] eqn:Ev; [|done..].
    injection Efill as <- <- <- <-. apply fill_value_spec in Ev. cbn [cv_key] in Ev.
    destruct ok2; cbn [negb set_spec] in *.
    + injection E as <- <- <-. cbn [fst].
      destruct (value_of_typed _ _ _ _ Ha Ev) as [Hwt Hk2].
      rewrite <- Hk2 in Ef. split; [|by apply append_value_ok].
      exists v2. split; [done|]. rewrite <- Hk2. by apply append_value_map.
    + injection E as <- <- <-. cbn [set_spec fst]. by rewrite decide_False.
Qed.
(** Claim C30. [bx_conf_set] implements insertion in the map of the settings, keyed by the
    hash of the name, and keeps the list well typed with distinct keys; when an
    allocation fails it returns false, leaves out a new name and empties the
    value of an old one. *)
Theorem conf_set_refines key a t c w ok c' w' :
  arg_ok a -> conf_ok c ->
  bx_conf_set key a t (c, w) = Done (ok, (c', w')) ->
  key <> "" /\ set_spec (XXH3_64bits key) a t ok (conf_map c) (conf_map c') /\ conf_ok c'.
Proof. apply conf_set_run. Qed.

(** What the getters read in the map. *)
Definition string_in (v : option BXConfValue) : option string :=
  match v with
  | Some v => if bool_decide (cv_type v = StringType) then s_value v else None
  | None => None
  end.

Lemma get_string_eq key c (w : W) :
  key <> "" -> bx_conf_get_string key (c, w) = Done (string_in (conf_map c !! XXH3_64bits key), (c, w)).
Proof.
  intros Hk. unfold bx_conf_get_string, lift_outcome, _bx_conf_get. run_prog. cbn [fst].
  destruct (Z.eqb_spec (strlen key) 0) as [E|_]; [by destruct key|]. by rewrite find_value_map.
Qed.

Definition int_in (v : option BXConfValue) : Z :=
  match v with
  | Some v => if negb (bool_decide (cv_type v = IntegerType))
                 && negb (bool_decide (cv_type v = BoolType)) then 0 else i_value v
  | None => 0
  end.

Lemma get_int_eq key c (w : W) :
  key <> "" -> bx_conf_get_int key (c, w) = Done (int_in (conf_map c !! XXH3_64bits key), (c, w)).
Proof.
  intros Hk. unfold bx_conf_get_int, lift_outcome, _bx_conf_get. run_prog. cbn [fst].
  destruct (Z.eqb_spec (strlen key) 0) as [E|_]; [by destruct key|]. by rewrite find_value_map.
Qed.

(** With memory and a readable argument the call stores the value. *)
Lemma conf_set_total key a t c w v :
  (forall w : W, conf_memory w = Done (true, w)) ->
  key <> "" -> arg_ok a -> conf_ok c -> value_of (XXH3_64bits key) a t = Done v ->
  exists c', bx_conf_set key a t (c, w) = Done (true, (c', w))
  /\ conf_map c' = <[XXH3_64bits key := v]> (conf_map c) /\ conf_ok c'.
Proof.
  intros Hm Hk Ha Hc Hv.
  assert (exists c', bx_conf_set key a t (c, w) = Done (true, (c', w))) as [c' E].
  - assert (forall v0, cv_key v0 = XXH3_64bits key -> fill_value v0 a t w = Done ((true, v), w)) as Hfill.
    + intros v0 Hk0. assert (clear_value v0 = empty_value (XXH3_64bits key) (cv_type v0)) as Hcl
        by (unfold clear_value, empty_value; by rewrite Hk0).
      destruct t, a; cbn [value_of] in Hv; cbn [fill_value]; rewrite ?Hcl;
        unfold lift_outcome; run_prog;
        repeat first [rewrite Hm; cbn [negb] | case_match]; simplify_eq/=; done.
    + unfold bx_conf_set. destruct (Z.eqb_spec (strlen key) 0) as [Ez|Hz]; [by destruct key|].
      unfold lift_outcome, _bx_conf_get, client, on_snd. run_prog. cbn [fst snd].
      rewrite (proj2 (Z.eqb_neq _ _) Hz). destruct (find_value _ c) as [v0|] eqn:Ef.
      * destruct (find_value_key _ _ _ Ef) as [Hvk _]. rewrite Hfill by done. cbn. by eexists.
      * rewrite Hm. cbn [negb snd]. rewrite Hfill by done. cbn. by eexists.
  - destruct (conf_set_run _ _ _ _ _ _ _ _ Ha Hc E) as (_ & (v' & Hv' & Hmap) & Hok).
    exists c'. split; [done|]. split; [congruence|done].
Qed.
End Set_.
End Map.

(** ** The table against a server *)

Inductive conf_event :=
| EInit
| EConnect (host user : string) (password : option string) (database : string)
| EQuery (sql : string)
| EClose
| EStmtInit
| EPrepare (sql : string)
| EBind (binds : list conf_bind)
| EExecute
| EStmtClose.

(** The server answers by the history. *)
Record conf_oracle := mkConfOracle {
  co_init : list conf_event -> MYSQL;
  co_connect : list conf_event -> bool;
  co_query : list conf_event -> string -> bool;
  co_rows : list conf_event -> option (list conf_row);
  co_stmt : list conf_event -> option Z;
  co_prepare : list conf_event -> bool;
  co_bind : list conf_event -> bool;
  co_execute : list conf_event -> bool
}.

(** Connections, or statements, that are left open. *)
Definition conn_count (e : conf_event) : Z := match e with EInit => 1 | EClose => -1 | _ => 0 end.
Definition stmt_count (e : conf_event) : Z := match e with EStmtInit => 1 | EStmtClose => -1 | _ => 0 end.
Definition left_open (f : conf_event -> Z) (ev : list conf_event) : Z := foldr (fun e n => f e + n) 0 ev.
Definition all_closed (ev : list conf_event) : Prop :=
  left_open conn_count ev = 0 /\ left_open stmt_count ev = 0.

(** The type a row names, whatever the case of its letters. *)
Definition type_kind (type : option string) : option BXConfValueType :=
  if type_is type "string" (Some "text") || type_is type "char" (Some "varchar") then Some StringType
  else if type_is type "integer" (Some "int") then Some IntegerType
  else if type_is type "bool" (Some "boolean") then Some BoolType
  else if type_is type "float" (Some "double") || type_is type "real" None then Some FloatType
  else if type_is type "blob" (Some "byte") || type_is type "bytes" (Some "binary") then Some BlobType
  else None.

(** The value of a row of this type, [None] when it is missing or no number. *)
Definition row_arg `{CDouble} `{!StrtodEnd} (row : conf_row) (kind : BXConfValueType) : option conf_arg :=
  match kind with
  | StringType => PString <$> cr_cval row
  | IntegerType => ival ← cr_ival row;
                   if str_eq (strtol ival).2 ival then None else Some (PInt (i32 (strtol ival).1))
  | BoolType => (fun ival => PBool (negb ((strtol ival).1 =? 0))) <$> cr_ival row
  | FloatType => fval ← cr_fval row; if strtod_parses fval then Some (PDouble (strtod fval)) else None
  | BlobType => Some (PBlob (cr_bval row) (match cr_bval row with Some b => strlen b | None => 0 end))
  | ByteType => None
  end.

(** What a row sets: never a [mysql-] name. *)
Definition row_setting `{CDouble} `{!StrtodEnd} (row : conf_row)
    : option (string * conf_arg * BXConfValueType) :=
  match cr_name row with
  | None | Some EmptyString => None
  | Some name =>
      if prefix_of "mysql-" name then None
      else kind ← type_kind (cr_type row); a ← row_arg row kind; Some (name, a, kind)
  end.

Section Rows.
Context `{CDouble} `{!XXH3} `{!StrtodEnd}.

(** The rows laid over the settings, in their order. *)
Definition overlay_row (m : gmap Z BXConfValue) (row : conf_row) : gmap Z BXConfValue :=
  match row_setting row with
  | Some (name, a, t) => match value_of (XXH3_64bits name) a t with
                         | Done v => <[XXH3_64bits name := v]> m
                         | _ => m
                         end
  | None => m
  end.

Lemma row_arg_readable row kind a k :
  row_arg row kind = Some a -> arg_ok a /\ exists v, value_of k a kind = Done v.
Proof.
  destruct kind; cbn; intros Ha; try done.
  - destruct (cr_cval row); simplify_eq/=; eauto.
  - destruct (cr_ival row) as [ival|]; [|done]. cbn in Ha.
    destruct (str_eq _ _); simplify_eq/=. split; [apply i32_range|eauto].
  - destruct (cr_fval row) as [fval|]; [|done]. cbn in Ha.
    destruct (strtod_parses fval); simplify_eq/=; eauto.
  - destruct (cr_ival row); simplify_eq/=; eauto.
  - simplify_eq/=. split; [done|]. destruct (cr_bval row) as [b|]; [|eauto].
    rewrite Z.leb_refl. destruct (_ =? 0); eauto.
Qed.

Lemma row_setting_readable row name a t :
  row_setting row = Some (name, a, t) ->
  name <> "" /\ prefix_of "mysql-" name = false /\ cr_name row = Some name
  /\ arg_ok a /\ exists v, value_of (XXH3_64bits name) a t = Done v.
Proof.
  unfold row_setting. destruct (cr_name row) as [[|x n]|]; [done| |done].
  destruct (prefix_of "mysql-" _) eqn:Ep; [done|]. intros Hr.
  destruct (type_kind (cr_type row)) as [kind|]; [|done]. cbn [mbind option_bind] in Hr.
  destruct (row_arg row kind) as [a'|] eqn:Ea; [|done]. cbn [mbind option_bind] in Hr.
  injection Hr as <- <- <-.
  repeat split; try done. 1: by apply (row_arg_readable row kind a' 0).
  by apply (row_arg_readable row kind a').
Qed.

Lemma overlay_other rows m k :
  (forall row name a t, row ∈ rows -> row_setting row = Some (name, a, t) -> XXH3_64bits name <> k) ->
  foldl overlay_row m rows !! k = m !! k.
Proof.
  revert m. induction rows as [|row rows IH]; intros m Hk; [done|]. cbn [foldl].
  rewrite IH by (intros row' n a t Hr; apply (Hk row'); by right).
  unfold overlay_row. destruct (row_setting row) as [[[n a] t]|] eqn:Er; [|done].
  destruct (value_of _ a t); [|done..]. apply lookup_insert_ne. apply (Hk row n a t); [by left|done].
Qed.

(** A [mysql-] name is never set by a row. *)
Lemma overlay_protects rows m name :
  prefix_of "mysql-" name = true ->
  (forall row n, row ∈ rows -> cr_name row = Some n -> XXH3_64bits n = XXH3_64bits name -> n = name) ->
  foldl overlay_row m rows !! XXH3_64bits name = m !! XXH3_64bits name.
Proof.
  intros Hp Hh. apply overlay_other. intros row n a t Hr Er E.
  destruct (row_setting_readable _ _ _ _ Er) as (_ & Hn & Hname & _).
  rewrite (Hh row n) in Hn by done. congruence.
Qed.

(** The last row of a name decides. *)
Lemma overlay_last pre row post m name a t v :
  row_setting row = Some (name, a, t) -> value_of (XXH3_64bits name) a t = Done v ->
  (forall row' n, row' ∈ post -> cr_name row' = Some n -> XXH3_64bits n <> XXH3_64bits name) ->
  foldl overlay_row m (pre ++ row :: post) !! XXH3_64bits name = Some v.
Proof.
  intros Er Ev Hpost. rewrite foldl_app. cbn [foldl]. rewrite overlay_other.
  - unfold overlay_row at 1. rewrite Er, Ev. apply lookup_insert_eq.
  - intros row' n a' t' Hr Er'. destruct (row_setting_readable _ _ _ _ Er') as (_ & _ & Hn & _).
    by apply (Hpost row').
Qed.

Context {W : Type} `{!ConfClient W}.
Hypothesis enough_memory : forall w : W, conf_memory w = Done (true, w).
Hypothesis lengths_known : forall conn (w : W), conf_fetch_lengths conn w = Done (true, w).

Lemma apply_row_eq row lengths c (w : W) :
  lengths = match cr_bval row with Some b => strlen b | None => 0 end ->
  exists ok, apply_database_row (W := W) (cr_name row) (cr_type row) (cr_ival row) (cr_cval row)
      (cr_bval row) lengths (cr_fval row) (c, w)
    = match row_setting row with
      | Some (name, a, t) => bx_conf_set name a t (c, w)
      | None => Done (ok, (c, w))
      end.
Proof.
  intros ->. unfold apply_database_row, row_setting.
  destruct (cr_name row) as [[|x n]|]; [by exists true| |by exists true].
  destruct (prefix_of "mysql-" _); [by exists true|]. exists false. unfold type_kind.
  destruct (_ || _); [cbn; by destruct (cr_cval row)|].
  destruct (type_is _ _ _).
  - cbn. destruct (cr_ival row) as [ival|]; [|done]. cbn.
    destruct (strtol ival) as [parsed tail]. cbn. by destruct (str_eq tail ival).
  - destruct (type_is _ _ _); [cbn; by destruct (cr_ival row)|].
    destruct (_ || _).
    + cbn. destruct (cr_fval row) as [fval|]; [|done]. cbn. by destruct (strtod_parses fval).
    + destruct (_ || _); [|done]. cbn. by destruct (cr_bval row).
Qed.

(** Every row is applied, and nothing but the settings changes. *)
Lemma apply_rows_eq conn rows c (w : W) :
  conf_ok c ->
  exists c', apply_rows conn rows (c, w) = Done (tt, (c', w))
  /\ conf_ok c' /\ conf_map c' = foldl overlay_row (conf_map c) rows.
Proof.
  revert c. induction rows as [|row rows IH]; intros c Hc; [by exists c|]. cbn [apply_rows foldl].
  destruct (apply_row_eq row _ c w eq_refl) as [ok E].
  assert (exists ok' c1, apply_database_row (W := W) (cr_name row) (cr_type row) (cr_ival row)
      (cr_cval row) (cr_bval row) (match cr_bval row with Some b => strlen b | None => 0 end)
      (cr_fval row) (c, w) = Done (ok', (c1, w))
    /\ conf_ok c1 /\ conf_map c1 = overlay_row (conf_map c) row) as (ok' & c1 & E1 & Hok & Hmap).
  - rewrite E. unfold overlay_row. destruct (row_setting row) as [[[name a] t]|] eqn:Er; [|by eauto].
    destruct (row_setting_readable _ _ _ _ Er) as (Hn & _ & _ & Ha & v & Hv). rewrite Hv.
    destruct (conf_set_total name a t c w v enough_memory Hn Ha Hc Hv) as (c1 & E1 & Hmap & Hok).
    by exists true, c1.
  - destruct (IH c1 Hok) as (c' & E2 & Hok' & Hmap'). exists c'.
    split; [|by rewrite <- Hmap].
    rewrite (bind_eq _ _ _ true (c, w)) by (unfold client, on_snd; cbn [fst snd]; by rewrite lengths_known).
    rewrite (bind_eq _ _ _ _ _ E1). exact E2.
Qed.
End Rows.

Section Server.
Context `{CDouble} `{!XXH3} `{!StrtodEnd} (o : conf_oracle).
Notation world := (list conf_event).

#[local] Instance oracle_client : ConfClient world := {|
  conf_memory := ret true;
  conf_mysql_init log := match co_init o log with
                         | Some c => Done (Some c, log ++ [EInit]) | None => Done (None, log) end;
  conf_mysql_options _ := ret tt;
  conf_real_connect _ h u p d log := Done (co_connect o log, log ++ [EConnect h u p d]);
  conf_set_character_set _ _ := ret tt;
  conf_query _ sql log := Done (co_query o log sql, log ++ [EQuery sql]);
  conf_store_result _ log := Done (co_rows o log, log);
  conf_fetch_lengths _ := ret true;
  conf_close _ log := Done (tt, log ++ [EClose]);
  conf_stmt_init _ log := match co_stmt o log with
                          | Some s => Done (Some s, log ++ [EStmtInit]) | None => Done (None, log) end;
  conf_stmt_prepare _ sql log := Done (co_prepare o log, log ++ [EPrepare sql]);
  conf_stmt_bind _ binds log := Done (co_bind o log, log ++ [EBind binds]);
  conf_stmt_execute _ log := Done (co_execute o log, log ++ [EExecute]);
  conf_stmt_close _ log := Done (tt, log ++ [EStmtClose])
|}.

Definition load_on_server : conf_prog (W := world) bool := bx_conf_load_database.
Definition put_on_server (conn : MYSQL) (name : string) (type : BXConfValueType) (value : conf_arg)
    : conf_prog (W := world) bool := bx_conf_put_database_conn conn name type value.

Lemma memory_ok (w : world) : conf_memory w = Done (true, w).
Proof. reflexivity. Qed.

(** The connection uses the settings of the map. *)
Definition setting (m : gmap Z BXConfValue) (name : string) : option string :=
  string_in (m !! XXH3_64bits name).

Definition connects_with (m : gmap Z BXConfValue) (e : conf_event) : Prop :=
  match e with
  | EConnect host user password database =>
      setting m "mysql-host" = Some host /\ setting m "mysql-user" = Some user
      /\ setting m "mysql-password" = password /\ setting m "mysql-database" = Some database
  | _ => True
  end.

Lemma connect_eq c log :
  exists r ev, conf_connect (c, log) = Done (r, (c, log ++ ev))
  /\ left_open conn_count ev = (match r with Some _ => 1 | None => 0 end)
  /\ left_open stmt_count ev = 0 /\ Forall (connects_with (conf_map c)) ev.
Proof.
  unfold conf_connect. rewrite (bind_eq _ _ _ _ _ (get_string_eq "mysql-host" c log ltac:(done))).
  rewrite (bind_eq _ _ _ _ _ (get_string_eq "mysql-user" c log ltac:(done))).
  rewrite (bind_eq _ _ _ _ _ (get_string_eq "mysql-password" c log ltac:(done))).
  rewrite (bind_eq _ _ _ _ _ (get_string_eq "mysql-database" c log ltac:(done))).
  fold (setting (conf_map c) "mysql-host") (setting (conf_map c) "mysql-user")
    (setting (conf_map c) "mysql-password") (setting (conf_map c) "mysql-database").
  assert (forall A (r : A), Done (r, (c, log)) = Done (r, (c, log ++ []))) as Hnil
    by (intros; by rewrite app_nil_r).
  destruct (setting _ "mysql-host") as [h|] eqn:Eh; [|exists None, []; rewrite <- Hnil; by repeat constructor].
  destruct (setting _ "mysql-user") as [u|] eqn:Eu; [|exists None, []; rewrite <- Hnil; by repeat constructor].
  destruct (setting _ "mysql-database") as [d|] eqn:Ed; [|exists None, []; rewrite <- Hnil; by repeat constructor].
  unfold client, on_snd. run_prog. cbn [fst snd conf_mysql_init oracle_client].
  destruct (co_init o log) as [conn|]; cbn [fst snd conf_mysql_options conf_real_connect oracle_client ret].
  2: { exists None, []. rewrite <- Hnil. by repeat constructor. }
  assert (Forall (connects_with (conf_map c))
    [EInit; EConnect h u (setting (conf_map c) "mysql-password") d; EQuery BX_CONF_TABLE_SQL; EClose]) as Hall.
  { repeat constructor; cbn; by rewrite ?Eh, ?Eu, ?Ed. }
  destruct (co_connect o _); cbn [fst snd negb conf_set_character_set conf_query conf_close oracle_client ret].
  - destruct (co_query o _ _); cbn [fst snd negb conf_close oracle_client].
    + exists (Some conn). eexists. rewrite <- !app_assoc. split; [reflexivity|].
      split_and!; [done|done|]. by apply (Forall_take _ 3) in Hall.
    + exists None. eexists. rewrite <- !app_assoc. split; [reflexivity|]. by split_and!.
  - exists None. eexists. rewrite <- !app_assoc. split; [reflexivity|]. split_and!; [done|done|].
    inversion Hall as [|? ? Hi Ht]; inversion Ht; subst. by repeat constructor.
Qed.

Lemma left_open_app f a b : left_open f (a ++ b) = left_open f a + left_open f b.
Proof. induction a as [|e a IH]; cbn; [done|]. unfold left_open in *. lia. Qed.

(** Claim C29. Loading the table, whatever the server does: the call returns, every
    connection that was opened is closed and was opened with the settings of
    the file; on failure the settings are unchanged, on success they are the
    old ones under the rows of the table, in order, where a row that is not of
    a known type or has no value of its type is skipped; the [mysql-] settings
    of the file are never changed by a row. *)
Theorem load_database_overlays c log :
  conf_ok c ->
  exists ok c' ev, load_on_server (c, log) = Done (ok, (c', log ++ ev))
  /\ conf_ok c' /\ all_closed ev /\ Forall (connects_with (conf_map c)) ev
  /\ (if ok : bool then exists rows, co_rows o (log ++ removelast ev) = Some rows
        /\ conf_map c' = foldl overlay_row (conf_map c) rows
        /\ forall name, prefix_of "mysql-" name = true ->
             (forall row n, row ∈ rows -> cr_name row = Some n ->
                XXH3_64bits n = XXH3_64bits name -> n = name) ->
             conf_map c' !! XXH3_64bits name = conf_map c !! XXH3_64bits name
      else c' = c).
Proof.
  intros Hc. unfold load_on_server, bx_conf_load_database.
  destruct (connect_eq c log) as (r & ev & E & Hconn & Hstmt & Hset). rewrite (bind_eq _ _ _ _ _ E).
  destruct r as [conn|].
  2: { exists false, c, ev. unfold all_closed. by rewrite Hconn, Hstmt. }
  set (log1 := log ++ ev).
  assert (forall b, log1 ++ b = log ++ (ev ++ b)) as Hlog by (intros b; unfold log1; by rewrite app_assoc).
  assert (forall b, Forall (connects_with (conf_map c)) b -> left_open stmt_count b = 0 ->
    left_open conn_count b = -1 ->
    all_closed (ev ++ b) /\ Forall (connects_with (conf_map c)) (ev ++ b)) as Hev.
  { intros b Hb Hs Hn. unfold all_closed. rewrite !left_open_app, Hconn, Hstmt, Hs, Hn.
    split; [lia|]. by apply Forall_app. }
  assert (all_closed (ev ++ [EQuery SELECT_CONFIGURATION; EClose])
    /\ Forall (connects_with (conf_map c)) (ev ++ [EQuery SELECT_CONFIGURATION; EClose])) as [Hcl Hall]
    by (apply Hev; [by repeat constructor|done..]).
  rewrite (bind_eq _ _ _ (co_query o log1 SELECT_CONFIGURATION)
    (c, log1 ++ [EQuery SELECT_CONFIGURATION])) by reflexivity.
  destruct (co_query o log1 SELECT_CONFIGURATION); cbn [negb].
  2: { exists false, c. eexists. split; [step; unfold ret; rewrite <- app_assoc, Hlog; reflexivity|]. done. }
  rewrite (bind_eq _ _ _ (co_rows o (log1 ++ [EQuery SELECT_CONFIGURATION]))
    (c, log1 ++ [EQuery SELECT_CONFIGURATION])) by reflexivity.
  destruct (co_rows o _) as [rows|] eqn:Er.
  2: { exists false, c. eexists. split; [step; unfold ret; rewrite <- app_assoc, Hlog; reflexivity|]. done. }
  destruct (apply_rows_eq memory_ok (fun _ _ => eq_refl) conn rows c
    (log1 ++ [EQuery SELECT_CONFIGURATION]) Hc) as (c' & E2 & Hok & Hmap).
  rewrite (bind_eq _ _ _ _ _ E2). exists true, c'. eexists.
  split; [step; unfold ret; rewrite <- app_assoc, Hlog; reflexivity|].
  split; [done|]. split; [done|]. split; [done|]. exists rows. split; [|split; [done|]].
  - rewrite (app_assoc ev), removelast_last. by rewrite <- Hlog.
  - intros name Hp Hh. rewrite Hmap. by apply overlay_protects.
Qed.
(** The statement of a write that reaches the end. *)
Definition put_events (name type_name : string) (ival : option Z) (cval : option string)
    : list conf_event :=
  [EStmtInit; EPrepare PUT_SQL;
   EBind [BindText (Some name); BindText (Some type_name); BindLong ival; BindText cval];
   EExecute; EStmtClose].

Lemma put_binds_value type a type_name ival cval k :
  put_binds type a = Done (Some (type_name, ival, cval)) -> exists v, value_of k a type = Done v.
Proof.
  destruct type; cbn; try done.
  - destruct (read_string a); try done. eauto.
  - destruct (read_int a); try done. eauto.
  - destruct (read_bool a); try done. eauto.
Qed.

(** Writing one setting, whatever the server does: the call returns and closes
    its statement; it returns true exactly with the setting changed in memory,
    after the server executed the statement that binds the name, the type and
    the value; when it returns false memory is unchanged and the server
    executed nothing; a [mysql-] name is refused before any statement. *)
Theorem put_database_writes_first conn name type a c log :
  name <> "" -> arg_ok a -> conf_ok c -> (exists r, put_binds type a = Done r) ->
  exists ok c' ev, put_on_server conn name type a (c, log) = Done (ok, (c', log ++ ev))
  /\ conf_ok c' /\ all_closed ev
  /\ (if ok : bool then
        prefix_of "mysql-" name = false
        /\ exists v type_name ival cval,
             value_of (XXH3_64bits name) a type = Done v
             /\ conf_map c' = <[XXH3_64bits name := v]> (conf_map c)
             /\ put_binds type a = Done (Some (type_name, ival, cval))
             /\ ev = put_events name type_name ival cval
             /\ co_execute o (log ++ take 3 ev) = true
      else c' = c /\ (EExecute ∈ ev -> co_execute o (log ++ take 3 ev) = false)
           /\ (prefix_of "mysql-" name = true -> ev = [])).
Proof.
  intros Hn Ha Hc [r Hr]. unfold put_on_server, bx_conf_put_database_conn.
  assert (forall P : BXConf -> list conf_event -> Prop, exists ok c' ev,
    Done (false, (c, log)) = Done (ok, (c', log ++ ev)) /\ conf_ok c' /\ all_closed ev
    /\ (if ok : bool then P c' ev else c' = c /\ (EExecute ∈ ev -> co_execute o (log ++ take 3 ev) = false)
         /\ (prefix_of "mysql-" name = true -> ev = []))) as Hrefused.
  { intros P. exists false, c, []. rewrite app_nil_r. split_and!; try done. by intros ?%not_elem_of_nil. }
  destruct conn as [conn|]; [|refine (Hrefused _)].
  destruct (prefix_of "mysql-" name) eqn:Ep; [refine (Hrefused _)|].
  rewrite (bind_eq _ _ _ r (c, log)) by (unfold lift_outcome; by rewrite Hr).
  destruct r as [[[type_name ival] cval]|]; [|refine (Hrefused _)].
  destruct (put_binds_value _ _ _ _ _ (XXH3_64bits name) Hr) as [v Hv].
  unfold client, on_snd. run_prog. cbn [fst snd conf_stmt_init oracle_client].
  destruct (co_stmt o log) as [stmt|]; cbn [fst snd conf_stmt_prepare oracle_client ret].
  2: { refine (Hrefused _). }
  destruct (co_prepare o _); cbn [negb fst snd conf_stmt_bind conf_stmt_close oracle_client ret].
  2: { exists false, c. eexists. rewrite <- !app_assoc. split; [reflexivity|].
       split_and!; try done. cbn [app]. set_unfold. naive_solver. }
  destruct (co_bind o _); cbn [negb fst snd conf_stmt_execute conf_stmt_close oracle_client ret].
  2: { exists false, c. eexists. rewrite <- !app_assoc. split; [reflexivity|].
       split_and!; try done. cbn [app]. set_unfold. naive_solver. }
  rewrite <- !app_assoc. cbn [app].
  destruct (co_execute o _) eqn:Ex; cbn [negb fst snd conf_stmt_close oracle_client ret].
  2: { exists false, c. eexists. rewrite <- !app_assoc. split; [reflexivity|]. by split_and!. }
  match goal with |- context [bx_conf_set name a type (c, ?w)] =>
    destruct (conf_set_total name a type c w v memory_ok Hn Ha Hc Hv) as (c' & -> & Hmap & Hok) end.
  exists true, c'. eexists. cbn [fst snd conf_stmt_close oracle_client]. rewrite <- !app_assoc.
  split; [reflexivity|]. split; [done|]. split; [done|]. split; [done|].
  exists v, type_name, ival, cval. by split_and!.
Qed.
End Server.

(** ** The settings of the file *)

Section File.
Context `{Jansson} `{!XXH3} {W : Type} `{!ConfClient W} `{!ConfFile W}.
Hypothesis enough_memory : forall w : W, conf_memory w = Done (true, w).

Definition file_item (m : gmap Z BXConfValue) (item : string * json_t) : gmap Z BXConfValue :=
  match file_value item.2 with
  | Some (a, t) => match value_of (XXH3_64bits item.1) a t with
                   | Done v => <[XXH3_64bits item.1 := v]> m
                   | _ => m
                   end
  | None => m
  end.

Lemma file_value_readable value a t k :
  file_value value = Some (a, t) -> arg_ok a /\ exists v, value_of k a t = Done v.
Proof.
  unfold file_value. intros Hv. destruct (json_typeof value); simplify_eq/=; split; eauto;
    try apply i32_range; unfold is_i32; lia.
Qed.

Lemma loadfile_loop_eq items c (w : W) :
  conf_ok c -> Forall (fun item => item.1 <> "") items ->
  exists c', loadfile_loop items (c, w) = Done (tt, (c', w))
  /\ conf_ok c' /\ conf_map c' = foldl file_item (conf_map c) items.
Proof.
  intros Hc Hi. revert c Hc. induction Hi as [|[key value] items Hk _ IH]; intros c Hc; [by exists c|].
  cbn [loadfile_loop foldl]. unfold file_item at 2. cbn [fst snd].
  destruct (file_value value) as [[a t]|] eqn:Ev; [|by apply IH].
  destruct (file_value_readable _ _ _ (XXH3_64bits key) Ev) as (Ha & v & Hv). rewrite Hv.
  destruct (conf_set_total key a t c w v enough_memory Hk Ha Hc Hv) as (c1 & E & Hmap & Hok).
  destruct (IH c1 Hok) as (c' & E' & Hok' & Hmap'). exists c'.
  rewrite (bind_eq _ _ _ _ _ E). by rewrite <- Hmap.
Qed.

(** Loading the file, when it holds an object whose names are not empty: the
    settings are the old ones under the strings, integers, reals and booleans
    of the object, in order; arrays, objects and nulls are left out. *)
Theorem loadfile_settings path fp root c w w1 w2 w3 :
  conf_fopen path w = Done (Some fp, w1) -> json_loadf fp w1 = Done (Some root, w2) ->
  conf_fclose fp w2 = Done (tt, w3) -> json_typeof root = JSON_OBJECT ->
  Forall (fun item => item.1 <> "") (json_object_items root) -> conf_ok c ->
  exists c', bx_conf_loadfile path (c, w) = Done (true, (c', w3))
  /\ conf_ok c' /\ conf_map c' = foldl file_item (conf_map c) (json_object_items root).
Proof.
  intros Ho Hl Hcl Ht Hi Hc. destruct (loadfile_loop_eq _ c w3 Hc Hi) as (c' & E & Hok & Hmap).
  exists c'. split; [|done]. unfold bx_conf_loadfile, client, on_snd. run_prog. cbn [fst snd].
  rewrite Ho. cbn [fst snd]. rewrite Hl. cbn [fst snd]. rewrite Hcl. cbn [fst snd].
  unfold json_is. rewrite Ht, bool_decide_eq_true_2 by done. cbn [negb]. by rewrite E.
Qed.
End File.

(** ** A restart

    A server that keeps the rows of [_configuration], one per name. *)

Record conf_table := mkTable { tb_rows : list conf_row; tb_bound : list conf_bind }.

Definition bound_row (binds : list conf_bind) : option conf_row :=
  match binds with
  | [BindText name; BindText type; BindLong ival; BindText cval] =>
      Some (mkConfRow name type (dec <$> ival) cval None None)
  | _ => None
  end.

Fixpoint upsert_row (r : conf_row) (rows : list conf_row) : list conf_row :=
  match rows with
  | [] => [r]
  | x :: rows => if bool_decide (cr_name x = cr_name r) then r :: rows else x :: upsert_row r rows
  end.

Section Restart.
Context `{CDouble} `{!XXH3} `{!StrtodEnd}.

#[local] Instance table_client : ConfClient conf_table := {|
  conf_memory := ret true;
  conf_mysql_init := ret (Some 1);
  conf_mysql_options _ := ret tt;
  conf_real_connect _ _ _ _ _ := ret true;
  conf_set_character_set _ _ := ret tt;
  conf_query _ _ := ret true;
  conf_store_result _ t := Done (Some (tb_rows t), t);
  conf_fetch_lengths _ := ret true;
  conf_close _ := ret tt;
  conf_stmt_init _ := ret (Some 2);
  conf_stmt_prepare _ _ := ret true;
  conf_stmt_bind _ binds t := Done (true, mkTable (tb_rows t) binds);
  conf_stmt_execute _ t := match bound_row (tb_bound t) with
                           | Some r => Done (true, mkTable (upsert_row r (tb_rows t)) [])
                           | None => Done (false, t)
                           end;
  conf_stmt_close _ := ret tt
|}.

Definition save_cursor (conn : Z) (cu : BXChainCursor) : prog (BXConf * conf_table) bool :=
  bx_chain_save true (Some conn) cu.
Definition start_process : prog (BXConf * conf_table) BXChainCursor :=
  bx_conf_load_database ;;; bx_chain_load true.

Lemma table_memory (t : conf_table) : conf_memory t = Done (true, t).
Proof. reflexivity. Qed.

Lemma upsert_row_split r rows :
  NoDup (cr_name <$> rows) ->
  exists pre post, upsert_row r rows = pre ++ r :: post
  /\ (forall x, x ∈ post -> x ∈ rows /\ cr_name x <> cr_name r).
Proof.
  induction rows as [|x rows IH]; intros Hn.
  - exists [], []. split; [done|]. by intros x ?%not_elem_of_nil.
  - cbn in Hn |- *. apply NoDup_cons in Hn as [Hx Hn]. case_bool_decide as E.
    + exists [], rows. split; [done|]. intros y Hy. split; [by right|]. intros Ey. apply Hx.
      rewrite E, <- Ey. by apply list_elem_of_fmap_2.
    + destruct (IH Hn) as (pre & post & -> & Hpost). exists (x :: pre), post. split; [done|].
      intros y Hy. destruct (Hpost y Hy). split; [by right|done].
Qed.

Lemma chain_load_reads cu c (t : conf_table) v :
  valid_cursor cu -> conf_map c !! XXH3_64bits BX_CHAIN_KEY = Some v ->
  cv_type v = StringType -> s_value v = Some (bx_chain_encode cu) ->
  bx_chain_load true (c, t) = Done (cu, (c, t)).
Proof.
  intros Hv Hm Ht Hs. unfold bx_chain_load. cbn [conf_get_string conf_get_int conf_env].
  rewrite (bind_eq _ _ _ _ _ (get_string_eq BX_CHAIN_KEY c t ltac:(done))).
  rewrite (bind_eq _ _ _ _ _ (get_string_eq BX_CHAIN_KEY_STEP c t ltac:(done))).
  rewrite (bind_eq _ _ _ _ _ (get_int_eq BX_CHAIN_KEY_OFFSET c t ltac:(done))).
  rewrite (bind_eq _ _ _ _ _ (get_int_eq BX_CHAIN_KEY_CYCLE c t ltac:(done))).
  rewrite Hm. unfold string_in at 1. rewrite Ht, bool_decide_eq_true_2, Hs by done.
  unfold bx_chain_decode. by rewrite parse_stored_encode.
Qed.

Lemma load_database_table c t :
  conf_ok c -> setting (conf_map c) "mysql-host" <> None -> setting (conf_map c) "mysql-user" <> None ->
  setting (conf_map c) "mysql-database" <> None ->
  exists c', bx_conf_load_database (c, t) = Done (true, (c', t))
  /\ conf_map c' = foldl overlay_row (conf_map c) (tb_rows t).
Proof.
  intros Hc Hh Hu Hd. unfold bx_conf_load_database.
  assert (conf_connect (c, t) = Done (Some 1, (c, t))) as Econn.
  - unfold conf_connect.
    rewrite (bind_eq _ _ _ _ _ (get_string_eq "mysql-host" c t ltac:(done))).
    rewrite (bind_eq _ _ _ _ _ (get_string_eq "mysql-user" c t ltac:(done))).
    rewrite (bind_eq _ _ _ _ _ (get_string_eq "mysql-password" c t ltac:(done))).
    rewrite (bind_eq _ _ _ _ _ (get_string_eq "mysql-database" c t ltac:(done))).
    unfold setting in *. destruct (string_in (_ !! XXH3_64bits "mysql-host")); [|done].
    destruct (string_in (_ !! XXH3_64bits "mysql-user")); [|done].
    by destruct (string_in (_ !! XXH3_64bits "mysql-database")).
  - rewrite (bind_eq _ _ _ _ _ Econn).
    destruct (apply_rows_eq table_memory (fun _ _ => eq_refl) 1 (tb_rows t) c t Hc) as (c' & E & _ & Hm).
    exists c'. split; [|done]. do 2 step. rewrite (bind_eq _ _ _ _ _ E). by step.
Qed.

(** Claim C16. A cursor that was saved survives a restart: the save returns true, the
    running process reads that cursor, and so does a new process that loads
    its file and then the table, whatever rows the table held. *)
Theorem cursor_survives_restart conn cu c c0 rows bound :
  valid_cursor cu -> conf_ok c -> conf_ok c0 ->
  setting (conf_map c0) "mysql-host" <> None -> setting (conf_map c0) "mysql-user" <> None ->
  setting (conf_map c0) "mysql-database" <> None ->
  NoDup (cr_name <$> rows) ->
  (forall row n, row ∈ rows -> cr_name row = Some n ->
     XXH3_64bits n = XXH3_64bits BX_CHAIN_KEY -> n = BX_CHAIN_KEY) ->
  exists c1 t1 c2, save_cursor conn cu (c, mkTable rows bound) = Done (true, (c1, t1))
  /\ bx_chain_load true (c1, t1) = Done (cu, (c1, t1))
  /\ start_process (c0, t1) = Done (cu, (c2, t1)).
Proof.
  intros Hv Hc Hc0 Hh Hu Hd Hn Hcol. set (text := bx_chain_encode cu).
  set (row := mkConfRow (Some BX_CHAIN_KEY) (Some "string") None (Some text) None None).
  set (t1 := mkTable (upsert_row row rows) []).
  destruct (conf_set_total BX_CHAIN_KEY (PString text) StringType c t1
    (with_string (Some text) (empty_value (XXH3_64bits BX_CHAIN_KEY) StringType))
    table_memory) as (c1 & E & Hmap & Hok1); [done..|].
  destruct (load_database_table c0 t1 Hc0 Hh Hu Hd) as (c2 & E2 & Hmap2).
  exists c1, t1, c2. split_and!.
  - unfold save_cursor. rewrite chain_save_eq by done.
    cbn [conf_put_database conf_env]. unfold bx_conf_put_database_conn.
    change (prefix_of "mysql-" BX_CHAIN_KEY) with false. cbv iota. do 5 step.
    rewrite (bind_eq _ _ _ _ _ E). by step.
  - eapply chain_load_reads; [done|by rewrite Hmap, lookup_insert_eq|done|done].
  - unfold start_process. rewrite (bind_eq _ _ _ _ _ E2).
    destruct (upsert_row_split row rows Hn) as (pre & post & Es & Hpost).
    eapply chain_load_reads; [done| |shelve|shelve].
    rewrite Hmap2. cbn [tb_rows t1]. rewrite Es.
    apply (overlay_last pre row post _ BX_CHAIN_KEY (PString text) StringType); [done|reflexivity|].
    intros x n Hx Hxn Eh. destruct (Hpost x Hx) as [Hin Hne]. apply Hne.
    by rewrite Hxn, (Hcol x n Hin Hxn Eh).
    Unshelve. all: reflexivity.
Qed.
End Restart.

(** ** Concrete inputs *)

#[local] Instance sample_strtod_end : StrtodEnd :=
  {| strtod_parses s := match s with String c _ => isdigit c | EmptyString => false end |}.

Definition sample_setting (name value : string) : BXConfValue :=
  with_string (Some value) (empty_value (XXH3_64bits name) StringType).
Definition sample_conf : BXConf :=
  [sample_setting "mysql-host" "db"; sample_setting "mysql-user" "bx";
   sample_setting "mysql-database" "bexio"].

Lemma sample_conf_ok : conf_ok sample_conf.
Proof.
  split.
  - apply (bool_decide_unpack _). vm_compute. reflexivity.
  - repeat constructor.
Qed.

Definition sample_rows : list conf_row :=
  [mkConfRow (Some "mysql-host") (Some "string") None (Some "elsewhere") None None;
   mkConfRow (Some "log-level") (Some "Integer") (Some "8") None None None;
   mkConfRow (Some "page-size") (Some "integer") (Some "many") None None None;
   mkConfRow (Some "no-deamon") (Some "BOOLEAN") (Some "1") None None None].

Definition sample_oracle : conf_oracle :=
  mkConfOracle (fun _ => Some 1) (fun _ => true) (fun _ _ => true) (fun _ => Some sample_rows)
    (fun _ => Some 2) (fun _ => true) (fun _ => true) (fun _ => true).

Example load_sample :
  match load_on_server sample_oracle (sample_conf, []) with
  | Done (ok, (c, log)) =>
      Some (ok, string_in (find_value (XXH3_64bits "mysql-host") c),
            int_in (find_value (XXH3_64bits "log-level") c),
            int_in (find_value (XXH3_64bits "no-deamon") c), length c, log)
  | _ => None
  end
  = Some (true, Some "db", 8, 1, 5%nat,
          [EInit; EConnect "db" "bx" None "bexio"; EQuery BX_CONF_TABLE_SQL;
           EQuery SELECT_CONFIGURATION; EClose]).
Proof. vm_compute. reflexivity. Qed.

Lemma load_database_overlays_witness :
  exists ok c' ev, load_on_server sample_oracle (sample_conf, []) = Done (ok, (c', [] ++ ev))
  /\ conf_ok c' /\ all_closed ev /\ Forall (connects_with (conf_map sample_conf)) ev
  /\ (if ok : bool then exists rows, co_rows sample_oracle ([] ++ removelast ev) = Some rows
        /\ conf_map c' = foldl overlay_row (conf_map sample_conf) rows
        /\ forall name, prefix_of "mysql-" name = true ->
             (forall row n, row ∈ rows -> cr_name row = Some n ->
                XXH3_64bits n = XXH3_64bits name -> n = name) ->
             conf_map c' !! XXH3_64bits name = conf_map sample_conf !! XXH3_64bits name
      else c' = sample_conf).
Proof. apply (load_database_overlays sample_oracle sample_conf []), sample_conf_ok. Defined.

Lemma put_database_writes_first_witness :
  exists ok c' ev,
    put_on_server sample_oracle (Some 1) "sync-chain" StringType (PString "project:500") (sample_conf, [])
      = Done (ok, (c', [] ++ ev))
  /\ conf_ok c' /\ all_closed ev
  /\ (if ok : bool then
        prefix_of "mysql-" "sync-chain" = false
        /\ exists v type_name ival cval,
             value_of (XXH3_64bits "sync-chain") (PString "project:500") StringType = Done v
             /\ conf_map c' = <[XXH3_64bits "sync-chain" := v]> (conf_map sample_conf)
             /\ put_binds StringType (PString "project:500") = Done (Some (type_name, ival, cval))
             /\ ev = put_events "sync-chain" type_name ival cval
             /\ co_execute sample_oracle ([] ++ take 3 ev) = true
      else c' = sample_conf /\ (EExecute ∈ ev -> co_execute sample_oracle ([] ++ take 3 ev) = false)
           /\ (prefix_of "mysql-" "sync-chain" = true -> ev = [])).
Proof.
  apply (put_database_writes_first sample_oracle (Some 1) "sync-chain" StringType
    (PString "project:500") sample_conf []).
  - done.
  - done.
  - exact sample_conf_ok.
  - by eexists.
Defined.

#[local] Existing Instance table_client.

Lemma cursor_survives_restart_witness :
  exists c1 t1 c2,
    save_cursor 1 (mkCursor 3 500) (sample_conf, mkTable sample_rows []) = Done (true, (c1, t1))
  /\ bx_chain_load true (c1, t1) = Done (mkCursor 3 500, (c1, t1))
  /\ start_process (sample_conf, t1) = Done (mkCursor 3 500, (c2, t1)).
Proof.
  apply (cursor_survives_restart 1 (mkCursor 3 500) sample_conf sample_conf sample_rows []).
  - unfold valid_cursor, INT_MAX, BX_CHAIN_INVOICE_MISSED. cbn. lia.
  - exact sample_conf_ok.
  - exact sample_conf_ok.
  - vm_compute. discriminate.
  - vm_compute. discriminate.
  - vm_compute. discriminate.
  - apply (bool_decide_unpack _). vm_compute. reflexivity.
  - intros row n Hrow. unfold sample_rows in Hrow.
    repeat (apply elem_of_cons in Hrow as [->|Hrow];
      [cbn; intros [= <-]; vm_compute; discriminate|]).
    by apply elem_of_nil in Hrow.
Defined.

Definition with_log_level : BXConf :=
  sample_conf ++ [with_int 8 (empty_value (XXH3_64bits "log-level") IntegerType)].

Lemma set_log_level :
  bx_conf_set "log-level" (PInt 8) IntegerType (sample_conf, mkTable [] [])
  = Done (true, (with_log_level, mkTable [] [])).
Proof. reflexivity. Qed.

Lemma conf_set_refines_witness :
  "log-level" <> ""
  /\ set_spec (XXH3_64bits "log-level") (PInt 8) IntegerType true (conf_map sample_conf)
       (conf_map with_log_level)
  /\ conf_ok with_log_level.
Proof.
  apply (conf_set_refines "log-level" (PInt 8) IntegerType sample_conf (mkTable [] []) true
    with_log_level (mkTable [] [])).
  - cbn. unfold is_i32. lia.
  - exact sample_conf_ok.
  - exact set_log_level.
Defined.

(** A file with a host, an array that is left out and a flag. *)
#[local] Instance sample_file : ConfFile conf_table := {|
  conf_file := unit;
  conf_fopen _ := ret (Some tt);
  json_loadf _ := ret (Some (JObject [("mysql-host", JString "db"); ("list", JArray []); ("no-deamon", JBool true)]));
  conf_fclose _ := ret tt;
  json_object_items j := match (j : sample_json) with JObject l => l | _ => [] end
|}.

Lemma loadfile_settings_witness :
  exists c', bx_conf_loadfile "conf.json" ([], mkTable [] []) = Done (true, (c', mkTable [] []))
  /\ conf_ok c'
  /\ conf_map c' = foldl file_item (conf_map [])
       (json_object_items (JObject [("mysql-host", JString "db"); ("list", JArray []); ("no-deamon", JBool true)])).
Proof.
  apply (loadfile_settings (ConfFile0 := sample_file) table_memory "conf.json" tt
    (J (JObject [("mysql-host", JString "db"); ("list", JArray []); ("no-deamon", JBool true)]))
    [] (mkTable [] []) (mkTable [] []) (mkTable [] []) (mkTable [] [])).
  - reflexivity.
  - reflexivity.
  - reflexivity.
  - reflexivity.
  - repeat constructor; discriminate.
  - split; [apply NoDup_nil_2|constructor].
Defined.
