(* ===== verification/IdsCache.v ===== *)
(** * The id cache ([src/src/bx_ids_cache.c])

    A growable array of items sorted by id.  Each walk of a resource marks the
    items it sees with the current version; pruning deletes those whose mark
    drifted too far.  A [Cache *] is an [option Cache] ([None] is [NULL]); the
    array and its bounds are kept, so an access outside the allocation is a
    [Fault].  [cache_spec] is the abstract contract: a finite map from ids to
    checksums and marks, which every operation refines. *)
From S2P Require Import Prelude.

Definition CACHE_CHUNK_SIZE : Z := 1000.

Record CacheItem := mkItem { ci_id : Z; ci_checksum : Z; ci_last_seen : Z }.

Definition zero_item : CacheItem := mkItem 0 0 0.

Record Cache := mkCache {
  c_size : Z;       (* uint32_t *)
  c_count : Z;      (* uint32_t *)
  c_version : Z;    (* uint64_t *)
  c_items : list CacheItem
}.

Inductive CacheState := CacheOk | CacheNotSet | CacheNotSync.

Record CacheIter := mkIter { iter_current : Z; iter_version : Z }.

#[global] Instance CacheItem_eq_dec : EqDecision CacheItem.
Proof. solve_decision. Defined.
#[global] Instance CacheState_eq_dec : EqDecision CacheState.
Proof. solve_decision. Defined.

Definition set_items (c : Cache) (l : list CacheItem) : Cache :=
  mkCache (c_size c) (c_count c) (c_version c) l.
Definition set_last_seen (it : CacheItem) (v : Z) : CacheItem :=
  mkItem (ci_id it) (ci_checksum it) v.

(** Dereferencing a [Cache *]. *)
Definition deref : prog (option Cache) Cache :=
  c <- get ;; lift_option c.
Definition store (c : Cache) : prog (option Cache) unit := modify (fun _ => Some c).

(** [_grow_cache]; [mem] tells whether [realloc] succeeds.  The new size is
    computed in [uint32_t], the byte count in [size_t]. *)
Definition _grow_cache (mem : bool) : prog (option Cache) bool :=
  p <- get ;;
  match p with
  | None => ret false
  | Some c =>
      if negb mem then ret false
      else
        let n := u32 (c_size c + CACHE_CHUNK_SIZE) in
        let new := take (Z.to_nat n) (c_items c)
                     ++ replicate (Z.to_nat n - length (c_items c)) zero_item in
        new <- lift_option (afill new (c_size c) CACHE_CHUNK_SIZE zero_item) ;;
        store (mkCache n (c_count c) (c_version c) new) ;;;
        ret true
  end.

(** First index with id >= key, or the count if all ids are smaller. *)
Fixpoint _lower_bound_loop (fuel : nat) (items : list CacheItem)
    (id left right : Z) : outcome Z :=
  match fuel with
  | O => OutOfFuel
  | S fuel =>
      if left <? right then
        let middle := u32 (left + u32 (right - left) / 2) in
        match aload items middle with
        | None => Fault
        | Some it =>
            if ci_id it <? id
            then _lower_bound_loop fuel items id (u32 (middle + 1)) right
            else _lower_bound_loop fuel items id left middle
        end
      else Done left
  end.

Definition _lower_bound (id : Z) : prog (option Cache) Z :=
  c <- deref ;;
  fun w =>
    match _lower_bound_loop (S (Z.to_nat (c_count c))) (c_items c) id 0 (c_count c)
    with
    | Done r => Done (r, w)
    | Fault => Fault
    | OutOfFuel => OutOfFuel
    end.

(** The index of the item the returned pointer designates. *)
Definition _find_item (id : Z) : prog (option Cache) (option Z) :=
  p <- get ;;
  match p with
  | None => ret None
  | Some c =>
      if c_count c =? 0 then ret None
      else
        i <- _lower_bound id ;;
        if i <? c_count c then
          it <- lift_option (aload (c_items c) i) ;;
          ret (if ci_id it =? id then Some i else None)
        else ret None
  end.

Definition _cache_get (idx : Z) : prog (option Cache) (option CacheItem) :=
  p <- get ;;
  match p with
  | None => ret None
  | Some c =>
      if c_count c <=? idx then ret None
      else it <- lift_option (aload (c_items c) idx) ;; ret (Some it)
  end.

Definition _cache_empty : prog (option Cache) unit :=
  p <- get ;;
  match p with
  | None => ret tt
  | Some c => store (mkCache 0 0 (c_version c) [])
  end.

Fixpoint reset_loop (fuel : nat) (items : list CacheItem) (i count : Z)
    : option (list CacheItem) :=
  match fuel with
  | O => Some items
  | S fuel =>
      if i <? count then
        match aload items i with
        | None => None
        | Some it =>
            match astore items i (set_last_seen it 1) with
            | None => None
            | Some items => reset_loop fuel items (i + 1) count
            end
        end
      else Some items
  end.

Definition _cache_reset_version : prog (option Cache) unit :=
  c <- deref ;;
  items <- lift_option (reset_loop (Z.to_nat (c_count c)) (c_items c) 0 (c_count c)) ;;
  store (mkCache (c_size c) (c_count c) 1 items).

(** [cache_create]; [mem] tells whether [calloc] succeeds. *)
Definition cache_create (mem : bool) : option Cache :=
  if mem then Some (mkCache 0 0 1 []) else None.

Definition cache_iter_init : prog (option Cache) CacheIter :=
  p <- get ;;
  ret (mkIter 0 (match p with Some c => c_version c | None => 0 end)).

Fixpoint next_prunable_loop (fuel : nat) (iter : CacheIter) (drift : Z)
    : prog (option Cache) (option Z * CacheIter) :=
  match fuel with
  | O => out_of_fuel
  | S fuel =>
      item <- _cache_get (iter_current iter) ;;
      match item with
      | None => ret (None, iter)
      | Some it =>
          let iter := mkIter (u32 (iter_current iter + 1)) (iter_version iter) in
          if (0 <? ci_last_seen it)
               && (ci_last_seen it <=? u64 (iter_version iter - drift))
          then ret (Some (ci_id it), iter)
          else next_prunable_loop fuel iter drift
      end
  end.

Definition cache_iter_next_prunable_id (iter : CacheIter) (drift : Z)
    : prog (option Cache) (option Z * CacheIter) :=
  if iter_version iter <=? drift then ret (None, iter)
  else
    p <- get ;;
    let count := match p with Some c => c_count c | None => 0 end in
    next_prunable_loop (S (Z.to_nat (count - iter_current iter))) iter drift.

Definition cache_tombstone (id : Z) : prog (option Cache) unit :=
  item <- _find_item id ;;
  match item with
  | None => ret tt
  | Some i =>
      c <- deref ;;
      it <- lift_option (aload (c_items c) i) ;;
      items <- lift_option (astore (c_items c) i (set_last_seen it 0)) ;;
      store (set_items c items)
  end.

(** The compacting loop of [cache_prune]: [i] reads, [j] writes. *)
Fixpoint prune_loop (fuel : nat) (items : list CacheItem) (i j count : Z)
    : option (list CacheItem * Z) :=
  match fuel with
  | O => Some (items, j)
  | S fuel =>
      if i <? count then
        match aload items i with
        | None => None
        | Some it =>
            if ci_last_seen it =? 0
            then prune_loop fuel items (i + 1) j count
            else
              match astore items j it with
              | None => None
              | Some items => prune_loop fuel items (i + 1) (j + 1) count
              end
        end
      else Some (items, j)
  end.

Definition cache_prune : prog (option Cache) unit :=
  c <- deref ;;
  let* (items, j) :=
    lift_option (prune_loop (Z.to_nat (c_count c)) (c_items c) 0 0 (c_count c)) in
  items <- lift_option (if j <? c_count c
                        then afill items j (c_count c - j) zero_item
                        else Some items) ;;
  store (mkCache (c_size c) j (c_version c) items).

(** The last lines of [cache_set_item]: shift the tail, write the item. *)
Definition insert_at (i id checksum : Z) : prog (option Cache) bool :=
  c <- deref ;;
  items <- lift_option
             (if i <? c_count c
              then amove (c_items c) (i + 1) i (c_count c - i)
              else Some (c_items c)) ;;
  items <- lift_option (astore items i (mkItem id checksum (c_version c))) ;;
  store (mkCache (c_size c) (u32 (c_count c + 1)) (c_version c) items) ;;;
  ret true.

(** Does the item at the lower bound carry the id? *)
Definition found_at (i id : Z) : prog (option Cache) bool :=
  c <- deref ;;
  if i <? c_count c
  then it <- lift_option (aload (c_items c) i) ;; ret (ci_id it =? id)
  else ret false.

(** [cache_set_item]; [mem] tells whether the [realloc] of a full cache
    succeeds. *)
Definition cache_set_item (mem : bool) (id checksum : Z)
    : prog (option Cache) bool :=
  p <- get ;;
  match p with
  | None => ret false
  | Some c =>
      i <- _lower_bound id ;;
      found <- found_at i id ;;
      if found then
        items <- lift_option (astore (c_items c) i (mkItem id checksum (c_version c))) ;;
        store (set_items c items) ;;;
        ret true
      else
        grown <- (if c_size c <=? c_count c then _grow_cache mem else ret true) ;;
        if negb grown then ret false else insert_at i id checksum
  end.

Definition cache_check_item (id checksum : Z) : prog (option Cache) CacheState :=
  current <- _find_item id ;;
  match current with
  | None => ret CacheNotSet
  | Some i =>
      c <- deref ;;
      it <- lift_option (aload (c_items c) i) ;;
      if ci_last_seen it =? 0 then ret CacheNotSet
      else
        items <- lift_option (astore (c_items c) i (set_last_seen it (c_version c))) ;;
        store (set_items c items) ;;;
        ret (if ci_checksum it =? checksum then CacheOk else CacheNotSync)
  end.

Definition cache_next_version : prog (option Cache) unit :=
  p <- get ;;
  match p with
  | None => ret tt
  | Some c =>
      let v := u64 (c_version c + 1) in
      store (mkCache (c_size c) (c_count c) v (c_items c)) ;;;
      if v =? UINT64_MAX then _cache_reset_version else ret tt
  end.

Definition cache_destroy : prog (option Cache) unit :=
  p <- get ;;
  match p with
  | None => ret tt
  | Some _ => _cache_empty ;;; modify (fun _ => None)
  end.

(** A run of the code on concrete data. *)
Example cache_run :
  match (cache_set_item true 30 3 ;;; cache_set_item true 10 1 ;;;
         cache_set_item true 20 2 ;;; cache_next_version ;;;
         cache_check_item 10 7 ;;; cache_tombstone 20 ;;; cache_prune)
        (cache_create true) with
  | Done (_, Some c) => (c_count c, take 3 (c_items c))
                        = (2, [mkItem 10 1 2; mkItem 30 3 1; zero_item])
  | _ => False
  end.
Proof. vm_compute. reflexivity. Qed.

(** ** Invariant and abstract contract *)

Definition live (c : Cache) : list CacheItem :=
  take (Z.to_nat (c_count c)) (c_items c).

Definition ids_sorted (l : list CacheItem) : Prop :=
  StronglySorted (fun a b => ci_id a < ci_id b) l.

(** What holds between two calls: the array is allocated to [c_size] items, the
    first [c_count] are sorted by id without duplicates, and no mark is ahead of
    the version, which stays below [UINT64_MAX]. *)
Record cache_wf (c : Cache) : Prop := {
  wf_size : is_u32 (c_size c);
  wf_alloc : Z.of_nat (length (c_items c)) = c_size c;
  wf_count : 0 <= c_count c <= c_size c;
  wf_sorted : ids_sorted (live c);
  wf_version : 1 <= c_version c < UINT64_MAX;
  wf_marks : Forall (fun it => 0 <= ci_last_seen it <= c_version c) (live c)
}.

(** The contract: a version and a finite map from ids to checksum and mark. *)
Record cache_spec := mkSpec { sp_version : Z; sp_map : gmap Z (Z * Z) }.

Definition to_map (l : list CacheItem) : gmap Z (Z * Z) :=
  list_to_map ((fun it => (ci_id it, (ci_checksum it, ci_last_seen it))) <$> l).

Definition abstract (c : Cache) : cache_spec := mkSpec (c_version c) (to_map (live c)).

Definition spec_set (id checksum : Z) (s : cache_spec) : cache_spec :=
  mkSpec (sp_version s) (<[id := (checksum, sp_version s)]> (sp_map s)).
Definition spec_check (id checksum : Z) (s : cache_spec) : CacheState * cache_spec :=
  match sp_map s !! id with
  | None => (CacheNotSet, s)
  | Some (cs, seen) =>
      if seen =? 0 then (CacheNotSet, s)
      else (if cs =? checksum then CacheOk else CacheNotSync,
            mkSpec (sp_version s) (<[id := (cs, sp_version s)]> (sp_map s)))
  end.
Definition spec_tombstone (id : Z) (s : cache_spec) : cache_spec :=
  mkSpec (sp_version s) (alter (fun p => (p.1, 0)) id (sp_map s)).
Definition spec_prune (s : cache_spec) : cache_spec :=
  mkSpec (sp_version s) (filter (fun p => p.2.2 <> 0) (sp_map s)).
Definition spec_next_version (s : cache_spec) : cache_spec :=
  if sp_version s + 1 =? UINT64_MAX
  then mkSpec 1 ((fun p => (p.1, 1)) <$> sp_map s)
  else mkSpec (sp_version s + 1) (sp_map s).

(** ** Sorted arrays as maps *)

Lemma ids_sorted_lookup l i j a b :
  ids_sorted l -> l !! i = Some a -> l !! j = Some b -> (i < j)%nat ->
  ci_id a < ci_id b.
Proof.
  intros Hs. revert i j. induction Hs as [|x l Hs IH Hx]; intros i j Hi Hj Hij.
  - by rewrite lookup_nil in Hi.
  - destruct j as [|j]; [lia|]. simpl in Hj. destruct i as [|i].
    + simplify_eq/=. rewrite Forall_forall in Hx.
      by apply Hx, (list_elem_of_lookup_2 _ j).
    + apply (IH i j); [done..|lia].
Qed.

Lemma ids_sorted_app_r l1 l2 : ids_sorted (l1 ++ l2) -> ids_sorted l2.
Proof. apply StronglySorted_app_1_r. Qed.

Lemma to_map_cons it l :
  to_map (it :: l) = <[ci_id it := (ci_checksum it, ci_last_seen it)]> (to_map l).
Proof. reflexivity. Qed.

Lemma to_map_app l1 l2 : to_map (l1 ++ l2) = to_map l1 ∪ to_map l2.
Proof. unfold to_map. by rewrite fmap_app, list_to_map_app. Qed.

Lemma to_map_None l id : Forall (fun it => ci_id it <> id) l -> to_map l !! id = None.
Proof.
  induction 1 as [|it l Hn Hl IH]; [done|].
  rewrite to_map_cons, lookup_insert_ne; done.
Qed.

(** Replacing or inserting the item at the split of a sorted array. *)
Lemma to_map_insert l1 l2 it :
  Forall (fun x => ci_id x < ci_id it) l1 ->
  to_map (l1 ++ it :: l2)
  = <[ci_id it := (ci_checksum it, ci_last_seen it)]> (to_map (l1 ++ l2)).
Proof.
  intros H1. rewrite !to_map_app, to_map_cons, insert_union_r; [done|].
  apply to_map_None. eapply Forall_impl; [done|]. simpl. lia.
Qed.

(** A sorted array split at an id: what is before is smaller, the rest not. *)
Record split_at (id : Z) (l l1 l2 : list CacheItem) : Prop := {
  split_eq : l = l1 ++ l2;
  split_lt : Forall (fun x => ci_id x < id) l1;
  split_ge : Forall (fun x => id <= ci_id x) l2
}.

Lemma split_lookup id l l1 l2 :
  ids_sorted l -> split_at id l l1 l2 ->
  to_map l !! id = match l2 with
                   | it :: _ => if ci_id it =? id
                                then Some (ci_checksum it, ci_last_seen it) else None
                   | [] => None
                   end.
Proof.
  intros Hs [-> Hlt Hge]. rewrite to_map_app, lookup_union_r.
  - destruct l2 as [|it l2]; [done|]. rewrite to_map_cons.
    destruct (Z.eqb_spec (ci_id it) id) as [<-|Hne]; [by rewrite lookup_insert_eq|].
    rewrite lookup_insert_ne by done. apply to_map_None.
    apply ids_sorted_app_r in Hs. apply StronglySorted_inv in Hs as [_ Hs].
    inversion_clear Hge. eapply Forall_impl; [exact Hs|]. simpl. lia.
  - apply to_map_None. eapply Forall_impl; [done|]. simpl. lia.
Qed.

Lemma split_sorted id l l1 l2 it :
  ids_sorted l -> split_at id l l1 l2 -> ci_id it = id ->
  Forall (fun x => id < ci_id x) l2 -> ids_sorted (l1 ++ it :: l2).
Proof.
  intros Hs [-> Hlt Hge] Hid Hgt. apply StronglySorted_app in Hs as (_ & Hs1 & Hs2).
  rewrite !Forall_forall in Hlt, Hgt.
  apply StronglySorted_app_2; [|done|].
  - intros x1 x2 H1 [->|H2]%elem_of_cons.
    + rewrite Hid. by apply Hlt.
    + trans id; [by apply Hlt | by apply Hgt].
  - constructor; [done|]. rewrite Forall_forall, Hid. done.
Qed.

(** ** Binary search *)

Lemma lower_bound_loop_spec items n id fuel left right :
  ids_sorted (take n items) -> (n <= length items)%nat -> Z.of_nat n < 2 ^ 32 ->
  0 <= left <= right -> right <= Z.of_nat n -> (Z.to_nat (right - left) < fuel)%nat ->
  (forall (i : nat) it, Z.of_nat i < left -> take n items !! i = Some it -> ci_id it < id) ->
  (forall (i : nat) it, right <= Z.of_nat i -> take n items !! i = Some it -> id <= ci_id it) ->
  exists r, _lower_bound_loop fuel items id left right = Done r
    /\ 0 <= r <= Z.of_nat n
    /\ (forall (i : nat) it, Z.of_nat i < r -> take n items !! i = Some it -> ci_id it < id)
    /\ (forall (i : nat) it, r <= Z.of_nat i -> take n items !! i = Some it -> id <= ci_id it).
Proof.
  intros Hs Hn H32. revert left right.
  induction fuel as [|fuel IH]; intros left right Hlr Hr Hfuel Hbelow Habove; [lia|].
  simpl. destruct (Z.ltb_spec left right) as [Hlt|Hge].
  2: { exists left. replace right with left in * by lia. auto with lia. }
  assert (0 <= (right - left) / 2 < right - left) as Hhalf.
  { split; [apply Z.div_pos; lia | apply Z.div_lt_upper_bound; lia]. }
  rewrite (u32_small (right - left)) by (unfold is_u32; lia).
  rewrite (u32_small (left + (right - left) / 2)) by (unfold is_u32; lia).
  set (mid := left + (right - left) / 2).
  assert (left <= mid < right) as Hmid by (unfold mid; lia).
  destruct (lookup_lt_is_Some_2 items (Z.to_nat mid)) as [it Hit]; [lia|].
  assert (take n items !! Z.to_nat mid = Some it) as Hit'
    by (rewrite lookup_take_lt; [done | lia]).
  assert (aload items mid = Some it) as -> by (apply aload_Some; auto with lia).
  destruct (Z.ltb_spec (ci_id it) id) as [Hid|Hid].
  - rewrite u32_small by (unfold is_u32; lia). apply IH; [lia..| |done].
    intros i it' Hi Hl. destruct (decide (i = Z.to_nat mid)) as [->|Hne]; [naive_solver|].
    trans (ci_id it); [|done].
    apply (ids_sorted_lookup (take n items) i (Z.to_nat mid)); auto with lia.
  - apply IH; [lia..|done|].
    intros i it' Hi Hl. destruct (decide (i = Z.to_nat mid)) as [->|Hne]; [naive_solver lia|].
    trans (ci_id it); [done|].
    apply Z.lt_le_incl, (ids_sorted_lookup (take n items) (Z.to_nat mid) i); auto with lia.
Qed.

(** The items of a well-formed cache around an id, and where the search stops. *)
Lemma lower_bound_split c id :
  cache_wf c ->
  exists l1 l2 slack,
    c_items c = l1 ++ l2 ++ slack
    /\ live c = l1 ++ l2
    /\ c_count c = Z.of_nat (length l1) + Z.of_nat (length l2)
    /\ split_at id (live c) l1 l2
    /\ _lower_bound id (Some c) = Done (Z.of_nat (length l1), Some c).
Proof.
  intros [Hsz Hal Hc Hs Hv Hm]. unfold is_u32 in Hsz.
  destruct (lower_bound_loop_spec (c_items c) (Z.to_nat (c_count c)) id
              (S (Z.to_nat (c_count c))) 0 (c_count c)) as (r & Hr & Hrange & Hb & Ha);
    [done | lia.. | |].
  { intros i it Hi Hl. apply lookup_lt_Some in Hl. rewrite length_take in Hl. lia. }
  set (n := Z.to_nat (c_count c)) in *.
  exists (take (Z.to_nat r) (live c)), (drop (Z.to_nat r) (live c)), (drop n (c_items c)).
  assert (length (live c) = n) as Hlen by (unfold live; rewrite length_take; lia).
  assert (Z.of_nat (length (take (Z.to_nat r) (live c))) = r) as Hr1
    by (rewrite length_take; lia).
  rewrite app_assoc, take_drop. split_and!; [|done|rewrite length_drop; lia| |].
  { unfold live. by rewrite take_drop. }
  { split; [by rewrite take_drop| |].
  - apply Forall_lookup. intros i it [Hi Hl]%lookup_take_Some.
    apply (Hb i); [lia | exact Hi].
  - apply Forall_lookup. intros i it Hi. rewrite lookup_drop in Hi.
    apply (Ha (Z.to_nat r + i)%nat); [lia | exact Hi]. }
  unfold _lower_bound, deref. rewrite Hr1. unfold bind, get, lift_option, ret.
  fold n. by rewrite Hr.
Qed.

(** ** Refinement of every operation *)

Lemma live_app c l1 l2 :
  c_items c = l1 ++ l2 -> c_count c = Z.of_nat (length l1) -> live c = l1.
Proof. unfold live. intros -> ->. by rewrite Nat2Z.id, take_app_length. Qed.

Lemma find_item_eq c id :
  cache_wf c ->
  exists l1 l2 slack,
    c_items c = l1 ++ l2 ++ slack
    /\ live c = l1 ++ l2
    /\ c_count c = Z.of_nat (length l1) + Z.of_nat (length l2)
    /\ split_at id (live c) l1 l2
    /\ _find_item id (Some c)
       = Done (match l2 with
               | it :: _ => if ci_id it =? id then Some (Z.of_nat (length l1)) else None
               | [] => None
               end, Some c).
Proof.
  intros Hwf. destruct (lower_bound_split c id Hwf) as (l1 & l2 & sl & Hi & Hl & Hn & Hsp & Hb).
  exists l1, l2, sl. split_and!; [done..|].
  unfold _find_item, bind, get. destruct (Z.eqb_spec (c_count c) 0) as [H0|H0].
  { destruct l2; [done|]. simpl in *. lia. }
  rewrite Hb. destruct l2 as [|it l2]; simpl in *.
  - destruct (Z.ltb_spec (Z.of_nat (length l1)) (c_count c)); [lia|done].
  - destruct (Z.ltb_spec (Z.of_nat (length l1)) (c_count c)); [|lia].
    rewrite Hi, aload_middle. done.
Qed.

(** Overwriting the item of an id keeps the array and inserts in the map. *)
Lemma update_item c l1 l2 slack it it' :
  cache_wf c -> c_items c = l1 ++ (it :: l2) ++ slack -> live c = l1 ++ it :: l2 ->
  c_count c = Z.of_nat (length l1) + Z.of_nat (S (length l2)) ->
  Forall (fun x => ci_id x < ci_id it) l1 ->
  ci_id it' = ci_id it -> 0 <= ci_last_seen it' <= c_version c ->
  let c' := set_items c (l1 ++ (it' :: l2) ++ slack) in
  cache_wf c' /\
  abstract c' = mkSpec (c_version c)
    (<[ci_id it := (ci_checksum it', ci_last_seen it')]> (to_map (live c))).
Proof.
  intros [Hsz Hal Hc Hs Hv Hm] Hi Hl Hn Hlt Hid Hseen c'.
  assert (live c' = l1 ++ it' :: l2) as Hl'.
  { apply (live_app _ _ slack); [by rewrite <- app_assoc|].
    unfold c'. simpl. rewrite Hn, length_app. simpl. lia. }
  split; [constructor; rewrite ?Hl'|]; try done.
  - unfold c'. simpl. rewrite <- Hal, Hi, !length_app. simpl. rewrite length_app. lia.
  - rewrite Hl in Hs. unfold ids_sorted in *.
    apply StronglySorted_app in Hs as (H12 & H1 & [H2 Hgt]%StronglySorted_inv).
    apply StronglySorted_app_2; [|done|].
    + intros x1 x2 Hx1 [->|Hx2]%elem_of_cons; [rewrite Hid|]; apply H12; set_solver.
    + constructor; [done|]. by rewrite Hid.
  - rewrite Hl in Hm. rewrite Forall_app, Forall_cons in *. naive_solver.
  - unfold abstract. rewrite Hl', Hl. f_equal.
    rewrite !to_map_app, !to_map_cons, !Hid.
    rewrite <- !insert_union_r.
    { by rewrite insert_insert_eq. }
    all: apply to_map_None; eapply Forall_impl; [exact Hlt|]; simpl; lia.
Qed.

Lemma cache_check_run c id checksum :
  cache_wf c ->
  exists c', cache_check_item id checksum (Some c)
             = Done ((spec_check id checksum (abstract c)).1, Some c')
    /\ cache_wf c' /\ abstract c' = (spec_check id checksum (abstract c)).2
    /\ c_size c' = c_size c.
Proof.
  intros Hwf. destruct (find_item_eq c id Hwf) as (l1 & l2 & sl & Hi & Hl & Hn & Hsp & Hf).
  pose proof (split_lookup id (live c) l1 l2 (wf_sorted c Hwf) Hsp) as Hlk.
  unfold cache_check_item, bind. rewrite Hf. unfold spec_check, abstract at 1 2. simpl.
  rewrite Hlk. destruct l2 as [|it l2]; [by exists c|].
  destruct (Z.eqb_spec (ci_id it) id) as [Hid|]; [|by exists c].
  unfold deref, get, bind, lift_option, ret. rewrite Hi. cbn [app]. rewrite aload_middle.
  destruct (Z.eqb_spec (ci_last_seen it) 0); [by exists c|].
  rewrite astore_middle. destruct Hwf as [Hsz Hal Hc Hs Hv Hm].
  destruct (update_item c l1 l2 sl it (set_last_seen it (c_version c))) as [Hw Ha];
    [done..| by destruct Hsp; subst | done | simpl; lia |].
  eexists. split; [done|]. split; [exact Hw|]. rewrite <- Hid. by split.
Qed.

(** [cache_check_item] answers from the contract and marks the item seen. *)
Theorem cache_check_item_refines c id checksum :
  cache_wf c ->
  exists c', cache_check_item id checksum (Some c)
             = Done ((spec_check id checksum (abstract c)).1, Some c')
    /\ cache_wf c' /\ abstract c' = (spec_check id checksum (abstract c)).2.
Proof. intros Hwf. destruct (cache_check_run c id checksum Hwf) as (c' & E & Hw & Ha & _). by exists c'. Qed.

(** [cache_tombstone] clears the mark of the id, if it is there. *)
Theorem cache_tombstone_refines c id :
  cache_wf c ->
  exists c', cache_tombstone id (Some c) = Done (tt, Some c')
    /\ cache_wf c' /\ abstract c' = spec_tombstone id (abstract c).
Proof.
  intros Hwf. destruct (find_item_eq c id Hwf) as (l1 & l2 & sl & Hi & Hl & Hn & Hsp & Hf).
  pose proof (split_lookup id (live c) l1 l2 (wf_sorted c Hwf) Hsp) as Hlk.
  unfold cache_tombstone, bind. rewrite Hf. unfold spec_tombstone, abstract at 2. simpl.
  assert (forall m : gmap Z (Z * Z), m !! id = None -> alter (fun p => (p.1, 0)) id m = m)
    as Hno by (intros m Hm; apply alter_id; by rewrite Hm).
  destruct l2 as [|it l2]; [exists c; split_and!; [done..|]; by rewrite Hno|].
  destruct (Z.eqb_spec (ci_id it) id) as [Hid|];
    [|exists c; split_and!; [done..|]; by rewrite Hno].
  unfold deref, get, bind, lift_option, ret. rewrite Hi. cbn [app].
  rewrite aload_middle, astore_middle. pose proof (wf_version c Hwf).
  destruct (update_item c l1 l2 sl it (set_last_seen it 0)) as [Hw Ha];
    [done..| by destruct Hsp; subst | done | simpl; lia |].
  eexists. split; [done|]. split; [exact Hw|]. etrans; [exact Ha|]. rewrite Hid. f_equal. simpl.
  apply map_eq. intros k. rewrite lookup_alter. destruct (decide (id = k)) as [<-|].
  - by rewrite lookup_insert_eq, Hlk.
  - by rewrite lookup_insert_ne.
Qed.

(** [_grow_cache] appends a zeroed chunk behind the items. *)
Lemma grow_cache_eq c mem :
  cache_wf c -> c_size c + CACHE_CHUNK_SIZE < 2 ^ 32 ->
  _grow_cache mem (Some c)
  = if mem
    then Done (true, Some (mkCache (c_size c + CACHE_CHUNK_SIZE) (c_count c) (c_version c)
                 (c_items c ++ replicate (Z.to_nat CACHE_CHUNK_SIZE) zero_item)))
    else Done (false, Some c).
Proof.
  intros [Hsz Hal Hc Hs Hv Hm] H32. unfold CACHE_CHUNK_SIZE in *.
  destruct mem; [|done]. unfold _grow_cache, bind, get. unfold negb.
  unfold CACHE_CHUNK_SIZE, is_u32 in *. rewrite (u32_small (c_size c + 1000)) by (unfold is_u32; lia).
  rewrite take_ge by lia.
  replace (Z.to_nat (c_size c + 1000) - length (c_items c))%nat with 1000%nat by lia.
  pose proof (afill_middle (c_items c) (replicate 1000 zero_item) [] (c_size c) 1000 zero_item) as Hf.
  rewrite !app_nil_r in Hf. rewrite Hf; [|lia|done].
  done.
Qed.

Lemma cache_set_item_new c l1 l2 slack x id checksum :
  cache_wf c -> c_items c = l1 ++ l2 ++ x :: slack -> live c = l1 ++ l2 ->
  c_count c = Z.of_nat (length l1) + Z.of_nat (length l2) ->
  split_at id (live c) l1 l2 -> Forall (fun y => id < ci_id y) l2 ->
  let c' := mkCache (c_size c) (u32 (c_count c + 1)) (c_version c)
              (l1 ++ mkItem id checksum (c_version c) :: l2 ++ slack) in
  cache_wf c' /\ abstract c' = spec_set id checksum (abstract c).
Proof.
  intros [Hsz Hal Hc Hs Hv Hm] Hi Hl Hn Hsp Hgt c'. unfold is_u32 in Hsz.
  assert (c_count c + 1 <= c_size c) as Hlt.
  { rewrite <- Hal, Hi, !length_app. simpl. lia. }
  set (it := mkItem id checksum (c_version c)) in *.
  assert (u32 (c_count c + 1) = c_count c + 1) as Hu by (apply u32_small; unfold is_u32; lia).
  assert (live c' = l1 ++ it :: l2) as Hl'.
  { apply (live_app _ _ slack); unfold c'; simpl; [by rewrite <- app_assoc|].
    rewrite Hu, Hn, length_app. simpl. lia. }
  split; [constructor; rewrite ?Hl'; unfold c'; simpl; try rewrite Hu; try done; try lia|].
  - rewrite <- Hal, Hi, !length_app. simpl. rewrite !length_app. simpl. lia.
  - by eapply split_sorted.
  - rewrite Hl in Hm. rewrite Forall_app, Forall_cons in *. naive_solver lia.
  - unfold abstract, spec_set. rewrite Hl', Hl. simpl. f_equal.
    by rewrite to_map_insert by apply Hsp.
Qed.

Lemma found_at_eq c l1 l2 slack id :
  c_items c = l1 ++ l2 ++ slack ->
  c_count c = Z.of_nat (length l1) + Z.of_nat (length l2) ->
  found_at (Z.of_nat (length l1)) id (Some c)
  = Done (match l2 with it :: _ => ci_id it =? id | [] => false end, Some c).
Proof.
  intros Hi Hn. unfold found_at, deref, bind, get, lift_option, ret. rewrite Hn, Hi.
  destruct l2 as [|it l2]; simpl.
  - by rewrite Z.add_0_r, Z.ltb_irrefl.
  - destruct (Z.ltb_spec (Z.of_nat (length l1)) (Z.of_nat (length l1) + Z.of_nat (S (length l2))));
      [|lia]. by rewrite aload_middle.
Qed.

Lemma insert_at_eq c l1 l2 x slack id checksum :
  cache_wf c -> c_items c = l1 ++ l2 ++ x :: slack -> live c = l1 ++ l2 ->
  c_count c = Z.of_nat (length l1) + Z.of_nat (length l2) ->
  split_at id (live c) l1 l2 -> Forall (fun y => id < ci_id y) l2 ->
  exists c', insert_at (Z.of_nat (length l1)) id checksum (Some c) = Done (true, Some c')
    /\ cache_wf c' /\ abstract c' = spec_set id checksum (abstract c).
Proof.
  intros Hwf Hi Hl Hn Hsp Hgt.
  destruct (cache_set_item_new c l1 l2 slack x id checksum) as [Hw Ha]; [done..|].
  eexists. split; [|split; [exact Hw | exact Ha]].
  unfold insert_at, deref. run_prog. rewrite Hi, Hn.
  destruct (amove_shift l1 l2 slack x) as [y Hy]. rewrite Z.add_simpl_l.
  destruct (Z.ltb_spec (Z.of_nat (length l1)) (Z.of_nat (length l1) + Z.of_nat (length l2))).
  - rewrite Hy. cbv beta iota. by rewrite astore_middle.
  - destruct l2 as [|it l2]; [|simpl in *; lia]. cbv beta iota. cbn [app].
    by rewrite astore_middle.
Qed.

Lemma grown_wf c :
  cache_wf c -> c_size c + CACHE_CHUNK_SIZE < 2 ^ 32 ->
  let c' := mkCache (c_size c + CACHE_CHUNK_SIZE) (c_count c) (c_version c)
              (c_items c ++ replicate (Z.to_nat CACHE_CHUNK_SIZE) zero_item) in
  cache_wf c' /\ live c' = live c.
Proof.
  intros [Hsz Hal Hc Hs Hv Hm] H32 c'. unfold CACHE_CHUNK_SIZE, is_u32 in *.
  assert (live c' = live c) as E
    by (unfold live, c'; simpl; rewrite take_app_le; [done | lia]).
  split; [|done].
  constructor; rewrite ?E; cbn [c' c_size c_count c_version c_items]; unfold is_u32; try done; try lia.
  rewrite length_app, length_replicate. lia.
Qed.

(** An id that is not at the lower bound is nowhere in the array. *)
Lemma split_not_found id l l1 l2 :
  ids_sorted l -> split_at id l l1 l2 ->
  match l2 with it :: _ => ci_id it =? id | [] => false end = false ->
  Forall (fun y => id < ci_id y) l2 /\ to_map l !! id = None.
Proof.
  intros Hs Hsp Hf. split.
  - destruct l2 as [|it l2]; [done|]. apply Z.eqb_neq in Hf.
    destruct Hsp as [-> _ [Hit _]%Forall_cons]. constructor; [lia|].
    apply ids_sorted_app_r, StronglySorted_inv in Hs as [_ Hs].
    eapply Forall_impl; [exact Hs|]. simpl. lia.
  - rewrite (split_lookup id l l1 l2) by done.
    destruct l2 as [|it l2]; [done|]. by rewrite Hf.
Qed.

Lemma cache_set_run c mem id checksum :
  cache_wf c -> c_size c + CACHE_CHUNK_SIZE < 2 ^ 32 ->
  exists b c', cache_set_item mem id checksum (Some c) = Done (b, Some c')
    /\ cache_wf c'
    /\ (if b then abstract c' = spec_set id checksum (abstract c)
        else mem = false /\ c' = c /\ c_count c = c_size c
             /\ sp_map (abstract c) !! id = None).
Proof.
  intros Hwf H32.
  destruct (lower_bound_split c id Hwf) as (l1 & l2 & sl & Hi & Hl & Hn & Hsp & Hb).
  unfold cache_set_item. rewrite (bind_eq _ _ _ _ _ eq_refl), (bind_eq _ _ _ _ _ Hb),
    (bind_eq _ _ _ _ _ (found_at_eq c l1 l2 sl id Hi Hn)).
  pose proof Hwf as [Hsz Hal Hc Hs Hv Hm].
  assert (sl = [] -> c_size c = c_count c) as Hsl
    by (intros ->; rewrite <- Hal, Hi, Hn, !length_app; simpl; lia).
  destruct (match l2 with it :: _ => ci_id it =? id | [] => false end) eqn:Hf.
  - destruct l2 as [|it l2]; [done|]. apply Z.eqb_eq in Hf as <-.
    unfold bind, lift_option. rewrite Hi. cbn [app]. rewrite astore_middle.
    exists true. eexists. split; [done|].
    destruct (update_item c l1 l2 sl it (mkItem (ci_id it) checksum (c_version c))) as [Hw Ha];
      [done..| by destruct Hsp | done | simpl; lia | by split].
  - destruct (split_not_found id _ l1 l2 Hs Hsp Hf) as [Hgt Hnone].
    destruct (Z.leb_spec (c_size c) (c_count c)) as [Hfull|Hroom].
    + unfold bind at 1. rewrite grow_cache_eq by done. destruct mem.
      * destruct (grown_wf c Hwf H32) as [Hw' Hl']. simpl negb. cbv iota.
        edestruct (insert_at_eq _ l1 l2 zero_item (replicate 999 zero_item) id checksum Hw')
          as (c' & E & Hw & Ha); [..|exists true, c'; split; [exact E|]]; rewrite ?Hl'; try done.
        { simpl c_items. rewrite Hi. destruct sl as [|x sl]; [by rewrite app_nil_r, <- app_assoc|].
          rewrite <- Hal, Hi, !length_app in Hfull. simpl in Hfull. lia. }
        split; [done|]. rewrite Ha. unfold abstract. by rewrite Hl'.
      * exists false, c. split_and!; [done..|lia|done].
    + destruct sl as [|x sl]; [specialize (Hsl eq_refl); lia|].
      destruct (insert_at_eq c l1 l2 x sl id checksum) as (c' & E & Hw & Ha); [done..|].
      by exists true, c'.
Qed.

(** The array grows by one chunk at most. *)
Lemma cache_set_size c mem id checksum b c' :
  cache_wf c -> cache_set_item mem id checksum (Some c) = Done (b, Some c') ->
  c_size c' <= c_size c + CACHE_CHUNK_SIZE.
Proof.
  intros Hwf. destruct (lower_bound_split c id Hwf) as (l1 & l2 & sl & Hi & Hl & Hn & Hsp & Hb).
  unfold cache_set_item. rewrite (bind_eq _ _ _ _ _ eq_refl), (bind_eq _ _ _ _ _ Hb),
    (bind_eq _ _ _ _ _ (found_at_eq c l1 l2 sl id Hi Hn)).
  assert (forall i d x d', insert_at i id checksum (Some d) = Done (x, Some d') -> c_size d' = c_size d) as Hins.
  { intros i d x d'. unfold insert_at, deref, store. intros E. inv_done.
    repeat (match goal with H : lift_option ?o _ = Done _ |- _ => destruct o; [|done] end; cbn in *; inv_done).
    by cbn in *; simplify_eq. }
  assert (c_size c <= c_size c + CACHE_CHUNK_SIZE) as Hle by (unfold CACHE_CHUNK_SIZE; lia).
  match goal with |- (if ?b then _ else _) _ = _ -> _ => destruct b end.
  - intros E. unfold store in E. inv_done.
    match goal with H : lift_option ?o _ = Done _ |- _ => destruct o; [|done] end. cbn in *. by simplify_eq.
  - intros (g & w1 & Hg & E)%bind_Done.
    assert (exists d, w1 = Some d /\ c_size d <= c_size c + CACHE_CHUNK_SIZE) as (d & -> & Hd).
    { destruct (c_size c <=? c_count c); [|injection Hg as <- <-; exists c; split; [done|exact Hle]].
      unfold _grow_cache, store in Hg. inv_done. destruct (negb mem); [inv_done; exists c; split; [done|exact Hle]|].
      inv_done. match goal with H : lift_option ?o _ = Done _ |- _ => destruct o; [|done] end.
      cbn in *. simplify_eq. eexists. split; [done|]. cbn. unfold u32. apply Z.mod_le; [|lia].
      pose proof (wf_size c Hwf). unfold is_u32, CACHE_CHUNK_SIZE in *. lia. }
    destruct (negb g); [by injection E as <- <-|]. by rewrite (Hins _ _ _ _ E).
Qed.

(** Claim C17. [cache_set_item]: on success the entry is inserted or overwritten and marked
    with the current version; it only fails when the array is full and cannot
    grow, and then the cache is unchanged. *)
Theorem cache_set_item_refines c mem id checksum :
  cache_wf c -> c_size c + CACHE_CHUNK_SIZE < 2 ^ 32 ->
  exists b c', cache_set_item mem id checksum (Some c) = Done (b, Some c')
    /\ cache_wf c'
    /\ (if b then abstract c' = spec_set id checksum (abstract c)
        else mem = false /\ c' = c /\ c_count c = c_size c
             /\ sp_map (abstract c) !! id = None).
Proof. apply cache_set_run. Qed.

(** ** Pruning: the in-place compaction is a filter *)

Definition is_live (it : CacheItem) : Prop := ci_last_seen it <> 0.
#[global] Instance is_live_dec it : Decision (is_live it) := _.

Lemma prune_loop_eq kept junk rest slack :
  exists junk',
    prune_loop (length rest) (kept ++ junk ++ rest ++ slack)
      (Z.of_nat (length kept) + Z.of_nat (length junk)) (Z.of_nat (length kept))
      (Z.of_nat (length kept) + Z.of_nat (length junk) + Z.of_nat (length rest))
    = Some (kept ++ filter is_live rest ++ junk' ++ slack,
            Z.of_nat (length kept) + Z.of_nat (length (filter is_live rest)))
    /\ (length (filter is_live rest) + length junk' = length junk + length rest)%nat.
Proof.
  revert kept junk. induction rest as [|it rest IH]; intros kept junk.
  { exists junk. rewrite filter_nil. simpl. rewrite Z.add_0_r. auto with lia. }
  cbn [prune_loop length].
  destruct (Z.ltb_spec (Z.of_nat (length kept) + Z.of_nat (length junk))
    (Z.of_nat (length kept) + Z.of_nat (length junk) + Z.of_nat (S (length rest)))); [|lia].
  assert (aload (kept ++ junk ++ (it :: rest) ++ slack)
            (Z.of_nat (length kept) + Z.of_nat (length junk)) = Some it) as ->.
  { rewrite <- Nat2Z.inj_add, <- length_app, (app_assoc kept). apply aload_middle. }
  destruct (Z.eqb_spec (ci_last_seen it) 0) as [H0|H0].
  - rewrite filter_cons_False by (intros Hn; by apply Hn).
    destruct (IH kept (junk ++ [it])) as (junk' & E & Hlen). exists junk'.
    rewrite length_app in *. cbn [length] in *.
    rewrite <- app_assoc in E. cbn [app] in *.
    split; [|lia]. etrans; [|exact E]. f_equal; lia.
  - rewrite filter_cons_True by done.
    destruct junk as [|y junk].
    + cbn [app length]. rewrite astore_middle.
      destruct (IH (kept ++ [it]) []) as (junk' & E & Hlen). exists junk'.
      rewrite length_app, <- !app_assoc in E. cbn [app length] in *.
      split; [|lia]. etrans; [|etrans; [exact E|]]; [f_equal; lia | do 2 f_equal; lia].
    + cbn [app length]. rewrite astore_middle.
      destruct (IH (kept ++ [it]) (junk ++ [it])) as (junk' & E & Hlen). exists junk'.
      rewrite !length_app, <- !app_assoc in E. rewrite !length_app in Hlen.
      cbn [app length] in *.
      split; [|lia]. etrans; [|etrans; [exact E|]]; [f_equal; lia | do 2 f_equal; lia].
Qed.

Lemma to_map_filter l :
  ids_sorted l ->
  to_map (filter is_live l) = filter (fun p => p.2.2 <> 0) (to_map l).
Proof.
  induction l as [|it l IH]; intros Hs; [by rewrite filter_nil|].
  apply StronglySorted_inv in Hs as [Hs Hit]. rewrite to_map_cons.
  assert (to_map l !! ci_id it = None) as Hn
    by (apply to_map_None; eapply Forall_impl; [exact Hit|]; simpl; lia).
  destruct (decide (is_live it)) as [Hl|Hl].
  - rewrite filter_cons_True by done. rewrite to_map_cons, IH by done.
    by rewrite map_filter_insert_True.
  - rewrite filter_cons_False by done. rewrite map_filter_insert_False by done.
    by rewrite delete_id, IH.
Qed.

Lemma ids_sorted_filter l : ids_sorted l -> ids_sorted (filter is_live l).
Proof.
  induction 1 as [|it l Hs IH Hit]; [by rewrite filter_nil; constructor|].
  rewrite filter_cons. destruct (decide _); [|done].
  constructor; [done|by apply Forall_filter_keep].
Qed.

(** The state after the compaction of [cache_prune]. *)
Lemma cache_prune_eq c :
  cache_wf c ->
  exists c', cache_prune (Some c) = Done (tt, Some c')
    /\ live c' = filter is_live (live c)
    /\ c_count c' = Z.of_nat (length (filter is_live (live c)))
    /\ c_size c' = c_size c /\ c_version c' = c_version c
    /\ length (c_items c') = length (c_items c).
Proof.
  intros [Hsz Hal Hc Hs Hv Hm].
  assert (c_items c = live c ++ drop (Z.to_nat (c_count c)) (c_items c)) as Hi
    by (unfold live; by rewrite take_drop).
  set (slack := drop _ _) in *.
  assert (Z.of_nat (length (live c)) = c_count c) as Hn
    by (unfold live; rewrite length_take; lia).
  destruct (prune_loop_eq [] [] (live c) slack) as (junk' & E & Hlen).
  cbn [app length] in E. rewrite !Z.add_0_l, Hn in E.
  rewrite <- Hi in E.
  unfold cache_prune, deref. run_prog.
  replace (Z.to_nat (c_count c)) with (length (live c)) by lia.
  change (Z.of_nat 0) with 0 in E. rewrite E. cbv beta iota.
  set (kept := filter is_live (live c)) in *. cbn [length] in Hlen.
  destruct (Z.ltb_spec (Z.of_nat (length kept)) (c_count c)) as [Hlt|Hge].
  - rewrite (afill_middle kept junk' slack) by lia.
    eexists. split; [done|]. cbn. split_and!; [|done..|].
    + by apply (live_app _ _ (replicate (length junk') zero_item ++ slack)).
    + rewrite Hi, !length_app, length_replicate. lia.
  - assert (junk' = []) as -> by (destruct junk'; [done|simpl in Hlen; lia]).
    eexists. split; [done|]. cbn. split_and!; [|done..|].
    + by apply (live_app _ _ slack).
    + rewrite Hi, !length_app. lia.
Qed.

Lemma cache_prune_ok c :
  cache_wf c ->
  exists c', cache_prune (Some c) = Done (tt, Some c')
    /\ cache_wf c' /\ abstract c' = spec_prune (abstract c).
Proof.
  intros Hwf. destruct (cache_prune_eq c Hwf) as (c' & E & Hl & Hn & Hz & Hv' & Hlen).
  exists c'. pose proof Hwf as [Hsz Hal Hc Hs Hv Hm]. split_and!; [done| |].
  - assert (length (filter is_live (live c)) <= length (live c))%nat
      by apply length_filter.
    assert (Z.of_nat (length (live c)) = c_count c)
      by (unfold live; rewrite length_take; lia).
    constructor; rewrite ?Hl, ?Hz, ?Hv', ?Hlen; try done; [lia| |].
    + by apply ids_sorted_filter.
    + by apply Forall_filter_keep.
  - unfold abstract, spec_prune. rewrite Hl, Hv'. cbn. f_equal. by apply to_map_filter.
Qed.

(** [cache_prune] drops exactly the tombstoned items and keeps the cache well formed. *)
Theorem cache_prune_refines c :
  cache_wf c ->
  exists c', cache_prune (Some c) = Done (tt, Some c')
    /\ cache_wf c' /\ abstract c' = spec_prune (abstract c).
Proof. apply cache_prune_ok. Qed.

(** ** Versions *)

Lemma reset_loop_eq done_ todo slack :
  reset_loop (length todo) (done_ ++ todo ++ slack) (Z.of_nat (length done_))
    (Z.of_nat (length done_) + Z.of_nat (length todo))
  = Some (done_ ++ ((fun it => set_last_seen it 1) <$> todo) ++ slack).
Proof.
  revert done_. induction todo as [|it todo IH]; intros done_; [done|].
  cbn [reset_loop length].
  destruct (Z.ltb_spec (Z.of_nat (length done_))
    (Z.of_nat (length done_) + Z.of_nat (S (length todo)))); [|lia].
  cbn [app]. rewrite aload_middle, astore_middle.
  specialize (IH (done_ ++ [set_last_seen it 1])).
  rewrite length_app, <- !app_assoc in IH. cbn [app length] in IH.
  etrans; [|exact IH]. f_equal; lia.
Qed.

Lemma to_map_fmap (f : CacheItem -> CacheItem) g l :
  (forall it, ci_id (f it) = ci_id it
              /\ (ci_checksum (f it), ci_last_seen (f it)) = g (ci_checksum it, ci_last_seen it)) ->
  to_map (f <$> l) = g <$> to_map l.
Proof.
  intros Hf. induction l as [|it l IH]; [symmetry; apply fmap_empty|].
  rewrite fmap_cons, !to_map_cons, fmap_insert, IH.
  destruct (Hf it) as [-> ->]. done.
Qed.

(** [cache_next_version] opens the next version; at the top of [uint64_t] every
    mark and the version restart at 1. *)
Theorem cache_next_version_refines c :
  cache_wf c ->
  exists c', cache_next_version (Some c) = Done (tt, Some c')
    /\ cache_wf c' /\ abstract c' = spec_next_version (abstract c)
    /\ c_count c' = c_count c /\ ci_id <$> live c' = ci_id <$> live c.
Proof.
  intros Hwf. pose proof Hwf as [Hsz Hal Hc Hs Hv Hm].
  unfold cache_next_version. run_prog. unfold UINT64_MAX in *.
  rewrite u64_small by (unfold is_u64; lia).
  unfold store at 1. run_prog. unfold spec_next_version. cbn [abstract sp_version sp_map].
  unfold UINT64_MAX. destruct (Z.eqb_spec (c_version c + 1) 18446744073709551615) as [E|E].
  - unfold _cache_reset_version, deref. run_prog. cbn [c_count c_items c_size].
    assert (c_items c = live c ++ drop (Z.to_nat (c_count c)) (c_items c)) as Hi
      by (unfold live; by rewrite take_drop).
    assert (length (live c) = Z.to_nat (c_count c)) as Hn
      by (unfold live; rewrite length_take; lia).
    pose proof (reset_loop_eq [] (live c) (drop (Z.to_nat (c_count c)) (c_items c))) as Er.
    cbn [app] in Er. rewrite <- Hi, Hn in Er. cbn [length] in Er.
    rewrite Z.add_0_l, Z2Nat.id in Er by lia.
    change (Z.of_nat 0) with 0 in Er. rewrite Er. cbv beta iota.
    eexists. split; [done|].
    match goal with |- cache_wf ?x /\ _ => set (c' := x) end.
    assert (live c' = (fun it => set_last_seen it 1) <$> live c) as Hl'.
    { apply (live_app _ _ (drop (Z.to_nat (c_count c)) (c_items c))); [done|].
      cbn. rewrite length_fmap, Hn. lia. }
    split_and!; [constructor| |done|]; rewrite ?Hl'; try done.
    + cbn. rewrite length_app, length_fmap, <- length_app, <- Hi. done.
    + by apply (StronglySorted_fmap _ (fun a b => ci_id a < ci_id b)).
    + apply Forall_fmap, Forall_true. intros it. cbn. lia.
    + unfold abstract. rewrite Hl'. cbn. f_equal. by apply to_map_fmap.
    + by rewrite <- list_fmap_compose.
  - eexists. split_and!; [done| |done..]. constructor; cbn; unfold UINT64_MAX; try done; [lia|].
    eapply Forall_impl; [exact Hm|]. cbn. lia.
Qed.

(** ** Iterating over the prunable ids *)

Definition prunable (v drift : Z) (it : CacheItem) : Prop :=
  0 < ci_last_seen it <= v - drift.
#[global] Instance prunable_dec v drift it : Decision (prunable v drift it) := _.

Lemma cache_get_eq c k skipped rest :
  cache_wf c -> live c = skipped ++ rest -> k = Z.of_nat (length skipped) ->
  _cache_get k (Some c) = Done (head rest, Some c).
Proof.
  intros [Hsz Hal Hc Hs Hv Hm] Hl ->. unfold _cache_get. run_prog.
  assert (Z.of_nat (length (live c)) = c_count c) as Hn
    by (unfold live; rewrite length_take; lia).
  rewrite Hl, length_app in Hn.
  assert (c_items c = (skipped ++ rest) ++ drop (Z.to_nat (c_count c)) (c_items c)) as Hi
    by (rewrite <- Hl; unfold live; by rewrite take_drop).
  destruct (Z.leb_spec (c_count c) (Z.of_nat (length skipped))) as [Hle|Hlt].
  - destruct rest; [done|]. simpl in Hn. lia.
  - destruct rest as [|it rest]; [simpl in Hn; lia|].
    rewrite Hi, <- app_assoc. cbn [app]. by rewrite aload_middle.
Qed.

Lemma next_prunable_loop_eq c v drift seen todo :
  cache_wf c -> live c = seen ++ todo -> 0 <= drift < v -> is_u64 v ->
  exists skipped rest,
    todo = skipped ++ rest
    /\ Forall (fun it => ~ prunable v drift it) skipped
    /\ (if rest is it :: _ then prunable v drift it else True)
    /\ next_prunable_loop (S (length todo)) (mkIter (Z.of_nat (length seen)) v) drift (Some c)
       = Done (match rest with
               | [] => (None, mkIter (c_count c) v)
               | it :: _ => (Some (ci_id it),
                             mkIter (Z.of_nat (length (seen ++ skipped)) + 1) v)
               end, Some c).
Proof.
  intros Hwf Hl Hd Hv. revert seen Hl.
  assert (Z.of_nat (length (live c)) = c_count c /\ c_count c < 2 ^ 32) as [Hn H32].
  { destruct Hwf as [Hsz Hal Hc _ _ _]. unfold is_u32 in Hsz.
    unfold live. rewrite length_take. lia. }
  unfold is_u64 in Hv.
  assert (u64 (v - drift) = v - drift) as Hu by (apply u64_small; unfold is_u64; lia).
  induction todo as [|it todo IH]; intros seen Hl.
  - exists [], []. cbn [next_prunable_loop length iter_current].
    rewrite (bind_eq _ _ _ _ _ (cache_get_eq c _ seen [] Hwf Hl eq_refl)).
    split_and!; [done..|]. rewrite <- Hn, Hl, app_nil_r. done.
  - cbn [length] in *. remember (S (length todo)) as fuel.
    cbn [next_prunable_loop iter_current iter_version].
    rewrite (bind_eq _ _ _ _ _ (cache_get_eq c _ seen (it :: todo) Hwf Hl eq_refl)).
    cbn [head]. rewrite Hl, length_app in Hn. cbn [length] in Hn.
    rewrite u32_small by (unfold is_u32; lia). rewrite Hu.
    destruct (decide (prunable v drift it)) as [Hp|Hp].
    + exists [], (it :: todo). rewrite app_nil_r.
      rewrite (proj2 (Z.ltb_lt _ _)), (proj2 (Z.leb_le _ _)) by apply Hp. done.
    + destruct (IH (seen ++ [it])) as (skipped & rest & -> & Hsk & Hr & E);
        [by rewrite <- app_assoc|].
      exists (it :: skipped), rest. split_and!; [done|by constructor|done|].
      rewrite (length_app seen [it]) in E. cbn [length] in E.
      assert ((0 <? ci_last_seen it) && (ci_last_seen it <=? v - drift) = false) as ->.
      { apply not_true_iff_false. rewrite andb_true_iff, Z.ltb_lt, Z.leb_le. done. }
      replace (Z.of_nat (length seen) + 1)
        with (Z.of_nat (length seen + 1)) by lia.
      etrans; [exact E|]. destruct rest; [done|]. by rewrite <- app_assoc.
Qed.

(** [cache_iter_next_prunable_id] skips to the next prunable item. *)
Lemma cache_iter_next_prunable_id_eq c v drift seen todo :
  cache_wf c -> live c = seen ++ todo -> 0 <= drift < v -> is_u64 v ->
  exists skipped rest,
    todo = skipped ++ rest
    /\ Forall (fun it => ~ prunable v drift it) skipped
    /\ (if rest is it :: _ then prunable v drift it else True)
    /\ cache_iter_next_prunable_id (mkIter (Z.of_nat (length seen)) v) drift (Some c)
       = Done (match rest with
               | [] => (None, mkIter (c_count c) v)
               | it :: _ => (Some (ci_id it),
                             mkIter (Z.of_nat (length (seen ++ skipped)) + 1) v)
               end, Some c).
Proof.
  intros Hwf Hl Hd Hv.
  destruct (next_prunable_loop_eq c v drift seen todo) as (sk & rest & Ht & Hsk & Hr & E);
    [done..|].
  exists sk, rest. split_and!; [done..|].
  unfold cache_iter_next_prunable_id. cbn [iter_version iter_current].
  destruct (Z.leb_spec v drift); [lia|]. run_prog.
  rewrite <- E. do 3 f_equal. destruct Hwf as [Hsz Hal Hc _ _ _].
  apply (f_equal length) in Hl. rewrite length_app in Hl. unfold live in Hl.
  rewrite length_take in Hl. lia.
Qed.

(** When the version has not passed the drift nothing is prunable. *)
Lemma cache_iter_next_prunable_id_young p iter drift :
  iter_version iter <= drift ->
  cache_iter_next_prunable_id iter drift p = Done ((None, iter), p).
Proof.
  intros Hle. unfold cache_iter_next_prunable_id. by rewrite (proj2 (Z.leb_le _ _) Hle).
Qed.

(** ** Tombstones, item by item *)

Definition tomb_ids (ids : list Z) (l : list CacheItem) : list CacheItem :=
  (fun it => if decide (ci_id it ∈ ids) then set_last_seen it 0 else it) <$> l.

Lemma tomb_ids_app ids l1 l2 : tomb_ids ids (l1 ++ l2) = tomb_ids ids l1 ++ tomb_ids ids l2.
Proof. apply fmap_app. Qed.

Lemma tomb_ids_nil l : tomb_ids [] l = l.
Proof.
  unfold tomb_ids. rewrite <- (list_fmap_id l) at 2. apply list_fmap_ext.
  intros i it _. by rewrite decide_False by set_solver.
Qed.

Lemma tomb_ids_cons id ids l : tomb_ids (id :: ids) l = tomb_ids ids (tomb_ids [id] l).
Proof.
  unfold tomb_ids. rewrite <- list_fmap_compose. apply list_fmap_ext. intros i it _. cbn.
  destruct (decide (ci_id it ∈ [id])) as [E|E]; cbn.
  - rewrite decide_True by set_solver. destruct (decide _); [by destruct it|done].
  - destruct (decide (ci_id it ∈ ids)); [by rewrite decide_True by set_solver|].
    rewrite decide_False; [done|]. set_solver.
Qed.

Lemma tomb_ids_other id l : Forall (fun it => ci_id it <> id) l -> tomb_ids [id] l = l.
Proof.
  induction 1 as [|it l Hit Hl IH]; [done|]. unfold tomb_ids in *. rewrite fmap_cons, IH.
  by rewrite decide_False by set_solver.
Qed.

(** Around one item of a sorted array. *)
Lemma tomb_ids_middle l1 it l2 :
  ids_sorted (l1 ++ it :: l2) ->
  tomb_ids [ci_id it] (l1 ++ it :: l2) = l1 ++ set_last_seen it 0 :: l2.
Proof.
  intros (H12 & _ & [_ Hgt]%StronglySorted_inv)%StronglySorted_app.
  rewrite tomb_ids_app. f_equal.
  - apply tomb_ids_other, Forall_forall. intros x Hx. specialize (H12 x it Hx (list_elem_of_here _ _)). lia.
  - unfold tomb_ids. rewrite fmap_cons, decide_True by set_solver. f_equal.
    apply tomb_ids_other. eapply Forall_impl; [exact Hgt|]. cbn. lia.
Qed.

Lemma cache_tombstone_eq c id :
  cache_wf c ->
  exists c', cache_tombstone id (Some c) = Done (tt, Some c')
    /\ cache_wf c' /\ live c' = tomb_ids [id] (live c)
    /\ c_version c' = c_version c /\ c_count c' = c_count c.
Proof.
  intros Hwf. destruct (find_item_eq c id Hwf) as (l1 & l2 & sl & Hi & Hl & Hn & Hsp & Hf).
  unfold cache_tombstone, bind. rewrite Hf.
  assert (Forall (fun x => ci_id x < id) l1) as Hlt by apply Hsp.
  assert (match l2 with it :: _ => ci_id it =? id | [] => false end = false ->
          exists c', Done (tt, Some c) = Done (tt, Some c')
            /\ cache_wf c' /\ live c' = tomb_ids [id] (live c)
            /\ c_version c' = c_version c /\ c_count c' = c_count c) as Hno.
  { intros Hb. exists c. split_and!; [done..| |done|done]. symmetry. apply tomb_ids_other.
    destruct (split_not_found id (live c) l1 l2) as [Hgt _]; [apply Hwf|done..|].
    rewrite Hl. apply Forall_app.
    split; (eapply Forall_impl; [eassumption|]); cbn; lia. }
  destruct l2 as [|it l2]; [by apply Hno|].
  destruct (Z.eqb_spec (ci_id it) id) as [<-|]; [|by apply Hno].
  unfold deref, get, bind, lift_option, ret. rewrite Hi. cbn [app].
  rewrite aload_middle, astore_middle. pose proof (wf_version c Hwf).
  destruct (update_item c l1 l2 sl it (set_last_seen it 0)) as [Hw Ha];
    [done..| done | simpl; lia |].
  eexists. split; [done|]. split; [exact Hw|]. split_and!; [|done..].
  rewrite Hl, tomb_ids_middle by (rewrite <- Hl; apply Hwf).
  apply (live_app _ _ sl); cbn; [by rewrite <- app_assoc|].
  rewrite Hn, length_app. cbn. lia.
Qed.

(** ** The map, item by item *)

Lemma to_map_lookup l id cs seen :
  ids_sorted l -> to_map l !! id = Some (cs, seen) <-> mkItem id cs seen ∈ l.
Proof.
  induction l as [|it l IH]; intros Hs.
  - change (to_map []) with (∅ : gmap Z (Z * Z)). rewrite lookup_empty.
    split; [done | by intros ?%elem_of_nil].
  - apply StronglySorted_inv in Hs as [Hs Hit]. rewrite to_map_cons, elem_of_cons.
    destruct (decide (ci_id it = id)) as [<-|Hne].
    + rewrite lookup_insert_eq. split; [intros [= <- <-]; left; by destruct it|].
      intros [<-|Hin]; [done|]. rewrite Forall_forall in Hit. specialize (Hit _ Hin).
      cbn in Hit. lia.
    + rewrite lookup_insert_ne by done. rewrite IH by done. split; [by right|].
      intros [<-|Hin]; [by destruct Hne|done].
Qed.

Lemma ids_unique l a b : ids_sorted l -> a ∈ l -> b ∈ l -> ci_id a = ci_id b -> a = b.
Proof.
  intros Hs Ha Hb E. destruct a as [i1 c1 s1], b as [i2 c2 s2]. cbn in E. subst.
  apply (to_map_lookup l) in Ha, Hb; [|done..]. congruence.
Qed.

Lemma tomb_ids_sorted ids l : ids_sorted l -> ids_sorted (tomb_ids ids l).
Proof.
  apply (StronglySorted_fmap _ (fun a b => ci_id a < ci_id b)).
  intros x y. by destruct (decide _), (decide _).
Qed.

(** Tombstoning the prunable ids and compacting keeps the entries that are
    neither tombstoned nor prunable. *)
Lemma pruned_map v drift l :
  ids_sorted l ->
  to_map (filter is_live (tomb_ids (ci_id <$> filter (prunable v drift) l) l))
  = filter (fun p => p.2.2 <> 0 /\ ~ 0 < p.2.2 <= v - drift) (to_map l).
Proof.
  intros Hs. rewrite to_map_filter by by apply tomb_ids_sorted.
  apply map_eq. intros id. apply option_eq. intros [cs seen].
  rewrite !map_lookup_filter_Some, !to_map_lookup by (try apply tomb_ids_sorted; done).
  cbn. unfold tomb_ids. rewrite list_elem_of_fmap.
  assert (forall it, it ∈ l -> ci_id it ∈ ci_id <$> filter (prunable v drift) l <-> prunable v drift it)
    as Hin.
  { intros it Hit. rewrite list_elem_of_fmap. split.
    - intros (y & Ey & [Hy Hyl]%list_elem_of_filter). by rewrite (ids_unique l it y).
    - intros Hp. exists it. by rewrite list_elem_of_filter. }
  split.
  - intros [(it & E & Hit) Hne]. destruct (decide _) as [Hd|Hd].
    + by injection E as -> -> ->.
    + subst it. rewrite Hin in Hd by done. auto.
  - intros [Hl [Hne Hnp]]. split; [|done]. exists (mkItem id cs seen). split; [|done].
    rewrite decide_False; [done|]. by rewrite Hin.
Qed.

(** ** A small cache *)

Definition small_cache : Cache :=
  mkCache 3 2 12 [mkItem 10 100 12; mkItem 20 200 1; zero_item].

Lemma small_cache_wf : cache_wf small_cache.
Proof.
  constructor; cbn; unfold is_u32, UINT64_MAX; try lia.
  - by repeat constructor.
  - repeat constructor; cbn; lia.
Qed.

Lemma cache_set_item_refines_witness :
  exists b c', cache_set_item true 15 7 (Some small_cache) = Done (b, Some c')
    /\ cache_wf c'
    /\ (if b then abstract c' = spec_set 15 7 (abstract small_cache)
        else true = false /\ c' = small_cache /\ c_count small_cache = c_size small_cache
             /\ sp_map (abstract small_cache) !! 15 = None).
Proof. apply cache_set_item_refines; [exact small_cache_wf | vm_compute; reflexivity]. Defined.

Lemma cache_check_item_refines_witness :
  exists c', cache_check_item 20 201 (Some small_cache)
             = Done ((spec_check 20 201 (abstract small_cache)).1, Some c')
    /\ cache_wf c' /\ abstract c' = (spec_check 20 201 (abstract small_cache)).2.
Proof. apply cache_check_item_refines. exact small_cache_wf. Defined.

Lemma cache_tombstone_refines_witness :
  exists c', cache_tombstone 20 (Some small_cache) = Done (tt, Some c')
    /\ cache_wf c' /\ abstract c' = spec_tombstone 20 (abstract small_cache).
Proof. apply cache_tombstone_refines. exact small_cache_wf. Defined.

Lemma cache_prune_refines_witness :
  exists c', cache_prune (Some small_cache) = Done (tt, Some c')
    /\ cache_wf c' /\ abstract c' = spec_prune (abstract small_cache).
Proof. apply cache_prune_refines. exact small_cache_wf. Defined.

Lemma cache_next_version_refines_witness :
  exists c', cache_next_version (Some small_cache) = Done (tt, Some c')
    /\ cache_wf c' /\ abstract c' = spec_next_version (abstract small_cache)
    /\ c_count c' = c_count small_cache /\ ci_id <$> live c' = ci_id <$> live small_cache.
Proof. apply cache_next_version_refines. exact small_cache_wf. Defined.
