(* ===== verification/Prune.v ===== *)
(** * Pruning and hydrating a cache ([src/src/bx_prune.c])

    The rows of the ids that were not seen for [prune-drift] versions are
    deleted, their items tombstoned and the cache compacted; at start the cache
    is filled from the table.  The world is the cache next to the world of the
    database, whose queries are an interface. *)
From S2P Require Import Prelude CLib Env Values Chain IdsCache.

(** What the prepared queries of [bx_database.c] offer here. *)
Class QueryEnv (W : Type) := {
  query : Type;
  add_param_uint64 : query -> string -> Z -> prog W bool;
  database_execute : query -> prog W bool;
  database_results : query -> prog W bool;
  query_rows : query -> prog W (list (list Z));      (* the [i_value] of each column *)
  query_need_reconnect : query -> prog W bool;
  database_free_result : query -> prog W unit
}.

Section Prune.
Context {W : Type} `{!QueryEnv W} `{!ConfEnv W}.

Definition prune_prog (A : Type) : Type := prog (option Cache * W) A.

(** [int drift] after the default, as [uint64_t]. *)
Definition drift_of (conf : Z) : Z :=
  u64 (if conf =? 0 then BXILL_DEFAULT_DRIFT else conf).

Definition query_error (q : query) : prog W BXillError :=
  reconnect <- query_need_reconnect q ;;
  database_free_result q ;;;
  ret (if reconnect then ErrorSQLReconnect else ErrorGeneric).

Fixpoint prune_items_loop (fuel : nat) (q : query) (iter : CacheIter) (drift : Z)
    : prune_prog BXillError :=
  match fuel with
  | O => out_of_fuel
  | S fuel =>
      let* (next, iter) := on_fst (cache_iter_next_prunable_id iter drift) in
      match next with
      | None =>
          on_snd (database_free_result q) ;;;
          on_fst cache_prune ;;;
          ret NoError
      | Some id =>
          bound <- on_snd (add_param_uint64 q ":id" id) ;;
          done_ <- (if bound then on_snd (database_execute q) else ret false) ;;
          if negb done_ then on_snd (query_error q)
          else
            on_fst (cache_tombstone id) ;;;
            prune_items_loop fuel q iter drift
      end
  end.

Definition bx_prune_items (q : option query) : prune_prog BXillError :=
  iter <- on_fst cache_iter_init ;;
  conf <- on_snd (conf_get_int "prune-drift") ;;
  match q with
  | None => ret ErrorGeneric
  | Some q =>
      p <- gets fst ;;
      let count := match p with Some c => c_count c | None => 0 end in
      prune_items_loop (S (Z.to_nat count)) q iter (drift_of conf)
  end.

(** One row: those that have not two columns are skipped; [mem] is for
    [cache_set_item]. *)
Definition hydrate_row (mem : bool) (row : list Z) : prune_prog unit :=
  match row with
  | [id; checksum] => on_fst (cache_set_item mem (u64 id) (u64 checksum)) ;;; ret tt
  | _ => ret tt
  end.

Fixpoint hydrate_rows (mem : bool) (rows : list (list Z)) : prune_prog unit :=
  match rows with
  | [] => ret tt
  | row :: rows => hydrate_row mem row ;;; hydrate_rows mem rows
  end.

Definition bx_cache_hydrate (mem : bool) (q : option query) : prune_prog BXillError :=
  match q with
  | None => ret ErrorGeneric
  | Some q =>
      executed <- on_snd (database_execute q) ;;
      fetched <- (if executed then on_snd (database_results q) else ret false) ;;
      if fetched then
        rows <- on_snd (query_rows q) ;;
        hydrate_rows mem rows ;;;
        on_snd (database_free_result q) ;;;
        ret NoError
      else on_snd (query_error q)
  end.
End Prune.

(** ** A recording database

    [add_param_uint64] and [execute] answer by a function of the ids deleted so
    far; the configuration answers a fixed drift. *)
Record delete_oracle := mkDeletes {
  d_bound : list Z -> Z -> bool;
  d_executed : list Z -> bool;
  d_reconnect : bool;
  d_drift : Z
}.

(** The parameter bound last, and the ids whose deletion was executed. *)
Record delete_log := mkLog { dl_bound : option Z; dl_deleted : list Z }.

Section DeleteEnv.
Context (o : delete_oracle).

Definition delete_env : QueryEnv delete_log :=
  {| query := unit;
     add_param_uint64 := fun _ _ id l =>
       if d_bound o (dl_deleted l) id
       then Done (true, mkLog (Some id) (dl_deleted l)) else Done (false, l);
     database_execute := fun _ l =>
       if d_executed o (dl_deleted l) then
         match dl_bound l with
         | Some id => Done (true, mkLog None (dl_deleted l ++ [id]))
         | None => Done (true, l)
         end
       else Done (false, l);
     database_results := fun _ => ret true;
     query_rows := fun _ => ret [];
     query_need_reconnect := fun _ => ret (d_reconnect o);
     database_free_result := fun _ => ret tt |}.

Definition delete_conf : ConfEnv delete_log :=
  {| conf_get_string := fun _ => ret None;
     conf_get_int := fun key => ret (if str_eq key "prune-drift" then d_drift o else 0);
     conf_put_database := fun _ _ _ => ret false |}.

Definition traced_prune : prog (option Cache * delete_log) BXillError :=
  let _ := delete_env in let _ := delete_conf in
  bx_prune_items (W := delete_log) (Some tt).
End DeleteEnv.

Section PruneSpec.
Context (o : delete_oracle).
Local Instance denv : QueryEnv delete_log := delete_env o.
Local Instance dconf : ConfEnv delete_log := delete_conf o.

(** Deleting a list of ids in order, up to the first failure. *)
Fixpoint run_deletes (done_ ids : list Z) : list Z * bool :=
  match ids with
  | [] => ([], true)
  | id :: ids =>
      if d_bound o done_ id && d_executed o done_ then
        let '(ds, ok) := run_deletes (done_ ++ [id]) ids in (id :: ds, ok)
      else ([], false)
  end.

Definition prunable_ids (v drift : Z) (l : list CacheItem) : list Z :=
  ci_id <$> filter (prunable v drift) l.

(** What is left of the items: tombstoned, and compacted when all went well. *)
Definition pruned_items (v drift : Z) (done_ : list Z) (todo all : list CacheItem)
    : list CacheItem :=
  let '(ds, ok) := run_deletes done_ (prunable_ids v drift todo) in
  let marked := tomb_ids ds all in
  if ok then filter is_live marked else marked.

Definition prune_result (v drift : Z) (done_ : list Z) (todo : list CacheItem) : BXillError :=
  if (run_deletes done_ (prunable_ids v drift todo)).2 then NoError
  else if d_reconnect o then ErrorSQLReconnect else ErrorGeneric.

Lemma filter_none {A} (P : A -> Prop) `{!forall x, Decision (P x)} l :
  Forall (fun x => ~ P x) l -> filter P l = [].
Proof. induction 1; [done|]. by rewrite filter_cons_False. Qed.

Lemma free_result_eq (q : query) log : database_free_result q log = Done (tt, log).
Proof. reflexivity. Qed.

Lemma prune_loop_spec v drift fuel c seen todo log :
  cache_wf c -> live c = seen ++ todo -> c_version c = v -> 0 <= drift < v ->
  (length todo < fuel)%nat ->
  exists c' log',
    prune_items_loop fuel tt (mkIter (Z.of_nat (length seen)) v) drift (Some c, log)
    = Done (prune_result v drift (dl_deleted log) todo, (Some c', log'))
    /\ dl_deleted log'
       = dl_deleted log ++ (run_deletes (dl_deleted log) (prunable_ids v drift todo)).1
    /\ live c' = pruned_items v drift (dl_deleted log) todo (live c)
    /\ c_version c' = v /\ cache_wf c'.
Proof.
  unfold prune_result, pruned_items.
  revert c seen todo log. induction fuel as [|fuel IH]; intros c seen todo log Hwf Hl Hv Hd Hf; [lia|].
  pose proof (wf_version c Hwf) as Hvr. unfold UINT64_MAX in Hvr.
  assert (is_u64 v) as Hu by (unfold is_u64; lia).
  destruct (cache_iter_next_prunable_id_eq c v drift seen todo Hwf Hl Hd Hu)
    as (sk & rest & -> & Hsk & Hr & E).
  cbn [prune_items_loop]. unfold bind at 1, on_fst at 1. cbn [fst snd]. rewrite E.
  unfold prunable_ids. rewrite filter_app, (filter_none _ sk) by done. cbn [app].
  destruct rest as [|it rest].
  - cbn beta iota. rewrite filter_nil. cbn [fmap list_fmap run_deletes fst snd].
    destruct (cache_prune_eq c Hwf) as (c' & Ep & Hl' & _ & _ & Hv' & _).
    exists c', log. unfold bind, on_snd, on_fst. cbn [fst snd].
    rewrite free_result_eq. cbn beta iota. cbn [fst snd]. rewrite Ep.
    destruct (cache_prune_ok c Hwf) as (c2 & Ep2 & Hw2 & _).
    rewrite Ep in Ep2. injection Ep2 as <-.
    split_and!; [done|by rewrite app_nil_r|by rewrite tomb_ids_nil|by rewrite Hv'|done].
  - rewrite filter_cons_True by done. cbn [fmap list_fmap run_deletes].
    fold (prunable_ids v drift rest). unfold bind at 1, on_snd at 1. cbn.
    destruct (d_bound o (dl_deleted log) (ci_id it)) eqn:Hb; cbn.
    2: { exists c, log. split_and!; [done|by rewrite app_nil_r|by rewrite tomb_ids_nil|done..]. }
    unfold bind at 1, on_snd at 1. cbn.
    destruct (d_executed o (dl_deleted log)) eqn:Hx; cbn.
    2: { exists c, (mkLog (Some (ci_id it)) (dl_deleted log)).
         split_and!; [done|by rewrite app_nil_r|by rewrite tomb_ids_nil|done..]. }
    destruct (cache_tombstone_eq c (ci_id it) Hwf) as (c1 & Et & Hwf1 & Hl1 & Hv1 & _).
    unfold bind at 1, on_fst at 1. cbn [fst snd]. rewrite Et. cbn beta iota.
    assert (live c1 = (seen ++ sk ++ [set_last_seen it 0]) ++ rest) as Hl1'.
    { rewrite Hl1, Hl, app_assoc, tomb_ids_middle.
      - by rewrite <- !app_assoc.
      - rewrite <- app_assoc, <- Hl. apply Hwf. }
    set (log1 := mkLog None (dl_deleted log ++ [ci_id it])).
    destruct (IH c1 (seen ++ sk ++ [set_last_seen it 0]) rest log1) as (c' & log' & Er & Hd' & Hl' & Hv' & Hw');
      [done..|congruence|done|rewrite length_app in Hf; cbn in Hf; lia|].
    exists c', log'. cbn [dl_deleted log1] in *.
    destruct (run_deletes (dl_deleted log ++ [ci_id it]) (prunable_ids v drift rest)) as [ds ok].
    cbn [fst snd] in *. split_and!; [| |by rewrite tomb_ids_cons, <- Hl1|done..].
    + etrans; [|exact Er]. f_equal. f_equal. rewrite !length_app. cbn. lia.
    + rewrite Hd'. by rewrite <- app_assoc.
Qed.

Lemma prunable_young v drift l : v <= drift -> prunable_ids v drift l = [].
Proof.
  intros Hle. unfold prunable_ids. rewrite filter_none; [done|].
  apply Forall_true. unfold prunable. lia.
Qed.

Lemma drift_positive conf : is_i32 conf -> 0 < drift_of conf.
Proof.
  unfold is_i32, drift_of, u64, BXILL_DEFAULT_DRIFT. intros Hc. destruct (Z.eqb_spec conf 0); [done|].
  destruct (Z.lt_total conf 0) as [Hn|[?|Hp]]; [|lia|rewrite Z.mod_small; lia].
  rewrite <- (Z_mod_plus_full conf 1), Z.mod_small; lia.
Qed.

Lemma run_deletes_incl id done_ ids : id ∈ (run_deletes done_ ids).1 -> id ∈ ids.
Proof.
  revert done_. induction ids as [|i ids IH]; intros done_; cbn; [done|].
  case_match; [|by intros ?%not_elem_of_nil].
  specialize (IH (done_ ++ [i])). destruct (run_deletes _ ids) as [ds ok]. cbn in *.
  rewrite !elem_of_cons. naive_solver.
Qed.

Lemma prune_items_run c log :
  cache_wf c ->
  let v := c_version c in let drift := drift_of (d_drift o) in
  exists c' log',
    traced_prune o (Some c, log)
    = Done (prune_result v drift (dl_deleted log) (live c), (Some c', log'))
    /\ dl_deleted log'
       = dl_deleted log ++ (run_deletes (dl_deleted log) (prunable_ids v drift (live c))).1
    /\ live c' = pruned_items v drift (dl_deleted log) (live c) (live c)
    /\ c_version c' = v /\ cache_wf c'.
Proof.
  intros Hwf v drift. unfold traced_prune, bx_prune_items.
  assert (length (live c) < S (Z.to_nat (c_count c)))%nat as Hlen
    by (unfold live; rewrite length_take; lia).
  destruct (decide (drift < v)) as [Hlt|Hge].
  - assert (0 <= drift < v) as Hd
      by (split; [apply (u64_range (if d_drift o =? 0 then BXILL_DEFAULT_DRIFT else d_drift o))|done]).
    destruct (prune_loop_spec v drift (S (Z.to_nat (c_count c))) c [] (live c) log)
      as (c' & log' & E & Hrest); [done..|].
    exists c', log'. split; [|done]. exact E.
  - unfold prune_result, pruned_items. rewrite prunable_young by lia.
    destruct (cache_prune_eq c Hwf) as (c' & Ep & Hl' & _ & _ & Hv' & _).
    destruct (cache_prune_ok c Hwf) as (c2 & Ep2 & Hw2 & _).
    rewrite Ep in Ep2. injection Ep2 as <-.
    exists c', log. cbn [run_deletes fst snd].
    split_and!; [|by rewrite app_nil_r|by rewrite tomb_ids_nil|done..].
    unfold bind at 1, on_fst at 1. cbn [fst snd].
    change (cache_iter_init (Some c)) with (Done (mkIter 0 v, Some c)). cbn beta iota.
    unfold bind at 1, on_snd at 1. cbn [fst snd].
    change (conf_get_int "prune-drift" log) with (Done (d_drift o, log)). cbn beta iota.
    unfold bind at 1, gets at 1. cbn beta iota. cbn [prune_items_loop].
    unfold bind at 1, on_fst at 1. cbn [fst snd].
    rewrite cache_iter_next_prunable_id_young by (cbn; fold drift; lia). cbn beta iota.
    unfold bind, on_snd, on_fst. cbn [fst snd]. rewrite free_result_eq.
    cbn beta iota. cbn [fst snd]. by rewrite Ep.
Qed.

(** Claim C34. [bx_prune_items], whatever the database answers: the prunable ids are deleted
    in the order of the cache up to the first failure, each deleted id is
    tombstoned, the cache is compacted only when no DELETE failed, and the
    error tells a lost connection from another failure. *)
Theorem prune_items_spec c log :
  cache_wf c ->
  let v := c_version c in let drift := drift_of (d_drift o) in
  exists c' log',
    traced_prune o (Some c, log)
    = Done (prune_result v drift (dl_deleted log) (live c), (Some c', log'))
    /\ dl_deleted log'
       = dl_deleted log ++ (run_deletes (dl_deleted log) (prunable_ids v drift (live c))).1
    /\ live c' = pruned_items v drift (dl_deleted log) (live c) (live c)
    /\ c_version c' = v /\ cache_wf c'.
Proof. apply prune_items_run. Qed.

Lemma run_deletes_all done_ ids :
  (forall h id, d_bound o h id = true) -> (forall h, d_executed o h = true) ->
  run_deletes done_ ids = (ids, true).
Proof.
  intros Hb Hx. revert done_. induction ids as [|id ids IH]; intros done_; [done|].
  cbn. by rewrite Hb, Hx, IH.
Qed.

(** When every DELETE succeeds, the rows deleted are those of the ids last
    seen [drift] versions ago or earlier, and the cache keeps the others. *)
Theorem prune_items_deletes c log :
  cache_wf c ->
  (forall h id, d_bound o h id = true) -> (forall h, d_executed o h = true) ->
  let v := c_version c in let drift := drift_of (d_drift o) in
  exists c' log',
    traced_prune o (Some c, log) = Done (NoError, (Some c', log'))
    /\ dl_deleted log' = dl_deleted log ++ prunable_ids v drift (live c)
    /\ abstract c' = mkSpec v
         (filter (fun p => p.2.2 <> 0 /\ ~ 0 < p.2.2 <= v - drift) (sp_map (abstract c)))
    /\ cache_wf c'.
Proof.
  intros Hwf Hb Hx v drift.
  destruct (prune_items_run c log Hwf) as (c' & log' & E & Hd & Hl & Hv & Hw).
  fold v drift in E, Hd, Hl, Hv.
  unfold prune_result, pruned_items in *. rewrite run_deletes_all in E, Hd, Hl by done.
  exists c', log'. split_and!; [done..| |done].
  unfold abstract. rewrite Hl, Hv. cbn [sp_map]. f_equal. apply pruned_map. apply Hwf.
Qed.
End PruneSpec.

(** ** A small table *)

Definition small_oracle : delete_oracle := mkDeletes (fun _ _ => true) (fun _ => true) false 0.

Lemma prune_items_deletes_witness :
  exists c' log',
    traced_prune small_oracle (Some small_cache, mkLog None []) = Done (NoError, (Some c', log'))
    /\ dl_deleted log' = [] ++ prunable_ids 12 (drift_of 0) (live small_cache)
    /\ abstract c' = mkSpec 12
         (filter (fun p => p.2.2 <> 0 /\ ~ 0 < p.2.2 <= 12 - drift_of 0)
            (sp_map (abstract small_cache)))
    /\ cache_wf c'.
Proof.
  apply (prune_items_deletes small_oracle small_cache (mkLog None [])).
  - exact small_cache_wf.
  - reflexivity.
  - reflexivity.
Defined.

Definition failing_oracle : delete_oracle := mkDeletes (fun _ _ => true) (fun _ => false) true 11.

Lemma prune_items_spec_witness :
  exists c' log',
    traced_prune failing_oracle (Some small_cache, mkLog None [])
    = Done (ErrorSQLReconnect, (Some c', log'))
    /\ dl_deleted log' = [] /\ live c' = live small_cache.
Proof.
  destruct (prune_items_spec failing_oracle small_cache (mkLog None []) small_cache_wf)
    as (c' & log' & E & Hd & Hl & _ & _).
  exists c', log'. split; [exact E|]. split; [exact Hd | exact Hl].
Defined.
