(* ===== verification/ChainThread.v ===== *)
(** * The chain thread ([src/src/main.c])

    The loop that runs one phase of the chain, prunes what the phase allows,
    recovers from errors and opens the next cache versions. *)
From S2P Require Import Prelude CLib Env Samples Values Utils Walk Chain IdsCache Prune.


Inductive resource := Contacts | Projects | Invoices.

(** The caches of the thread live in the world of the object modules. *)
Class HasCaches (W : Type) := {
  cache_of : resource -> W -> option Cache;
  set_cache : resource -> option Cache -> W -> W
}.

Definition EXIT_SUCCESS : Z := 0.
Definition EXIT_FAILURE : Z := 1.

(** The client library, the queue flags and the clocks. *)
Class ThreadEnv (W : Type) := {
  mysql_init : prog W MYSQL;
  mysql_real_connect : Z -> option string -> option string -> option string ->
                       option string -> prog W bool;
  mysql_close : MYSQL -> prog W unit;
  mysql_ping_failed : Z -> prog W bool;
  mysql_errno : Z -> prog W Z;
  mysql_thread_id : MYSQL -> prog W Z;
  mysql_set_character_set : Z -> string -> prog W unit;
  mysql_thread_init : prog W unit;
  mysql_thread_end : prog W unit;
  queue_run : prog W bool;
  queue_standby : prog W bool;
  standby_sleep : prog W unit;
  thread_sleep : prog W unit;
  thread_error_sleep : prog W unit;
  time_now : prog W (option Z)
}.

(** [bx_database_new_query] and [bx_database_free_query]. *)
Class QueryAlloc (W : Type) `{!QueryEnv W} := {
  new_query : MYSQL -> string -> prog W (option query);
  free_query : option query -> prog W unit
}.

Section Cache.
Context {W : Type} `{!HasCaches W}.

Definition on_cache {A} (r : resource) (m : prog (option Cache * W) A) : prog W A :=
  fun w => match m (cache_of r w, w) with
           | Done (a, (c, w')) => Done (a, set_cache r c w')
           | Fault => Fault
           | OutOfFuel => OutOfFuel
           end.
End Cache.

Section Thread.
Context `{Jansson} {W : Type} `{!WalkEnv W} `{!ConfEnv W} `{!ChainItems W}
  `{!QueryEnv W} `{!QueryAlloc W} `{!HasCaches W} `{!ThreadEnv W}.

Definition thread_setup_mysql : prog W MYSQL :=
  conn <- mysql_init ;;
  match conn with
  | None => ret None
  | Some c =>
      mysql_thread_init ;;;
      host <- conf_get_string "mysql-host" ;;
      user <- conf_get_string "mysql-user" ;;
      password <- conf_get_string "mysql-password" ;;
      database <- conf_get_string "mysql-database" ;;
      ok <- mysql_real_connect c host user password database ;;
      if negb ok then mysql_close conn ;;; ret None else
      mysql_thread_id conn ;;;
      mysql_set_character_set c "utf8mb4" ;;;
      ret conn
  end.

Definition thread_teardown_mysql (conn : MYSQL) : prog W unit :=
  mysql_close conn ;;; mysql_thread_end.

(** The log line reads the thread id of the old connection. *)
Definition thread_reconnect (conn : MYSQL) : prog W MYSQL :=
  mysql_thread_id conn ;;;
  thread_teardown_mysql conn ;;; thread_setup_mysql.

Definition lookup_step (conn : MYSQL) (e : BXillError) : prog W MYSQL :=
  if decide (e = NoError) then ret conn
  else match conn with
       | None => ret conn
       | Some _ => if decide (e = ErrorSQLReconnect) then thread_reconnect conn else ret conn
       end.

(** The result, and the connection afterwards. *)
Definition thread_handle_error (error : BXillError) (conn : MYSQL)
    : prog W (bool * MYSQL) :=
  if decide (error = NoError) then ret (true, conn)
  else
    let need_reconnect := bool_decide (error = ErrorSQLReconnect) in
    need_reconnect <- match conn with
                      | None => ret need_reconnect
                      | Some c =>
                          failed <- mysql_ping_failed c ;;
                          if failed then
                            n <- mysql_errno c ;;
                            ret (if (n =? CR_SERVER_GONE_ERROR) || (n =? CR_SERVER_LOST)
                                    || (n =? CR_CONN_HOST_ERROR)
                                 then true else need_reconnect)
                          else ret need_reconnect
                      end ;;
    if need_reconnect : bool then
      conn <- thread_reconnect conn ;;
      ret (bool_decide (conn <> None), conn)
    else thread_error_sleep ;;; ret (false, conn).

Definition rebuild_prune_query (q : option query) (conn : MYSQL) (sql : string)
    : prog W (bool * option query) :=
  free_query q ;;;
  q <- new_query conn sql ;;
  ret (bool_decide (q <> None), q).

(** 0 or -1, and the connection; [mem] is for the cache. *)
Definition hydrate_cache (mem : bool) (conn : MYSQL) (r : resource) (sql : string)
    : prog W (Z * MYSQL) :=
  q <- new_query conn sql ;;
  e <- on_cache r (bx_cache_hydrate mem q) ;;
  if decide (e = ErrorSQLReconnect) then
    conn <- thread_reconnect conn ;;
    match conn with
    | None => free_query q ;;; ret (-1, conn)
    | Some _ => free_query q ;;; ret (0, conn)
    end
  else free_query q ;;; ret (0, conn).

Definition DELETE_CONTACT : string := "DELETE FROM contact WHERE id = :id".
Definition DELETE_PROJECT : string := "DELETE FROM pr_project WHERE id = :id".
Definition DELETE_INVOICE : string := "DELETE FROM invoice WHERE id = :id".

(** The local variables of [chain_thread]. *)
Record ChainThread := mkThread {
  ct_conn : MYSQL;
  ct_error_counter : Z;
  ct_contact_prune : option query;
  ct_project_prune : option query;
  ct_invoice_prune : option query;
  ct_cycle_ts : Z
}.

Definition prune_if (go : bool) (e : BXillError) (r : resource) (q : option query)
    : chain_prog (W := W) BXillError :=
  if bool_decide (e = NoError) && go
  then on_snd (on_cache r (bx_prune_items q)) else ret e.

Definition bump_if (go : bool) (r : resource) : chain_prog (W := W) unit :=
  if go then on_snd (on_cache r (on_fst cache_next_version)) else ret tt.

(** The queries after a reconnection: the [||] of the code stops at the first
    that cannot be rebuilt. *)
Definition rebuild_queries (t : ChainThread) (conn : MYSQL)
    : prog W (bool * ChainThread) :=
  let* (ok1, q1) := rebuild_prune_query (ct_contact_prune t) conn DELETE_CONTACT in
  let t := mkThread conn (ct_error_counter t) q1 (ct_project_prune t)
             (ct_invoice_prune t) (ct_cycle_ts t) in
  if negb ok1 then ret (false, t)
  else
    let* (ok2, q2) := rebuild_prune_query (ct_project_prune t) conn DELETE_PROJECT in
    let t := mkThread conn (ct_error_counter t) q1 q2 (ct_invoice_prune t) (ct_cycle_ts t) in
    if negb ok2 then ret (false, t)
    else
      let* (ok3, q3) := rebuild_prune_query (ct_invoice_prune t) conn DELETE_INVOICE in
      ret (ok3, mkThread conn (ct_error_counter t) q1 q2 q3 (ct_cycle_ts t)).

(** The [if (thread_handle_error(...))] of the loop: the thread variables, and
    whether the loop goes on. *)
Definition handle_step (e : BXillError) (t : ChainThread)
    : prog W (bool * ChainThread) :=
  let prev_conn := ct_conn t in
  let* (handled, conn) := thread_handle_error e (ct_conn t) in
  let counted n := mkThread conn n (ct_contact_prune t) (ct_project_prune t)
                     (ct_invoice_prune t) (ct_cycle_ts t) in
  if handled then
    if bool_decide (conn <> prev_conn) then rebuild_queries (counted 0) conn
    else ret (true, counted 0)
  else
    ret (negb (BXILL_THREAD_EXIT_MAX_COUNT <? ct_error_counter t),
         counted (ct_error_counter t + 1)).

(** The wait at the top of the loop; [fuel] bounds the standby periods. *)
Fixpoint wait_standby (fuel : nat) : prog W unit :=
  match fuel with
  | O => out_of_fuel
  | S fuel =>
      standby <- queue_standby ;;
      if standby : bool then standby_sleep ;;; wait_standby fuel else ret tt
  end.

(** The phase of the chain and the prunings it allows. *)
Definition chain_work (fuel : nat) (conf_ok : bool) (t : ChainThread)
    : chain_prog (W := W) (BXillError * BXChainResult) :=
  cr <- bx_chain_sync fuel true conf_ok (ct_conn t) ;;
  let e := r_error cr in
  e <- prune_if (r_prune_contact cr) e Contacts (ct_contact_prune t) ;;
  e <- prune_if (r_prune_project cr) e Projects (ct_project_prune t) ;;
  e <- prune_if (r_prune_invoice cr) e Invoices (ct_invoice_prune t) ;;
  ret (e, cr).

(** One turn of the loop of [chain_thread]. *)
Definition chain_turn (fuel : nat) (conf_ok : bool) (t : ChainThread)
    : chain_prog (W := W) (bool * ChainThread) :=
  on_snd (wait_standby fuel) ;;;
  mark <- bx_chain_read ;;
  now <- on_snd time_now ;;
  let t := mkThread (ct_conn t) (ct_error_counter t) (ct_contact_prune t)
             (ct_project_prune t) (ct_invoice_prune t)
             (bx_walker_cycle_mark now (ct_cycle_ts t)).1 in
  let* (e, cr) := chain_work fuel conf_ok t in
  let* (go, t) := on_snd (handle_step e t) in
  if negb go then ret (false, t)
  else
    bump_if (r_bump_contact cr) Contacts ;;;
    bump_if (r_bump_project cr) Projects ;;;
    bump_if (r_bump_invoice cr) Invoices ;;;
    (if bool_decide (e = NoError) && r_pause cr then on_snd thread_sleep else ret tt) ;;;
    ret (true, t).

(** [while (run)]: [turns] bounds the turns, and [None] is a thread that still
    runs after them; otherwise [RetVal], and the variables as the loop leaves
    them. *)
Fixpoint service_loop {V T} (running : prog V bool) (turn : T -> prog V (bool * T))
    (turns : nat) (t : T) : prog V (option Z * T) :=
  match turns with
  | O => ret (None, t)
  | S turns =>
      run <- running ;;
      if negb run then ret (Some EXIT_SUCCESS, t)
      else
        let* (go, t) := turn t in
        if go : bool then service_loop running turn turns t else ret (Some EXIT_FAILURE, t)
  end.

Definition chain_loop (turns fuel : nat) (conf_ok : bool)
    : ChainThread -> chain_prog (W := W) (option Z * ChainThread) :=
  service_loop (on_snd queue_run) (chain_turn fuel conf_ok) turns.
End Thread.

(** ** Errors *)

Section Errors.
Context `{Jansson} {W : Type} `{!WalkEnv W} `{!ConfEnv W} `{!ChainItems W}
  `{!QueryEnv W} `{!QueryAlloc W} `{!HasCaches W} `{!ThreadEnv W}.

Lemma handle_error_cases e conn (w : W) b conn' w' :
  thread_handle_error e conn w = Done ((b, conn'), w') ->
  (e = NoError -> b = true /\ conn' = conn)
  /\ (e <> NoError -> b = true -> conn' <> None)
  /\ (b = false -> conn' = conn \/ conn' = None).
Proof.
  unfold thread_handle_error. destruct (decide (e = NoError)) as [->|Hne].
  { intros [= <- <- <-]. naive_solver. }
  intros (nr & w1 & _ & E)%bind_Done. destruct nr.
  - apply bind_Done in E as (c & w2 & _ & [= <- <- <-]).
    rewrite bool_decide_eq_true, bool_decide_eq_false. split_and!; [done..|].
    destruct c; naive_solver.
  - apply bind_Done in E as (u & w2 & _ & [= <- <- <-]). naive_solver.
Qed.

Lemma rebuild_queries_conn t conn (w : W) go t' w' :
  rebuild_queries t conn w = Done ((go, t'), w') ->
  ct_conn t' = conn /\ ct_error_counter t' = ct_error_counter t.
Proof.
  unfold rebuild_queries. intros ([ok1 q1] & w1 & _ & E)%bind_Done.
  destruct ok1; cbn [negb] in E; [|by injection E as <- <- <-].
  apply bind_Done in E as ([ok2 q2] & w2 & _ & E).
  destruct ok2; cbn [negb] in E; [|by injection E as <- <- <-].
  apply bind_Done in E as ([ok3 q3] & w3 & _ & E). by injection E as <- <- <-.
Qed.

(** The error counter of the chain thread: a clean turn resets it; a failed
    turn either ends on a live connection with the counter reset, or counts
    one more failure and stops the thread once the count was above the limit. *)
Theorem handle_step_spec e t (w : W) go t' w' :
  handle_step e t w = Done ((go, t'), w') ->
  (e = NoError -> go = true /\ ct_error_counter t' = 0 /\ ct_conn t' = ct_conn t)
  /\ (e <> NoError ->
      (ct_conn t' <> None /\ ct_error_counter t' = 0)
      \/ (ct_error_counter t' = ct_error_counter t + 1
          /\ (go = true <-> ct_error_counter t <= BXILL_THREAD_EXIT_MAX_COUNT))).
Proof.
  unfold handle_step. intros ([b conn] & w1 & Hh & E)%bind_Done.
  destruct (handle_error_cases _ _ _ _ _ _ Hh) as (Hok & Hrec & Hno).
  destruct b.
  - destruct (bool_decide (conn <> ct_conn t)) eqn:Hc.
    + apply rebuild_queries_conn in E as [E1 E2]. cbn in E2. split.
      * intros He. apply bool_decide_eq_true in Hc. by destruct (Hok He).
      * intros He. left. rewrite E1, E2. auto.
    + injection E as <- <- <-. cbn. split.
      * intros He. by destruct (Hok He).
      * intros He. left. auto.
  - injection E as <- <- <-. cbn. split.
    + intros He. by destruct (Hok He).
    + intros He. right. split; [done|]. rewrite negb_true_iff, Z.ltb_ge. lia.
Qed.
End Errors.

(** ** A process on a small server

    One active contact, no archived contact, project or invoice; the request for
    the archived contacts fails a number of times. *)
Record demo := mkDemo {
  dm_contacts : option Cache;
  dm_projects : option Cache;
  dm_invoices : option Cache;
  dm_stored : option string;
  dm_failures : nat;        (* archived requests that still fail *)
  dm_walked : nat;          (* active walks that listed the contact *)
  dm_bound : Z;
  dm_deleted : list Z
}.

Definition demo_set (r : resource) (c : option Cache) (d : demo) : demo :=
  match r with
  | Contacts => mkDemo c (dm_projects d) (dm_invoices d) (dm_stored d) (dm_failures d)
                  (dm_walked d) (dm_bound d) (dm_deleted d)
  | Projects => mkDemo (dm_contacts d) c (dm_invoices d) (dm_stored d) (dm_failures d)
                  (dm_walked d) (dm_bound d) (dm_deleted d)
  | Invoices => mkDemo (dm_contacts d) (dm_projects d) c (dm_stored d) (dm_failures d)
                  (dm_walked d) (dm_bound d) (dm_deleted d)
  end.

Definition demo_contact : sample_json := JObject [("id", JInteger 7)].

#[export] Instance demo_caches : HasCaches demo :=
  {| cache_of r d := match r with
                     | Contacts => dm_contacts d | Projects => dm_projects d
                     | Invoices => dm_invoices d end;
     set_cache := demo_set |}.

#[export] Instance demo_walk : WalkEnv demo :=
  {| do_request path args d :=
       match args with
       | [_; Some (VInteger off); Some (VBool archived)] =>
           if bool_value archived then
             match dm_failures d with
             | O => Done (Some (JArray []), d)
             | S n => Done (None, mkDemo (dm_contacts d) (dm_projects d) (dm_invoices d)
                                    (dm_stored d) n (dm_walked d) (dm_bound d) (dm_deleted d))
             end
           else if int_value off =? 0 then
             Done (Some (JArray [demo_contact]),
                   mkDemo (dm_contacts d) (dm_projects d) (dm_invoices d) (dm_stored d)
                     (dm_failures d) (S (dm_walked d)) (dm_bound d) (dm_deleted d))
           else Done (Some (JArray []), d)
       | _ => Done (Some (JArray []), d)
       end;
     thrd_sleep := ret tt |}.

#[export] Instance demo_conf : ConfEnv demo :=
  {| conf_get_string key d := Done (if str_eq key BX_CHAIN_KEY then dm_stored d else None, d);
     conf_get_int _ := ret 0;
     conf_put_database _ _ value d :=
       Done (true, mkDemo (dm_contacts d) (dm_projects d) (dm_invoices d) (Some value)
                     (dm_failures d) (dm_walked d) (dm_bound d) (dm_deleted d)) |}.

(** An item is looked up in the cache and recorded when it is new. *)
Definition demo_sync (r : resource) (item : option sample_json) : prog demo BXillError :=
  match object_get item "id" with
  | Some (JInteger id) =>
      state <- on_cache r (on_fst (cache_check_item id 1)) ;;
      (if decide (state = CacheOk) then ret true
       else on_cache r (on_fst (cache_set_item true id 1))) ;;;
      ret NoError
  | _ => ret NoError
  end.

#[export] Instance demo_items : ChainItems demo :=
  {| contact_sync_item _ _ := demo_sync Contacts;
     project_sync_item _ := demo_sync Projects;
     invoice_sync_item _ := demo_sync Invoices;
     invoice_fetch_missed _ := ret NoError |}.

#[export] Instance demo_queries : QueryEnv demo :=
  {| query := unit;
     add_param_uint64 _ _ id d :=
       Done (true, mkDemo (dm_contacts d) (dm_projects d) (dm_invoices d) (dm_stored d)
                     (dm_failures d) (dm_walked d) id (dm_deleted d));
     database_execute _ d :=
       Done (true, mkDemo (dm_contacts d) (dm_projects d) (dm_invoices d) (dm_stored d)
                     (dm_failures d) (dm_walked d) (dm_bound d) (dm_deleted d ++ [dm_bound d]));
     database_results _ := ret true;
     query_rows _ := ret [];
     query_need_reconnect _ := ret false;
     database_free_result _ := ret tt |}.

#[export] Instance demo_alloc : QueryAlloc demo :=
  {| new_query _ _ := ret (Some tt); free_query _ := ret tt |}.

#[export] Instance demo_thread : ThreadEnv demo :=
  {| mysql_init := ret (Some 1); mysql_real_connect _ _ _ _ _ := ret true;
     mysql_close _ := ret tt; mysql_ping_failed _ := ret false; mysql_errno _ := ret 0;
     mysql_thread_id _ := ret 0; mysql_set_character_set _ _ := ret tt;
     mysql_thread_init := ret tt; mysql_thread_end := ret tt;
     queue_run := ret true; queue_standby := ret false; standby_sleep := ret tt;
     thread_sleep := ret tt; thread_error_sleep := ret tt; time_now := ret (Some 0) |}.

Definition demo_start (failures : nat) : ChainStatics * demo :=
  (mkStatics (mkCursor BX_CHAIN_CONTACT_ACTIVE 0) false false,
   mkDemo (cache_create true) (cache_create true) (cache_create true) None failures 0 0 []).

Definition demo_thread_start : ChainThread :=
  mkThread (Some 1) 0 (Some tt) (Some tt) (Some tt) 0.

(** After some turns: the times the contact was listed, what was deleted. *)
Definition demo_run (turns failures : nat) : option (nat * list Z) :=
  match chain_loop turns 3 true demo_thread_start (demo_start failures) with
  | Done ((None, _), (_, d)) => Some (dm_walked d, dm_deleted d)
  | _ => None
  end.

(** Without failures, twenty cycles delete nothing. *)
Example demo_quiet : demo_run 100 0 = Some (20%nat, []).
Proof. by vm_compute. Qed.

(** Ten failed requests for the archived contacts in one cycle, and the active
    contact that this very cycle listed is deleted. *)
Theorem failures_delete_listed_contact :
  demo_run 12 10 = Some (1%nat, [7]) /\ demo_run 11 9 = Some (1%nat, []).
Proof. split; by vm_compute. Qed.

Definition worn_thread : ChainThread := mkThread (Some 1) 11 (Some tt) (Some tt) (Some tt) 0.
Definition worn_out : ChainThread := mkThread (Some 1) 12 (Some tt) (Some tt) (Some tt) 0.

Lemma handle_step_spec_witness :
  (ct_conn worn_out <> None /\ ct_error_counter worn_out = 0)
  \/ (ct_error_counter worn_out = ct_error_counter worn_thread + 1
      /\ (false = true <-> ct_error_counter worn_thread <= BXILL_THREAD_EXIT_MAX_COUNT)).
Proof.
  eapply (handle_step_spec ErrorNet worn_thread (demo_start 0).2 false worn_out (demo_start 0).2).
  - reflexivity.
  - discriminate.
Defined.
