(* ===== verification/OAuth.v ===== *)
(** * OAuth tokens ([src/src/bx_oauth.c])

    The tokens are kept in memory and in the configuration table; several
    processes share the table, so a refresh happens under a database lock and
    the decision is taken on freshly read rows.  The database, the HTTP client
    and the allocator are total functions on a world [W]; a failed [assert] is a
    [Fault].  Log messages are left out.  The theorems, over a record of the
    calls made: every run gives back the lock and the connection it took; the
    tokens are written in one transaction, up to the first refusal. *)
From S2P Require Import Prelude CLib Env Samples Values Utils.

Definition BX_OAUTH_TOKEN_URL : string :=
  "https://auth.bexio.com/realms/bexio/protocol/openid-connect/token".
Definition BX_OAUTH_SKEW_SEC : Z := 60.
Definition BX_OAUTH_LOCK_NAME : string := "bx-oauth-refresh".
Definition BX_OAUTH_LOCK_TIMEOUT_SEC : Z := 20.
Definition BX_OAUTH_WRITE_ATTEMPTS : nat := 3.
Definition BX_OAUTH_DEFAULT_TTL_SEC : Z := 300.

Record BXOAuth := mkOAuth {
  oa_client_id : string;
  oa_redirect_uri : string;
  oa_scope : string;
  oa_access_token : option string;
  oa_refresh_token : option string;
  oa_expires_at : Z;
  oa_refreshing : bool;
  oa_lock_conn : option Z;
  oa_lock_held : bool;
  oa_tokens_dirty : bool
}.

Inductive BXOauthStatus := BX_OAUTH_OK | BX_OAUTH_NEED_LOGIN | BX_OAUTH_FAILED.
Inductive BXOauthAction := BX_OAUTH_ACT_USE | BX_OAUTH_ACT_REFRESH | BX_OAUTH_ACT_NEED_LOGIN.
Inductive PostResult := POST_OK | POST_FAILED | POST_UNSAVED.
#[global] Instance BXOauthStatus_eq_dec : EqDecision BXOauthStatus.
Proof. solve_decision. Defined.
#[global] Instance BXOauthAction_eq_dec : EqDecision BXOauthAction.
Proof. solve_decision. Defined.
#[global] Instance PostResult_eq_dec : EqDecision PostResult.
Proof. solve_decision. Defined.

(** ** The decision *)

Definition token_present (s : option string) : bool :=
  match s with None | Some EmptyString => false | Some _ => true end.

Definition access_usable (access : option string) (expires_at now : Z) : bool :=
  token_present access && (now + BX_OAUTH_SKEW_SEC <? expires_at).

Definition bx_oauth_decide (force : bool) (rejected access refresh : option string)
    (expires_at now : Z) : BXOauthAction :=
  let access_ok := token_present access && (now + BX_OAUTH_SKEW_SEC <? expires_at) in
  let refresh_ok := token_present refresh in
  if negb force && access_ok then BX_OAUTH_ACT_USE
  else if force && access_ok
          && (negb (token_present rejected)
              || negb (str_eq (bytes_of rejected) (bytes_of access)))
  then BX_OAUTH_ACT_USE
  else if negb refresh_ok then BX_OAUTH_ACT_NEED_LOGIN
  else BX_OAUTH_ACT_REFRESH.

(** ** Redirect address and query string *)

Definition redirect_rest (uri : string) : option string :=
  let p := String.substring 0 17 uri in
  if str_eq p "http://127.0.0.1:" || str_eq p "http://localhost:"
  then Some (String.substring 17 (String.length uri - 17) uri) else None.

Definition redirect_port (uri : string) : option Z :=
  match redirect_rest uri with
  | None => None
  | Some rest =>
      let '(value, end_) := strtol rest in
      if str_eq end_ rest || (value <? 1) || (65535 <? value) then None
      else match end_ with
           | EmptyString | String "/" _ => Some value
           | _ => None
           end
  end.

(** The characters that end a value. *)
Definition ends_value (c : ascii) : bool :=
  Ascii.eqb c "&" || Ascii.eqb c " " || Ascii.eqb c "013" || Ascii.eqb c "010"
  || Ascii.eqb c "#".

Fixpoint take_value (s : string) : string :=
  match s with
  | EmptyString => EmptyString
  | String c s => if ends_value c then EmptyString else String c (take_value s)
  end.

(** The rest after [name=] at the start of a string. *)
Fixpoint after_name (name s : string) : option string :=
  match name, s with
  | EmptyString, String "=" s => Some s
  | String a name, String b s => if Ascii.eqb a b then after_name name s else None
  | _, _ => None
  end.

(** The scan of [query_value]: [fresh] tells whether a name may start here. *)
Fixpoint query_scan (name s : string) (fresh : bool) : option string :=
  match s with
  | EmptyString => None
  | String c s' =>
      match (if fresh then after_name name s else None) with
      | Some v => Some (take_value v)
      | None => query_scan name s' (Ascii.eqb c "&" || Ascii.eqb c "?")
      end
  end.

(** [decode] is [oauth2_url_decode]. *)
Definition query_value (decode : string -> option string) (src name : option string)
    : option string :=
  match src, name with
  | Some src, Some name =>
      let q := match split_chr "?" src with Some (_, q) => q | None => src end in
      match query_scan name q true with
      | Some raw => decode raw
      | None => None
      end
  | _, _ => None
  end.

Fixpoint code_from_line (decode : string -> option string) (line expect : string)
    : option string :=
  match line with
  | String c rest =>
      if isspace c then code_from_line decode rest expect
      else
        match query_value decode (Some line) (Some "code"),
              query_value decode (Some line) (Some "state") with
        | Some code, Some state => if str_eq state expect then Some code else None
        | _, _ => None
        end
  | EmptyString => None
  end.

(** ** The outside *)

Inductive bind_value := BString (s : string) | BInt (z : Z) | BNull.

Class OAuthEnv `{Jansson} (W : Type) := {
  oe_malloc : W -> bool * W;
  oe_conf_get_string : string -> W -> option string * W;
  oe_conf_get_int : string -> W -> Z * W;
  oe_conf_set_string : string -> string -> W -> bool * W;
  oe_conf_set_int : string -> Z -> W -> bool * W;
  oe_conf_release : string -> W -> unit * W;
  oe_conf_load_database : W -> bool * W;
  oe_mysql_init : W -> option Z * W;
  oe_real_connect : Z -> string -> string -> option string -> string -> W -> bool * W;
  oe_mysql_close : Z -> W -> unit * W;
  oe_mysql_query : Z -> string -> W -> bool * W;             (* true: returned 0 *)
  oe_store_result : Z -> W -> option (list (list (option string))) * W;
  oe_stmt_init : Z -> W -> option Z * W;
  oe_stmt_prepare : Z -> string -> W -> bool * W;
  oe_stmt_execute : Z -> list bind_value -> W -> bool * W;   (* bind and execute *)
  oe_stmt_close : Z -> W -> unit * W;
  oe_nv_list : W -> bool * W;
  oe_http_ctx : W -> bool * W;
  oe_http_auth : W -> bool * W;
  oe_post_form : list (string * string) -> W -> option string * W;
  oe_decode_object : string -> W -> option json_t * W;
  oe_json_string : json_t -> string -> option string;
  oe_json_number : json_t -> string -> Z;
  oe_time : W -> Z * W
}.

Section OAuth.
Context `{Jansson} {W : Type} `{!OAuthEnv W}.

Definition oa_prog (A : Type) : Type := prog (BXOAuth * W) A.

Definition call {A} (op : W -> A * W) : oa_prog A :=
  fun x => let '(a, w) := op x.2 in Done (a, (x.1, w)).
Definition oa_get {A} (f : BXOAuth -> A) : oa_prog A := gets (fun x => f x.1).
Definition oa_set (f : BXOAuth -> BXOAuth) : oa_prog unit := modify (fun x => (f x.1, x.2)).

Definition set_lock (conn : option Z) (held : bool) (o : BXOAuth) : BXOAuth :=
  mkOAuth (oa_client_id o) (oa_redirect_uri o) (oa_scope o) (oa_access_token o)
    (oa_refresh_token o) (oa_expires_at o) (oa_refreshing o) conn held (oa_tokens_dirty o).
Definition set_dirty (b : bool) (o : BXOAuth) : BXOAuth :=
  mkOAuth (oa_client_id o) (oa_redirect_uri o) (oa_scope o) (oa_access_token o)
    (oa_refresh_token o) (oa_expires_at o) (oa_refreshing o) (oa_lock_conn o)
    (oa_lock_held o) b.
Definition set_tokens (access refresh : option string) (o : BXOAuth) : BXOAuth :=
  mkOAuth (oa_client_id o) (oa_redirect_uri o) (oa_scope o) access refresh
    (oa_expires_at o) (oa_refreshing o) (oa_lock_conn o) (oa_lock_held o)
    (oa_tokens_dirty o).
Definition set_expiry (t : Z) (o : BXOAuth) : BXOAuth :=
  mkOAuth (oa_client_id o) (oa_redirect_uri o) (oa_scope o) (oa_access_token o)
    (oa_refresh_token o) t (oa_refreshing o) (oa_lock_conn o) (oa_lock_held o)
    (oa_tokens_dirty o).
Definition set_refreshing (b : bool) (o : BXOAuth) : BXOAuth :=
  mkOAuth (oa_client_id o) (oa_redirect_uri o) (oa_scope o) (oa_access_token o)
    (oa_refresh_token o) (oa_expires_at o) b (oa_lock_conn o) (oa_lock_held o)
    (oa_tokens_dirty o).

Definition assert_ (b : bool) : oa_prog unit := if b then ret tt else fault.

(** [dup_str] of a string, [None] when the allocation fails. *)
Definition dup_str (s : string) : oa_prog (option string) :=
  ok <- call oe_malloc ;; ret (if ok : bool then Some s else None).

(** *** The lock *)

Definition oauth_connect : oa_prog (option Z) :=
  host <- call (oe_conf_get_string "mysql-host") ;;
  user <- call (oe_conf_get_string "mysql-user") ;;
  password <- call (oe_conf_get_string "mysql-password") ;;
  database <- call (oe_conf_get_string "mysql-database") ;;
  match host, user, database with
  | Some host, Some user, Some database =>
      conn <- call oe_mysql_init ;;
      match conn with
      | None => ret None
      | Some c =>
          ok <- call (oe_real_connect c host user password database) ;;
          if negb ok then call (oe_mysql_close c) ;;; ret None else ret (Some c)
      end
  | _, _, _ => ret None
  end.

Definition RELEASE_LOCK_SQL : string := "SELECT RELEASE_LOCK('bx-oauth-refresh')".

Definition oauth_unlock : oa_prog unit :=
  conn <- oa_get oa_lock_conn ;;
  match conn with
  | None => ret tt
  | Some c =>
      held <- oa_get oa_lock_held ;;
      (if held : bool then
         call (oe_mysql_query c RELEASE_LOCK_SQL) ;;;
         call (oe_store_result c) ;;;
         oa_set (set_lock (Some c) false)
       else ret tt) ;;;
      call (oe_mysql_close c) ;;;
      held <- oa_get oa_lock_held ;;
      oa_set (set_lock None held)
  end.

Definition GET_LOCK_SQL : string :=
  "SELECT GET_LOCK('" +:+ BX_OAUTH_LOCK_NAME +:+ "', "
    +:+ dec BX_OAUTH_LOCK_TIMEOUT_SEC +:+ ")".

(** Is the first column of the first row ["1"]? *)
Definition got_lock (rows : list (list (option string))) : bool :=
  match rows with
  | (Some s :: _) :: _ => str_eq s "1"
  | _ => false
  end.

Definition oauth_lock : oa_prog bool :=
  old <- oa_get oa_lock_conn ;;
  (match old with Some _ => oauth_unlock | None => ret tt end) ;;;
  conn <- oauth_connect ;;
  held <- oa_get oa_lock_held ;;
  oa_set (set_lock conn held) ;;;
  match conn with
  | None => ret false
  | Some c =>
      asked <- call (oe_mysql_query c GET_LOCK_SQL) ;;
      if negb asked then oauth_unlock ;;; ret false
      else
        result <- call (oe_store_result c) ;;
        match result with
        | None => oauth_unlock ;;; ret false
        | Some rows =>
            if negb (got_lock rows) then oauth_unlock ;;; ret false
            else oa_set (set_lock (Some c) true) ;;; ret true
        end
  end.

(** *** Writing the tokens *)

Definition UPSERT_SQL : string :=
  "INSERT INTO _configuration (name, type, ival, cval) "
    +:+ "VALUES (?, ?, ?, ?) "
    +:+ "ON DUPLICATE KEY UPDATE type = VALUES(type), ival = VALUES(ival), "
    +:+ "cval = VALUES(cval), bval = NULL, fval = NULL".

Definition oauth_upsert (stmt : Z) (name type_name : string) (ival : option Z)
    (cval : option string) : oa_prog bool :=
  call (oe_stmt_execute stmt
    [BString name; BString type_name;
     match ival with Some z => BInt z | None => BNull end;
     match cval with Some s => BString s | None => BNull end]).

(** The three rows, the refresh token first, then [COMMIT]; the first that
    fails ends the sequence. *)
Definition write_rows (c stmt : Z) (refresh access : string) (exp : Z) : oa_prog bool :=
  ok <- oauth_upsert stmt "oauth-refresh-token" "string" None (Some refresh) ;;
  if negb ok then ret false else
  ok <- oauth_upsert stmt "oauth-access-token" "string" None (Some access) ;;
  if negb ok then ret false else
  ok <- oauth_upsert stmt "oauth-expires-at" "integer" (Some exp) None ;;
  if negb ok then ret false else
  call (oe_mysql_query c "COMMIT").

(** The copies in the configuration in memory; a failure is only logged. *)
Definition keep_tokens (refresh access : string) (exp : Z) : oa_prog unit :=
  ok <- call (oe_conf_set_string "oauth-refresh-token" refresh) ;;
  if negb ok then ret tt else
  ok <- call (oe_conf_set_string "oauth-access-token" access) ;;
  if negb ok then ret tt else
  call (oe_conf_set_int "oauth-expires-at" exp) ;;; ret tt.

Definition oauth_write_once : oa_prog bool :=
  conn <- oa_get oa_lock_conn ;;
  held <- oa_get oa_lock_held ;;
  assert_ (bool_decide (conn <> None)) ;;;
  assert_ held ;;;
  c <- lift_option conn ;;
  access <- oa_get oa_access_token ;;
  refresh <- oa_get oa_refresh_token ;;
  exp <- oa_get oa_expires_at ;;
  match access, refresh with
  | Some access, Some refresh =>
      if (exp <? 0) || (INT_MAX <? exp) then ret false
      else
        started <- call (oe_mysql_query c "START TRANSACTION") ;;
        if negb started then ret false
        else
          stmt <- call (oe_stmt_init c) ;;
          match stmt with
          | None => call (oe_mysql_query c "ROLLBACK") ;;; ret false
          | Some stmt =>
              prepared <- call (oe_stmt_prepare stmt UPSERT_SQL) ;;
              if negb prepared then
                call (oe_mysql_query c "ROLLBACK") ;;;
                call (oe_stmt_close stmt) ;;;
                ret false
              else
                ok <- write_rows c stmt refresh access exp ;;
                (if negb ok then call (oe_mysql_query c "ROLLBACK") ;;; ret tt else ret tt) ;;;
                call (oe_stmt_close stmt) ;;;
                if negb ok then ret false
                else keep_tokens refresh access exp ;;; ret true
          end
  | _, _ => ret false
  end.

Fixpoint write_attempts (n : nat) : oa_prog bool :=
  match n with
  | O => oa_set (set_dirty true) ;;; ret false
  | S n =>
      ok <- oauth_write_once ;;
      if ok : bool then oa_set (set_dirty false) ;;; ret true else write_attempts n
  end.

Definition oauth_write_tokens : oa_prog bool := write_attempts BX_OAUTH_WRITE_ATTEMPTS.

(** *** Reading them *)

(** [replace_token]: the new value of the slot, [None] when out of memory. *)
Definition replace_token (value : option string) : oa_prog (option (option string)) :=
  match value with
  | Some s =>
      if token_present value then
        copy <- dup_str s ;;
        ret (match copy with Some s => Some (Some s) | None => None end)
      else ret (Some None)
  | None => ret (Some None)
  end.

Definition READ_SQL : string :=
  "SELECT name, ival, cval FROM _configuration WHERE name IN "
    +:+ "('oauth-access-token', 'oauth-refresh-token', 'oauth-expires-at')".

(** A copy of a column, and whether the allocation succeeded. *)
Definition dup_column (s : option string) : oa_prog (option string * bool) :=
  match s with
  | None => ret (None, true)
  | Some s => copy <- dup_str s ;; ret (copy, bool_decide (copy <> None))
  end.

Record token_rows := mkRows {
  tr_access : option string;
  tr_refresh : option string;
  tr_expiry : option Z;
  tr_ok : bool
}.

Definition atoi (s : string) : Z := i32 (strtol s).1.

(** [row[i]] of a fetched row *)
Definition column (row : list (option string)) (i : nat) : oa_prog (option string) :=
  lift_option (row !! i).

Definition read_row (row : list (option string)) (t : token_rows) : oa_prog token_rows :=
  name <- column row 0 ;;
  match name with
  | None => ret t
  | Some name =>
      if str_eq name "oauth-access-token" then
        cval <- column row 2 ;;
        let* (copy, ok) := dup_column cval in
        ret (mkRows copy (tr_refresh t) (tr_expiry t) (tr_ok t && ok))
      else if str_eq name "oauth-refresh-token" then
        cval <- column row 2 ;;
        let* (copy, ok) := dup_column cval in
        ret (mkRows (tr_access t) copy (tr_expiry t) (tr_ok t && ok))
      else if str_eq name "oauth-expires-at" then
        ival <- column row 1 ;;
        ret (match ival with
             | Some i => mkRows (tr_access t) (tr_refresh t) (Some (atoi i)) (tr_ok t)
             | None => t
             end)
      else ret t
  end.

Fixpoint read_rows (rows : list (list (option string))) (t : token_rows)
    : oa_prog token_rows :=
  match rows with
  | [] => ret t
  | row :: rows => t <- read_row row t ;; read_rows rows t
  end.

Definition store_token (key : string) (value : option string) : oa_prog unit :=
  match value with
  | Some s =>
      if token_present value then call (oe_conf_set_string key s) ;;; ret tt
      else call (oe_conf_release key)
  | None => call (oe_conf_release key)
  end.

Definition oauth_read_tokens : oa_prog bool :=
  conn <- oa_get oa_lock_conn ;;
  held <- oa_get oa_lock_held ;;
  assert_ (bool_decide (conn <> None)) ;;;
  assert_ held ;;;
  c <- lift_option conn ;;
  asked <- call (oe_mysql_query c READ_SQL) ;;
  if negb asked then ret false
  else
    result <- call (oe_store_result c) ;;
    match result with
    | None => ret false
    | Some rows =>
        t <- read_rows rows (mkRows None None None true) ;;
        if negb (tr_ok t) then ret false
        else
          store_token "oauth-access-token" (tr_access t) ;;;
          store_token "oauth-refresh-token" (tr_refresh t) ;;;
          match tr_expiry t with
          | Some e => call (oe_conf_set_int "oauth-expires-at" e) ;;; ret tt
          | None => call (oe_conf_release "oauth-expires-at")
          end ;;;
          access <- replace_token (tr_access t) ;;
          match access with
          | None => ret false
          | Some access =>
              old <- oa_get oa_refresh_token ;;
              oa_set (set_tokens access old) ;;;
              refresh <- replace_token (tr_refresh t) ;;
              match refresh with
              | None => ret false
              | Some refresh =>
                  oa_set (set_tokens access refresh) ;;;
                  oa_set (set_expiry (default 0 (tr_expiry t))) ;;;
                  ret true
              end
          end
    end.

(** Taking a token of the configuration; [false] when out of memory. *)
Definition take_token (value : option string) (put : option string -> BXOAuth -> BXOAuth)
    : oa_prog bool :=
  match value with
  | Some s =>
      if token_present value then
        copy <- dup_str s ;;
        oa_set (put copy) ;;;
        ret (bool_decide (copy <> None))
      else ret true
  | None => ret true
  end.

(** [conf_ok]: the object has a configuration. *)
Definition load_tokens (conf_ok : bool) : oa_prog BXOauthStatus :=
  if negb conf_ok then ret BX_OAUTH_FAILED
  else
    access <- call (oe_conf_get_string "oauth-access-token") ;;
    refresh <- call (oe_conf_get_string "oauth-refresh-token") ;;
    expiry <- call (oe_conf_get_int "oauth-expires-at") ;;
    oa_set (set_expiry expiry) ;;;
    ok <- take_token access (fun t o => set_tokens t (oa_refresh_token o) o) ;;
    if negb ok then ret BX_OAUTH_FAILED
    else
      ok <- take_token refresh (fun t o => set_tokens (oa_access_token o) t o) ;;
      if negb ok then ret BX_OAUTH_FAILED
      else
        refresh <- oa_get oa_refresh_token ;;
        ret (if token_present refresh then BX_OAUTH_OK else BX_OAUTH_NEED_LOGIN).

(** *** The token request *)

(** [own_oauth2] of a string that is not [NULL]. *)
Definition own_oauth2 (s : string) : oa_prog (option string) := dup_str s.

Definition accept_tokens (access : string) (refresh : option string) (expires_in : Z)
    : oa_prog PostResult :=
  access <- own_oauth2 access ;;
  old <- oa_get oa_refresh_token ;;
  oa_set (set_tokens access old) ;;;
  match refresh with
  | Some r => r <- own_oauth2 r ;; oa_set (set_tokens access r)
  | None => ret tt
  end ;;;
  refresh <- oa_get oa_refresh_token ;;
  match access, refresh with
  | Some _, Some _ =>
      let expires_in := if expires_in <=? 0 then BX_OAUTH_DEFAULT_TTL_SEC else expires_in in
      now <- call oe_time ;;
      oa_set (set_expiry (now + expires_in)) ;;;
      written <- oauth_write_tokens ;;
      ret (if negb written then POST_UNSAVED else POST_OK)
  | _, _ => ret POST_FAILED
  end.

Definition post_token (form : list (string * string)) : oa_prog PostResult :=
  ctx <- call oe_http_ctx ;;
  if negb ctx then ret POST_FAILED
  else
    auth <- call oe_http_auth ;;
    if negb auth then ret POST_FAILED
    else
      response <- call (oe_post_form form) ;;
      match response with
      | None => ret POST_FAILED
      | Some response =>
          json <- call (oe_decode_object response) ;;
          match json with
          | None => ret POST_FAILED
          | Some json =>
              match oe_json_string json "error" with
              | Some err =>
                  refreshing <- oa_get oa_refreshing ;;
                  (if str_eq err "invalid_grant" && refreshing
                   then oa_set (set_dirty false) else ret tt) ;;;
                  ret POST_FAILED
              | None =>
                  match oe_json_string json "access_token" with
                  | None => ret POST_FAILED
                  | Some access =>
                      accept_tokens access (oe_json_string json "refresh_token")
                        (oe_json_number json "expires_in")
                  end
              end
          end
      end.

Definition refresh_tokens : oa_prog PostResult :=
  refresh <- oa_get oa_refresh_token ;;
  match refresh with
  | None => ret POST_FAILED
  | Some refresh =>
      form <- call oe_nv_list ;;
      if negb form then ret POST_FAILED
      else
        client_id <- oa_get oa_client_id ;;
        scope <- oa_get oa_scope ;;
        oa_set (set_refreshing true) ;;;
        posted <- post_token [("grant_type", "refresh_token"); ("refresh_token", refresh);
                              ("client_id", client_id); ("scope", scope)] ;;
        oa_set (set_refreshing false) ;;;
        ret posted
  end.

Definition exchange_code (code verifier : string) : oa_prog bool :=
  form <- call oe_nv_list ;;
  if negb form then ret false
  else
    redirect_uri <- oa_get oa_redirect_uri ;;
    client_id <- oa_get oa_client_id ;;
    locked <- oauth_lock ;;
    if negb locked then ret false
    else
      posted <- post_token [("grant_type", "authorization_code"); ("code", code);
                            ("redirect_uri", redirect_uri); ("client_id", client_id);
                            ("code_verifier", verifier)] ;;
      let ok := bool_decide (posted = POST_OK) in
      oauth_unlock ;;;
      (if negb ok then oa_set (set_dirty false) else ret tt) ;;;
      ret ok.

(** *** Entry points *)

Definition bx_oauth_reload (conf_ok : bool) : oa_prog bool :=
  if negb conf_ok then ret false
  else
    dirty <- oa_get oa_tokens_dirty ;;
    if dirty : bool then ret true
    else
      loaded <- call oe_conf_load_database ;;
      if negb loaded then ret false
      else st <- load_tokens conf_ok ;; ret (bool_decide (st = BX_OAUTH_OK)).

Definition usable_now : oa_prog bool :=
  now <- call oe_time ;;
  access <- oa_get oa_access_token ;;
  expiry <- oa_get oa_expires_at ;;
  ret (access_usable access expiry now).

(** [refresh_tokens], then whether the tokens in memory can be used. *)
Definition refresh_and_check : oa_prog bool :=
  posted <- refresh_tokens ;;
  ok <- match posted with
        | POST_OK => ret true
        | POST_UNSAVED => usable_now
        | POST_FAILED => ret false
        end ;;
  oauth_unlock ;;;
  ret ok.

(** The branch of [bx_oauth_ensure] on freshly read tokens. *)
Definition ensure_stored (force : bool) (rejected : option string) : oa_prog bool :=
  read <- oauth_read_tokens ;;
  if negb read then oauth_unlock ;;; ret false
  else
    access <- oa_get oa_access_token ;;
    refresh <- oa_get oa_refresh_token ;;
    expiry <- oa_get oa_expires_at ;;
    now <- call oe_time ;;
    match bx_oauth_decide force rejected access refresh expiry now with
    | BX_OAUTH_ACT_USE => oauth_unlock ;;; ret true
    | BX_OAUTH_ACT_NEED_LOGIN => oauth_unlock ;;; ret false
    | BX_OAUTH_ACT_REFRESH => refresh_and_check
    end.

(** The branches that hold the lock. *)
Definition ensure_locked (force : bool) (rejected : option string) : oa_prog bool :=
  dirty <- oa_get oa_tokens_dirty ;;
  if dirty : bool then
    (* [&&] calls [time] only when it is not forced *)
    usable <- (if negb force then usable_now else ret false) ;;
    if usable : bool then oauth_write_tokens ;;; oauth_unlock ;;; ret true
    else
      refresh <- oa_get oa_refresh_token ;;
      if negb (token_present refresh) then oauth_unlock ;;; ret false
      else refresh_and_check
  else ensure_stored force rejected.

Definition bx_oauth_ensure (force : bool) : oa_prog bool :=
  now <- call oe_time ;;
  dirty <- oa_get oa_tokens_dirty ;;
  access <- oa_get oa_access_token ;;
  expiry <- oa_get oa_expires_at ;;
  if negb dirty && negb force && access_usable access expiry now then ret true
  else
    rejected <- (if token_present access then dup_str (bytes_of access) else ret None) ;;
    if token_present access && bool_decide (rejected = None) then ret false
    else
      locked <- oauth_lock ;;
      if negb locked then ret false else ensure_locked force rejected.

Definition bx_oauth_startup (conf_ok : bool) : oa_prog BXOauthStatus :=
  st <- load_tokens conf_ok ;;
  if decide (st = BX_OAUTH_OK) then bx_oauth_ensure false ;;; ret BX_OAUTH_OK
  else ret st.

Definition bx_oauth_access_token : oa_prog (option string) := oa_get oa_access_token.
End OAuth.

(** ** The decision table *)

(** The decision on its three tests: a usable access token is used unless a
    refresh is forced for that very token; otherwise the refresh token decides. *)
Theorem oauth_decide_table force rejected access refresh expires_at now :
  let usable := access_usable access expires_at now in
  let same := token_present rejected && str_eq (bytes_of rejected) (bytes_of access) in
  bx_oauth_decide force rejected access refresh expires_at now
  = if usable && negb (force && same) then BX_OAUTH_ACT_USE
    else if token_present refresh then BX_OAUTH_ACT_REFRESH
    else BX_OAUTH_ACT_NEED_LOGIN.
Proof.
  cbn zeta. unfold bx_oauth_decide, access_usable.
  destruct force, (token_present access && _), (token_present rejected),
    (str_eq _ _), (token_present refresh); reflexivity.
Qed.

(** ** Redirect address *)

Lemma redirect_port_range uri p : redirect_port uri = Some p -> 1 <= p <= 65535.
Proof.
  unfold redirect_port. destruct (redirect_rest uri) as [rest|]; [|done].
  destruct (strtol rest) as [v e]. destruct (_ || _ || _) eqn:E; [done|].
  apply orb_false_iff in E as [[_ E1%Z.ltb_ge]%orb_false_iff E2%Z.ltb_ge].
  destruct e as [|c e]; [intros [= <-]; lia|]. repeat case_match; intros; simplify_eq; lia.
Qed.

(** Every port in range is read back, with or without a path. *)
Theorem redirect_port_local host p path :
  (host = "http://127.0.0.1:" \/ host = "http://localhost:") -> 1 <= p <= 65535 ->
  (path = EmptyString \/ exists r, path = String "/" r) ->
  redirect_port (host +:+ dec p +:+ path) = Some p.
Proof.
  intros Hhost Hp Hpath. unfold redirect_port.
  assert (redirect_rest (host +:+ dec p +:+ path) = Some (dec p +:+ path)) as ->.
  { generalize (dec p +:+ path). intros s. unfold redirect_rest.
    assert (String.substring 0 0 s = EmptyString) as Hs by by destruct s.
    destruct Hhost as [-> | ->]; cbn; rewrite Hs; cbn; by rewrite Nat.sub_0_r, substring_all. }
  unfold strtol. rewrite strtol_dec_app.
  - assert (str_eq path (dec p +:+ path) = false) as ->.
    { apply not_true_iff_false. rewrite str_eq_true. intros E.
      apply (f_equal strlen) in E. rewrite strlen_append in E.
      pose proof (dec_strlen p). lia. }
    rewrite (proj2 (Z.ltb_ge _ _)), (proj2 (Z.ltb_ge _ _)) by lia. cbn [orb].
    by destruct Hpath as [-> | [r ->]].
  - unfold LONG_MIN, LONG_MAX, INT64_MIN, INT64_MAX. lia.
  - lia.
  - by destruct Hpath as [-> | [r ->]].
Qed.

(** ** The lock is always released

    The environment is wrapped in one that writes down what is done with the
    connection of the lock. *)

Inductive lock_event :=
| LOpen (c : Z)
| LQuery (c : Z) (sql : string)
| LStatement (c : Z)
| LClose (c : Z).

Section Steps.
Context {W : Type}.

Lemma wp_ret {S A} (a : A) (Q : A -> S -> Prop) s : wp (ret a) Q s <-> Q a s.
Proof. reflexivity. Qed.

Lemma wp_call {A} (op : W -> A * W) (Q : A -> BXOAuth * W -> Prop) o w :
  wp (call op) Q (o, w) <-> Q (op w).1 (o, (op w).2).
Proof. unfold wp, call. cbn. by destruct (op w). Qed.

Lemma wp_oa_get {A} (f : BXOAuth -> A) (Q : A -> BXOAuth * W -> Prop) o w :
  wp (oa_get f) Q (o, w) <-> Q (f o) (o, w).
Proof. reflexivity. Qed.

Lemma wp_oa_set f (Q : unit -> BXOAuth * W -> Prop) o w :
  wp (oa_set f) Q (o, w) <-> Q tt (f o, w).
Proof. reflexivity. Qed.
End Steps.

Section Lock.
Context `{Jansson} {W : Type} `{!OAuthEnv W}.
Implicit Types (o : BXOAuth) (w : W).

Definition watched : Type := list lock_event * W.

(** The operation, and its events behind the history. *)
Definition noted {A} (events : A -> list lock_event) (op : W -> A * W) (x : watched) : A * watched :=
  let '(a, w) := op x.2 in (a, (x.1 ++ events a, w)).
Definition silent {A} : (W -> A * W) -> watched -> A * watched := noted (fun _ => []).

#[export] Instance watched_env : OAuthEnv watched := {|
  oe_malloc := silent oe_malloc;
  oe_conf_get_string key := silent (oe_conf_get_string key);
  oe_conf_get_int key := silent (oe_conf_get_int key);
  oe_conf_set_string key v := silent (oe_conf_set_string key v);
  oe_conf_set_int key v := silent (oe_conf_set_int key v);
  oe_conf_release key := silent (oe_conf_release key);
  oe_conf_load_database := silent oe_conf_load_database;
  oe_mysql_init := noted (fun conn => match conn with Some c => [LOpen c] | None => [] end) oe_mysql_init;
  oe_real_connect c host user password database := silent (oe_real_connect c host user password database);
  oe_mysql_close c := noted (fun _ => [LClose c]) (oe_mysql_close c);
  oe_mysql_query c sql := noted (fun _ => [LQuery c sql]) (oe_mysql_query c sql);
  oe_store_result c := silent (oe_store_result c);
  oe_stmt_init c := noted (fun _ => [LStatement c]) (oe_stmt_init c);
  oe_stmt_prepare s sql := silent (oe_stmt_prepare s sql);
  oe_stmt_execute s binds := silent (oe_stmt_execute s binds);
  oe_stmt_close s := silent (oe_stmt_close s);
  oe_nv_list := silent oe_nv_list;
  oe_http_ctx := silent oe_http_ctx;
  oe_http_auth := silent oe_http_auth;
  oe_post_form form := silent (oe_post_form form);
  oe_decode_object text := silent (oe_decode_object text);
  oe_json_string := oe_json_string;
  oe_json_number := oe_json_number;
  oe_time := silent oe_time
|}.

Definition unlocked o : Prop := oa_lock_conn o = None /\ oa_lock_held o = false.

(** What is done with the connection between taking and releasing the lock. *)
Definition works_on (c : Z) (e : lock_event) : Prop :=
  e = LStatement c
  \/ exists sql, e = LQuery c sql
       /\ sql ∈ [READ_SQL; "START TRANSACTION"; "COMMIT"; "ROLLBACK"]%string.

(** A call with result [b]: it needs no connection or gets none; the connection fails
    or the lock is not granted, and the connection is closed; or the lock is granted,
    released and the connection closed. *)
Inductive lock_session : bool -> list lock_event -> Prop :=
| session_none b : lock_session b []
| session_unconnected c : lock_session false [LOpen c; LClose c]
| session_refused c : lock_session false [LOpen c; LQuery c GET_LOCK_SQL; LClose c]
| session_locked b c work :
    Forall (works_on c) work ->
    lock_session b (LOpen c :: LQuery c GET_LOCK_SQL :: work
                      ++ [LQuery c RELEASE_LOCK_SQL; LClose c]).

Section Held.
(** The history before the call, and the connection. *)
Context (h : list lock_event) (c : Z).

Definition locked (x : BXOAuth * watched) : Prop :=
  oa_lock_conn x.1 = Some c /\ oa_lock_held x.1 = true
  /\ exists work, x.2.1 = h ++ LOpen c :: LQuery c GET_LOCK_SQL :: work /\ Forall (works_on c) work.
Definition released (x : BXOAuth * watched) : Prop :=
  unlocked x.1
  /\ exists work, x.2.1 = h ++ LOpen c :: LQuery c GET_LOCK_SQL :: work
                           ++ [LQuery c RELEASE_LOCK_SQL; LClose c] /\ Forall (works_on c) work.

(** The program returns and keeps the lock. *)
Definition steady {A} (m : oa_prog (W := watched) A) : Prop :=
  forall x, locked x -> wp m (fun _ => locked) x.

Lemma steady_ret {A} (a : A) : steady (ret a).
Proof. by intros x Hl. Qed.
Lemma steady_noted {A} events (op : W -> A * W) :
  (forall a, Forall (works_on c) (events a)) -> steady (call (noted events op)).
Proof.
  intros He [o [h1 w]] (Hc & Hh & work & Hw & Hwork). apply wp_call. unfold noted. cbn in *.
  destruct (op w) as [a w']. split; [done|]. split; [done|].
  exists (work ++ events a). split; [by rewrite Hw, <- app_assoc|]. by apply Forall_app.
Qed.
Lemma steady_call {A} (op : W -> A * W) : steady (call (silent op)).
Proof. apply steady_noted. by constructor. Qed.
Lemma steady_query sql :
  sql ∈ [READ_SQL; "START TRANSACTION"; "COMMIT"; "ROLLBACK"]%string ->
  steady (call (oe_mysql_query c sql)).
Proof. intros Hs. apply steady_noted. intros a. apply Forall_singleton. right. by exists sql. Qed.
Lemma steady_statement : steady (call (oe_stmt_init c)).
Proof. apply steady_noted. intros a. apply Forall_singleton. by left. Qed.
Lemma steady_get {A} (f : BXOAuth -> A) : steady (oa_get f).
Proof. by intros [o w] Hl. Qed.
Lemma steady_set f :
  (forall o, oa_lock_conn (f o) = oa_lock_conn o /\ oa_lock_held (f o) = oa_lock_held o) ->
  steady (oa_set f).
Proof.
  intros Hf [o w] (Hc & Hh & Hw). apply wp_oa_set. destruct (Hf o) as [H1 H2].
  split; [cbn; by rewrite H1|]. split; [cbn; by rewrite H2|exact Hw].
Qed.
Lemma steady_bind {A B} (m : oa_prog (W := watched) A) (k : A -> oa_prog (W := watched) B) :
  steady m -> (forall a, steady (k a)) -> steady (bind m k).
Proof.
  intros Hm Hk x Hl. apply wp_bind. eapply wp_mono; [by apply Hm|].
  intros a x' Hl'. by apply Hk.
Qed.

(** [steady_tac] goes through the steps of a program. *)
Ltac steady_tac :=
  repeat first
    [ solve [auto 1] | apply steady_ret | apply steady_get
    | apply steady_query; set_solver | apply steady_statement | apply steady_call
    | apply steady_set; by intros
    | apply steady_bind; [|intros ?] | case_match | done ].

Lemma steady_locked {A} (k : Z -> oa_prog (W := watched) A) :
  steady (k c) ->
  steady (conn <- oa_get oa_lock_conn ;; held <- oa_get oa_lock_held ;;
          assert_ (bool_decide (conn <> None)) ;;; assert_ held ;;;
          c <- lift_option conn ;; k c).
Proof.
  intros Hk [o w] Hl. pose proof Hl as (Hc & Hh & _). cbn in Hc, Hh.
  apply wp_bind, wp_oa_get, wp_bind, wp_oa_get. rewrite Hc, Hh. by apply Hk.
Qed.

Lemma write_once_steady : steady oauth_write_once.
Proof.
  unfold oauth_write_once. apply steady_locked.
  unfold write_rows, oauth_upsert, keep_tokens. steady_tac.
Qed.

Lemma write_tokens_steady : steady oauth_write_tokens.
Proof.
  unfold oauth_write_tokens. generalize BX_OAUTH_WRITE_ATTEMPTS. intros n.
  induction n as [|n IH]; cbn [write_attempts]; [steady_tac|].
  apply steady_bind; [apply write_once_steady|]. intros []; [steady_tac | apply IH].
Qed.

Lemma post_token_steady form : steady (post_token form).
Proof.
  unfold post_token, accept_tokens, own_oauth2, dup_str.
  pose proof write_tokens_steady. steady_tac.
Qed.

Lemma refresh_tokens_steady : steady refresh_tokens.
Proof. unfold refresh_tokens. pose proof post_token_steady. steady_tac. Qed.

Lemma usable_now_steady : steady usable_now.
Proof. unfold usable_now. steady_tac. Qed.

(** The rows of the token query have its three columns. *)
Hypothesis three_columns : forall c w rows,
  (oe_mysql_query c READ_SQL w).1 = true ->
  (oe_store_result c (oe_mysql_query c READ_SQL w).2).1 = Some rows ->
  Forall (fun row => length row = 3%nat) rows.

Lemma read_row_steady row t : length row = 3%nat -> steady (read_row row t).
Proof.
  intros Hl. destruct row as [|a [|b [|d [|]]]]; try done.
  unfold read_row, column, dup_column, dup_str. cbn [lookup list_lookup].
  unfold lift_option. steady_tac.
Qed.

Lemma read_rows_steady rows t :
  Forall (fun row => length row = 3%nat) rows -> steady (read_rows rows t).
Proof.
  intros Hr. revert t. induction Hr as [|row rows Hrow Hr IH]; intros t; cbn [read_rows].
  - steady_tac.
  - apply steady_bind; [by apply read_row_steady | done].
Qed.

Lemma read_tokens_steady : steady oauth_read_tokens.
Proof.
  unfold oauth_read_tokens. apply steady_locked. intros [o [h1 w]] Hl.
  assert (steady (call (oe_mysql_query c READ_SQL))) as Hq by (apply steady_query; set_solver).
  specialize (Hq (o, (h1, w)) Hl). apply wp_bind, wp_call. apply wp_call in Hq.
  pose proof (three_columns c w) as Hcols.
  cbn [oe_mysql_query watched_env] in Hq |- *. unfold noted in Hq |- *. cbn [fst snd] in Hq |- *.
  destruct (oe_mysql_query c READ_SQL w) as [asked w1]. cbn [fst snd] in Hq, Hcols |- *.
  destruct asked; cbn [negb]; [|exact Hq].
  apply wp_bind, wp_call. pose proof (steady_call (oe_store_result c) _ Hq) as Hs. apply wp_call in Hs.
  cbn [oe_store_result watched_env]. unfold silent, noted in Hs |- *. cbn [fst snd] in Hs |- *.
  destruct (oe_store_result c w1) as [result w2]. cbn [fst snd] in Hs, Hcols |- *.
  destruct result as [rows|]; [|exact Hs].
  specialize (Hcols rows eq_refl eq_refl).
  match goal with |- wp ?m _ ?x => assert (steady m) as Hm; [|by apply Hm] end.
  apply steady_bind; [by apply read_rows_steady|]. intros t.
  unfold store_token, replace_token, dup_str. steady_tac.
Qed.

(** *** Releasing it *)

Lemma unlock_then x b :
  locked x -> wp (W := BXOAuth * watched) (A := bool) (oauth_unlock ;;; ret b) (fun _ => released) x.
Proof.
  destruct x as [o [h1 w]]. intros (Hc & Hh & work & Hw & Hwork). cbn in Hc, Hh, Hw.
  unfold oauth_unlock. apply wp_bind, wp_bind, wp_oa_get. rewrite Hc.
  apply wp_bind, wp_oa_get. rewrite Hh.
  apply wp_bind, wp_bind, wp_call, wp_bind, wp_call, wp_oa_set, wp_bind, wp_call,
    wp_bind, wp_oa_get, wp_oa_set, wp_ret.
  cbn [oe_mysql_query oe_store_result oe_mysql_close watched_env]. unfold silent, noted. cbn [fst snd].
  destruct (oe_mysql_query c RELEASE_LOCK_SQL w) as [a w1]. cbn [fst snd].
  destruct (oe_store_result c w1) as [rows w2]. cbn [fst snd].
  destruct (oe_mysql_close c w2) as [u w3]. cbn [fst snd].
  split; [by split|]. exists work. split; [|done]. cbn. by rewrite Hw, app_nil_r, <- !app_assoc.
Qed.

Lemma refresh_and_check_wp x : locked x -> wp refresh_and_check (fun _ => released) x.
Proof.
  intros Hl. unfold refresh_and_check. apply wp_bind.
  eapply wp_mono; [by apply refresh_tokens_steady|]. intros posted x1 Hl1.
  apply wp_bind. apply (wp_mono _ (fun _ => locked)).
  - destruct posted; [done|done|by apply usable_now_steady].
  - intros b x2 Hl2. by apply unlock_then.
Qed.

Lemma ensure_locked_wp force rejected x :
  locked x -> wp (ensure_locked force rejected) (fun _ => released) x.
Proof.
  destruct x as [o w]. intros Hl. unfold ensure_locked. apply wp_bind, wp_oa_get.
  destruct (oa_tokens_dirty o).
  - apply wp_bind. apply (wp_mono _ (fun _ => locked)).
    { destruct (negb force); [by apply usable_now_steady | done]. }
    intros usable [o1 w1] Hl1. destruct usable.
    + apply wp_bind. eapply wp_mono; [by apply write_tokens_steady|].
      intros b x2 Hl2. by apply unlock_then.
    + apply wp_bind, wp_oa_get. case_match; [by apply unlock_then|].
      by apply refresh_and_check_wp.
  - unfold ensure_stored. apply wp_bind.
    eapply wp_mono; [by apply read_tokens_steady|]. intros read [o1 w1] Hl1.
    destruct (negb read); [by apply unlock_then|].
    apply wp_bind, wp_oa_get, wp_bind, wp_oa_get, wp_bind, wp_oa_get.
    apply wp_bind. eapply wp_mono; [by apply (steady_call oe_time)|]. intros now x2 Hl2.
    case_match; [by apply unlock_then | by apply refresh_and_check_wp | by apply unlock_then].
Qed.
End Held.

(** *** Taking it *)

(** No lock after [tr], a session that ends with [false]. *)
Definition not_locked (h : list lock_event) (x : BXOAuth * watched) : Prop :=
  unlocked x.1 /\ exists tr, x.2.1 = h ++ tr /\ lock_session false tr.

Lemma connect_wp o h w :
  wp oauth_connect (fun conn x => x.1 = o /\ match conn with
    | Some c => x.2.1 = h ++ [LOpen c]
    | None => x.2.1 = h \/ exists c, x.2.1 = h ++ [LOpen c; LClose c]
    end) (o, (h, w)).
Proof.
  assert (forall A (op : W -> A * W) (Q : A -> BXOAuth * watched -> Prop) h w,
    (forall a w', Q a (o, (h, w'))) -> wp (call (silent op)) Q (o, (h, w))) as Hcall.
  { intros A op Q h1 w1 HQ. apply wp_call. unfold silent, noted. cbn. destruct (op w1).
    rewrite app_nil_r. apply HQ. }
  unfold oauth_connect. do 4 (apply wp_bind, Hcall; intros ? ?).
  repeat (case_match; [|by split; [|left]]).
  apply wp_bind, wp_call. cbn [oe_mysql_init watched_env]. unfold noted. cbn [fst snd].
  destruct (oe_mysql_init _) as [[c|] w1]; cbn [fst snd]; [|split; [done|left; apply app_nil_r]].
  apply wp_bind, Hcall. intros [] w2; cbn [negb]; [by split|].
  apply wp_bind, wp_call. cbn [oe_mysql_close watched_env]. unfold noted. cbn [fst snd].
  destruct (oe_mysql_close c w2) as [u w3]. split; [done|]. right. exists c. cbn. by rewrite <- app_assoc.
Qed.

Lemma lock_wp o h w :
  unlocked o ->
  wp oauth_lock (fun b x => if b then exists c, locked h c x else not_locked h x) (o, (h, w)).
Proof.
  intros [Hc Hh]. unfold oauth_lock.
  apply wp_bind, wp_oa_get. rewrite Hc. apply wp_bind, wp_ret, wp_bind.
  eapply wp_mono; [apply connect_wp|]. intros conn [o1 [h1 w1]] [Ho Hconn]. cbn in Ho, Hconn. subst o1.
  apply wp_bind, wp_oa_get, wp_bind, wp_oa_set. rewrite Hh. destruct conn as [c|].
  2: { apply wp_ret. split; [by split|]. destruct Hconn as [->|[c ->]].
       - exists []. split; [by rewrite app_nil_r|constructor].
       - exists [LOpen c; LClose c]. split; [done|constructor]. }
  assert (forall w2, wp (W := BXOAuth * watched) (oauth_unlock ;;; ret false)
    (fun b x => if b then exists c, locked h c x else not_locked h x)
    (set_lock (Some c) false o, (h1 ++ [LQuery c GET_LOCK_SQL], w2))) as Hrel.
  { intros w2. unfold oauth_unlock. apply wp_bind, wp_bind, wp_oa_get, wp_bind, wp_oa_get, wp_bind,
      wp_ret, wp_bind, wp_call, wp_bind, wp_oa_get, wp_oa_set, wp_ret.
    cbn [oe_mysql_close watched_env]. unfold noted. cbn [fst snd]. destruct (oe_mysql_close c w2) as [u w3].
    split; [by split|]. exists [LOpen c; LQuery c GET_LOCK_SQL; LClose c]. split; [|constructor].
    cbn. by rewrite Hconn, <- !app_assoc. }
  apply wp_bind, wp_call. cbn [oe_mysql_query watched_env]. unfold noted. cbn [fst snd].
  destruct (oe_mysql_query c GET_LOCK_SQL w1) as [[] w2]; cbn [fst snd negb]; [|apply Hrel].
  apply wp_bind, wp_call. cbn [oe_store_result watched_env]. unfold silent, noted. cbn [fst snd].
  destruct (oe_store_result c w2) as [[rows|] w3]; cbn [fst snd]; rewrite app_nil_r; [|apply Hrel].
  destruct (got_lock rows); cbn [negb]; [|apply Hrel].
  apply wp_bind, wp_oa_set, wp_ret. exists c. split; [done|]. split; [done|]. exists [].
  split; [|constructor]. cbn. by rewrite Hconn, <- app_assoc.
Qed.

(** Claim C25. [bx_oauth_ensure] returns on every path, and the database lock and its
    connection are released: the call opens no connection; or it opens one, which fails
    or does not get the lock, and closes it; or it gets the lock, and then, whatever it
    did in between and whether it succeeded, it sends RELEASE_LOCK on that connection
    and closes it, last.  The object holds no connection afterwards. *)
Theorem ensure_releases_lock force o h w :
  (forall c w rows, (oe_mysql_query c READ_SQL w).1 = true ->
     (oe_store_result c (oe_mysql_query c READ_SQL w).2).1 = Some rows ->
     Forall (fun row => length row = 3%nat) rows) ->
  unlocked o ->
  exists b o' tr w', bx_oauth_ensure force (o, (h, w)) = Done (b, (o', (h ++ tr, w')))
    /\ unlocked o' /\ lock_session b tr.
Proof.
  intros Hcols Hu.
  assert (wp (bx_oauth_ensure force) (fun b x => unlocked x.1 /\ exists tr, x.2.1 = h ++ tr /\ lock_session b tr)
            (o, (h, w))) as Hw.
  { assert (forall A (op : W -> A * W) (Q : A -> BXOAuth * watched -> Prop) o w,
      (forall a w', Q a (o, (h, w'))) -> wp (call (silent op)) Q (o, (h, w))) as Hcall.
    { intros A op Q o1 w1 HQ. apply wp_call. unfold silent, noted. cbn. destruct (op w1).
      rewrite app_nil_r. apply HQ. }
    assert (forall b w, unlocked o /\ exists tr, h = h ++ tr /\ lock_session b tr) as Hno.
    { intros b w1. split; [done|]. exists []. split; [by rewrite app_nil_r|constructor]. }
    unfold bx_oauth_ensure. apply wp_bind, Hcall. intros now w1.
    apply wp_bind, wp_oa_get, wp_bind, wp_oa_get, wp_bind, wp_oa_get.
    case_match; [by apply Hno|]. apply wp_bind.
    apply (wp_mono _ (fun _ x => exists w', x = (o, (h, w')))).
    { case_match; [|by eexists]. unfold dup_str. apply wp_bind, Hcall. intros. by eexists. }
    intros rejected x [w2 ->]. case_match; [by apply Hno|].
    apply wp_bind. eapply wp_mono; [by apply lock_wp|]. intros [] x2; cbn [negb]; [|done].
    intros [c Hl]. eapply wp_mono; [by apply (ensure_locked_wp h c)|].
    intros b x3 (Hu3 & work & Hh & Hwork). split; [done|]. eexists. split; [exact Hh|]. by constructor. }
  apply wp_elim in Hw as (b & [o' [h' w']] & E & Hu' & tr & Htr & Hs). cbn in Htr. subst h'.
  by exists b, o', tr, w'.
Qed.

(** A usable access token needs neither the lock nor the network. *)
Theorem ensure_usable_token o w :
  oa_tokens_dirty o = false ->
  access_usable (oa_access_token o) (oa_expires_at o) (oe_time w).1 = true ->
  bx_oauth_ensure false (o, w) = Done (true, (o, (oe_time w).2)).
Proof.
  intros Hd Hu. unfold bx_oauth_ensure, call, oa_get, gets, bind. cbn [fst snd].
  destruct (oe_time w) as [now w1]. cbn [fst snd] in *. rewrite Hd, Hu. done.
Qed.

(** [oauth_write_tokens] tries at most three times and remembers the outcome. *)
Theorem write_tokens_dirty o w b o' w' :
  oauth_write_tokens (o, w) = Done (b, (o', w')) -> oa_tokens_dirty o' = negb b.
Proof.
  unfold oauth_write_tokens. generalize BX_OAUTH_WRITE_ATTEMPTS. intros n.
  revert o w. induction n as [|n IH]; intros o w E; cbn [write_attempts] in E.
  - by injection E as <- <- <-.
  - apply bind_Done in E as (ok & [o1 w1] & _ & E). destruct ok; [|by eapply IH].
    by injection E as <- <- <-.
Qed.
End Lock.

(** ** The transaction that writes the tokens *)

Inductive sql_event :=
| EQuery (sql : string)
| EStatement
| EPrepare (sql : string)
| EExec (binds : list bind_value)
| EConf (key : string) (value : bind_value).

(** A recording world: statements and configuration writes answer by a function
    of the history. *)
Section Recording.
Context `{Jansson} (ans : list sql_event -> bool).

Definition record_ (e : sql_event) (h : list sql_event) : bool * list sql_event :=
  (ans h, h ++ [e]).

Definition sql_env : OAuthEnv (list sql_event) :=
  {| oe_malloc h := (true, h);
     oe_conf_get_string _ h := (None, h);
     oe_conf_get_int _ h := (0, h);
     oe_conf_set_string key v := record_ (EConf key (BString v));
     oe_conf_set_int key v := record_ (EConf key (BInt v));
     oe_conf_release _ h := (tt, h);
     oe_conf_load_database h := (true, h);
     oe_mysql_init h := (Some 1, h);
     oe_real_connect _ _ _ _ _ h := (true, h);
     oe_mysql_close _ h := (tt, h);
     oe_mysql_query _ sql := record_ (EQuery sql);
     oe_store_result _ h := (None, h);
     oe_stmt_init _ h := (if ans h then Some 1 else None, h ++ [EStatement]);
     oe_stmt_prepare _ sql := record_ (EPrepare sql);
     oe_stmt_execute _ binds := record_ (EExec binds);
     oe_stmt_close _ h := (tt, h);
     oe_nv_list h := (true, h);
     oe_http_ctx h := (true, h);
     oe_http_auth h := (true, h);
     oe_post_form _ h := (None, h);
     oe_decode_object _ h := (None, h);
     oe_json_string _ _ := None;
     oe_json_number _ _ := 0;
     oe_time h := (0, h) |}.

(** The steps of a write, in order. *)
Definition write_events (refresh access : string) (exp : Z) : list sql_event :=
  [EQuery "START TRANSACTION"; EStatement; EPrepare UPSERT_SQL;
   EExec [BString "oauth-refresh-token"; BString "string"; BNull; BString refresh];
   EExec [BString "oauth-access-token"; BString "string"; BNull; BString access];
   EExec [BString "oauth-expires-at"; BString "integer"; BInt exp; BNull];
   EQuery "COMMIT"].
(** The copies in the configuration. *)
Definition conf_events (refresh access : string) (exp : Z) : list sql_event :=
  [EConf "oauth-refresh-token" (BString refresh); EConf "oauth-access-token" (BString access);
   EConf "oauth-expires-at" (BInt exp)].

(** The steps made from the history [h] when the first that is refused is the last,
    and whether none was refused. *)
Fixpoint until_refused (h l : list sql_event) : list sql_event * bool :=
  match l with
  | [] => ([], true)
  | e :: l =>
      if ans h then let '(tr, ok) := until_refused (h ++ [e]) l in (e :: tr, ok) else ([e], false)
  end.

(** Claim C35. With the lock held and tokens to write, [oauth_write_once] makes the steps
    of the transaction, the refresh token first, up to the first that the server refuses,
    and returns whether it refused none.  A refused START TRANSACTION is the end; after
    any other refusal, that of COMMIT too, ROLLBACK follows and nothing else.  Only a
    committed write touches the configuration in memory, whose failures do not change
    the result. *)
Theorem write_once_transaction o c refresh access h :
  oa_lock_conn o = Some c -> oa_lock_held o = true ->
  oa_refresh_token o = Some refresh -> oa_access_token o = Some access ->
  0 <= oa_expires_at o <= INT_MAX ->
  let '(tr, ok) := until_refused h (write_events refresh access (oa_expires_at o)) in
  @oauth_write_once _ _ _ sql_env (o, h)
  = Done (ok, (o, h ++ tr ++
      if ok then (until_refused (h ++ tr) (conf_events refresh access (oa_expires_at o))).1
      else if decide (length tr = 1%nat) then [] else [EQuery "ROLLBACK"])).
Proof.
  intros Hc Hh Hr Ha He.
  assert ((oa_expires_at o <? 0) || (INT_MAX <? oa_expires_at o) = false) as Hrange.
  { by rewrite (proj2 (Z.ltb_ge _ _)), (proj2 (Z.ltb_ge _ _)) by lia. }
  unfold oauth_write_once, write_rows, oauth_upsert, keep_tokens, call, oa_get, gets, bind, assert_,
    lift_option, ret, write_events, conf_events.
  cbn [fst snd until_refused oe_mysql_query oe_stmt_init oe_stmt_prepare oe_stmt_execute oe_stmt_close
    oe_conf_set_string oe_conf_set_int sql_env record_].
  rewrite Hc, Hh, bool_decide_eq_true_2 by done. cbn [fst snd]. rewrite Ha, Hr, Hrange.
  cbn [fst snd until_refused].
  repeat (rewrite <- ?app_assoc; cbn [negb fst snd app length until_refused];
    match goal with |- context[ans ?x] => destruct (ans x) end).
  all: cbn [negb fst snd app length until_refused]; rewrite <- ?app_assoc; reflexivity.
Qed.
End Recording.

(** ** A process with tokens *)

#[local] Instance accepting : OAuthEnv (list sql_event) := sql_env (fun _ => true).

Definition with_tokens (lock : option Z) (held : bool) : BXOAuth :=
  mkOAuth "client" "http://127.0.0.1:8765/callback" "openid" (Some "access") (Some "refresh")
    1000 false lock held false.

(** A server that grants the lock and has no rows; the world is the last query. *)
#[local] Instance granting : OAuthEnv string :=
  {| oe_malloc w := (true, w); oe_conf_get_string _ w := (Some "bx"%string, w);
     oe_conf_get_int _ w := (0, w); oe_conf_set_string _ _ w := (true, w);
     oe_conf_set_int _ _ w := (true, w); oe_conf_release _ w := (tt, w);
     oe_conf_load_database w := (true, w); oe_mysql_init w := (Some 1, w);
     oe_real_connect _ _ _ _ _ w := (true, w); oe_mysql_close _ w := (tt, w);
     oe_mysql_query _ sql _ := (true, sql);
     oe_store_result _ w := (if str_eq w GET_LOCK_SQL then Some [[Some "1"%string]] else Some [], w);
     oe_stmt_init _ w := (Some 1, w); oe_stmt_prepare _ _ w := (true, w);
     oe_stmt_execute _ _ w := (true, w); oe_stmt_close _ w := (tt, w); oe_nv_list w := (true, w);
     oe_http_ctx w := (true, w); oe_http_auth w := (true, w); oe_post_form _ w := (None, w);
     oe_decode_object _ w := (None, w); oe_json_string _ _ := None; oe_json_number _ _ := 0;
     oe_time w := (0, w) |}.

Lemma ensure_releases_lock_witness :
  exists b o' tr w', bx_oauth_ensure true (with_tokens None false, ([], EmptyString))
    = Done (b, (o', ([] ++ tr, w'))) /\ unlocked o' /\ lock_session b tr.
Proof.
  apply (ensure_releases_lock (W := string)).
  - intros c w rows _ E. cbn in E. injection E as <-. constructor.
  - split; reflexivity.
Defined.

Lemma ensure_usable_token_witness :
  bx_oauth_ensure false (with_tokens None false, [])
  = Done (true, (with_tokens None false, (oe_time (W := list sql_event) []).2)).
Proof. apply ensure_usable_token; reflexivity. Defined.

Lemma write_tokens_dirty_witness :
  exists x, oauth_write_tokens (with_tokens (Some 1) true, []) = Done (true, x)
    /\ oa_tokens_dirty x.1 = negb true.
Proof.
  eexists. split; [reflexivity|].
  eapply (write_tokens_dirty (with_tokens (Some 1) true) []). reflexivity.
Defined.

(** The server refuses the second row. *)
Definition refuses_second (h : list sql_event) : bool := bool_decide (length h <> 4%nat).

Lemma write_once_transaction_witness :
  @oauth_write_once _ _ _ (sql_env refuses_second) (with_tokens (Some 1) true, [])
  = Done (false, (with_tokens (Some 1) true,
      take 5 (write_events "refresh" "access" 1000) ++ [EQuery "ROLLBACK"])).
Proof.
  refine (write_once_transaction refuses_second (with_tokens (Some 1) true) 1 "refresh" "access" []
    eq_refl eq_refl eq_refl eq_refl _).
  unfold INT_MAX. cbn. lia.
Defined.

Lemma redirect_port_local_witness :
  redirect_port ("http://localhost:" +:+ dec 8765 +:+ "/callback") = Some 8765.
Proof. apply redirect_port_local; [by right | lia | right; by exists "callback"]. Defined.
