(* ===== verification/Database.v ===== *)
(** * Prepared queries with named placeholders: [bx_database.c]

    [bx_database_new_query] turns [:name] into [?] and records the names, the
    [bx_database_add_*] functions bind values by name, [bx_database_execute]
    and [bx_database_results] run the statement and read its rows.  Theorems:
    the two passes over the text agree and write inside their arrays unless a
    name is too long; on a text built from literals and placeholders the result
    is the text with [?] and the names in order; binding changes the first
    parameter of that name and no other; an execution that the callers accept
    ran the statement and had no warning. *)
From stdpp Require Export gmap strings.
From S2P Require Import Prelude CLib Env Samples Values Chain Prune.

Definition NUL : ascii := chr 0.

Definition BX_DATABASE_PARAMETER_MAX_NAME_LENGTH : Z := 30.
Definition BX_DB_STATE_COLON : Z := 1.
Definition BX_DB_STATE_VARNAME : Z := 2.

(** [enum enum_field_types], as far as the program names its constants. *)
Inductive enum_field_types :=
| MYSQL_TYPE_DECIMAL | MYSQL_TYPE_TINY | MYSQL_TYPE_SHORT | MYSQL_TYPE_LONG
| MYSQL_TYPE_FLOAT | MYSQL_TYPE_DOUBLE | MYSQL_TYPE_NULL | MYSQL_TYPE_LONGLONG
| MYSQL_TYPE_INT24 | MYSQL_TYPE_DATE | MYSQL_TYPE_TIME | MYSQL_TYPE_DATETIME
| MYSQL_TYPE_DATETIME2 | MYSQL_TYPE_BIT | MYSQL_TYPE_VAR_STRING
| MYSQL_TYPE_STRING | MYSQL_TYPE_BLOB | MYSQL_TYPE_OTHER.
#[global] Instance enum_field_types_eq_dec : EqDecision enum_field_types.
Proof. solve_decision. Defined.

(** What a bound [void *] points to. *)
Inductive pointee `{CDouble} :=
| PInt (v : Z)
| PDouble (v : double)
| PBytes (v : string)
| PBool (v : bool)
| PUuid (hi lo : Z).

Record BXDatabaseParameter `{CDouble} := mkParam {
  p_name : string;
  p_name_length : Z;
  p_value : option pointee;
  p_value_length : Z;
  p_type : enum_field_types;
  p_is_null : bool;
  p_is_unsigned : bool
}.
#[global] Arguments mkParam {_} _ _ _ _ _ _ _.

(** ** The text of a query *)

Definition _is_variable_char (c : ascii) : bool :=
  ((48 <=? code c) && (code c <=? 57)) || ((97 <=? code c) && (code c <=? 122))
  || ((65 <=? code c) && (code c <=? 90)) || (code c =? 95).

Definition has (bit state : Z) : bool := negb (Z.land bit state =? 0).

(** One turn of the counting loop: the state byte and the count. *)
Definition count_step (st : Z * Z) (c : ascii) : Z * Z :=
  let '(state, n) := st in
  let v := _is_variable_char c in
  let state := if has BX_DB_STATE_COLON state && v
               then Z.lor state BX_DB_STATE_VARNAME else state in
  let '(state, n) := if has BX_DB_STATE_VARNAME state && v then (0, n + 1) else (state, n) in
  let state := if has BX_DB_STATE_COLON state && negb v then 0 else state in
  let state := if Ascii.eqb c ":" then Z.lor state BX_DB_STATE_COLON else state in
  (state, n).

(** The loop covers the terminator too ([query_length] counts it). *)
Definition count_params (text : list ascii) : Z :=
  (foldl count_step (0, 0) (text ++ [NUL])).2.

(** The characters of a name and what follows ([k] in the second loop). *)
Fixpoint take_vars (cs : list ascii) : list ascii * list ascii :=
  match cs with
  | c :: rest =>
      if _is_variable_char c
      then let '(name, rest') := take_vars rest in (c :: name, rest')
      else ([], cs)
  | [] => ([], [])
  end.

(** The second loop, which compacts the text in place: it writes at [j <= i],
    so it never reads a character that it has overwritten. *)
Fixpoint rewrite_loop (fuel : nat) (cs : list ascii) : list ascii * list (list ascii) :=
  match fuel, cs with
  | S fuel, c :: rest =>
      match rest with
      | d :: _ =>
          if Ascii.eqb c ":" && _is_variable_char d then
            let '(name, rest') := take_vars rest in
            let '(text, names) := rewrite_loop fuel rest' in
            ("?"%char :: text, (c :: name) :: names)
          else
            let '(text, names) := rewrite_loop fuel rest in (c :: text, names)
      | [] => ([c], [])
      end
  | _, _ => ([], [])
  end.

(** [strncmp] is 0. *)
Fixpoint strncmp_eq (n : nat) (a b : string) : bool :=
  match n, a, b with
  | O, _, _ => true
  | _, EmptyString, EmptyString => true
  | S n, String x a, String y b => Ascii.eqb x y && strncmp_eq n a b
  | _, _, _ => false
  end.

Section Parameters.
Context `{CDouble}.

(** [memcpy] of the name and its terminator at [k - i + 1], in an array of
    [BX_DATABASE_PARAMETER_MAX_NAME_LENGTH] characters. *)
Definition record_name (name : list ascii) : outcome BXDatabaseParameter :=
  let n := Z.of_nat (length name) in
  if n + 1 <? BX_DATABASE_PARAMETER_MAX_NAME_LENGTH
  then Done (mkParam (string_of name) n None 0 MYSQL_TYPE_DECIMAL false false)
  else Fault.

(** The array has room for [room] parameters. *)
Fixpoint record_names (room : Z) (names : list (list ascii))
    : outcome (list BXDatabaseParameter) :=
  match names with
  | [] => Done []
  | name :: names =>
      if room <=? 0 then Fault else
      match record_name name, record_names (room - 1) names with
      | Done p, Done ps => Done (p :: ps)
      | _, _ => Fault
      end
  end.

(** The text that is prepared and the parameters, from the text of the caller. *)
Definition parse_query (text : string) : outcome (string * list BXDatabaseParameter) :=
  let cs := list_of text in
  let '(out, names) := rewrite_loop (S (length cs)) (cs ++ [NUL]) in
  match record_names (count_params cs) names with
  | Done ps => Done (cstr (string_of out), ps)
  | Fault => Fault
  | OutOfFuel => OutOfFuel
  end.


Definition param_named (name : string) (p : BXDatabaseParameter) : bool :=
  strncmp_eq (Z.to_nat BX_DATABASE_PARAMETER_MAX_NAME_LENGTH) name (p_name p).

(** The function [_find_param], then a change of what it points to. *)
Fixpoint on_param (name : string) (f : BXDatabaseParameter -> BXDatabaseParameter)
    (ps : list BXDatabaseParameter) : option (list BXDatabaseParameter) :=
  match ps with
  | [] => None
  | p :: ps =>
      if param_named name p then Some (f p :: ps)
      else match on_param name f ps with
           | Some ps => Some (p :: ps)
           | None => None
           end
  end.
Definition _find_param (name : string) (ps : list BXDatabaseParameter)
    : option BXDatabaseParameter :=
  find (param_named name) ps.
End Parameters.

Example parse_query_ex :
  let _ := sample_double in
  match parse_query "SELECT a FROM t WHERE b = :b_id AND c=:c::d: e" with
  | Done (q, ps) => Some (q, p_name <$> ps)
  | _ => None
  end = Some ("SELECT a FROM t WHERE b = ? AND c=?:?: e", [":b_id"; ":c"; ":d"]).
Proof. reflexivity. Qed.

(** ** The two passes agree *)

Lemma variable_not_colon c : _is_variable_char c = true -> Ascii.eqb c ":" = false.
Proof. intros Hv. destruct (Ascii.eqb_spec c ":") as [->|]; [discriminate Hv | done]. Qed.

Lemma count_step_out n c :
  count_step (0, n) c = (if Ascii.eqb c ":" then 1 else 0, n).
Proof. unfold count_step. by destruct (_is_variable_char c), (Ascii.eqb c ":"). Qed.

Lemma count_step_colon n c :
  count_step (1, n) c =
  if _is_variable_char c then (0, n + 1) else (if Ascii.eqb c ":" then 1 else 0, n).
Proof.
  unfold count_step. destruct (_is_variable_char c) eqn:Hv.
  - by rewrite (variable_not_colon c Hv).
  - by destruct (Ascii.eqb c ":").
Qed.

Lemma take_vars_spec cs name rest :
  take_vars cs = (name, rest) ->
  cs = name ++ rest /\ Forall (fun c => _is_variable_char c = true) name
  /\ match rest with c :: _ => _is_variable_char c = false | [] => True end.
Proof.
  revert name rest. induction cs as [|c cs IH]; intros name rest E; cbn in E.
  - injection E as <- <-. by repeat constructor.
  - destruct (_is_variable_char c) eqn:Hc; [|by injection E as <- <-].
    destruct (take_vars cs) as [nm r] eqn:Et. injection E as <- <-.
    destruct (IH _ _ eq_refl) as (-> & Hf & Hr). by repeat constructor.
Qed.

Lemma count_over_name name n rest :
  Forall (fun c => _is_variable_char c = true) name ->
  foldl count_step (0, n) (name ++ rest) = foldl count_step (0, n) rest.
Proof.
  induction 1 as [|c name Hc _ IH]; [done|].
  cbn [app foldl]. by rewrite count_step_out, (variable_not_colon c Hc).
Qed.

Lemma rewrite_loop_count fuel cs n :
  (length cs <= fuel)%nat ->
  (foldl count_step (0, n) cs).2 = n + Z.of_nat (length (rewrite_loop fuel cs).2).
Proof.
  revert cs n. induction fuel as [|fuel IH]; intros [|c rest] n Hf; try (cbn in *; lia).
  destruct rest as [|d rest].
  { cbn [foldl rewrite_loop snd length]. rewrite count_step_out. cbn. lia. }
  cbn [rewrite_loop]. cbn [length] in Hf.
  destruct (Ascii.eqb c ":") eqn:Hc; cbn [andb].
  - cbn [foldl]. rewrite count_step_out, Hc.
    destruct (_is_variable_char d) eqn:Hd.
    + rewrite count_step_colon, Hd. cbn [take_vars]. rewrite Hd.
      destruct (take_vars rest) as [name rest'] eqn:Et.
      destruct (take_vars_spec _ _ _ Et) as (-> & Hn & _).
      rewrite length_app in Hf.
      rewrite count_over_name, IH by (done || lia).
      destruct (rewrite_loop fuel rest') as [out names]. cbn [snd length]. lia.
    + rewrite count_step_colon, Hd, <- (count_step_out n d).
      change (foldl count_step (count_step (0, n) d) rest)
        with (foldl count_step (0, n) (d :: rest)).
      rewrite IH by (cbn; lia). by destruct (rewrite_loop fuel (d :: rest)).
  - change (foldl count_step (0, n) (c :: d :: rest))
      with (foldl count_step (count_step (0, n) c) (d :: rest)).
    rewrite count_step_out, Hc, IH by (cbn; lia).
    by destruct (rewrite_loop fuel (d :: rest)).
Qed.

(** ** Texts as sequences of literals and placeholders *)

Inductive token := Lit (c : ascii) | Par (name : list ascii).

Definition render_token (t : token) : list ascii :=
  match t with Lit c => [c] | Par name => ":"%char :: name end.
Definition mark_token (t : token) : ascii := match t with Lit c => c | Par _ => "?"%char end.
Definition render (ts : list token) : list ascii := ts ≫= render_token.
Definition marks (ts : list token) : list ascii := mark_token <$> ts.
Definition names (ts : list token) : list (list ascii) :=
  ts ≫= fun t => match t with Par name => [":"%char :: name] | Lit _ => [] end.

Definition starts_variable (cs : list ascii) : bool :=
  match cs with c :: _ => _is_variable_char c | [] => false end.

(** A literal colon is not followed by a name; a name is not empty and stops
    where its characters do. *)
Fixpoint tokens_ok (ts : list token) : bool :=
  match ts with
  | [] => true
  | Lit c :: ts =>
      negb (Ascii.eqb c NUL) && negb (Ascii.eqb c ":" && starts_variable (render ts))
      && tokens_ok ts
  | Par name :: ts =>
      negb (Nat.eqb (length name) 0) && forallb _is_variable_char name
      && negb (starts_variable (render ts)) && tokens_ok ts
  end.

Lemma take_vars_app name rest :
  forallb _is_variable_char name = true -> starts_variable rest = false ->
  take_vars (name ++ rest) = (name, rest).
Proof.
  induction name as [|c name IH]; cbn; intros Hn Hr.
  - destruct rest as [|d rest]; [done|]. cbn in *. by rewrite Hr.
  - apply andb_true_iff in Hn as [Hc Hn]. by rewrite Hc, IH.
Qed.

Lemma starts_variable_end cs : starts_variable (cs ++ [NUL]) = starts_variable cs.
Proof. by destruct cs. Qed.

Lemma rewrite_loop_tokens ts fuel :
  tokens_ok ts = true -> (length (render ts) < fuel)%nat ->
  rewrite_loop fuel (render ts ++ [NUL]) = (marks ts ++ [NUL], names ts).
Proof.
  revert fuel. induction ts as [|[c|name] ts IH]; intros [|fuel] Hok Hf;
    try (cbn in Hf; lia); [done| |].
  - cbn [tokens_ok] in Hok. apply andb_true_iff in Hok as [[_ Hc]%andb_true_iff Hok].
    change (render (Lit c :: ts)) with (c :: render ts) in *.
    cbn [app rewrite_loop]. rewrite <- starts_variable_end in Hc.
    rewrite IH by (cbn in Hf; done || lia).
    destruct (render ts ++ [NUL]) as [|d rest] eqn:Er; [by destruct (render ts)|].
    cbn [starts_variable] in Hc. apply negb_true_iff in Hc. by rewrite Hc.
  - cbn [tokens_ok] in Hok.
    apply andb_true_iff in Hok as [[[Hne Hn]%andb_true_iff Hr]%andb_true_iff Hok].
    apply negb_true_iff in Hr. rewrite <- starts_variable_end in Hr.
    change (render (Par name :: ts)) with ((":"%char :: name) ++ render ts) in *.
    rewrite <- app_assoc. cbn [app rewrite_loop].
    rewrite (take_vars_app name (render ts ++ [NUL])) by done.
    destruct name as [|d name]; [done|]. cbn [app].
    cbn [forallb] in Hn. apply andb_true_iff in Hn as [Hd _]. rewrite Hd.
    change (Ascii.eqb ":" ":") with true. cbn [andb].
    rewrite IH; [done|done|]. rewrite length_app in Hf. cbn in Hf. lia.
Qed.

Section ParseSpec.
Context `{CDouble}.

(** The parameter of a name nobody has bound yet. *)
Definition unbound (name : list ascii) : BXDatabaseParameter :=
  mkParam (string_of name) (Z.of_nat (length name)) None 0 MYSQL_TYPE_DECIMAL false false.
(** With its colon and two bytes to spare in the array. *)
Definition name_fits (name : list ascii) : bool :=
  Z.of_nat (length name) + 1 <? BX_DATABASE_PARAMETER_MAX_NAME_LENGTH.

Lemma record_names_spec room nms :
  Z.of_nat (length nms) <= room ->
  record_names room nms = if forallb name_fits nms then Done (unbound <$> nms) else Fault.
Proof.
  revert room. induction nms as [|n nms IH]; intros room Hr; [done|].
  cbn [record_names forallb]. cbn [length] in Hr.
  destruct (Z.leb_spec room 0); [lia|]. rewrite IH by lia.
  unfold record_name. cbv zeta. fold (name_fits n).
  destruct (name_fits n); cbn [andb]; [|done]. by destruct (forallb name_fits nms).
Qed.

(** The text after the second pass. *)
Definition rewritten (text : string) : list ascii * list (list ascii) :=
  rewrite_loop (S (length (list_of text))) (list_of text ++ [NUL]).

Lemma parse_query_eq text :
  parse_query text =
  if forallb name_fits (rewritten text).2
  then Done (cstr (string_of (rewritten text).1), unbound <$> (rewritten text).2)
  else Fault.
Proof.
  unfold parse_query, count_params.
  rewrite (rewrite_loop_count (S (length (list_of text)))) by (rewrite length_app; cbn; lia).
  unfold rewritten. destruct (rewrite_loop _ _) as [out nms]. cbn [fst snd].
  rewrite record_names_spec by lia. by destruct (forallb name_fits nms).
Qed.

(** Claim C40. The array that the counting pass sizes has a place for every name that the
    second pass records, whatever the text: the only write past an array is
    that of a name of 29 characters or more, colon included. *)
Theorem parse_query_bounds text :
  if forallb name_fits (rewritten text).2
  then exists q ps, parse_query text = Done (q, ps)
       /\ Z.of_nat (length ps) = count_params (list_of text)
  else parse_query text = Fault.
Proof.
  rewrite parse_query_eq. destruct (forallb _ _); [|done].
  eexists _, _. split; [done|]. unfold count_params.
  rewrite (rewrite_loop_count (S (length (list_of text)))) by (rewrite length_app; cbn; lia).
  by rewrite length_fmap.
Qed.

Lemma cstr_marks ts : tokens_ok ts = true -> cstr (string_of (marks ts ++ [NUL])) = string_of (marks ts).
Proof.
  induction ts as [|[c|name] ts IH]; cbn [tokens_ok]; intros Hok; [done| |].
  - apply andb_true_iff in Hok as [[Hc _]%andb_true_iff Hok].
    apply negb_true_iff in Hc. cbn. unfold NUL in Hc. change (chr 0) with "000"%char in Hc.
    rewrite Hc. f_equal. by apply IH.
  - apply andb_true_iff in Hok as [_ Hok]. cbn. f_equal. by apply IH.
Qed.

(** A text of literals and placeholders is prepared with each placeholder
    replaced by [?], and its parameters are the placeholders in order, none
    bound. *)
Theorem parse_query_tokens ts :
  tokens_ok ts = true -> forallb name_fits (names ts) = true ->
  parse_query (string_of (render ts)) = Done (string_of (marks ts), unbound <$> names ts).
Proof.
  intros Hok Hn. rewrite parse_query_eq. unfold rewritten.
  rewrite list_of_string_of, rewrite_loop_tokens by (done || lia).
  cbn [fst snd]. by rewrite Hn, cstr_marks.
Qed.
End ParseSpec.

(** ** Binding values *)

Section Binding.
Context `{CDouble}.

Definition set_binding (v : option pointee) (len : Z) (ty : enum_field_types)
    (null unsigned : bool) (p : BXDatabaseParameter) : BXDatabaseParameter :=
  mkParam (p_name p) (p_name_length p) v len ty null unsigned.

Definition set_null (p : BXDatabaseParameter) : BXDatabaseParameter :=
  set_binding None 0 MYSQL_TYPE_NULL true (p_is_unsigned p) p.

Definition replace_value (v : pointee) (len : Z) (p : BXDatabaseParameter) : BXDatabaseParameter :=
  set_binding (Some v) len (p_type p) (p_is_null p) (p_is_unsigned p) p.

Definition is_none {A} (o : option A) : bool := match o with None => true | _ => false end.

Definition bx_database_replace_param (ps : list BXDatabaseParameter) (name : string)
    (v : pointee) (len : Z) : option (list BXDatabaseParameter) :=
  on_param name (replace_value v len) ps.
Definition bx_database_add_param_str (ps : list BXDatabaseParameter) (name : string)
    (v : option pointee) (len : Z) (ty : enum_field_types)
    : option (list BXDatabaseParameter) :=
  on_param name (set_binding v len ty (is_none v) false) ps.
Definition bx_database_add_param_int (ps : list BXDatabaseParameter) (name : string)
    (v : option pointee) (len : Z) (ty : enum_field_types) (unsigned : bool)
    : option (list BXDatabaseParameter) :=
  on_param name (set_binding v len ty (is_none v) unsigned) ps.

Definition add_bxint (v : BXInteger) (p : BXDatabaseParameter) : BXDatabaseParameter :=
  if int_isset v
  then set_binding (Some (PInt (int_value v))) 8 MYSQL_TYPE_LONGLONG false false p
  else set_null p.
Definition add_bxuint (v : BXUInteger) (p : BXDatabaseParameter) : BXDatabaseParameter :=
  if uint_isset v
  then set_binding (Some (PInt (uint_value v))) 8 MYSQL_TYPE_LONGLONG false false p
  else set_null p.
Definition add_bxstr (v : BXString) (p : BXDatabaseParameter) : BXDatabaseParameter :=
  match str_isset v, str_value v with
  | true, Some s => set_binding (Some (PBytes s)) (strlen s) MYSQL_TYPE_STRING false false p
  | _, _ => set_null p
  end.
Definition add_bxfloat (v : BXFloat) (p : BXDatabaseParameter) : BXDatabaseParameter :=
  if float_isset v
  then set_binding (Some (PDouble (float_value v))) 8 MYSQL_TYPE_DOUBLE false false p
  else set_null p.
Definition add_bxbool (v : BXBool) (p : BXDatabaseParameter) : BXDatabaseParameter :=
  if bool_isset v
  then set_binding (Some (PBool (bool_value v))) 1 MYSQL_TYPE_TINY false false p
  else set_null p.
Definition add_bxbytes (v : BXBytes) (p : BXDatabaseParameter) : BXDatabaseParameter :=
  match bytes_isset v, bytes_value v with
  | true, Some s => set_binding (Some (PBytes s)) (strlen s) MYSQL_TYPE_BLOB false false p
  | _, _ => set_null p
  end.
Definition add_bxuuid (v : BXUuid) (p : BXDatabaseParameter) : BXDatabaseParameter :=
  if uuid_isset v
  then set_binding (Some (PUuid (uuid_hi v) (uuid_lo v))) 16 MYSQL_TYPE_BLOB false false p
  else set_null p.

(** A type it does not know binds NULL (with a message). *)
Definition bind_bxtype (v : BXAny) : BXDatabaseParameter -> BXDatabaseParameter :=
  match v with
  | VInteger v => add_bxint v
  | VUInteger v => add_bxuint v
  | VString v => add_bxstr v
  | VFloat v => add_bxfloat v
  | VBool v => add_bxbool v
  | VBytes v => add_bxbytes v
  | VUuid v => add_bxuuid v
  | VIntID _ => set_null
  end.
Definition bx_database_add_bxtype (ps : list BXDatabaseParameter) (name : string) (v : BXAny)
    : option (list BXDatabaseParameter) :=
  on_param name (bind_bxtype v) ps.

(** [MYSQL_BIND], as far as it is filled. *)
Record MYSQL_BIND := mkBind {
  b_buffer_type : enum_field_types;
  b_buffer : option pointee;
  b_buffer_length : Z;
  b_length : option Z;               (* what [length] points to *)
  b_is_null : bool;                  (* what [is_null] points to *)
  b_is_unsigned : bool
}.

(** The bind of a parameter, over a zeroed one, and the parameter, which the
    function normalises; a string type whose value is [NULL] becomes NULL. *)
Definition _bx_database_param_to_bind (p : BXDatabaseParameter)
    : MYSQL_BIND * BXDatabaseParameter :=
  if p_is_null p then
    (mkBind MYSQL_TYPE_NULL None 0 (Some 0) true false,
     set_binding (p_value p) 0 (p_type p) true (p_is_unsigned p) p)
  else
    match p_type p with
    | MYSQL_TYPE_TINY | MYSQL_TYPE_SHORT | MYSQL_TYPE_LONG | MYSQL_TYPE_LONGLONG =>
        (mkBind (p_type p) (p_value p) 0 None false (p_is_unsigned p), p)
    | MYSQL_TYPE_VAR_STRING | MYSQL_TYPE_STRING | MYSQL_TYPE_BLOB =>
        match p_value p with
        | None =>
            (mkBind MYSQL_TYPE_NULL None 0 (Some 0) true false,
             set_binding None 0 (p_type p) true (p_is_unsigned p) p)
        | Some v => (mkBind (p_type p) (Some v) (p_value_length p) (Some (p_value_length p))
                       false false, p)
        end
    | ty => (mkBind ty (p_value p) 0 None false false, p)
    end.

(** The number the server reads in the eight bytes of an integer. *)
Definition wire (unsigned : bool) (v : pointee) : pointee :=
  match v with PInt n => PInt (if unsigned then u64 n else i64 n) | v => v end.

(** What the server receives for a parameter. *)
Definition sent (p : BXDatabaseParameter) : option pointee :=
  let b := (_bx_database_param_to_bind p).1 in
  if b_is_null b then None else wire (b_is_unsigned b) <$> b_buffer b.

(** What a value means in SQL: NULL when it is not set; an unsigned integer
    travels as a signed one. *)
Definition sql_value (v : BXAny) : option pointee :=
  match v with
  | VInteger v => if int_isset v then Some (PInt (i64 (int_value v))) else None
  | VUInteger v => if uint_isset v then Some (PInt (i64 (uint_value v))) else None
  | VFloat v => if float_isset v then Some (PDouble (float_value v)) else None
  | VString v => if str_isset v then PBytes <$> str_value v else None
  | VBool v => if bool_isset v then Some (PBool (bool_value v)) else None
  | VBytes v => if bytes_isset v then PBytes <$> bytes_value v else None
  | VUuid v => if uuid_isset v then Some (PUuid (uuid_hi v) (uuid_lo v)) else None
  | VIntID _ => None
  end.

Lemma on_param_spec name f ps :
  on_param name f ps =
  match list_find (fun p => param_named name p = true) ps with
  | Some (i, p) => Some (<[i := f p]> ps)
  | None => None
  end.
Proof.
  induction ps as [|p ps IH]; [done|]. cbn [on_param list_find].
  destruct (param_named name p) eqn:E.
  - by rewrite decide_True.
  - rewrite decide_False by congruence. rewrite IH.
    by destruct (list_find _ ps) as [[i q]|].
Qed.

Lemma bind_bxtype_name v p : p_name (bind_bxtype v p) = p_name p.
Proof. destruct v; cbn; unfold add_bxint, add_bxuint, add_bxfloat, add_bxstr, add_bxbool, add_bxbytes, add_bxuuid; by repeat case_match. Qed.

Lemma sent_bind_bxtype v p : sent (bind_bxtype v p) = sql_value v.
Proof.
  destruct v as [v|v|v|v|v|v|v|v]; cbn;
    unfold add_bxint, add_bxuint, add_bxfloat, add_bxstr, add_bxbool, add_bxbytes, add_bxuuid;
    by repeat case_match.
Qed.

(** Binding a value by name: no parameter of that name and nothing happens;
    otherwise the first one of the name, and no other, will send the value,
    or NULL when the value is not set. *)
Theorem add_bxtype_spec ps name v :
  match bx_database_add_bxtype ps name v with
  | None => Forall (fun p => param_named name p = false) ps
  | Some ps' =>
      exists before p after, ps = before ++ p :: after
      /\ Forall (fun p => param_named name p = false) before
      /\ param_named name p = true
      /\ exists p', ps' = before ++ p' :: after
         /\ p_name p' = p_name p /\ sent p' = sql_value v
  end.
Proof.
  unfold bx_database_add_bxtype. induction ps as [|p ps IH]; cbn [on_param]; [done|].
  destruct (param_named name p) eqn:E.
  - exists [], p, ps. split_and!; [done..|]. eexists. split_and!; [done| |].
    + apply bind_bxtype_name.
    + apply sent_bind_bxtype.
  - destruct (on_param name _ ps) as [ps'|]; [|by constructor].
    destruct IH as (before & q & after & -> & Hb & Hq & q' & -> & Hn & Hs).
    exists (p :: before), q, after. split_and!; [done|by constructor|done|].
    by exists q'.
Qed.
End Binding.
#[global] Arguments mkBind {_} _ _ _ _ _ _.

(** What [calloc] gives. *)
Definition zero_bind `{CDouble} : MYSQL_BIND := mkBind MYSQL_TYPE_DECIMAL None 0 None false false.

(** ** Running a statement *)

Definition MYSQL_NO_DATA : Z := 100.

Record MYSQL_FIELD := mkField { f_name : string; f_type : enum_field_types }.

Record BXDatabaseColumn `{CDouble} := mkColumn {
  c_column : Z;
  c_i_value : Z;
  c_f_value : double;
  c_c_value : option string;
  c_value_len : Z;
  c_type : enum_field_types;
  c_is_null : bool
}.
#[global] Arguments mkColumn {_} _ _ _ _ _ _ _.

Record BXDatabaseRow `{CDouble} := mkRow { row_id : Z; row_columns : list BXDatabaseColumn }.
#[global] Arguments mkRow {_} _ _.

Record BXDatabaseQuery `{CDouble} := mkQuery {
  q_stmt : Z;
  q_query : string;
  q_has_dataset : bool;
  q_has_failed : bool;
  q_need_reconnect : bool;
  q_had_fk_error : bool;
  q_affected_rows : Z;
  q_warning_rows : Z;
  q_result_metadata : option (list MYSQL_FIELD);
  q_binds : option (list MYSQL_BIND);
  q_parameters : list BXDatabaseParameter;
  q_fields : option (list (Z * option string));
  q_results : list BXDatabaseRow;
  q_row_count : Z;
  q_executed : bool
}.
#[global] Arguments mkQuery {_} _ _ _ _ _ _ _ _ _ _ _ _ _ _ _.

(** The part of the client library that works on a statement handle, and the
    allocator.  A [mysql_stmt_fetch] gives its code and what it stored through
    the binds of the columns: the number, the double, the length, the NULL flag. *)
Record fetched `{CDouble} := mkFetched {
  x_i : Z; x_f : double; x_len : Z; x_null : bool
}.
#[global] Arguments mkFetched {_} _ _ _ _.

Class StmtEnv `{CDouble} (W : Type) := {
  memory : prog W bool;
  stmt_init : MYSQL -> prog W (option Z);
  stmt_close : Z -> prog W unit;
  stmt_reset : Z -> prog W unit;
  stmt_prepare : Z -> string -> prog W bool;
  stmt_bind_param : Z -> list MYSQL_BIND -> prog W bool;
  stmt_execute : Z -> prog W bool;
  stmt_errno : Z -> prog W Z;
  stmt_affected_rows : Z -> prog W Z;
  stmt_result_metadata : Z -> prog W (option (list MYSQL_FIELD));
  stmt_warning_count : Z -> prog W Z;
  stmt_bind_result : Z -> prog W bool;
  stmt_fetch : Z -> prog W (Z * list fetched);
  stmt_fetch_column : Z -> Z -> Z -> prog W (option string);
  stmt_conn : Z -> prog W MYSQL;
  show_warnings : Z -> prog W bool;
  store_result : Z -> prog W (option (list (option string)));   (* the second column *)
  conn_errno : Z -> prog W Z
}.

Section Setters.
Context `{CDouble}.

Definition with_reconnect (b : bool) (q : BXDatabaseQuery) : BXDatabaseQuery :=
  let '(mkQuery st t ds hf rc fk ar wr md bi pa fi re n ex) := q in
  mkQuery st t ds hf b fk ar wr md bi pa fi re n ex.
Definition with_failed (b : bool) (q : BXDatabaseQuery) : BXDatabaseQuery :=
  let '(mkQuery st t ds hf rc fk ar wr md bi pa fi re n ex) := q in
  mkQuery st t ds b rc fk ar wr md bi pa fi re n ex.
Definition with_fk_error (b : bool) (q : BXDatabaseQuery) : BXDatabaseQuery :=
  let '(mkQuery st t ds hf rc fk ar wr md bi pa fi re n ex) := q in
  mkQuery st t ds hf rc b ar wr md bi pa fi re n ex.
Definition with_affected (z : Z) (q : BXDatabaseQuery) : BXDatabaseQuery :=
  let '(mkQuery st t ds hf rc fk ar wr md bi pa fi re n ex) := q in
  mkQuery st t ds hf rc fk z wr md bi pa fi re n ex.
Definition with_warnings (z : Z) (q : BXDatabaseQuery) : BXDatabaseQuery :=
  let '(mkQuery st t ds hf rc fk ar wr md bi pa fi re n ex) := q in
  mkQuery st t ds hf rc fk ar z md bi pa fi re n ex.
Definition with_dataset (b : bool) (m : option (list MYSQL_FIELD)) (q : BXDatabaseQuery)
    : BXDatabaseQuery :=
  let '(mkQuery st t ds hf rc fk ar wr md bi pa fi re n ex) := q in
  mkQuery st t b hf rc fk ar wr m bi pa fi re n ex.
Definition with_binds (b : option (list MYSQL_BIND)) (q : BXDatabaseQuery) : BXDatabaseQuery :=
  let '(mkQuery st t ds hf rc fk ar wr md bi pa fi re n ex) := q in
  mkQuery st t ds hf rc fk ar wr md b pa fi re n ex.
Definition with_parameters (ps : list BXDatabaseParameter) (q : BXDatabaseQuery)
    : BXDatabaseQuery :=
  let '(mkQuery st t ds hf rc fk ar wr md bi pa fi re n ex) := q in
  mkQuery st t ds hf rc fk ar wr md bi ps fi re n ex.
Definition with_results (f : option (list (Z * option string))) (rows : list BXDatabaseRow)
    (q : BXDatabaseQuery) : BXDatabaseQuery :=
  let '(mkQuery st t ds hf rc fk ar wr md bi pa fi re n ex) := q in
  mkQuery st t ds hf rc fk ar wr md bi pa f rows n ex.
Definition with_row_count (z : Z) (q : BXDatabaseQuery) : BXDatabaseQuery :=
  let '(mkQuery st t ds hf rc fk ar wr md bi pa fi re n ex) := q in
  mkQuery st t ds hf rc fk ar wr md bi pa fi re z ex.
Definition with_executed (b : bool) (q : BXDatabaseQuery) : BXDatabaseQuery :=
  let '(mkQuery st t ds hf rc fk ar wr md bi pa fi re n ex) := q in
  mkQuery st t ds hf rc fk ar wr md bi pa fi re n b.
End Setters.

Section Statements.
Context `{CDouble} {W : Type} `{!StmtEnv W}.

Definition lost (errno : Z) : bool :=
  (errno =? CR_SERVER_GONE_ERROR) || (errno =? CR_SERVER_LOST) || (errno =? CR_CONN_HOST_ERROR).

Definition mark_stmt_reconnect (q : BXDatabaseQuery) : prog W BXDatabaseQuery :=
  errno <- stmt_errno (q_stmt q) ;;
  ret (if lost errno then with_reconnect true q else q).
Definition mark_conn_reconnect (conn : Z) (q : BXDatabaseQuery) : prog W BXDatabaseQuery :=
  errno <- conn_errno conn ;;
  ret (if lost errno then with_reconnect true q else q).

Definition bx_database_free_result (q : BXDatabaseQuery) : BXDatabaseQuery :=
  with_results None [] q.
Definition free_query_metadata (q : BXDatabaseQuery) : BXDatabaseQuery :=
  match q_result_metadata q with
  | Some _ => with_dataset false None q
  | None => q
  end.
Definition bx_database_free_query (q : option BXDatabaseQuery) : prog W unit :=
  match q with
  | None => ret tt
  | Some q => stmt_close (q_stmt q)
  end.

Definition bx_database_new_query (mysql : MYSQL) (query : option string)
    : prog W (option BXDatabaseQuery) :=
  match query with
  | None => fault                                        (* the assert *)
  | Some text =>
      m <- memory ;;
      if negb m then ret None else
      st <- stmt_init mysql ;;
      match st with
      | None => ret None
      | Some st =>
          if strlen text =? 0 then stmt_close st ;;; ret None else
          m <- memory ;;
          if negb m then stmt_close st ;;; ret None else
          m <- memory ;;
          if negb m then stmt_close st ;;; ret None else
          let* (sql, ps) := fun w => match parse_query text with
                                     | Done r => Done (r, w)
                                     | Fault => Fault
                                     | OutOfFuel => OutOfFuel
                                     end in
          ret (Some (mkQuery st sql false false false false 0 0 None None ps None [] 0 false))
      end
  end.

Definition fk_code (code_ : option string) : bool :=
  match code_ with
  | Some c => str_eq c "1452" || str_eq c "1216" || str_eq c "1451"
  | None => false
  end.

Definition bx_database_print_warnings (q : BXDatabaseQuery) : prog W BXDatabaseQuery :=
  conn <- stmt_conn (q_stmt q) ;;
  match conn with
  | None => ret q
  | Some conn =>
      sent_ <- show_warnings conn ;;
      if negb sent_ then mark_conn_reconnect conn q else
      rows <- store_result conn ;;
      match rows with
      | None => mark_conn_reconnect conn q
      | Some codes => ret (if existsb fk_code codes then with_fk_error true q else q)
      end
  end.

(** The parameters to binds, in place. *)
Definition fill_binds (q : BXDatabaseQuery) : BXDatabaseQuery :=
  let l := _bx_database_param_to_bind <$> q_parameters q in
  with_parameters (l.*2) (with_binds (Some (l.*1)) q).

(** Fresh or zeroed binds, and the preparation of a first execution; [None]
    is the failure that returns at once. *)
Definition prepare_step (q : BXDatabaseQuery) : prog W (bool * BXDatabaseQuery) :=
  if q_executed q then
    stmt_reset (q_stmt q) ;;;
    let q := bx_database_free_result q in
    match q_binds q with
    | Some _ => ret (true, q)
    | None => m <- memory ;; ret (m, q)
    end
  else
    m <- memory ;;
    if negb m then ret (false, with_binds None q) else
    ok <- stmt_prepare (q_stmt q) (q_query q) ;;
    if ok then ret (true, q)
    else q <- mark_stmt_reconnect 
                (with_binds (Some (replicate (length (q_parameters q)) zero_bind)) q) ;;
         ret (false, q).

(** After a successful [mysql_stmt_execute]: the metadata and the warnings. *)
Definition after_execute (q : BXDatabaseQuery) : prog W (bool * BXDatabaseQuery) :=
  rows <- stmt_affected_rows (q_stmt q) ;;
  meta <- stmt_result_metadata (q_stmt q) ;;
  let q := with_dataset true meta (with_affected rows q) in
  errno <- (match meta with
            | Some _ => ret 0
            | None => stmt_errno (q_stmt q)
            end) ;;
  if negb (errno =? 0) then
    q <- mark_stmt_reconnect (with_failed true q) ;; ret (false, q)
  else
    let q := match meta with Some _ => q | None => with_dataset false None q end in
    warnings <- stmt_warning_count (q_stmt q) ;;
    let q := with_fk_error false (with_warnings warnings (with_executed true q)) in
    if warnings >? 0 then
      q <- bx_database_print_warnings q ;;
      ret (negb (q_need_reconnect q), q)
    else ret (true, q).

Definition bx_database_execute (q : BXDatabaseQuery) : prog W (bool * BXDatabaseQuery) :=
  let* (ready, q) := prepare_step q in
  if negb ready then ret (false, q) else
  let q := fill_binds q in
  bound <- stmt_bind_param (q_stmt q) (default [] (q_binds q)) ;;
  if negb bound then
    q <- mark_stmt_reconnect q ;; ret (false, with_binds None q)
  else
    let q := with_failed false q in
    ok <- stmt_execute (q_stmt q) ;;
    if negb ok then
      q <- mark_stmt_reconnect (with_failed true q) ;; ret (false, q)
    else after_execute q.

Definition bx_database_persist_ok (q : option BXDatabaseQuery) : bool :=
  match q with
  | Some q => negb (q_has_failed q) && negb (q_had_fk_error q) && (q_warning_rows q =? 0)
  | None => false
  end.
Definition bx_database_query_error (q : option BXDatabaseQuery) : BXillError :=
  match q with
  | Some q => if q_need_reconnect q then ErrorSQLReconnect else ErrorGeneric
  | None => ErrorGeneric
  end.
Definition bx_database_get_column_name (q : BXDatabaseQuery) (c : BXDatabaseColumn)
    : option string :=
  match q_fields q with
  | Some fields =>
      match find (fun f => c_column c =? f.1) fields with
      | Some f => f.2
      | None => None
      end
  | None => None
  end.
End Statements.

Section Results.
Context `{CDouble} {W : Type} `{!StmtEnv W}.

Definition stores_int (ty : enum_field_types) : bool :=
  bool_decide (ty ∈ [MYSQL_TYPE_BIT; MYSQL_TYPE_TINY; MYSQL_TYPE_SHORT; MYSQL_TYPE_LONG;
                     MYSQL_TYPE_LONGLONG; MYSQL_TYPE_INT24]).
Definition stores_double (ty : enum_field_types) : bool :=
  bool_decide (ty ∈ [MYSQL_TYPE_FLOAT; MYSQL_TYPE_DOUBLE]).
Definition fetches_text (ty : enum_field_types) : bool :=
  bool_decide (ty ∈ [MYSQL_TYPE_BLOB; MYSQL_TYPE_STRING; MYSQL_TYPE_VAR_STRING]).

(** A column of a zeroed row after [mysql_stmt_fetch]. *)
Definition fetched_column (i : Z) (f : MYSQL_FIELD) (x : fetched) : BXDatabaseColumn :=
  mkColumn i (if stores_int (f_type f) then x_i x else 0)
    (if stores_double (f_type f) then x_f x else double_zero)
    None (x_len x) (f_type f) (x_null x).

(** The second fetch of the text columns, one allocation each. *)
Fixpoint fetch_texts (st : Z) (cols : list BXDatabaseColumn) : prog W (list BXDatabaseColumn) :=
  match cols with
  | [] => ret []
  | c :: cols =>
      c <- (if fetches_text (c_type c) then
              m <- memory ;;
              if negb m then ret c else
              text <- stmt_fetch_column st (c_column c) (c_value_len c) ;;
              match text with
              | Some s =>
                  ret (mkColumn (c_column c) (c_i_value c) (c_f_value c) (Some s)
                         (c_value_len c) (c_type c) (c_is_null c))
              | None =>
                  ret (mkColumn (c_column c) (c_i_value c) (c_f_value c) None 0
                         (c_type c) true)
              end
            else ret c) ;;
      cols <- fetch_texts st cols ;;
      ret (c :: cols)
  end.

Definition with_row (row : BXDatabaseRow) (q : BXDatabaseQuery) : BXDatabaseQuery :=
  with_results (q_fields q) (q_results q ++ [row]) q.

(** A failure in the middle: the rows read so far stay in the query. *)
Definition results_failed (q : BXDatabaseQuery) : prog W (bool * BXDatabaseQuery) :=
  q <- mark_stmt_reconnect q ;;
  ret (false, free_query_metadata q).
Definition results_done (row_count : Z) (q : BXDatabaseQuery) : prog W (bool * BXDatabaseQuery) :=
  ret (true, free_query_metadata (with_row_count (row_count - 1) q)).

(** [while (1)], with [row_count] rows counted so far. *)
Fixpoint results_loop (fuel : nat) (fields : list MYSQL_FIELD) (row_count : Z)
    (q : BXDatabaseQuery) : prog W (bool * BXDatabaseQuery) :=
  match fuel with
  | O => out_of_fuel
  | S fuel =>
      m <- memory ;;
      if negb m then results_done row_count q else
      m <- memory ;;
      if negb m then results_done row_count q else
      bound <- stmt_bind_result (q_stmt q) ;;
      if negb bound then results_failed q else
      let* (code_, cells) := stmt_fetch (q_stmt q) in
      if code_ =? 1 then results_failed q
      else if code_ =? MYSQL_NO_DATA then results_done (row_count + 1) q
      else
        cols <- fetch_texts (q_stmt q)
                  (imap (fun i '(f, x) => fetched_column (Z.of_nat i) f x) (zip fields cells)) ;;
        results_loop fuel fields (row_count + 1) (with_row (mkRow row_count cols) q)
  end.

(** [strdup] of every name; one that fails leaves [NULL]. *)
Fixpoint copy_names (i : Z) (fields : list MYSQL_FIELD) : prog W (list (Z * option string)) :=
  match fields with
  | [] => ret []
  | f :: fields =>
      m <- memory ;;
      names <- copy_names (i + 1) fields ;;
      ret ((i, if m then Some (f_name f) else None) :: names)
  end.

Definition name_fields (fields : list MYSQL_FIELD) (q : BXDatabaseQuery)
    : prog W BXDatabaseQuery :=
  match q_fields q with
  | Some _ => ret q
  | None =>
      m <- memory ;;
      if negb m then ret q else
      names <- copy_names 0 fields ;;
      ret (with_results (Some names) (q_results q) q)
  end.

Definition bx_database_results (fuel : nat) (q : BXDatabaseQuery)
    : prog W (bool * BXDatabaseQuery) :=
  if negb (q_has_dataset q) then ret (negb (q_has_failed q), q) else
  match q_result_metadata q, q_has_failed q with
  | None, _ | _, true => ret (false, q)
  | Some fields, false =>
      if Z.of_nat (length fields) <=? 0 then ret (false, free_query_metadata q) else
      m <- memory ;;
      if negb m then ret (false, free_query_metadata q) else
      q <- name_fields fields q ;;
      results_loop fuel fields 0 q
  end.
End Results.

(** ** An execution that the callers accept *)

Section Accepted.
Context `{CDouble} {W : Type} `{!StmtEnv W}.

Lemma mark_stmt_flags q (w : W) q' w' :
  mark_stmt_reconnect q w = Done (q', w') -> q' = q \/ q' = with_reconnect true q.
Proof.
  unfold mark_stmt_reconnect. intros (e & w1 & _ & E)%bind_Done.
  injection E as <- _. destruct (lost e); auto.
Qed.

Lemma mark_conn_flags conn q (w : W) q' w' :
  mark_conn_reconnect conn q w = Done (q', w') -> q' = q \/ q' = with_reconnect true q.
Proof.
  unfold mark_conn_reconnect. intros (e & w1 & _ & E)%bind_Done.
  injection E as <- _. destruct (lost e); auto.
Qed.

(** Reading the warnings changes at most the two flags it may set. *)
Lemma print_warnings_flags q (w : W) q' w' :
  bx_database_print_warnings q w = Done (q', w') ->
  q' = q \/ q' = with_reconnect true q \/ q' = with_fk_error true q.
Proof.
  unfold bx_database_print_warnings. intros (conn & w1 & _ & E)%bind_Done.
  destruct conn as [conn|]; [|injection E as <- _; auto].
  apply bind_Done in E as (s & w2 & _ & E). destruct s; cbn [negb] in E.
  - apply bind_Done in E as (rows & w3 & _ & E). destruct rows as [codes|].
    + injection E as <- _. destruct (existsb fk_code codes); auto.
    + apply mark_conn_flags in E. naive_solver.
  - apply mark_conn_flags in E. naive_solver.
Qed.

Lemma after_execute_true q (w : W) q' w' :
  after_execute q w = Done ((true, q'), w') -> q_has_failed q = false ->
  q_executed q' = true /\ q_has_failed q' = false
  /\ (q_warning_rows q' = 0 -> q_had_fk_error q' = false).
Proof.
  unfold after_execute. intros (rows & w1 & _ & E)%bind_Done Hf.
  apply bind_Done in E as (meta & w2 & _ & E).
  apply bind_Done in E as (errno & w3 & _ & E).
  destruct (negb (errno =? 0)).
  { apply bind_Done in E as (x & w4 & _ & E). discriminate E. }
  apply bind_Done in E as (n & w4 & _ & E).
  destruct q as [st t ds hf rc fk ar wr md bi pa fi re k ex]. cbn in Hf. subst hf.
  destruct (Z.gtb_spec n 0) as [Hn|Hn].
  - apply bind_Done in E as (q1 & w5 & Hp & E). injection E as Hr <- _.
    apply print_warnings_flags in Hp.
    destruct meta; cbn in *; destruct Hp as [ -> | [ -> | -> ] ]; cbn in *; split_and!; done || lia.
  - injection E as <- _. by destruct meta.
Qed.

(** When [bx_database_execute] returns true the statement ran, and
    [bx_database_persist_ok] is then the absence of warnings: a warning that
    has nothing to do with a foreign key makes the write look lost. *)
Theorem execute_true_persist q (w : W) q' w' :
  bx_database_execute q w = Done ((true, q'), w') ->
  q_executed q' = true /\ q_has_failed q' = false
  /\ (bx_database_persist_ok (Some q') = true <-> q_warning_rows q' = 0).
Proof.
  unfold bx_database_execute. intros ([ready q1] & w1 & _ & E)%bind_Done.
  destruct ready; [|discriminate E]. cbn [negb] in E.
  apply bind_Done in E as (bound & w2 & _ & E).
  destruct bound; cbn [negb] in E; [|apply bind_Done in E as (x & w3 & _ & E); discriminate E].
  apply bind_Done in E as (ok & w3 & _ & E).
  destruct ok; cbn [negb] in E; [|apply bind_Done in E as (x & w4 & _ & E); discriminate E].
  apply after_execute_true in E as (He & Hf & Hw); [|by destruct q1].
  split_and!; [done..|]. unfold bx_database_persist_ok. rewrite Hf. cbn [negb andb].
  rewrite andb_true_iff, negb_true_iff, Z.eqb_eq. naive_solver.
Qed.
End Accepted.

(** ** A server

    A world that answers statements from a function of the text and of the
    values sent, and logs them.  A row is what [mysql_stmt_fetch] stores for
    each column and the text of the column; the world holds the row under the
    cursor and the rows to come. *)

Section Serving.
Context `{CDouble}.

Definition served : Type := list (fetched * option string).

(** The dataset of a statement, if it has one. *)
Definition answers_to : Type :=
  string -> list (option pointee) -> option (list MYSQL_FIELD * list served).

Record server := mkServer {
  sv_text : string;                                    (* prepared *)
  sv_bound : list (option pointee);                    (* values sent *)
  sv_fields : option (list MYSQL_FIELD);
  sv_row : served;
  sv_rest : list served;
  sv_log : list (string * list (option pointee))       (* executed *)
}.

Definition at_cursor (w : server) (row : served) (rest : list served) : server :=
  mkServer (sv_text w) (sv_bound w) (sv_fields w) row rest (sv_log w).

(** What a bind sends. *)
Definition bind_value (b : MYSQL_BIND) : option pointee :=
  if b_is_null b then None else wire (b_is_unsigned b) <$> b_buffer b.

Definition serving (db : answers_to) : StmtEnv server := {|
  memory := ret true;
  stmt_init _ := ret (Some 1);
  stmt_close _ := ret tt;
  stmt_reset _ := ret tt;
  stmt_prepare _ text := fun w =>
    Done (true, mkServer text [] None [] [] (sv_log w));
  stmt_bind_param _ binds := fun w =>
    Done (true, mkServer (sv_text w) (bind_value <$> binds) None [] [] (sv_log w));
  stmt_execute _ := fun w =>
    let entry := (sv_text w, sv_bound w) in
    Done (true, match db (sv_text w) (sv_bound w) with
                | Some (fields, rows) =>
                    mkServer (sv_text w) (sv_bound w) (Some fields) [] rows (sv_log w ++ [entry])
                | None => mkServer (sv_text w) (sv_bound w) None [] [] (sv_log w ++ [entry])
                end);
  stmt_errno _ := ret 0;
  stmt_affected_rows _ := ret 1;
  stmt_result_metadata _ := gets sv_fields;
  stmt_warning_count _ := ret 0;
  stmt_bind_result _ := ret true;
  stmt_fetch _ := fun w =>
    match sv_rest w with
    | [] => Done ((MYSQL_NO_DATA, []), w)
    | row :: rows => Done ((0, row.*1), at_cursor w row rows)
    end;
  stmt_fetch_column _ i _ := fun w =>
    Done (match sv_row w !! Z.to_nat i with Some (_, text) => text | None => None end, w);
  stmt_conn _ := ret (Some 1);
  show_warnings _ := ret true;
  store_result _ := ret None;
  conn_errno _ := ret 0
|}.

(** What the program keeps of a column. *)
Definition read_column (i : Z) (f : MYSQL_FIELD) (x : fetched) (text : option string)
    : BXDatabaseColumn :=
  let c := fetched_column i f x in
  if fetches_text (f_type f) then
    match text with
    | Some s => mkColumn i (c_i_value c) (c_f_value c) (Some s) (x_len x) (f_type f) (x_null x)
    | None => mkColumn i (c_i_value c) (c_f_value c) None 0 (f_type f) true
    end
  else c.

Fixpoint read_row_from (i : Z) (fields : list MYSQL_FIELD) (row : served)
    : list BXDatabaseColumn :=
  match fields, row with
  | f :: fields, (x, text) :: row => read_column i f x text :: read_row_from (i + 1) fields row
  | _, _ => []
  end.

Fixpoint read_rows_from (n : Z) (fields : list MYSQL_FIELD) (rows : list served)
    : list BXDatabaseRow :=
  match rows with
  | [] => []
  | row :: rows => mkRow n (read_row_from 0 fields row) :: read_rows_from (n + 1) fields rows
  end.

Context (db : answers_to).
#[local] Instance serving_db : StmtEnv server := serving db.

Lemma fetch_texts_serving st fields (seen row : served) rows w :
  fetch_texts st
    (imap (fun i '(f, x) => fetched_column (Z.of_nat (length seen + i)) f x)
       (zip fields row.*1)) (at_cursor w (seen ++ row) rows)
  = Done (read_row_from (Z.of_nat (length seen)) fields row, at_cursor w (seen ++ row) rows).
Proof.
  revert seen fields. induction row as [|[x text] row IH]; intros seen [|f fields]; try done.
  cbn [fmap list_fmap zip zip_with imap fetch_texts read_row_from fst].
  specialize (IH (seen ++ [(x, text)]) fields).
  rewrite <- app_assoc in IH. cbn [app] in IH. rewrite length_app in IH. cbn [length] in IH.
  set (cols := imap _ (zip fields row.*1)) in IH.
  assert (imap ((fun i '(f, x) => fetched_column (Z.of_nat (length seen + i)) f x) ∘ S)
            (zip_with pair fields row.*1) = cols) as ->.
  { apply imap_ext. intros i [g y] _. cbn. f_equal. lia. }
  replace (Z.of_nat (length seen + 1)) with (Z.of_nat (length seen) + 1) in IH by lia.
  rewrite Nat.add_0_r. unfold bind at 1. unfold read_column.
  change (c_type (fetched_column (Z.of_nat (length seen)) f x)) with (f_type f).
  destruct (fetches_text (f_type f)).
  - cbn -[fetch_texts Z.of_nat]. unfold served in *. rewrite Nat2Z.id, lookup_app_r, Nat.sub_diag by lia. cbn [lookup list_lookup].
    destruct text as [s|]; cbn -[fetch_texts Z.of_nat]; unfold bind; by rewrite IH.
  - cbn -[fetch_texts Z.of_nat]. unfold bind. by rewrite IH.
Qed.

Lemma results_loop_serving fields rows fuel n q w cur :
  (length rows < fuel)%nat ->
  results_loop fuel fields n q (at_cursor w cur rows)
  = Done ((true, free_query_metadata (with_row_count (n + Z.of_nat (length rows))
            (with_results (q_fields q) (q_results q ++ read_rows_from n fields rows) q))),
          at_cursor w (foldl (fun _ row => row) cur rows) []).
Proof.
  revert fuel n q cur. induction rows as [|row rows IH]; intros [|fuel] n q cur Hf;
    try (cbn in Hf; lia).
  - replace (n + Z.of_nat (length [])) with (n + 1 - 1) by (cbn; lia).
    cbn [read_rows_from]. rewrite app_nil_r. by destruct q.
  - pose proof (fetch_texts_serving (q_stmt q) fields [] row rows w) as E.
    cbn [length Nat.add app] in E. change (Z.of_nat 0) with 0 in E.
    cbn [results_loop].
    do 4 (etrans; [eapply bind_eq; reflexivity|]; cbn beta iota delta [negb]).
    change (0 =? 1) with false. change (0 =? MYSQL_NO_DATA) with false. cbn beta iota.
    etrans; [eapply bind_eq; exact E|].
    rewrite IH by (cbn in Hf; lia).
    unfold with_row. destruct q as [st t ds hf rc fk ar wr md bi pa fi re k ex].
    cbn -[free_query_metadata Z.of_nat]. rewrite <- app_assoc. cbn [app].
    replace (n + Z.of_nat (S (length rows))) with (n + 1 + Z.of_nat (length rows)) by lia.
    reflexivity.
Qed.

Lemma copy_names_serving i fields (w : server) :
  copy_names i fields w = Done (imap (fun k f => (i + Z.of_nat k, Some (f_name f))) fields, w).
Proof.
  revert i. induction fields as [|f fields IH]; intros i; [done|].
  cbn [copy_names imap]. etrans; [eapply bind_eq; reflexivity|].
  rewrite (bind_eq _ _ _ _ _ (IH (i + 1))). cbn beta iota. unfold ret.
  rewrite Z.add_0_r. do 3 f_equal. apply imap_ext. intros k g _. cbn. f_equal. lia.
Qed.

Lemma name_fields_serving fields q (w : server) :
  exists names, name_fields fields q w = Done (with_results names (q_results q) q, w).
Proof.
  unfold name_fields. destruct (q_fields q) eqn:Hq.
  - exists (q_fields q). by destruct q.
  - eexists. etrans; [eapply bind_eq; reflexivity|]. cbn beta iota delta [negb].
    by rewrite (bind_eq _ _ _ _ _ (copy_names_serving 0 fields w)).
Qed.

Definition traced_results (fuel : nat) (q : BXDatabaseQuery)
    : prog server (bool * BXDatabaseQuery) :=
  bx_database_results fuel q.

Lemma results_serving fields rows fuel q w cur :
  q_has_dataset q = true -> q_has_failed q = false -> q_result_metadata q = Some fields ->
  fields <> [] -> (length rows < fuel)%nat ->
  exists names, traced_results fuel q (at_cursor w cur rows)
  = Done ((true, free_query_metadata (with_row_count (Z.of_nat (length rows))
            (with_results names (q_results q ++ read_rows_from 0 fields rows) q))),
          at_cursor w (foldl (fun _ row => row) cur rows) []).
Proof.
  intros Hd Hf Hm Hne Hfu. unfold traced_results.
  destruct (name_fields_serving fields q (at_cursor w cur rows)) as (nm & En).
  exists nm. unfold bx_database_results. rewrite Hd, Hf, Hm. cbn [negb].
  destruct (Z.leb_spec (Z.of_nat (length fields)) 0); [destruct fields; [done|cbn in *; lia]|].
  etrans; [eapply bind_eq; reflexivity|]. cbn beta iota delta [negb].
  etrans; [eapply bind_eq; exact En|]. etrans; [by apply results_loop_serving|].
  by destruct q.
Qed.

(** Every row the server serves is read, in its order, with its number and
    the texts of its columns; the metadata is released, so that a second call
    does not fetch again. *)
Theorem results_read_all fields rows fuel q w cur :
  q_has_dataset q = true -> q_has_failed q = false -> q_result_metadata q = Some fields ->
  fields <> [] -> (length rows < fuel)%nat ->
  exists q' cur',
    traced_results fuel q (at_cursor w cur rows) = Done ((true, q'), at_cursor w cur' [])
    /\ q_results q' = q_results q ++ read_rows_from 0 fields rows
    /\ q_row_count q' = Z.of_nat (length rows)
    /\ traced_results fuel q' (at_cursor w cur' []) = Done ((true, q'), at_cursor w cur' []).
Proof.
  intros Hd Hf Hm Hne Hfu.
  destruct (results_serving fields rows fuel q w cur Hd Hf Hm Hne Hfu) as (nm & E).
  eexists _, _. split; [exact E|]. by destruct q; cbn in *; subst.
Qed.
End Serving.

(** ** The queries of the rest of the program

    A world with one prepared query offers the interface that the pruning and
    the hydration of the caches use. *)

Section OneQuery.
Context `{CDouble} {W : Type} `{!StmtEnv W} (fuel : nat).

Definition on_query {A} (m : BXDatabaseQuery -> prog W (A * BXDatabaseQuery))
    : prog (BXDatabaseQuery * W) A :=
  fun w => match m w.1 w.2 with
           | Done ((a, q), w') => Done (a, (q, w'))
           | Fault => Fault
           | OutOfFuel => OutOfFuel
           end.

Definition bx_database_add_param_uint64 (name : string) (v : Z) (q : BXDatabaseQuery)
    : bool * BXDatabaseQuery :=
  match bx_database_add_param_int (q_parameters q) name (Some (PInt v)) 8
          MYSQL_TYPE_LONGLONG true with
  | Some ps => (true, with_parameters ps q)
  | None => (false, q)
  end.

#[local] Instance one_query : QueryEnv (BXDatabaseQuery * W) := {|
  query := unit;
  add_param_uint64 _ name v := on_query (fun q => ret (bx_database_add_param_uint64 name v q));
  database_execute _ := on_query bx_database_execute;
  database_results _ := on_query (bx_database_results fuel);
  query_rows _ := gets (fun w => (fun r => c_i_value <$> row_columns r) <$> q_results w.1);
  query_need_reconnect _ := gets (fun w => q_need_reconnect w.1);
  database_free_result _ := modify (fun w => (bx_database_free_result w.1, w.2))
|}.
End OneQuery.

(** ** A query of the program *)

Definition delete_tokens : list token :=
  (Lit <$> list_of "DELETE FROM contact WHERE id = ") ++ [Par (list_of "id")].

Lemma parse_query_tokens_witness :
  let _ := sample_double in
  parse_query (string_of (render delete_tokens))
  = Done (string_of (marks delete_tokens), unbound <$> names delete_tokens).
Proof. apply parse_query_tokens; reflexivity. Defined.

Example delete_query :
  let _ := sample_double in
  parse_query "DELETE FROM contact WHERE id = :id"
  = Done ("DELETE FROM contact WHERE id = ?", [unbound (list_of ":id")]).
Proof. reflexivity. Qed.

Section SampleQuery.
#[local] Instance sample_d : CDouble := sample_double.

Definition two_columns : list MYSQL_FIELD :=
  [mkField "id" MYSQL_TYPE_LONGLONG; mkField "name" MYSQL_TYPE_VAR_STRING].
Definition sample_query : BXDatabaseQuery :=
  mkQuery 1 "SELECT id, name FROM t" true false false false 0 0 (Some two_columns) None
    [] None [] 0 true.
Definition two_rows : list served :=
  [[(mkFetched 7 double_zero 8 false, None); (mkFetched 0 double_zero 3 false, Some "abc")];
   [(mkFetched 9 double_zero 8 false, None); (mkFetched 0 double_zero 0 true, None)]].

Definition no_data : answers_to := fun _ _ => None.
Definition idle : server := mkServer EmptyString [] None [] [] [].

Lemma results_read_all_witness :
  exists q' cur',
    traced_results no_data 3 sample_query (at_cursor idle [] two_rows)
    = Done ((true, q'), at_cursor idle cur' [])
    /\ q_results q' = q_results sample_query ++ read_rows_from 0 two_columns two_rows
    /\ q_row_count q' = 2
    /\ traced_results no_data 3 q' (at_cursor idle cur' []) = Done ((true, q'), at_cursor idle cur' []).
Proof.
  apply (results_read_all no_data two_columns two_rows 3 sample_query idle []);
    [reflexivity|reflexivity|reflexivity|discriminate|cbn; lia].
Defined.

#[local] Instance serving_env : StmtEnv server := serving no_data.

Definition executed_query : BXDatabaseQuery :=
  match bx_database_execute sample_query idle with
  | Done ((_, q), _) => q
  | _ => sample_query
  end.
Definition after_execution : server :=
  match bx_database_execute sample_query idle with
  | Done (_, w) => w
  | _ => idle
  end.

Lemma execute_true_persist_witness :
  q_executed executed_query = true /\ q_has_failed executed_query = false
  /\ (bx_database_persist_ok (Some executed_query) = true
      <-> q_warning_rows executed_query = 0).
Proof.
  apply (execute_true_persist sample_query idle executed_query after_execution). reflexivity.
Defined.
End SampleQuery.
