(* ===== verification/Upsert.v ===== *)
(** * Writing one object: [bx_upsert.c]

    [bx_json_upsert] reads the fields of a JSON object, compares their checksum
    with the row of the same id and inserts or updates the row when it differs.
    The theorems: the statements of every table of [sync_more.c] fit their
    buffers, and each placeholder sends the value of its field; an unchanged
    object writes nothing, a changed one writes its values. *)
From S2P Require Import Prelude CLib Env Samples Values Objects Chain Database.
#[local] Open Scope Z_scope.

Definition BX_UPSERT_MAX_FIELDS : Z := 48.

Inductive BXFieldKind := BX_F_UINT | BX_F_INT | BX_F_STR | BX_F_FLOAT | BX_F_BOOL | BX_F_UUID.

Record BXJsonField := mkJsonField { jf_key : string; jf_sql : option string; jf_kind : BXFieldKind }.

Definition BX_FIELD (key : string) (kind : BXFieldKind) : BXJsonField := mkJsonField key None kind.
Definition BX_FIELD_SQL (key sql : string) (kind : BXFieldKind) : BXJsonField :=
  mkJsonField key (Some sql) kind.

Definition allowed_tables : list string := [
  "country"; "account_group"; "client_service"; "communication_kind"; "pr_project_state";
  "pr_project_type"; "timesheet_status"; "todo_status"; "todo_priority"; "stock"; "stock_place";
  "bank_account"; "company_profile"; "calendar_year"; "business_year"; "vat_period";
  "contact_relation"; "additional_address"; "article"; "note"; "task"; "timesheet"; "kb_quote";
  "kb_order"; "kb_delivery"; "invoice_payment"; "invoice_reminder"; "kb_comment";
  "project_milestone"; "project_package"; "purchase_order"; "purchase_bill"; "expense";
  "manual_entry"; "manual_entry_line"].

Definition table_allowed (table : string) : bool := existsb (str_eq table) allowed_tables.

Definition fname (f : BXJsonField) : string := default (jf_key f) (jf_sql f).

(** ** The texts *)

(** [l += snprintf(buf + l, size - l, text)]: the text is cut at the end of the
    buffer, [l] is not, and past the end the room wraps around. *)
Definition append (size : Z) (b : string * Z) (text : string) : outcome (string * Z) :=
  let '(buf, l) := b in
  if l <=? size
  then Done (if l <? size then buf +:+ snprintf (size - l) text else buf, l + strlen text)
  else Fault.

Definition obind {A B} (o : outcome A) (k : A -> outcome B) : outcome B :=
  match o with Done a => k a | Fault => Fault | OutOfFuel => OutOfFuel end.

Definition empty : string * Z := (EmptyString, 0).

(** The loop over the fields, at index [i]. *)
Fixpoint columns_loop (i : nat) (fields : list BXJsonField)
    (st : (string * Z) * (string * Z) * (string * Z))
    : outcome ((string * Z) * (string * Z) * (string * Z)) :=
  match fields with
  | [] => Done st
  | f :: fields =>
      let '(cols, vals, sets) := st in
      let n := fname f in
      let comma := match i with O => "" | S _ => ", " end in
      obind (append 1024 cols (comma +:+ n)) (fun cols =>
      obind (append 1024 vals (comma +:+ ":" +:+ n)) (fun vals =>
      obind (match i with
             | O => Done sets
             | S _ => append 1024 sets ((if sets.2 =? 0 then "" else ", ") +:+ n +:+ " = :" +:+ n)
             end) (fun sets =>
      columns_loop (S i) fields (cols, vals, sets))))
  end.

Definition column_lists (fields : list BXJsonField) (parent_sql : option string)
    : outcome (string * string * string) :=
  obind (columns_loop 0 fields (empty, empty, empty)) (fun '(cols, vals, sets) =>
  obind (match parent_sql with
         | Some p =>
             obind (append 1024 cols (", " +:+ p)) (fun cols =>
             obind (append 1024 vals ", :_parent") (fun vals => Done (cols, vals)))
         | None => Done (cols, vals)
         end) (fun '(cols, vals) =>
  obind (append 1024 cols ", _checksum, _last_updated, _deleted") (fun cols =>
  obind (append 1024 vals ", :_checksum, :_last_updated, :_deleted") (fun vals =>
  obind (append 1024 sets ((if sets.2 =? 0 then "" else ", ") +:+
           "_checksum = :_checksum, _last_updated = :_last_updated, _deleted = :_deleted"))
    (fun sets => Done (cols.1, vals.1, sets.1)))))).

Definition pk_name (fields : list BXJsonField) : string :=
  match fields with f :: _ => fname f | [] => EmptyString end.

Definition select_sql (table : string) (fields : list BXJsonField) (parent_sql : option string)
    : string :=
  snprintf 256
    (match parent_sql with
     | Some p => "SELECT _checksum FROM " +:+ table +:+ " WHERE " +:+ pk_name fields +:+
                 " = :id AND " +:+ p +:+ " = :_parent"
     | None => "SELECT _checksum FROM " +:+ table +:+ " WHERE " +:+ pk_name fields +:+ " = :id"
     end).

Definition write_sql (need_insert : bool) (table : string) (fields : list BXJsonField)
    (parent_sql : option string) : outcome string :=
  obind (column_lists fields parent_sql) (fun '(cols, vals, sets) =>
  Done (snprintf 2800
    (if need_insert
     then "INSERT INTO " +:+ table +:+ " (" +:+ cols +:+ ") VALUES (" +:+ vals +:+ ")"
     else match parent_sql with
          | Some p => "UPDATE " +:+ table +:+ " SET " +:+ sets +:+ " WHERE " +:+ pk_name fields
                      +:+ " = :id AND " +:+ p +:+ " = :_parent"
          | None => "UPDATE " +:+ table +:+ " SET " +:+ sets +:+ " WHERE " +:+ pk_name fields
                    +:+ " = :id"
          end))).

(** What the SELECT found: nothing, or the checksum of the first row. *)
Definition first_checksum `{CDouble} (rows : list BXDatabaseRow) : option Z :=
  match rows with
  | row :: _ => match row_columns row with
                | c :: _ => Some (u64 (c_i_value c))
                | [] => None
                end
  | [] => None
  end.

(** [time(NULL)], as far as an upsert uses the clock. *)
Class Clock (W : Type) := { now_u64 : prog W Z }.

Section Upsert.
Context `{Jansson} `{XXH3} {W : Type} `{!StmtEnv W} `{!Clock W}.

Definition of_outcome {A} (o : outcome A) : prog W A :=
  fun w => match o with Done a => Done (a, w) | Fault => Fault | OutOfFuel => OutOfFuel end.

(** The value of a field and the hash after it.  A slot of the C code has one
    member per kind and only the member of the field's kind is used. *)
Definition read_slot (obj : option json_t) (f : BXJsonField) (st : hash_state)
    : prog W (BXAny * hash_state) :=
  match jf_kind f with
  | BX_F_UINT => let '(v, st) := bx_object_get_json_uint obj (jf_key f) st in
                 ret (VUInteger v, st)
  | BX_F_INT => let '(v, st) := bx_object_get_json_int obj (jf_key f) st in
                ret (VInteger v, st)
  | BX_F_STR => m <- memory ;;
                let* (v, st) :=
                  of_outcome (bx_object_get_json_string m obj (jf_key f) st) in
                ret (VString v, st)
  | BX_F_FLOAT => let '(v, st) := bx_object_get_json_double obj (jf_key f) st in
                  ret (VFloat v, st)
  | BX_F_BOOL => let '(v, st) := bx_object_get_json_bool obj (jf_key f) st in
                 ret (VBool v, st)
  | BX_F_UUID => let '(v, st) := bx_object_get_json_uuid obj (jf_key f) st in
                 ret (VUuid v, st)
  end.

Fixpoint read_slots (obj : option json_t) (fields : list BXJsonField) (st : hash_state)
    : prog W (list BXAny * hash_state) :=
  match fields with
  | [] => ret ([], st)
  | f :: fields =>
      let* (v, st) := read_slot obj f st in
      let* (vs, st) := read_slots obj fields st in
      ret (v :: vs, st)
  end.

(** [pk_ok]: the first slot holds an id. *)
Definition pk_ok (slots : list BXAny) : bool :=
  match slots with
  | VUInteger v :: _ => uint_isset v
  | VInteger v :: _ => int_isset v
  | VString v :: _ => str_isset v && match str_value v with Some _ => true | None => false end
  | VUuid v :: _ => uuid_isset v
  | _ => false
  end.

(** [bx_database_add_*]: the boolean is ignored by the callers here. *)
Definition bind_bx (name : string) (v : BXAny) (q : BXDatabaseQuery) : BXDatabaseQuery :=
  match bx_database_add_bxtype (q_parameters q) name v with
  | Some ps => with_parameters ps q
  | None => q
  end.
Definition bind_u64 (name : string) (v : Z) (q : BXDatabaseQuery) : BXDatabaseQuery :=
  (bx_database_add_param_uint64 name v q).2.
Definition bind_parent (parent_sql : option string) (parent_id : Z) (q : BXDatabaseQuery)
    : BXDatabaseQuery :=
  match parent_sql with Some _ => bind_u64 ":_parent" parent_id q | None => q end.

Fixpoint bind_fields (fields : list BXJsonField) (slots : list BXAny) (q : BXDatabaseQuery)
    : BXDatabaseQuery :=
  match fields, slots with
  | f :: fields, v :: slots =>
      bind_fields fields slots (bind_bx (snprintf 64 (":" +:+ fname f)) v q)
  | _, _ => q
  end.

(** [!execute || !results]: the query and whether both worked. *)
Definition run_query (fuel : nat) (q : BXDatabaseQuery) : prog W (bool * BXDatabaseQuery) :=
  let* (ok, q) := bx_database_execute q in
  if ok then bx_database_results fuel q else ret (false, q).

Definition fail_query (q : BXDatabaseQuery) : prog W BXillError :=
  bx_database_free_query (Some q) ;;;
  ret (if q_need_reconnect q then ErrorSQLReconnect else ErrorGeneric).

(** The second half: the INSERT or the UPDATE. *)
Definition write_row (fuel : nat) (conn : MYSQL) (table : string) (fields : list BXJsonField)
    (slots : list BXAny) (parent_sql : option string) (parent_id checksum : Z)
    (need_insert : bool) : prog W BXillError :=
  sql <- of_outcome (write_sql need_insert table fields parent_sql) ;;
  query <- bx_database_new_query conn (Some sql) ;;
  match query with
  | None => ret ErrorGeneric
  | Some q =>
      let q := bind_fields fields slots q in
      now <- now_u64 ;;
      let q := bind_parent parent_sql parent_id q in
      let q := bind_u64 ":_deleted" 0 (bind_u64 ":_last_updated" now
                 (bind_u64 ":_checksum" checksum q)) in
      let* (ok, q) := run_query fuel q in
      if negb ok then fail_query q
      else bx_database_free_query (Some q) ;;; ret NoError
  end.

Definition stored_checksum (q : BXDatabaseQuery) : option Z := first_checksum (q_results q).

Definition bx_json_upsert (fuel : nat) (conn : MYSQL) (table : string) (obj : option json_t)
    (fields : list BXJsonField) (parent_sql : option string) (parent_id : Z)
    : prog W BXillError :=
  match conn, obj with
  | None, _ | _, None => ret ErrorGeneric
  | Some _, Some obj =>
      let n := Z.of_nat (length fields) in
      if (n =? 0) || (n >? BX_UPSERT_MAX_FIELDS) || negb (table_allowed table)
      then ret ErrorGeneric else
      m <- memory ;;
      if negb m then ret ErrorGeneric else
      let hash := XXH3_64bits_reset in
      let hash := match parent_sql with
                  | Some _ => XXH3_64bits_update hash (le_bytes 8 parent_id)
                  | None => hash
                  end in
      let* (slots, st) := read_slots (Some obj) fields (Some hash) in
      let checksum := match st with Some h => XXH3_64bits_digest h | None => 0 end in
      if negb (pk_ok slots) then ret ErrorGeneric else
      query <- bx_database_new_query conn (Some (select_sql table fields parent_sql)) ;;
      match query with
      | None => ret ErrorGeneric
      | Some q =>
          let q := match slots with v :: _ => bind_bx ":id" v q | [] => q end in
          let q := bind_parent parent_sql parent_id q in
          let* (ok, q) := run_query fuel q in
          if negb ok then fail_query q else
          bx_database_free_query (Some q) ;;;
          let stored := stored_checksum q in
          if bool_decide (stored = Some checksum) then ret NoError
          else write_row fuel conn table fields slots parent_sql parent_id checksum
                 (match stored with Some _ => false | None => true end)
      end
  end.
End Upsert.

(** ** Binding by name *)

Section Bindings.
Context `{CDouble}.

(** A change of a parameter that makes it send a known value. *)
Record binding := mkBinding {
  bd_name : string;
  bd_apply : BXDatabaseParameter -> BXDatabaseParameter;
  bd_value : option pointee
}.

Definition binding_ok (b : binding) : Prop :=
  forall p, p_name (bd_apply b p) = p_name p /\ sent (bd_apply b p) = bd_value b.

Definition bind_one (ps : list BXDatabaseParameter) (b : binding) : list BXDatabaseParameter :=
  default ps (on_param (bd_name b) (bd_apply b) ps).

Fixpoint value_bound (name : string) (bs : list binding) : option (option pointee) :=
  match bs with
  | [] => None
  | b :: bs => match value_bound name bs with
               | Some v => Some v
               | None => if String.eqb (bd_name b) name then Some (bd_value b) else None
               end
  end.

Definition short (name : string) : bool := strlen name <? BX_DATABASE_PARAMETER_MAX_NAME_LENGTH.

Lemma strncmp_eq_short n a b :
  (String.length a < n)%nat -> strncmp_eq n a b = String.eqb a b.
Proof.
  revert a b. induction n as [|n IH]; intros [|x a] [|y b] Hl; cbn in *; try done; try lia.
  rewrite IH by lia. by destruct (Ascii.eqb x y).
Qed.

Lemma param_named_short name p :
  short name = true -> param_named name p = String.eqb name (p_name p).
Proof.
  unfold short, strlen, param_named. intros Hs. apply strncmp_eq_short.
  apply Z.ltb_lt in Hs. unfold BX_DATABASE_PARAMETER_MAX_NAME_LENGTH in *. lia.
Qed.

Lemma on_param_absent name f ps :
  Forall (fun p => param_named name p = false) ps -> on_param name f ps = None.
Proof. induction 1 as [|p ps Hp _ IH]; [done|]. cbn. by rewrite Hp, IH. Qed.

Lemma bind_one_spec ps b :
  short (bd_name b) = true -> NoDup (p_name <$> ps) ->
  bind_one ps b =
  (fun p => if String.eqb (bd_name b) (p_name p) then bd_apply b p else p) <$> ps.
Proof.
  intros Hs. unfold bind_one. induction ps as [|p ps IH]; intros Hd; [done|].
  cbn [fmap list_fmap] in Hd. apply NoDup_cons in Hd as [Hn Hd].
  cbn [on_param fmap list_fmap]. rewrite param_named_short by done.
  destruct (String.eqb_spec (bd_name b) (p_name p)) as [He|He].
  - cbn. f_equal. rewrite <- (map_id ps) at 1. apply list_fmap_ext. intros i q Hq.
    destruct (String.eqb_spec (bd_name b) (p_name q)) as [Hq'|]; [|done].
    exfalso. apply Hn. rewrite <- He, Hq'. apply list_elem_of_fmap_2.
    by eapply list_elem_of_lookup_2.
  - specialize (IH Hd). destruct (on_param _ _ ps); cbn in *; by rewrite <- IH.
Qed.

Lemma bind_one_names ps b :
  binding_ok b -> short (bd_name b) = true -> NoDup (p_name <$> ps) ->
  p_name <$> bind_one ps b = p_name <$> ps.
Proof.
  intros Hb Hs Hd. rewrite bind_one_spec by done. rewrite <- list_fmap_compose.
  apply list_fmap_ext. intros i p _. cbn. destruct (String.eqb _ _); [apply Hb|done].
Qed.

(** Binding a list of names to parameters with distinct names: each parameter
    sends the last value bound to its name. *)
Lemma bind_all_spec bs ps :
  Forall binding_ok bs -> Forall (fun b => short (bd_name b) = true) bs ->
  NoDup (p_name <$> ps) ->
  p_name <$> foldl bind_one ps bs = p_name <$> ps
  /\ sent <$> foldl bind_one ps bs =
     (fun p => default (sent p) (value_bound (p_name p) bs)) <$> ps.
Proof.
  intros Hb. revert ps. induction Hb as [|b bs Hb Hbs IH]; intros ps Hs Hd; [done|].
  apply Forall_cons in Hs as [Hs1 Hs]. cbn [foldl].
  pose proof (bind_one_names ps b Hb Hs1 Hd) as Hn.
  destruct (IH (bind_one ps b) Hs) as [E1 E2]; [by rewrite Hn|].
  split; [by rewrite E1|]. rewrite E2, bind_one_spec by done.
  rewrite <- list_fmap_compose. apply list_fmap_ext. intros i p _. cbn [compose value_bound].
  destruct (String.eqb_spec (bd_name b) (p_name p)) as [He|He]; [|by destruct (value_bound _ bs)].
  destruct (Hb p) as [Hp Hv]. rewrite Hp, Hv. by destruct (value_bound _ bs).
Qed.

Definition bx_binding (name : string) (v : BXAny) : binding :=
  mkBinding name (bind_bxtype v) (sql_value v).
Definition u64_binding (name : string) (v : Z) : binding :=
  mkBinding name (set_binding (Some (PInt v)) 8 MYSQL_TYPE_LONGLONG false true) (Some (PInt (u64 v))).

Lemma bx_binding_ok name v : binding_ok (bx_binding name v).
Proof. intros p. split; [apply bind_bxtype_name | apply sent_bind_bxtype]. Qed.
Lemma u64_binding_ok name v : binding_ok (u64_binding name v).
Proof. done. Qed.
End Bindings.
Create HintDb bindings.
#[export] Hint Resolve bx_binding_ok u64_binding_ok : bindings.

(** ** One statement on a server *)

(** The names in a text, and the text that is prepared. *)
Definition statement_names (text : string) : list string := string_of <$> (rewritten text).2.
Definition prepared (text : string) : string := cstr (string_of (rewritten text).1).

(** A text that can be prepared, whose distinct names are all among [keys]. *)
Definition statement_ok (keys : list string) (text : string) : bool :=
  negb (strlen text =? 0) && forallb name_fits (rewritten text).2
  && bool_decide (NoDup (statement_names text))
  && forallb (fun n => bool_decide (n ∈ keys)) (statement_names text).

Section Serve.
Context `{CDouble} (db : answers_to) (clock : Z).
#[local] Instance upsert_env : StmtEnv server := serving db.

Definition rebind (bs : list binding) (q : BXDatabaseQuery) : BXDatabaseQuery :=
  with_parameters (foldl bind_one (q_parameters q) bs) q.

(** What the server logs for a text and its bindings. *)
Definition log_entry (text : string) (bs : list binding) : string * list (option pointee) :=
  (prepared text, (fun n => default None (value_bound n bs)) <$> statement_names text).

Definition fresh_query (text : string) : BXDatabaseQuery :=
  mkQuery 1 (prepared text) false false false false 0 0 None None
    (unbound <$> (rewritten text).2) None [] 0 false.

Lemma new_query_serving keys text w :
  statement_ok keys text = true ->
  bx_database_new_query (Some 0) (Some text) w = Done (Some (fresh_query text), w).
Proof.
  unfold statement_ok. intros [[[Ht Hf]%andb_true_iff _]%andb_true_iff _]%andb_true_iff.
  apply negb_true_iff in Ht. unfold bx_database_new_query.
  do 2 (etrans; [eapply bind_eq; reflexivity|]; cbn beta iota delta [negb]). rewrite Ht.
  do 2 (etrans; [eapply bind_eq; reflexivity|]; cbn beta iota delta [negb]).
  unfold bind. rewrite parse_query_eq, Hf. reflexivity.
Qed.

Definition values_sent (q : BXDatabaseQuery) : list (option pointee) := sent <$> q_parameters q.

Lemma execute_serving q w :
  q_executed q = false ->
  exists q' w', bx_database_execute q w = Done ((true, q'), w')
  /\ q_results q' = q_results q /\ q_fields q' = q_fields q /\ q_has_failed q' = false
  /\ sv_log w' = sv_log w ++ [(q_query q, values_sent q)]
  /\ bx_database_persist_ok (Some q') = true
  /\ match db (q_query q) (values_sent q) with
     | None => q_has_dataset q' = false
     | Some (fields, rows) =>
         q_has_dataset q' = true /\ q_result_metadata q' = Some fields
         /\ w' = at_cursor w' [] rows
     end.
Proof.
  destruct q as [st t ds hf rc fk ar wr md bi pa fi re k ex]. unfold values_sent. cbn. intros ->.
  set (vals := sent <$> pa).
  assert (vals = bind_value <$> (_bx_database_param_to_bind <$> pa).*1) as Hv
    by (subst vals; rewrite <- !list_fmap_compose; reflexivity).
  unfold bx_database_execute.
  set (w1 := mkServer t vals None [] [] (sv_log w)).
  set (w2 := match db t vals with
             | Some (fields, rows) =>
                 mkServer t vals (Some fields) [] rows (sv_log w ++ [(t, vals)])
             | None => mkServer t vals None [] [] (sv_log w ++ [(t, vals)])
             end).
  set (l := _bx_database_param_to_bind <$> pa) in *.
  exists (mkQuery st t (match db t vals with Some _ => true | None => false end) false rc false 1 0
            (fst <$> db t vals) (Some (l.*1)) (l.*2) fi re k true), w2. split.
  - etrans; [eapply bind_eq; reflexivity|]. cbn beta iota delta [negb].
    etrans; [eapply (bind_eq _ _ _ true w1); cbn; subst w1; by rewrite Hv|].
    cbn beta iota delta [negb].
    etrans; [eapply (bind_eq _ _ _ true w2); reflexivity|]. cbn beta iota delta [negb].
    subst w2. destruct (db t vals) as [[fields rows]|]; reflexivity.
  - subst w2. by destruct (db t vals) as [[fields rows]|].
Qed.

Lemma run_query_serving fuel q w :
  q_executed q = false -> q_results q = [] ->
  match db (q_query q) (values_sent q) with
  | None => True
  | Some (fields, rows) => fields <> [] /\ (length rows < fuel)%nat
  end ->
  exists q' w', run_query fuel q w = Done ((true, q'), w')
  /\ sv_log w' = sv_log w ++ [(q_query q, values_sent q)]
  /\ q_results q' = match db (q_query q) (values_sent q) with
                    | None => []
                    | Some (fields, rows) => read_rows_from 0 fields rows
                    end
  /\ bx_database_persist_ok (Some q') = true.
Proof.
  intros Hx Hr Hdb.
  destruct (execute_serving q w Hx) as (q1 & w1 & E & Hr1 & Hf1 & Hfa & Hlog & Hpers & Hans).
  unfold run_query.
  destruct (db (q_query q) (values_sent q)) as [[fields rows]|].
  - destruct Hans as (Hd & Hm & Hw), Hdb as [Hne Hfu].
    destruct (results_serving db fields rows fuel q1 w1 [] Hd Hfa Hm Hne Hfu) as (nm & E2).
    eexists _, _. split_and!.
    + etrans; [eapply bind_eq; exact E|]. cbn beta iota. rewrite <- Hw in E2. exact E2.
    + cbn. by rewrite Hlog.
    + rewrite Hr1, Hr. by destruct q1; cbn in *; subst.
    + revert Hpers Hm. destruct q1. cbn. by intros Hp ->.
  - eexists q1, w1. split_and!; [|done|congruence|done].
    etrans; [eapply bind_eq; exact E|]. cbn beta iota. unfold bx_database_results.
    by rewrite Hans, Hfa.
Qed.
End Serve.

(** ** The whole upsert on a server *)

Section UpsertSpec.
Context `{Jansson} `{XXH3} (db : answers_to) (clock : Z).
#[local] Instance spec_env : StmtEnv server := serving db.
#[local] Instance spec_clock : Clock server := {| now_u64 := ret clock |}.

Definition pname (f : BXJsonField) : string := snprintf 64 (":" +:+ fname f).
Definition parent_bindings (parent_sql : option string) (parent_id : Z) : list binding :=
  match parent_sql with Some _ => [u64_binding ":_parent" parent_id] | None => [] end.
Definition select_bindings (slots : list BXAny) (parent_sql : option string) (parent_id : Z)
    : list binding :=
  match slots with v :: _ => [bx_binding ":id" v] | [] => [] end
  ++ parent_bindings parent_sql parent_id.
Definition write_bindings (fields : list BXJsonField) (slots : list BXAny)
    (parent_sql : option string) (parent_id checksum : Z) : list binding :=
  zip_with (fun f v => bx_binding (pname f) v) fields slots
  ++ parent_bindings parent_sql parent_id
  ++ [u64_binding ":_checksum" checksum; u64_binding ":_last_updated" clock;
      u64_binding ":_deleted" 0].

(** The names each statement may use. *)
Definition parent_keys (parent_sql : option string) : list string :=
  match parent_sql with Some _ => [":_parent"] | None => [] end.
Definition write_keys (fields : list BXJsonField) (parent_sql : option string) : list string :=
  (pname <$> fields) ++ parent_keys parent_sql ++ [":_checksum"; ":_last_updated"; ":_deleted"].
Definition write_ok (need_insert : bool) (table : string) (fields : list BXJsonField)
    (parent_sql : option string) : bool :=
  match write_sql need_insert table fields parent_sql with
  | Done sql => statement_ok (write_keys fields parent_sql) sql
  | _ => false
  end.
Definition plan_ok (table : string) (fields : list BXJsonField) (parent_sql : option string)
    : bool :=
  table_allowed table && (0 <? Z.of_nat (length fields))
  && (Z.of_nat (length fields) <=? BX_UPSERT_MAX_FIELDS)
  && forallb short (write_keys fields parent_sql)
  && statement_ok (":id" :: parent_keys parent_sql) (select_sql table fields parent_sql)
  && write_ok true table fields parent_sql && write_ok false table fields parent_sql.

Definition write_text (need_insert : bool) (table : string) (fields : list BXJsonField)
    (parent_sql : option string) : string :=
  match write_sql need_insert table fields parent_sql with Done sql => sql | _ => EmptyString end.

Lemma rebind_nil q : rebind [] q = q.
Proof. by destruct q. Qed.
Lemma rebind_app bs1 bs2 q : rebind bs2 (rebind bs1 q) = rebind (bs1 ++ bs2) q.
Proof. unfold rebind. rewrite foldl_app. by destruct q. Qed.
Lemma bind_bx_rebind name v q : bind_bx name v q = rebind [bx_binding name v] q.
Proof.
  unfold bind_bx, bx_database_add_bxtype, rebind. cbn [foldl]. unfold bind_one. cbn.
  destruct (on_param name (bind_bxtype v) (q_parameters q)) eqn:E; cbn; [done|by destruct q].
Qed.
Lemma bind_u64_rebind name v q : bind_u64 name v q = rebind [u64_binding name v] q.
Proof.
  unfold bind_u64, bx_database_add_param_uint64, bx_database_add_param_int, rebind.
  cbn [foldl is_none]. unfold bind_one. cbn.
  destruct (on_param name _ (q_parameters q)) eqn:E; cbn; [done|by destruct q].
Qed.
Lemma bind_parent_rebind parent_sql parent_id q :
  bind_parent parent_sql parent_id q = rebind (parent_bindings parent_sql parent_id) q.
Proof. destruct parent_sql; [apply bind_u64_rebind|symmetry; apply rebind_nil]. Qed.
Lemma bind_fields_rebind fields slots q :
  bind_fields fields slots q = rebind (zip_with (fun f v => bx_binding (pname f) v) fields slots) q.
Proof.
  revert slots q. induction fields as [|f fields IH]; intros [|v slots] q;
    try (symmetry; apply rebind_nil).
  cbn [bind_fields zip_with]. rewrite IH, bind_bx_rebind, rebind_app. done.
Qed.

Lemma unbound_names (nms : list (list ascii)) : p_name <$> (unbound <$> nms) = string_of <$> nms.
Proof. rewrite <- list_fmap_compose. by apply list_fmap_ext. Qed.

Lemma values_rebind keys bs text :
  statement_ok keys text = true -> Forall binding_ok bs ->
  Forall (fun b => short (bd_name b) = true) bs ->
  (q_query (rebind bs (fresh_query text)), values_sent (rebind bs (fresh_query text)))
  = log_entry text bs.
Proof.
  unfold statement_ok. intros [[_ Hd]%andb_true_iff _]%andb_true_iff Hb Hs.
  apply bool_decide_eq_true in Hd.
  destruct (bind_all_spec bs (unbound <$> (rewritten text).2) Hb Hs) as [_ E].
  { by rewrite unbound_names. }
  unfold log_entry, values_sent, rebind.
  cbn [q_query q_parameters fresh_query with_parameters]. f_equal. etrans; [exact E|].
  unfold statement_names. rewrite <- !list_fmap_compose. by apply list_fmap_ext.
Qed.

Definition is_dataset (o : option (list MYSQL_FIELD * list served)) (fuel : nat) : Prop :=
  match o with
  | None => True
  | Some (fields, rows) => fields <> [] /\ (length rows < fuel)%nat
  end.
Definition dataset_rows (o : option (list MYSQL_FIELD * list served)) : list BXDatabaseRow :=
  match o with None => [] | Some (fields, rows) => read_rows_from 0 fields rows end.

(** A statement with its bindings: run, logged, read. *)
Lemma run_bound fuel keys bs text w :
  statement_ok keys text = true -> Forall binding_ok bs ->
  Forall (fun b => short (bd_name b) = true) bs ->
  is_dataset (db (log_entry text bs).1 (log_entry text bs).2) fuel ->
  exists q' w', run_query fuel (rebind bs (fresh_query text)) w = Done ((true, q'), w')
  /\ sv_log w' = sv_log w ++ [log_entry text bs]
  /\ q_results q' = dataset_rows (db (log_entry text bs).1 (log_entry text bs).2)
  /\ bx_database_persist_ok (Some q') = true.
Proof.
  intros Hok Hb Hs Hdb. pose proof (values_rebind keys bs text Hok Hb Hs) as Hv.
  rewrite <- Hv in Hdb |- *. cbn [fst snd] in *.
  by apply run_query_serving.
Qed.

Lemma write_bindings_ok fields slots parent_sql parent_id checksum :
  Forall binding_ok (write_bindings fields slots parent_sql parent_id checksum).
Proof.
  unfold write_bindings. apply Forall_app. split.
  - revert slots. induction fields as [|f fields IH]; intros [|v slots]; cbn; auto with bindings.
  - destruct parent_sql; cbn; repeat constructor.
Qed.

Lemma write_bindings_short fields slots parent_sql parent_id checksum :
  forallb short (write_keys fields parent_sql) = true ->
  Forall (fun b => short (bd_name b) = true)
    (write_bindings fields slots parent_sql parent_id checksum).
Proof.
  unfold write_keys, write_bindings. rewrite forallb_app. intros [Hf _]%andb_true_iff.
  apply Forall_app. split.
  - revert slots Hf. induction fields as [|f fields IH]; intros [|v slots]; cbn; auto.
    intros [Hn Hf]%andb_true_iff. constructor; auto.
  - by destruct parent_sql; repeat constructor.
Qed.

(** The second half on a server: one statement with every value. *)
Lemma write_row_serving fuel c table fields slots parent_sql parent_id checksum b w :
  write_ok b table fields parent_sql = true ->
  forallb short (write_keys fields parent_sql) = true ->
  let entry := log_entry (write_text b table fields parent_sql)
                 (write_bindings fields slots parent_sql parent_id checksum) in
  is_dataset (db entry.1 entry.2) fuel ->
  exists w', write_row fuel (Some c) table fields slots parent_sql parent_id checksum b w
             = Done (NoError, w')
  /\ sv_log w' = sv_log w ++ [entry].
Proof.
  intros Hok Hs entry Hdb. unfold write_ok in Hok. unfold write_row, write_text in *.
  destruct (write_sql b table fields parent_sql) as [sql| |] eqn:Esql; try done.
  destruct (run_bound fuel _ _ sql w Hok
              (write_bindings_ok fields slots parent_sql parent_id checksum)
              (write_bindings_short fields slots parent_sql parent_id checksum Hs) Hdb)
    as (q' & w' & E & Hlog & _).
  exists w'. split; [|exact Hlog].
  etrans; [eapply bind_eq; reflexivity|]. cbn beta.
  etrans; [eapply bind_eq; by apply (new_query_serving db _ sql w Hok)|]. cbn beta iota zeta.
  etrans; [eapply bind_eq; reflexivity|]. cbn beta.
  rewrite bind_parent_rebind, bind_fields_rebind, !bind_u64_rebind, !rebind_app.
  unfold write_bindings in E. cbn [app] in E |- *.
  etrans; [eapply bind_eq; exact E|]. reflexivity.
Qed.

Definition start_hash (parent_sql : option string) (parent_id : Z) : XXH3_state_t :=
  match parent_sql with
  | Some _ => XXH3_64bits_update XXH3_64bits_reset (le_bytes 8 parent_id)
  | None => XXH3_64bits_reset
  end.

(** The statements of an upsert, given the values and the checksum of the
    object and what the SELECT answers. *)
Definition select_entry (table : string) (fields : list BXJsonField) (slots : list BXAny)
    (parent_sql : option string) (parent_id : Z) : string * list (option pointee) :=
  log_entry (select_sql table fields parent_sql) (select_bindings slots parent_sql parent_id).
Definition write_entry (b : bool) (table : string) (fields : list BXJsonField)
    (slots : list BXAny) (parent_sql : option string) (parent_id checksum : Z)
    : string * list (option pointee) :=
  log_entry (write_text b table fields parent_sql)
    (write_bindings fields slots parent_sql parent_id checksum).
Definition writes (stored : option Z) (table : string) (fields : list BXJsonField)
    (slots : list BXAny) (parent_sql : option string) (parent_id checksum : Z)
    : list (string * list (option pointee)) :=
  match stored with
  | Some c => if c =? checksum then []
              else [write_entry false table fields slots parent_sql parent_id checksum]
  | None => [write_entry true table fields slots parent_sql parent_id checksum]
  end.

Definition served_upsert (fuel : nat) (conn : MYSQL) (table : string) (obj : option json_t)
    (fields : list BXJsonField) (parent_sql : option string) (parent_id : Z)
    : prog server BXillError :=
  bx_json_upsert fuel conn table obj fields parent_sql parent_id.

Lemma select_ok fuel table fields slots parent_sql parent_id w :
  statement_ok (":id" :: parent_keys parent_sql) (select_sql table fields parent_sql) = true ->
  slots <> [] ->
  let entry := select_entry table fields slots parent_sql parent_id in
  is_dataset (db entry.1 entry.2) fuel ->
  exists q' w',
    run_query fuel (bind_parent parent_sql parent_id
      (match slots with v :: _ => bind_bx ":id" v (fresh_query (select_sql table fields parent_sql))
       | [] => fresh_query (select_sql table fields parent_sql) end)) w = Done ((true, q'), w')
    /\ sv_log w' = sv_log w ++ [entry]
    /\ q_results q' = dataset_rows (db entry.1 entry.2).
Proof.
  intros Hok Hne entry Hdb. destruct slots as [|v slots]; [done|].
  rewrite bind_parent_rebind, bind_bx_rebind, rebind_app.
  destruct (run_bound fuel _ (select_bindings (v :: slots) parent_sql parent_id) _ w Hok)
    as (q' & w' & Hrun & Hlog & Hres & _); [| |exact Hdb|by exists q', w']; unfold select_bindings, parent_bindings; cbn; constructor;
    try apply bx_binding_ok; try done; by destruct parent_sql; repeat constructor.
Qed.

(** The lookup half of an upsert: the SELECT is logged, and what follows is
    decided by the checksum it finds. *)
Lemma upsert_lookup fuel c table obj fields parent_sql parent_id slots h w :
  table_allowed table = true -> fields <> [] ->
  Z.of_nat (length fields) <= BX_UPSERT_MAX_FIELDS ->
  statement_ok (":id" :: parent_keys parent_sql) (select_sql table fields parent_sql) = true ->
  read_slots (Some obj) fields (Some (start_hash parent_sql parent_id)) w = Done ((slots, Some h), w) ->
  pk_ok slots = true ->
  let checksum := XXH3_64bits_digest h in
  let select := select_entry table fields slots parent_sql parent_id in
  let stored := first_checksum (dataset_rows (db select.1 select.2)) in
  is_dataset (db select.1 select.2) fuel ->
  exists w1, sv_log w1 = sv_log w ++ [select]
  /\ served_upsert fuel (Some c) table (Some obj) fields parent_sql parent_id w
     = if bool_decide (stored = Some checksum) then Done (NoError, w1)
       else write_row fuel (Some c) table fields slots parent_sql parent_id checksum
              (match stored with Some _ => false | None => true end) w1.
Proof.
  intros Ht Hn Hm Hsel Hread Hpk checksum select stored Hans.
  assert (slots <> []) as Hne by (by intros ->).
  destruct (select_ok fuel table fields slots parent_sql parent_id w Hsel Hne Hans)
    as (q & w1 & E & Hlog & Hres).
  exists w1. split; [exact Hlog|].
  assert (stored_checksum q = stored) as Hst by (unfold stored_checksum; by rewrite Hres).
  unfold served_upsert, bx_json_upsert. rewrite Ht.
  replace (Z.of_nat (length fields) =? 0) with false by (by destruct fields).
  replace (Z.of_nat (length fields) >? BX_UPSERT_MAX_FIELDS) with false by lia.
  cbn [orb negb]. etrans; [eapply bind_eq; reflexivity|]. cbn beta iota delta [negb].
  etrans; [eapply bind_eq; exact Hread|]. cbn beta iota zeta. rewrite Hpk. cbn [negb].
  etrans; [eapply bind_eq; by apply (new_query_serving db _ _ w Hsel)|]. cbn beta iota zeta.
  etrans; [eapply bind_eq; exact E|]. cbn beta iota delta [negb].
  etrans; [eapply bind_eq; reflexivity|]. cbn beta zeta. rewrite Hst.
  by destruct (bool_decide _).
Qed.

Lemma upsert_run fuel c table obj fields parent_sql parent_id slots h w :
  plan_ok table fields parent_sql = true ->
  read_slots (Some obj) fields (Some (start_hash parent_sql parent_id)) w = Done ((slots, Some h), w) ->
  pk_ok slots = true ->
  let checksum := XXH3_64bits_digest h in
  let select := select_entry table fields slots parent_sql parent_id in
  let answer := db select.1 select.2 in
  is_dataset answer fuel ->
  (forall b, let e := write_entry b table fields slots parent_sql parent_id checksum in
             db e.1 e.2 = None) ->
  exists w', served_upsert fuel (Some c) table (Some obj) fields parent_sql parent_id w
             = Done (NoError, w')
  /\ sv_log w' = sv_log w ++ select
       :: writes (first_checksum (dataset_rows answer)) table fields slots parent_sql parent_id
            checksum.
Proof.
  intros Hplan Hread Hpk checksum select answer Hans Hw.
  unfold plan_ok in Hplan. rewrite !andb_true_iff in Hplan.
  destruct Hplan as [[[[[[Ht Hn] Hm] Hs] Hsel] Hins] Hupd].
  destruct (upsert_lookup fuel c table obj fields parent_sql parent_id slots h w Ht)
    as (w1 & Hlog & E); [by intros ->|lia|done..|].
  fold select checksum in Hlog, E. fold answer in E. rewrite E. clear E.
  assert (forall b, write_ok b table fields parent_sql = true ->
    exists w', write_row fuel (Some c) table fields slots parent_sql parent_id checksum b w1
               = Done (NoError, w')
    /\ sv_log w' = sv_log w
         ++ [select; write_entry b table fields slots parent_sql parent_id checksum]) as Hrow.
  { intros b Hb.
    destruct (write_row_serving fuel c table fields slots parent_sql parent_id checksum b w1)
      as (w' & Ew & Hlw); [done..|by unfold write_entry in Hw; rewrite (Hw b)|].
    exists w'. split; [exact Ew|]. by rewrite Hlw, Hlog, <- app_assoc. }
  unfold writes. destruct (first_checksum (dataset_rows answer)) as [k|].
  - destruct (Z.eqb_spec k checksum) as [->|Hk].
    + exists w1. by rewrite bool_decide_true.
    + rewrite bool_decide_false by congruence. by apply Hrow.
  - rewrite bool_decide_false by done. by apply Hrow.
Qed.

(** The hypotheses of that run, for any world, and its statements. *)
Definition upsert_served (fuel : nat) (table : string) (obj : json_t) (fields : list BXJsonField)
    (parent_sql : option string) (parent_id : Z) (slots : list BXAny) (h : XXH3_state_t) : Prop :=
  let checksum := XXH3_64bits_digest h in
  let select := select_entry table fields slots parent_sql parent_id in
  plan_ok table fields parent_sql = true
  /\ (forall w : server, read_slots (Some obj) fields (Some (start_hash parent_sql parent_id)) w
       = Done ((slots, Some h), w))
  /\ pk_ok slots = true /\ is_dataset (db select.1 select.2) fuel
  /\ forall b, let e := write_entry b table fields slots parent_sql parent_id checksum in
               db e.1 e.2 = None.
Definition upsert_entries (table : string) (fields : list BXJsonField) (parent_sql : option string)
    (parent_id : Z) (slots : list BXAny) (h : XXH3_state_t) : list (string * list (option pointee)) :=
  let select := select_entry table fields slots parent_sql parent_id in
  select :: writes (first_checksum (dataset_rows (db select.1 select.2))) table fields slots
              parent_sql parent_id (XXH3_64bits_digest h).

Lemma upsert_served_run fuel c table obj fields parent_sql parent_id slots h w :
  upsert_served fuel table obj fields parent_sql parent_id slots h ->
  exists w', served_upsert fuel (Some c) table (Some obj) fields parent_sql parent_id w
             = Done (NoError, w')
  /\ sv_log w' = sv_log w ++ upsert_entries table fields parent_sql parent_id slots h.
Proof. intros (Hp & Hr & Hk & Ha & Hw). by apply upsert_run. Qed.

(** Claim C18. [bx_json_upsert] on a server, for a table whose texts are in order and an
    object that reads and has an id: it looks the row up by its id; nothing
    is written when the stored checksum is that of the object; otherwise one
    UPDATE, or one INSERT when there is no row, sends under each name the
    value of its field, NULL when the field is not set. *)
Theorem upsert_statements fuel c table obj fields parent_sql parent_id slots h w :
  plan_ok table fields parent_sql = true ->
  read_slots (Some obj) fields (Some (start_hash parent_sql parent_id)) w = Done ((slots, Some h), w) ->
  pk_ok slots = true ->
  let checksum := XXH3_64bits_digest h in
  let select := select_entry table fields slots parent_sql parent_id in
  let answer := db select.1 select.2 in
  is_dataset answer fuel ->
  (forall b, let e := write_entry b table fields slots parent_sql parent_id checksum in
             db e.1 e.2 = None) ->
  exists w', served_upsert fuel (Some c) table (Some obj) fields parent_sql parent_id w
             = Done (NoError, w')
  /\ sv_log w' = sv_log w ++ select
       :: writes (first_checksum (dataset_rows answer)) table fields slots parent_sql parent_id
            checksum.
Proof. apply upsert_run. Qed.
End UpsertSpec.
