(* ===== verification/Rows.v ===== *)
(** * Decoded objects and the rows they are written to

    What the object modules of [bxobjects/] repeat: decode a JSON object into
    a structure and its checksum, run one statement with its bindings, look a
    checksum up and write the row when it differs.  A decoded structure is its
    members by name, in the order they are read.  The lemmas say what the
    helpers do against a server; the modules' theorems are instances. *)
From S2P Require Import Prelude CLib Env Samples Values Objects Walk Chain Database Upsert.
#[local] Open Scope Z_scope.

Record decoded `{CDouble} := mkDecoded { d_members : list (string * BXAny); d_checksum : Z }.
Arguments mkDecoded {_}.

Section Members.
Context `{CDouble}.

Fixpoint find_member (name : string) (l : list (string * BXAny)) : option BXAny :=
  match l with
  | [] => None
  | (k, v) :: l => if String.eqb k name then Some v else find_member name l
  end.
Definition unset_value : BXAny := VUInteger (mkUInteger false 0).
Definition member (name : string) (d : decoded) : BXAny :=
  default unset_value (find_member name (d_members d)).
Definition uint_member (name : string) (d : decoded) : BXUInteger :=
  match member name d with VUInteger v => v | _ => mkUInteger false 0 end.
Definition string_member (name : string) (d : decoded) : BXString :=
  match member name d with VString v => v | _ => mkString false None end.
Definition bool_member (name : string) (d : decoded) : BXBool :=
  match member name d with VBool v => v | _ => mkBool false false end.

Fixpoint store_member (name : string) (v : BXAny) (l : list (string * BXAny)) : list (string * BXAny) :=
  match l with
  | [] => []
  | (k, x) :: l => if String.eqb k name then (k, v) :: l else (k, x) :: store_member name v l
  end.
Definition set_member (name : string) (v : BXAny) (d : decoded) : decoded :=
  mkDecoded (store_member name v (d_members d)) (d_checksum d).

(** Parameters of the other types: [char], [uint8] and [int64]. *)
Definition char_binding (name : string) (s : option string) (len : Z) : binding :=
  mkBinding name (set_binding (PBytes <$> s) len MYSQL_TYPE_STRING (is_none s) false) (PBytes <$> s).
Definition u8_binding (name : string) (v : Z) : binding :=
  mkBinding name (set_binding (Some (PInt v)) 1 MYSQL_TYPE_TINY false true) (Some (PInt (u64 v))).
Definition i64_binding (name : string) (v : Z) : binding :=
  mkBinding name (set_binding (Some (PInt v)) 8 MYSQL_TYPE_LONGLONG false false) (Some (PInt (i64 v))).

Lemma char_binding_ok name s len : binding_ok (char_binding name s len).
Proof. intros p. by destruct s. Qed.
Lemma u8_binding_ok name v : binding_ok (u8_binding name v).
Proof. done. Qed.
Lemma i64_binding_ok name v : binding_ok (i64_binding name v).
Proof. done. Qed.
End Members.
#[export] Hint Resolve char_binding_ok u8_binding_ok i64_binding_ok : bindings.

(** A concrete list of bindings: each is well formed and has a short name. *)
Ltac solve_bindings :=
  repeat first [apply Forall_nil; exact I | apply Forall_cons; split];
  first [solve [auto with bindings] | reflexivity].

(** [bx_do_request] as the object modules use it: [None] for [NULL], otherwise
    the code and the decoded body; a request that it returns has both. *)
Class RequestEnv `{Jansson} (W : Type) := {
  request_json : string -> list (option BXAny) -> prog W (option (Z * json_t));
  page_pause : prog W unit
}.

(** The page walk needs the body only. *)
#[export] Instance request_walk `{RequestEnv W} : WalkEnv W := {|
  do_request path args := r <- request_json path args ;; ret (snd <$> r);
  thrd_sleep := page_pause
|}.

(** [request == NULL || http_code != 200] *)
Definition good_answer `{Jansson} (r : option (Z * json_t)) : option json_t :=
  match r with Some (c, j) => if c =? 200 then Some j else None | None => None end.

(** Several functions bind the address of a local variable and execute the
    statement after it is gone: what the client reads there is not determined
    by the code. *)
Class StaleStack (W : Type) := { stale_u64 : prog W Z }.

Inductive ObjectState := Error | NeedUpdate | NeedCreate | NeedNothing.

Section Rows.
Context `{Jansson} `{XXH3} {W : Type} `{!StmtEnv W} `{!Clock W}.

(** The structure and the hash state are allocated, the members are read in
    order and the digest is taken. *)
Definition decode_members (fields : list BXJsonField) (object : option json_t)
    : prog W (option decoded) :=
  m <- memory ;;
  if negb m then ret None else
  m <- memory ;;
  if negb m then ret None else
  let* (slots, st) := read_slots object fields (Some XXH3_64bits_reset) in
  ret (Some (mkDecoded (zip (fname <$> fields) slots)
               (match st with Some h => XXH3_64bits_digest h | None => 0 end))).

(** The same for a structure on the stack: only the hash state is allocated. *)
Definition decode_on_stack (fields : list BXJsonField) (object : option json_t)
    : prog W (option decoded) :=
  m <- memory ;;
  if negb m then ret None else
  let* (slots, st) := read_slots object fields (Some XXH3_64bits_reset) in
  ret (Some (mkDecoded (zip (fname <$> fields) slots)
               (match st with Some h => XXH3_64bits_digest h | None => 0 end))).

(** [bx_database_add_*]: the parameter of the name, [false] when there is none. *)
Definition bind_named (b : binding) (q : BXDatabaseQuery) : bool * BXDatabaseQuery :=
  match on_param (bd_name b) (bd_apply b) (q_parameters q) with
  | Some ps => (true, with_parameters ps q)
  | None => (false, q)
  end.

(** Joined by [&&], or with their results ignored. *)
Fixpoint bind_strict (bs : list binding) (q : BXDatabaseQuery) : bool * BXDatabaseQuery :=
  match bs with
  | [] => (true, q)
  | b :: bs => let '(ok, q) := bind_named b q in
               if ok : bool then bind_strict bs q else (false, q)
  end.
Fixpoint bind_each (bs : list binding) (q : BXDatabaseQuery) : BXDatabaseQuery :=
  match bs with
  | [] => q
  | b :: bs => bind_each bs (bind_named b q).2
  end.

(** [!execute || !results], the error, and the release of the query; the query
    that comes back is what the caller read before the release. *)
Definition finish_row (fuel : nat) (q : BXDatabaseQuery) : prog W (BXillError + BXDatabaseQuery) :=
  let* (ok, q) := run_query fuel q in
  bx_database_free_query (Some q) ;;;
  ret (if ok : bool then inr q else inl (bx_database_query_error (Some q))).

(** A new query, its bindings, and its execution. *)
Definition run_row (fuel : nat) (conn : MYSQL) (text : string) (bs : list binding)
    : prog W (BXillError + BXDatabaseQuery) :=
  query <- bx_database_new_query conn (Some text) ;;
  match query with
  | None => ret (inl ErrorGeneric)
  | Some q => finish_row fuel (bind_each bs q)
  end.

(** The same with bindings joined by [&&]; [on_unbound] is the error when a
    name is missing. *)
Definition run_row_strict (on_unbound : BXDatabaseQuery -> BXillError) (fuel : nat) (conn : MYSQL)
    (text : string) (bs : list binding) : prog W (BXillError + BXDatabaseQuery) :=
  query <- bx_database_new_query conn (Some text) ;;
  match query with
  | None => ret (inl ErrorGeneric)
  | Some q =>
      let '(bound, q) := bind_strict bs q in
      if negb bound then bx_database_free_query (Some q) ;;; ret (inl (on_unbound q))
      else finish_row fuel q
  end.

(** A statement that is executed and whose rows are not read. *)
Definition finish_statement (on_error : BXDatabaseQuery -> BXillError) (q : BXDatabaseQuery)
    : prog W BXillError :=
  let* (ok, q) := bx_database_execute q in
  bx_database_free_query (Some q) ;;;
  ret (if ok : bool then NoError else on_error q).

(** [need_reconnect ? ErrorSQLReconnect : e] *)
Definition or_reconnect (e : BXillError) (q : BXDatabaseQuery) : BXillError :=
  if q_need_reconnect q then ErrorSQLReconnect else e.

(** [check_database]: what the row of the object needs. *)
Definition row_state (checksum : Z) (q : BXDatabaseQuery) : ObjectState :=
  match stored_checksum q with
  | None => NeedCreate
  | Some c => if c =? checksum then NeedNothing else NeedUpdate
  end.

(** [is_in_database]: is there a row? *)
Definition row_present (q : BXDatabaseQuery) : bool :=
  match q_results q with
  | row :: _ => match row_columns row with [] => false | _ => true end
  | [] => false
  end.

Definition error_of (r : BXillError + BXDatabaseQuery) : BXillError :=
  match r with inl e => e | inr _ => NoError end.

(** Look the checksum up, do nothing when it is the one of the object, insert
    when there is no row, update otherwise; [write] runs the second statement. *)
Definition checked_row (fuel : nat) (conn : MYSQL)
    (write : string -> list binding -> prog W (BXillError + BXDatabaseQuery))
    (select : string) (keys : list binding) (checksum : Z) (insert update : string)
    (values : Z -> list binding) : prog W BXillError :=
  r <- run_row fuel conn select keys ;;
  match r with
  | inl e => ret e
  | inr q =>
      let stored := stored_checksum q in
      if bool_decide (stored = Some checksum) then ret NoError else
      now <- now_u64 ;;
      r <- write (match stored with Some _ => update | None => insert end) (values now) ;;
      ret (error_of r)
  end.
End Rows.

(** ** Against a server *)

Section RowsOnServer.
Context `{Jansson} `{XXH3} (db : answers_to) (clock : Z).
#[local] Instance rows_env : StmtEnv server := serving db.
#[local] Instance rows_clock : Clock server := {| now_u64 := ret clock |}.

Lemma bind_named_rebind b q : (bind_named b q).2 = rebind [b] q.
Proof.
  unfold bind_named, rebind. cbn [foldl]. unfold bind_one.
  destruct (on_param (bd_name b) (bd_apply b) (q_parameters q)); cbn; [done|by destruct q].
Qed.

Lemma bind_each_rebind bs q : bind_each bs q = rebind bs q.
Proof.
  revert q. induction bs as [|b bs IH]; intros q; cbn [bind_each]; [by rewrite rebind_nil|].
  by rewrite IH, bind_named_rebind, rebind_app.
Qed.

Lemma on_param_present name f ps :
  short name = true -> name ∈ (p_name <$> ps) -> is_Some (on_param name f ps).
Proof.
  intros Hs. induction ps as [|p ps IH]; cbn; [by intros ?%not_elem_of_nil|].
  rewrite param_named_short by done. destruct (String.eqb_spec name (p_name p)) as [|Hne]; [eauto|].
  intros [|Hin]%elem_of_cons; [done|]. destruct (IH Hin) as [? ->]. eauto.
Qed.

Lemma bind_strict_rebind bs q :
  Forall binding_ok bs -> Forall (fun b => short (bd_name b) = true) bs ->
  NoDup (p_name <$> q_parameters q) ->
  Forall (fun b => bd_name b ∈ (p_name <$> q_parameters q)) bs ->
  bind_strict bs q = (true, rebind bs q).
Proof.
  intros Hb Hs Hd Hp. revert q Hd Hp. induction Hb as [|b bs Hb Hbs IH]; intros q Hd Hp;
    [by rewrite rebind_nil|]. cbn [bind_strict].
  apply Forall_cons in Hs as [Hs1 Hs]. apply Forall_cons in Hp as [Hp1 Hp].
  pose proof (bind_named_rebind b q) as E. unfold bind_named in *.
  destruct (on_param_present (bd_name b) (bd_apply b) _ Hs1 Hp1) as [ps Eo]. rewrite Eo in *.
  cbn in E. rewrite E.
  assert (p_name <$> q_parameters (rebind [b] q) = p_name <$> q_parameters q) as En.
  { unfold rebind. destruct q. cbn in *. by apply bind_one_names. }
  rewrite IH; [by rewrite rebind_app|done| |]; by rewrite En.
Qed.

(** A statement whose placeholders are among the names that are bound. *)
Definition row_plan (text : string) (bs : list binding) : Prop :=
  statement_ok (bd_name <$> bs) text = true /\ Forall binding_ok bs
  /\ Forall (fun b => short (bd_name b) = true) bs.

(** Each bound name has its placeholder. *)
Definition all_named (text : string) (bs : list binding) : bool :=
  forallb (fun b => bool_decide (bd_name b ∈ statement_names text)) bs.

Definition answer (e : string * list (option pointee)) : option (list MYSQL_FIELD * list served) :=
  db e.1 e.2.

Definition row_run (fuel : nat) (conn : MYSQL) (text : string) (bs : list binding)
    : prog server (BXillError + BXDatabaseQuery) := run_row fuel conn text bs.
Definition row_run_strict (err : BXDatabaseQuery -> BXillError) (fuel : nat) (conn : MYSQL)
    (text : string) (bs : list binding) : prog server (BXillError + BXDatabaseQuery) :=
  run_row_strict err fuel conn text bs.

(** What a run gives: the statement in the log, its rows, and no warning. *)
Definition row_ran (fuel : nat) (text : string) (bs : list binding) (w w' : server)
    (r : BXillError + BXDatabaseQuery) : Prop :=
  exists q, r = inr q /\ sv_log w' = sv_log w ++ [log_entry text bs]
  /\ q_results q = dataset_rows (answer (log_entry text bs))
  /\ bx_database_persist_ok (Some q) = true.

Lemma finish_row_serving fuel text bs w :
  row_plan text bs -> is_dataset (answer (log_entry text bs)) fuel ->
  exists r w', finish_row fuel (rebind bs (fresh_query text)) w = Done (r, w')
  /\ row_ran fuel text bs w w' r.
Proof.
  intros (Hok & Hb & Hs) Hans.
  destruct (run_bound db fuel _ bs text w Hok Hb Hs Hans) as (q & w' & E & Hlog & Hres & Hp).
  exists (inr q), w'. split; [|by exists q].
  unfold finish_row. rewrite (bind_eq _ _ _ _ _ E). reflexivity.
Qed.

Lemma run_row_serving fuel c text bs w :
  row_plan text bs -> is_dataset (answer (log_entry text bs)) fuel ->
  exists r w', row_run fuel (Some c) text bs w = Done (r, w') /\ row_ran fuel text bs w w' r.
Proof.
  intros Hp Hans. destruct (finish_row_serving fuel text bs w Hp Hans) as (r & w' & E & Hr).
  exists r, w'. split; [|done]. unfold row_run, run_row. destruct Hp as [Hok _].
  etrans; [eapply bind_eq; by apply (new_query_serving db _ _ w Hok)|]. cbn beta iota.
  by rewrite bind_each_rebind.
Qed.

Lemma strict_fresh text bs :
  row_plan text bs -> all_named text bs = true ->
  bind_strict bs (fresh_query text) = (true, rebind bs (fresh_query text)).
Proof.
  intros (Hok & Hb & Hs) Hn.
  assert (p_name <$> q_parameters (fresh_query text) = statement_names text) as En
    by apply unbound_names.
  apply bind_strict_rebind; [done|done| |]; rewrite En.
  - unfold statement_ok in Hok. rewrite !andb_true_iff, bool_decide_eq_true in Hok. tauto.
  - unfold all_named in Hn. apply Is_true_true_2, forallb_True in Hn.
    eapply Forall_impl; [exact Hn|]. intros b Hbn. by apply bool_decide_unpack in Hbn.
Qed.

Lemma run_row_strict_serving err fuel c text bs w :
  row_plan text bs -> all_named text bs = true -> is_dataset (answer (log_entry text bs)) fuel ->
  exists r w', row_run_strict err fuel (Some c) text bs w = Done (r, w') /\ row_ran fuel text bs w w' r.
Proof.
  intros Hp Hn Hans. destruct (finish_row_serving fuel text bs w Hp Hans) as (r & w' & E & Hr).
  exists r, w'. split; [|done]. unfold row_run_strict, run_row_strict. destruct Hp as (Hok & Hb & Hs).
  etrans; [eapply bind_eq; by apply (new_query_serving db _ _ w Hok)|]. cbn beta iota.
  rewrite strict_fresh by (unfold row_plan; auto). exact E.
Qed.

(** A query that is executed again and again, its parameters bound anew. *)
Record ready (text : string) (bs : list binding) (q : BXDatabaseQuery) (w : server) : Prop := {
  ready_query : q_query q = prepared text;
  ready_names : p_name <$> q_parameters q = statement_names text;
  ready_distinct : NoDup (statement_names text);
  ready_values : values_sent q = (log_entry text bs).2;
  ready_prepared : q_executed q = true -> is_Some (q_binds q) /\ sv_text w = prepared text
}.

Lemma ready_fresh keys text w : statement_ok keys text = true -> ready text [] (fresh_query text) w.
Proof.
  intros Hok. pose proof (values_rebind keys [] text Hok) as Hv.
  rewrite rebind_nil in Hv. injection (Hv (Forall_nil_2 _) (Forall_nil_2 _)) as Hval. split.
  - done.
  - apply unbound_names.
  - unfold statement_ok in Hok. rewrite !andb_true_iff, bool_decide_eq_true in Hok. tauto.
  - exact Hval.
  - done.
Qed.

Lemma value_bound_app n bs1 bs2 :
  value_bound n (bs1 ++ bs2) = match value_bound n bs2 with Some v => Some v | None => value_bound n bs1 end.
Proof.
  induction bs1 as [|b bs1 IH]; cbn; [by destruct (value_bound n bs2)|].
  rewrite IH. by destruct (value_bound n bs2).
Qed.

Lemma ready_rebind text bs q w b :
  ready text bs q w -> binding_ok b -> short (bd_name b) = true ->
  ready text (bs ++ [b]) (rebind [b] q) w.
Proof.
  intros [Hq Hn Hd Hv Hp] Hb Hs.
  destruct (bind_all_spec [b] (q_parameters q)) as [E1 E2]; [by constructor|by constructor|by rewrite Hn|].
  destruct q as [st t ds hf rc fk ar wr md bi pa fi re k ex]. cbn [q_query q_parameters q_executed q_binds] in *.
  unfold rebind, values_sent in *. cbn [q_parameters with_parameters] in *. split; cbn; try done.
  - cbn [foldl] in E1. by rewrite E1.
  - cbn [foldl] in E2. rewrite E2. unfold log_entry in *. cbn [snd] in *.
    apply list_eq. intros i. rewrite !list_lookup_fmap.
    assert (p_name <$> pa !! i = statement_names text !! i) as Hni by (by rewrite <- Hn, list_lookup_fmap).
    assert (sent <$> pa !! i = (fun n => default None (value_bound n bs)) <$> statement_names text !! i)
      as Hvi by (by rewrite <- !list_lookup_fmap, Hv).
    rewrite <- Hni in Hvi |- *. destruct (pa !! i) as [p|]; cbn in *; [|done].
    injection Hvi as Hvi. f_equal. rewrite value_bound_app. cbn [value_bound].
    destruct (String.eqb (bd_name b) (p_name p)); [done|]. by rewrite Hvi.
Qed.

Lemma normal_param p :
  p_name (_bx_database_param_to_bind p).2 = p_name p /\ sent (_bx_database_param_to_bind p).2 = sent p.
Proof.
  destruct p as [nm nl v vl ty nu un]. unfold _bx_database_param_to_bind, sent.
  cbn. destruct nu; [done|]. by destruct ty, v.
Qed.

Lemma ready_execute text bs q w :
  ready text bs q w -> exists q' w', bx_database_execute q w = Done ((true, q'), w')
  /\ ready text bs q' w' /\ sv_log w' = sv_log w ++ [log_entry text bs].
Proof.
  intros [Hq Hn Hd Hv Hp]. destruct q as [st t ds hf rc fk ar wr md bi pa fi re k ex].
  cbn [q_query q_parameters q_executed q_binds] in *. subst t. unfold values_sent in Hv. cbn in Hv.
  set (vals := sent <$> pa) in *. set (l := _bx_database_param_to_bind <$> pa) in *.
  assert (bind_value <$> l.*1 = vals) as Hb
    by (subst vals l; rewrite <- !list_fmap_compose; reflexivity).
  set (w2 := match db (prepared text) vals with
             | Some (fields, rows) =>
                 mkServer (prepared text) vals (Some fields) [] rows (sv_log w ++ [(prepared text, vals)])
             | None => mkServer (prepared text) vals None [] [] (sv_log w ++ [(prepared text, vals)])
             end).
  set (w1 := mkServer (prepared text) vals None [] [] (sv_log w)).
  set (q' fi re := mkQuery st (prepared text) (match db (prepared text) vals with Some _ => true | None => false end)
            false rc false 1 0 (fst <$> db (prepared text) vals) (Some (l.*1)) (l.*2) fi re k true).
  assert (forall fi re, ready text bs (q' fi re) w2) as Hr.
  { intros fi' re'. split; cbn.
    - done.
    - rewrite <- Hn. subst l. rewrite <- !list_fmap_compose. apply list_fmap_ext. intros i p _. apply normal_param.
    - done.
    - unfold values_sent. cbn. rewrite <- Hv. subst vals l. rewrite <- !list_fmap_compose. apply list_fmap_ext.
      intros i p _. apply normal_param.
    - intros _. split; [eauto|]. subst w2. by destruct (db _ _) as [[]|]. }
  assert (sv_log w2 = sv_log w ++ [log_entry text bs]) as Hlog.
  { subst w2. unfold log_entry in *. cbn [snd] in Hv. rewrite <- Hv. by destruct (db _ _) as [[]|]. }
  unfold bx_database_execute, prepare_step. cbn [q_executed].
  destruct ex.
  - destruct (Hp eq_refl) as [[bi' ->] Ht]. cbn in Ht. exists (q' None []), w2. split; [|done].
    etrans; [eapply bind_eq; reflexivity|]. cbn beta iota delta [negb].
    etrans; [eapply (bind_eq _ _ _ true w1); cbn; subst w1; rewrite Ht, <- Hb; reflexivity|].
    cbn beta iota delta [negb].
    etrans; [eapply (bind_eq _ _ _ true w2); reflexivity|]. cbn beta iota delta [negb].
    subst w2 q'. destruct (db (prepared text) vals) as [[fields rows]|]; reflexivity.
  - exists (q' fi re), w2. split; [|done].
    etrans; [eapply bind_eq; reflexivity|]. cbn beta iota delta [negb].
    etrans; [eapply (bind_eq _ _ _ true w1); cbn; subst w1; rewrite <- Hb; reflexivity|].
    cbn beta iota delta [negb].
    etrans; [eapply (bind_eq _ _ _ true w2); reflexivity|]. cbn beta iota delta [negb].
    subst w2 q'. destruct (db (prepared text) vals) as [[fields rows]|]; reflexivity.
Qed.

Lemma ready_rebinds text bs bs' q w :
  ready text bs q w -> Forall binding_ok bs' -> Forall (fun b => short (bd_name b) = true) bs' ->
  ready text (bs ++ bs') (rebind bs' q) w.
Proof.
  intros Hr Hb. revert bs q Hr. induction Hb as [|b bs' Hb _ IH]; intros bs q Hr Hs.
  - by rewrite rebind_nil, app_nil_r.
  - apply Forall_cons in Hs as [Hs1 Hs]. change (b :: bs') with ([b] ++ bs').
    rewrite <- rebind_app, app_assoc. apply IH; [|done]. by apply ready_rebind.
Qed.

Lemma ready_named text bs q w b :
  ready text bs q w -> binding_ok b -> short (bd_name b) = true ->
  ready text (bs ++ [b]) (bind_named b q).2 w.
Proof. rewrite bind_named_rebind. apply ready_rebind. Qed.

(** A statement made, bound and executed once. *)
Lemma finish_statement_serving err text bs w :
  row_plan text bs -> exists w',
  finish_statement err (rebind bs (fresh_query text)) w = Done (NoError, w')
  /\ sv_log w' = sv_log w ++ [log_entry text bs].
Proof.
  intros (Hok & Hb & Hs).
  destruct (ready_execute text ([] ++ bs) (rebind bs (fresh_query text)) w) as (q' & w' & E & _ & Hlog).
  { apply ready_rebinds; [by eapply ready_fresh|done|done]. }
  exists w'. split; [|exact Hlog]. unfold finish_statement. rewrite (bind_eq _ _ _ _ _ E). reflexivity.
Qed.

(** The statements of [checked_row]. *)
Definition row_writes (stored : option Z) (checksum : Z) (insert update : string)
    (bs : list binding) : list (string * list (option pointee)) :=
  match stored with
  | Some c => if c =? checksum then [] else [log_entry update bs]
  | None => [log_entry insert bs]
  end.

Lemma checked_row_serving fuel c
    (write : string -> list binding -> prog server (BXillError + BXDatabaseQuery))
    select keys checksum insert update values w :
  row_plan select keys -> is_dataset (answer (log_entry select keys)) fuel ->
  (forall text, text = insert \/ text = update -> forall w,
     exists r w', write text (values clock) w = Done (r, w') /\ row_ran fuel text (values clock) w w' r) ->
  exists w', checked_row fuel (Some c) write select keys checksum insert update values w
             = Done (NoError, w')
  /\ sv_log w' = sv_log w ++ log_entry select keys
       :: row_writes (first_checksum (dataset_rows (answer (log_entry select keys)))) checksum
            insert update (values clock).
Proof.
  intros Hp Hans Hw.
  destruct (run_row_serving fuel c select keys w Hp Hans) as (r & w1 & E & q & -> & Hlog & Hres & _).
  unfold checked_row, row_run in *. rewrite (bind_eq _ _ _ _ _ E).
  assert (stored_checksum q = first_checksum (dataset_rows (answer (log_entry select keys)))) as Hst
    by (unfold stored_checksum; by rewrite Hres).
  rewrite Hst. set (stored := first_checksum _) in *.
  assert (forall text, text = insert \/ text = update ->
    exists w', bind (write text (values clock)) (fun r => ret (error_of r)) w1 = Done (NoError, w')
      /\ sv_log w' = sv_log w ++ [log_entry select keys; log_entry text (values clock)]) as Hrun.
  { intros text Ht. destruct (Hw text Ht w1) as (r & w2 & E2 & q2 & -> & Hlog2 & _).
    exists w2. rewrite (bind_eq _ _ _ _ _ E2). split; [done|].
    by rewrite Hlog2, Hlog, <- app_assoc. }
  unfold row_writes. destruct stored as [k|].
  - destruct (Z.eqb_spec k checksum) as [->|Hk].
    + exists w1. by rewrite bool_decide_true.
    + rewrite bool_decide_false by congruence. apply Hrun. by right.
  - rewrite bool_decide_false by done. apply Hrun. by left.
Qed.
End RowsOnServer.
