(* ===== verification/Positions.v ===== *)
(** * Document positions: [bxobjects/position.c]

    The six decoders of a position, chosen by the hash of its type, and the
    positions of a document written one row each.  The theorem: on a server
    every position of the array is looked up by its id and its document and
    written when its checksum differs, in order, with foreign keys of value
    zero sent as NULL; a position that fails stops the array. *)
From S2P Require Import Prelude CLib Env Samples Values Objects Utils Chain Database Upsert Rows.
#[local] Open Scope Z_scope.

(** ** Decoding *)

Definition KbPositionCustom : Z := 0x2cf90d36.
Definition KbPositionArticle : Z := 0xb40e589d.
Definition KbPositionText : Z := 0x54907120.
Definition KbPositionSubtotal : Z := 0x6448960f.
Definition KbPositionPagebreak : Z := 0x40e1fad6.
Definition KbPositionDiscount : Z := 0xd54e4502.

(** [XXH32(type, strlen(type), 0)] *)
Class XXH32_hash := { XXH32 : string -> Z }.

Inductive position_type :=
| BXTypeInvoicePositionCE | BXTypeInvoicePositionAE | BXTypeInvoicePositionTE
| BXTypeInvoicePositionSE | BXTypeInvoicePositionPE | BXTypeInvoicePositionDE.

Definition ce_fields : list BXJsonField := [
  BX_FIELD "id" BX_F_UINT; BX_FIELD "unit_id" BX_F_UINT; BX_FIELD "account_id" BX_F_UINT;
  BX_FIELD "tax_id" BX_F_UINT; BX_FIELD "internal_pos" BX_F_UINT; BX_FIELD "parent_id" BX_F_UINT;
  BX_FIELD "unit_name" BX_F_STR; BX_FIELD "text" BX_F_STR; BX_FIELD "pos" BX_F_STR;
  BX_FIELD "is_optional" BX_F_BOOL; BX_FIELD "amount" BX_F_FLOAT; BX_FIELD "tax_value" BX_F_FLOAT;
  BX_FIELD "unit_price" BX_F_FLOAT; BX_FIELD "discount_in_percent" BX_F_FLOAT;
  BX_FIELD "position_total" BX_F_FLOAT].
Definition ae_fields : list BXJsonField := [
  BX_FIELD "id" BX_F_UINT; BX_FIELD "unit_id" BX_F_UINT; BX_FIELD "account_id" BX_F_UINT;
  BX_FIELD "tax_id" BX_F_UINT; BX_FIELD "internal_pos" BX_F_UINT; BX_FIELD "parent_id" BX_F_UINT;
  BX_FIELD "article_id" BX_F_UINT;
  BX_FIELD "unit_name" BX_F_STR; BX_FIELD "text" BX_F_STR; BX_FIELD "pos" BX_F_STR;
  BX_FIELD "is_optional" BX_F_BOOL; BX_FIELD "amount" BX_F_FLOAT; BX_FIELD "tax_value" BX_F_FLOAT;
  BX_FIELD "unit_price" BX_F_FLOAT; BX_FIELD "discount_in_percent" BX_F_FLOAT;
  BX_FIELD "position_total" BX_F_FLOAT].
Definition te_fields : list BXJsonField := [
  BX_FIELD "id" BX_F_UINT; BX_FIELD "internal_pos" BX_F_UINT; BX_FIELD "parent_id" BX_F_UINT;
  BX_FIELD "text" BX_F_STR; BX_FIELD "pos" BX_F_STR; BX_FIELD "is_optional" BX_F_BOOL;
  BX_FIELD "show_pos_nr" BX_F_BOOL].
Definition se_fields : list BXJsonField := [
  BX_FIELD "id" BX_F_UINT; BX_FIELD "internal_pos" BX_F_UINT; BX_FIELD "parent_id" BX_F_UINT;
  BX_FIELD "text" BX_F_STR; BX_FIELD "is_optional" BX_F_BOOL; BX_FIELD "value" BX_F_FLOAT].
Definition pe_fields : list BXJsonField := [
  BX_FIELD "id" BX_F_UINT; BX_FIELD "internal_pos" BX_F_UINT; BX_FIELD "parent_id" BX_F_UINT;
  BX_FIELD "is_optional" BX_F_BOOL].
Definition de_fields : list BXJsonField := [
  BX_FIELD "id" BX_F_UINT; BX_FIELD "text" BX_F_STR; BX_FIELD "is_percentual" BX_F_BOOL;
  BX_FIELD "value" BX_F_FLOAT; BX_FIELD "discount_total" BX_F_FLOAT].

(** The cases of the [switch]. *)
Definition position_kind (h : Z) : option (position_type * list BXJsonField) :=
  if h =? KbPositionCustom then Some (BXTypeInvoicePositionCE, ce_fields)
  else if h =? KbPositionArticle then Some (BXTypeInvoicePositionAE, ae_fields)
  else if h =? KbPositionText then Some (BXTypeInvoicePositionTE, te_fields)
  else if h =? KbPositionSubtotal then Some (BXTypeInvoicePositionSE, se_fields)
  else if h =? KbPositionPagebreak then Some (BXTypeInvoicePositionPE, pe_fields)
  else if h =? KbPositionDiscount then Some (BXTypeInvoicePositionDE, de_fields)
  else None.

(** ** The texts of a row *)

(** The members that are read and, where it differs, the name they are bound
    to. *)
Definition position_fields : list BXJsonField := [
  BX_FIELD "id" BX_F_UINT; BX_FIELD "amount" BX_F_FLOAT; BX_FIELD "account_id" BX_F_UINT;
  BX_FIELD "unit_id" BX_F_UINT; BX_FIELD "tax_id" BX_F_UINT; BX_FIELD "tax_value" BX_F_FLOAT;
  BX_FIELD_SQL "text" "description" BX_F_STR; BX_FIELD "unit_price" BX_F_FLOAT;
  BX_FIELD_SQL "discount_in_percent" "discount" BX_F_FLOAT; BX_FIELD_SQL "pos" "position" BX_F_UINT;
  BX_FIELD_SQL "internal_pos" "internal_position" BX_F_UINT; BX_FIELD "type" BX_F_STR;
  BX_FIELD "parent_id" BX_F_UINT].

Definition pos_table_ok (table parent_col : string) : bool :=
  (str_eq table "invoice_position" && str_eq parent_col "_invoice_id")
  || (str_eq table "quote_position" && str_eq parent_col "_quote_id")
  || (str_eq table "order_position" && str_eq parent_col "_order_id").

Definition unset_if_zero (v : BXUInteger) : BXUInteger :=
  if uint_isset v && (uint_value v =? 0) then mkUInteger false (uint_value v) else v.

Definition position_select (table parent_col : string) : string :=
  snprintf 192 ("SELECT _checksum FROM " +:+ table +:+ " WHERE id = :id AND " +:+ parent_col
                +:+ " = :_parent").
Definition position_insert (table parent_col : string) : string :=
  snprintf 900 ("INSERT INTO " +:+ table +:+ " (id, amount, account_id, unit_id, tax_id, " +:+
    "tax_value, description, unit_price, discount, position, " +:+
    "internal_position, type, parent_id, " +:+ parent_col +:+ ", _checksum, " +:+
    "_last_updated) VALUES (:id, :amount, :account_id, :unit_id, " +:+
    ":tax_id, :tax_value, :description, :unit_price, :discount, " +:+
    ":position, :internal_position, :type, :parent_id, :_parent, " +:+
    ":_checksum, :_last_updated)").
Definition position_update (table parent_col : string) : string :=
  snprintf 900 ("UPDATE " +:+ table +:+ " SET amount = :amount, account_id = :account_id, " +:+
    "unit_id = :unit_id, tax_id = :tax_id, tax_value = :tax_value, " +:+
    "description = :description, unit_price = :unit_price, " +:+
    "discount = :discount, position = :position, " +:+
    "internal_position = :internal_position, type = :type, " +:+
    "parent_id = :parent_id, _checksum = :_checksum, " +:+
    "_last_updated = :_last_updated WHERE id = :id AND " +:+ parent_col +:+ " = :_parent").

Section Positions.
Context `{Jansson} `{XXH3} `{!XXH32_hash} {W : Type} `{!StmtEnv W} `{!Clock W}.

(** [NULL] for an object without a type, of an unknown type, or without
    memory. *)
Definition bx_object_position_decode (object : option json_t)
    : prog W (option (position_type * decoded)) :=
  let value := object_get object "type" in
  if negb (json_is JSON_STRING value) then ret None else
  match value with
  | None => ret None
  | Some v =>
      match position_kind (XXH32 (json_string_value v)) with
      | None => ret None
      | Some (ty, fields) =>
          d <- decode_members fields object ;;
          ret (match d with Some d => Some (ty, d) | None => None end)
      end
  end.

Definition unset_zero_member (name : string) (d : decoded) : decoded :=
  set_member name (VUInteger (unset_if_zero (uint_member name d))) d.
Definition unset_zero_keys (d : decoded) : decoded :=
  unset_zero_member "parent_id" (unset_zero_member "tax_id"
    (unset_zero_member "account_id" (unset_zero_member "unit_id" d))).

Definition position_keys (doc_id : Z) (d : decoded) : list binding :=
  [bx_binding ":id" (member "id" d); u64_binding ":_parent" doc_id].
Definition position_values (doc_id : Z) (d : decoded) (now : Z) : list binding :=
  ((fun name => bx_binding (":" +:+ name) (member name d)) <$>
     ["id"; "amount"; "account_id"; "unit_id"; "tax_id"; "tax_value"; "description"; "unit_price";
      "discount"; "position"; "internal_position"; "type"; "parent_id"])
  ++ [u64_binding ":_parent" doc_id; u64_binding ":_checksum" (d_checksum d);
      u64_binding ":_last_updated" now].

Definition persist_one_position (fuel : nat) (conn : MYSQL) (table parent_col : string) (doc_id : Z)
    (item : option json_t) : prog W BXillError :=
  m <- memory ;;
  if negb m then ret ErrorGeneric else
  let* (slots, st) := read_slots item position_fields (Some XXH3_64bits_reset) in
  let checksum := match st with Some h => XXH3_64bits_digest h | None => 0 end in
  let d := unset_zero_keys (mkDecoded (zip (fname <$> position_fields) slots) checksum) in
  checked_row fuel conn (run_row fuel conn) (position_select table parent_col)
    (position_keys doc_id d) checksum (position_insert table parent_col)
    (position_update table parent_col) (position_values doc_id d).

Fixpoint positions_loop (fuel : nat) (conn : MYSQL) (table parent_col : string) (parent_id : Z)
    (positions : option json_t) (n : nat) (i : Z) : prog W BXillError :=
  match n with
  | O => ret NoError
  | S n =>
      e <- persist_one_position fuel conn table parent_col parent_id (array_get positions i) ;;
      if negb (bool_decide (e = NoError)) then ret e
      else positions_loop fuel conn table parent_col parent_id positions n (i + 1)
  end.

Definition bx_kb_positions_store (fuel : nat) (conn : MYSQL) (table parent_col : string)
    (parent_id : Z) (positions : option json_t) : prog W BXillError :=
  if negb (json_is JSON_ARRAY positions) then ret NoError
  else if negb (pos_table_ok table parent_col) then ret ErrorGeneric
  else positions_loop fuel conn table parent_col parent_id positions
         (Z.to_nat (array_size positions)) 0.

Definition bx_invoice_positions_store (fuel : nat) (conn : MYSQL) (invoice_id : Z)
    (positions : option json_t) : prog W BXillError :=
  bx_kb_positions_store fuel conn "invoice_position" "_invoice_id" invoice_id positions.
End Positions.

(** ** On a server *)

Section PositionSpec.
Context `{Jansson} `{XXH3} (db : answers_to) (clock : Z).
#[local] Instance position_env : StmtEnv server := serving db.
#[local] Instance position_clock : Clock server := {| now_u64 := ret clock |}.

(** The names of the values, whatever they are. *)
Definition value_names : list string :=
  [":id"; ":amount"; ":account_id"; ":unit_id"; ":tax_id"; ":tax_value"; ":description";
   ":unit_price"; ":discount"; ":position"; ":internal_position"; ":type"; ":parent_id";
   ":_parent"; ":_checksum"; ":_last_updated"].

Definition position_plan_ok (table parent_col : string) : bool :=
  statement_ok [":id"; ":_parent"] (position_select table parent_col)
  && statement_ok value_names (position_insert table parent_col)
  && statement_ok value_names (position_update table parent_col).

(** The texts of the three tables are uncut and name what is bound. *)
Lemma position_plans table parent_col :
  pos_table_ok table parent_col = true -> position_plan_ok table parent_col = true.
Proof.
  unfold pos_table_ok. rewrite !orb_true_iff, !andb_true_iff, !str_eq_true.
  intros [[[-> ->]|[-> ->]]|[-> ->]]; vm_compute; reflexivity.
Qed.

Lemma position_values_names doc_id d now : bd_name <$> position_values doc_id d now = value_names.
Proof. reflexivity. Qed.

Lemma position_values_ok doc_id d now :
  Forall binding_ok (position_values doc_id d now)
  /\ Forall (fun b => short (bd_name b) = true) (position_values doc_id d now).
Proof. split; unfold position_values; cbn [fmap list_fmap app]; solve_bindings. Qed.

(** What an item decodes to. *)
Definition item_decodes (item : option json_t) (d : decoded) : Prop :=
  exists slots h, (forall w : server,
    read_slots item position_fields (Some XXH3_64bits_reset) w = Done ((slots, Some h), w))
  /\ d = unset_zero_keys (mkDecoded (zip (fname <$> position_fields) slots) (XXH3_64bits_digest h)).

(** Its statements. *)
Definition position_lookup (table parent_col : string) (doc_id : Z) (d : decoded)
    : string * list (option pointee) :=
  log_entry (position_select table parent_col) (position_keys doc_id d).
Definition position_entries (table parent_col : string) (doc_id : Z) (d : decoded)
    : list (string * list (option pointee)) :=
  position_lookup table parent_col doc_id d
  :: row_writes (first_checksum (dataset_rows (answer db (position_lookup table parent_col doc_id d))))
       (d_checksum d) (position_insert table parent_col) (position_update table parent_col)
       (position_values doc_id d clock).

(** The answers of the server: a dataset for the lookup, none for a write. *)
Definition answers_position (fuel : nat) (table parent_col : string) (doc_id : Z) (d : decoded) : Prop :=
  is_dataset (answer db (position_lookup table parent_col doc_id d)) fuel
  /\ forall text, text = position_insert table parent_col \/ text = position_update table parent_col ->
       is_dataset (answer db (log_entry text (position_values doc_id d clock))) fuel.

Definition positions_on_server (fuel : nat) (conn : MYSQL) (table parent_col : string)
    (parent_id : Z) (positions : option json_t) : prog server BXillError :=
  bx_kb_positions_store fuel conn table parent_col parent_id positions.

Lemma persist_position_serving fuel c table parent_col doc_id item d w :
  pos_table_ok table parent_col = true -> item_decodes item d ->
  answers_position fuel table parent_col doc_id d ->
  exists w', persist_one_position fuel (Some c) table parent_col doc_id item w = Done (NoError, w')
  /\ sv_log w' = sv_log w ++ position_entries table parent_col doc_id d.
Proof.
  intros Ht (slots & h & Hread & ->) [Hsel Hwr]. set (d := unset_zero_keys _) in *.
  pose proof (position_plans _ _ Ht) as Hplan. unfold position_plan_ok in Hplan.
  rewrite !andb_true_iff in Hplan. destruct Hplan as [[Hs Hi] Hu].
  destruct (position_values_ok doc_id d clock) as [Hbo Hbs].
  destruct (checked_row_serving db clock fuel c (run_row fuel (Some c))
    (position_select table parent_col) (position_keys doc_id d) (XXH3_64bits_digest h)
    (position_insert table parent_col) (position_update table parent_col)
    (position_values doc_id d) w) as (w' & E & Hlog).
  - split; [exact Hs|]. split; solve_bindings.
  - exact Hsel.
  - intros text Htext w0. apply run_row_serving; [|by apply Hwr].
    split; [|done]. rewrite position_values_names. by destruct Htext as [-> | ->].
  - exists w'. split; [|exact Hlog]. unfold persist_one_position. step.
    rewrite (bind_eq _ _ _ _ _ (Hread w)). exact E.
Qed.

Lemma positions_loop_serving fuel c table parent_col doc_id positions n ds i w :
  pos_table_ok table parent_col = true -> length ds = n ->
  (forall k d, ds !! k = Some d ->
     item_decodes (array_get positions (i + Z.of_nat k)) d
     /\ answers_position fuel table parent_col doc_id d) ->
  exists w', positions_loop fuel (Some c) table parent_col doc_id positions n i w = Done (NoError, w')
  /\ sv_log w' = sv_log w ++ (ds ≫= position_entries table parent_col doc_id).
Proof.
  intros Ht. revert n i w. induction ds as [|d ds IH]; intros n i w <- Hds.
  - exists w. by rewrite app_nil_r.
  - destruct (Hds 0%nat d eq_refl) as [Hd Ha]. rewrite Z.add_0_r in Hd.
    destruct (persist_position_serving fuel c table parent_col doc_id _ d w Ht Hd Ha) as (w1 & E & Hlog).
    destruct (IH (length ds) (i + 1) w1 eq_refl) as (w' & E' & Hlog').
    { intros k d' Hk. replace (i + 1 + Z.of_nat k) with (i + Z.of_nat (S k)) by lia. by apply Hds. }
    exists w'. cbn [positions_loop length]. rewrite (bind_eq _ _ _ _ _ E). cbn. split; [exact E'|].
    by rewrite Hlog', Hlog, <- app_assoc.
Qed.

Lemma positions_store_serving fuel c table parent_col doc_id positions ds w :
  pos_table_ok table parent_col = true -> json_typeof positions = JSON_ARRAY ->
  json_array_size positions = Z.of_nat (length ds) ->
  (forall k d, ds !! k = Some d ->
     item_decodes (json_array_get positions (Z.of_nat k)) d
     /\ answers_position fuel table parent_col doc_id d) ->
  exists w', positions_on_server fuel (Some c) table parent_col doc_id (Some positions) w
             = Done (NoError, w')
  /\ sv_log w' = sv_log w ++ (ds ≫= position_entries table parent_col doc_id).
Proof.
  intros Ht Harr Hsize Hds. unfold positions_on_server, bx_kb_positions_store, json_is, array_size.
  rewrite Harr, Ht, bool_decide_eq_true_2 by done. cbn [negb]. rewrite Hsize, Nat2Z.id.
  by apply positions_loop_serving.
Qed.

(** Claim C20. Storing the positions of a document on a server, for a known table, when every
    position decodes: one lookup per position by its id and the document, then
    an INSERT or an UPDATE when there is no row or its checksum differs, each
    position in the order of the array, each with every value under its name
    and the keys of value zero as NULL. *)
Theorem positions_stored fuel c table parent_col doc_id positions ds w :
  pos_table_ok table parent_col = true -> json_typeof positions = JSON_ARRAY ->
  json_array_size positions = Z.of_nat (length ds) ->
  (forall k d, ds !! k = Some d ->
     item_decodes (json_array_get positions (Z.of_nat k)) d
     /\ answers_position fuel table parent_col doc_id d) ->
  exists w', positions_on_server fuel (Some c) table parent_col doc_id (Some positions) w
             = Done (NoError, w')
  /\ sv_log w' = sv_log w ++ (ds ≫= position_entries table parent_col doc_id).
Proof. apply positions_store_serving. Qed.

(** The keys of value zero are sent as NULL, and no other value changes. *)
Lemma unset_if_zero_sent v :
  sql_value (VUInteger (unset_if_zero v))
  = if uint_isset v && negb (uint_value v =? 0) then Some (PInt (i64 (uint_value v))) else None.
Proof. unfold unset_if_zero. destruct v as [[] x]; cbn; [|done]. by destruct (x =? 0). Qed.
End PositionSpec.

(** ** A concrete document *)

Definition position_db : answers_to := fun text _ =>
  if prefix_of "SELECT" text
  then Some ([mkField "_checksum" MYSQL_TYPE_LONGLONG], [[(mkFetched 5 double_zero 8 false, None)]])
  else None.

Definition sample_position : sample_json :=
  JObject [("id", JInteger 11); ("type", JString "KbPositionCustom"); ("amount", JString "2.5");
           ("account_id", JInteger 0); ("text", JString "Work"); ("unit_price", JReal 1000)].
Definition sample_positions : json_t := J (JArray [sample_position]).

#[local] Instance sample_position_env : StmtEnv server := serving position_db.

Definition sample_position_slots : list BXAny * XXH3_state_t :=
  match read_slots (Some (J sample_position)) position_fields (Some XXH3_64bits_reset)
          (mkServer "" [] None [] [] []) with
  | Done ((slots, Some h), _) => (slots, h)
  | _ => ([], XXH3_64bits_reset)
  end.
Definition sample_decoded : decoded :=
  unset_zero_keys (mkDecoded (zip (fname <$> position_fields) sample_position_slots.1)
                     (XXH3_64bits_digest sample_position_slots.2)).

Example zero_account_is_null : sql_value (member "account_id" sample_decoded) = None.
Proof. reflexivity. Qed.

Lemma positions_stored_witness :
  exists w', positions_on_server position_db 1700000000 2 (Some 0) "invoice_position" "_invoice_id" 7
               (Some sample_positions) (mkServer "" [] None [] [] []) = Done (NoError, w')
  /\ sv_log w' = [] ++ ([sample_decoded] ≫=
       position_entries position_db 1700000000 "invoice_position" "_invoice_id" 7).
Proof.
  apply (positions_stored position_db 1700000000 2 0 "invoice_position" "_invoice_id" 7
    sample_positions [sample_decoded] (mkServer "" [] None [] [] [])).
  - reflexivity.
  - reflexivity.
  - reflexivity.
  - intros [|k] d Hd; [|by destruct k]. injection Hd as <-. split.
    + exists sample_position_slots.1, sample_position_slots.2. split; [intros w|]; reflexivity.
    + split; [split; [discriminate|cbn; lia]|]. intros text [-> | ->]; exact I.
Defined.
