(* ===== verification/Lookups.v ===== *)
(** * Lookups with their own code: accounts, currencies, taxes, languages, users

    [bxobjects/account.c], [currency.c], [taxes.c], [language.c], [user.c]:
    decode an object, look its checksum up, insert or update the row when it
    differs.  The theorems: every statement of these modules can be prepared,
    uses only names that are bound and binds only names it has; on a server one
    lookup and at most one write, with the values of the object, in the order
    of the answer. *)
From S2P Require Import Prelude CLib Env Samples Values Objects Utils Walk Chain Database Upsert Rows Positions.
#[local] Open Scope Z_scope.

(** ** The statements *)

Definition ACCOUNT_INSERT : string :=
  "INSERT INTO account (id, uuid, account_no, name, account_type, tax_id, " +:+
  "fibu_account_group_id, is_active, is_locked, _checksum, _last_updated, " +:+
  "_deleted) VALUES (:id, :uuid, :account_no, :name, :account_type, :tax_id, " +:+
  ":fibu_account_group_id, :is_active, :is_locked, :_checksum, " +:+
  ":_last_updated, :_deleted)".
Definition ACCOUNT_UPDATE : string :=
  "UPDATE account SET uuid = :uuid, account_no = :account_no, name = :name, " +:+
  "account_type = :account_type, tax_id = :tax_id, " +:+
  "fibu_account_group_id = :fibu_account_group_id, is_active = :is_active, " +:+
  "is_locked = :is_locked, _checksum = :_checksum, " +:+
  "_last_updated = :_last_updated, _deleted = :_deleted WHERE id = :id".

Definition CURRENCY_INSERT : string :=
  "INSERT INTO currency (id, name, round_factor, exchange_rate, " +:+
  "exchange_rate_id, ratio, source, source_reason, exchange_rate_date, " +:+
  "_checksum, _last_updated, _deleted) VALUES (:id, :name, :round_factor, " +:+
  ":exchange_rate, :exchange_rate_id, :ratio, :source, :source_reason, " +:+
  ":exchange_rate_date, :_checksum, :_last_updated, :_deleted)".
Definition CURRENCY_UPDATE : string :=
  "UPDATE currency SET name = :name, round_factor = :round_factor, " +:+
  "exchange_rate = :exchange_rate, exchange_rate_id = :exchange_rate_id, " +:+
  "ratio = :ratio, source = :source, source_reason = :source_reason, " +:+
  "exchange_rate_date = :exchange_rate_date, _checksum = :_checksum, " +:+
  "_last_updated = :_last_updated, _deleted = :_deleted WHERE id = :id".

Definition TAX_INSERT : string :=
  "INSERT IGNORE INTO taxes (`id`, `uuid`, `name`, `digit`, `type`, " +:+
  "`account_id`, " +:+
  "`tax_settlement_type`, `value`, `net_tax_value`, `start_year`, " +:+
  "`end_year`, " +:+
  "`is_active`, `display_name`, `start_month`, `end_month`, `_checksum`, " +:+
  "`_last_updated`) VALUES (:id, :uuid, :name, :digit, :taxtype, " +:+
  ":account_id, :tax_settlement_type, :value, :net_tax_value, :start_year, " +:+
  ":end_year, :is_active, :display_name, :start_month, :end_month, " +:+
  ":_checksum, :_last_updated);".
Definition TAX_UPDATE : string :=
  "UPDATE taxes SET `uuid` = :uuid, `name` = :name, `digit` = :digit, " +:+
  "`type` = :taxtype, `account_id` = :account_id, " +:+
  "`tax_settlement_type` = :tax_settlement_type, `value` = :value, " +:+
  "`net_tax_value` = :net_tax_value, `start_year` = :start_year, " +:+
  "`end_year` = :end_year, `is_active` = :is_active, " +:+
  "`display_name` = :display_name, `start_month` = :start_month, " +:+
  "`end_month` = :end_month, `_checksum` = :_checksum, " +:+
  "`_last_updated` = :_last_updated WHERE `id` = :id;".

Definition LANGUAGE_INSERT : string :=
  "INSERT IGNORE INTO language (id, name, decimal_point, " +:+
  "thousands_separator," +:+
  "date_format_id, date_format, iso_639_1, _checksum, _last_updated)" +:+
  " VALUES (:id, :name, :decimal_point, :thousands_separator, " +:+
  ":date_format_id," +:+
  ":date_format, :iso_639_1," +:+
  ":_checksum, :_last_updated)".
Definition LANGUAGE_UPDATE : string :=
  "UPDATE language SET name = :name, decimal_point = :decimal_point," +:+
  "thousands_separator = :thousands_separator, date_format_id = " +:+
  ":date_format_id," +:+
  "date_format = :date_format, iso_639_1 = :iso_639_1," +:+
  "_checksum = :_checksum, _last_updated = :_last_updated" +:+
  " WHERE id = :id".

Definition USER_INSERT : string :=
  "INSERT IGNORE INTO user (" +:+
  "_checksum, " +:+
  "_last_updated, " +:+
  "_deleted, " +:+
  "id, " +:+
  "firstname, " +:+
  "lastname, " +:+
  "email, " +:+
  "salutation_type, " +:+
  "is_superadmin, " +:+
  "is_accountant) " +:+
  "VALUES (" +:+
  ":_checksum, " +:+
  ":_last_updated, " +:+
  ":_deleted , " +:+
  ":id, " +:+
  ":firstname, " +:+
  ":lastname, " +:+
  ":email, " +:+
  ":salutation_type, " +:+
  ":is_superadmin, " +:+
  ":is_accountant);".
Definition USER_UPDATE : string :=
  "UPDATE user SET " +:+
  "_checksum = :_checksum, " +:+
  "_last_updated = :_last_updated, " +:+
  "_deleted = :_deleted, " +:+
  "lastname = :lastname, " +:+
  "firstname = :firstname, " +:+
  "email = :email, " +:+
  "salutation_type = :salutation_type, " +:+
  "is_superadmin = :is_superadmin, " +:+
  "is_accountant = :is_accountant " +:+
  "WHERE id = :id;".

Definition select_checksum (table : string) : string :=
  "SELECT _checksum FROM " +:+ table +:+ " WHERE id = :id".

(** ** The structures *)

Definition account_fields : list BXJsonField := [
  BX_FIELD "id" BX_F_UINT; BX_FIELD "uuid" BX_F_UUID; BX_FIELD "account_no" BX_F_STR;
  BX_FIELD "name" BX_F_STR; BX_FIELD "account_type" BX_F_INT; BX_FIELD "tax_id" BX_F_UINT;
  BX_FIELD "fibu_account_group_id" BX_F_UINT; BX_FIELD "is_active" BX_F_BOOL;
  BX_FIELD "is_locked" BX_F_BOOL].
Definition currency_fields : list BXJsonField := [
  BX_FIELD "id" BX_F_UINT; BX_FIELD "name" BX_F_STR; BX_FIELD "round_factor" BX_F_FLOAT;
  BX_FIELD "exchange_rate" BX_F_FLOAT; BX_FIELD "exchange_rate_id" BX_F_UINT;
  BX_FIELD "ratio" BX_F_FLOAT; BX_FIELD "source" BX_F_STR; BX_FIELD "source_reason" BX_F_STR;
  BX_FIELD "exchange_rate_date" BX_F_STR].
Definition tax_fields : list BXJsonField := [
  BX_FIELD "id" BX_F_UINT; BX_FIELD "uuid" BX_F_UUID; BX_FIELD "name" BX_F_STR;
  BX_FIELD "digit" BX_F_INT; BX_FIELD_SQL "type" "taxtype" BX_F_STR;
  BX_FIELD "account_id" BX_F_UINT; BX_FIELD "tax_settlement_type" BX_F_STR;
  BX_FIELD "value" BX_F_FLOAT; BX_FIELD "net_tax_value" BX_F_STR; BX_FIELD "start_year" BX_F_INT;
  BX_FIELD "end_year" BX_F_INT; BX_FIELD "start_month" BX_F_INT; BX_FIELD "end_month" BX_F_INT;
  BX_FIELD "display_name" BX_F_STR; BX_FIELD "is_active" BX_F_BOOL].
Definition language_fields : list BXJsonField := [
  BX_FIELD "id" BX_F_UINT; BX_FIELD "date_format_id" BX_F_UINT; BX_FIELD "name" BX_F_STR;
  BX_FIELD "decimal_point" BX_F_STR; BX_FIELD "thousands_separator" BX_F_STR;
  BX_FIELD "iso_639_1" BX_F_STR; BX_FIELD "date_format" BX_F_STR].
Definition user_fields : list BXJsonField := [
  BX_FIELD "id" BX_F_UINT; BX_FIELD "firstname" BX_F_STR; BX_FIELD "lastname" BX_F_STR;
  BX_FIELD "email" BX_F_STR; BX_FIELD "salutation_type" BX_F_STR;
  BX_FIELD "is_accountant" BX_F_BOOL; BX_FIELD "is_superadmin" BX_F_BOOL].

Section Values.
Context `{CDouble}.

(** [bxd_bind] of several members, and a string member bound as [char]. *)
Definition bind_members (names : list string) (d : decoded) : list binding :=
  (fun n => bx_binding (":" +:+ n) (member n d)) <$> names.
Definition char_member (name : string) (d : decoded) : binding :=
  let s := str_value (string_member name d) in
  char_binding (":" +:+ name) s (match s with Some t => strlen t | None => 0 end).

Definition id_key (d : decoded) : list binding := [bx_binding ":id" (member "id" d)].

Definition account_values (d : decoded) (now : Z) : list binding :=
  bind_members ["id"; "uuid"; "account_no"; "name"; "account_type"; "tax_id";
                "fibu_account_group_id"; "is_active"; "is_locked"] d
  ++ [u64_binding ":_checksum" (d_checksum d); u64_binding ":_last_updated" now;
      u64_binding ":_deleted" 0].
Definition currency_values (d : decoded) (now : Z) : list binding :=
  bind_members ["id"; "name"; "round_factor"; "exchange_rate"; "exchange_rate_id"; "ratio";
                "source"; "source_reason"; "exchange_rate_date"] d
  ++ [u64_binding ":_checksum" (d_checksum d); u64_binding ":_last_updated" now;
      u64_binding ":_deleted" 0].
Definition tax_values (d : decoded) (stale : Z) : list binding :=
  bind_members ["id"; "uuid"; "name"; "digit"; "taxtype"; "account_id"; "tax_settlement_type";
                "value"; "net_tax_value"; "start_year"; "start_month"; "end_year"; "end_month";
                "display_name"; "is_active"] d
  ++ [u64_binding ":_checksum" (d_checksum d); u64_binding ":_last_updated" stale].

(** Languages send the value of an id even when it is not set. *)
Definition language_key (d : decoded) : list binding :=
  [u64_binding ":id" (uint_value (uint_member "id" d))].
Definition language_values (d : decoded) (stale : Z) : list binding :=
  [u64_binding ":id" (uint_value (uint_member "id" d));
   u64_binding ":date_format_id" (uint_value (uint_member "date_format_id" d));
   char_member "name" d; char_member "decimal_point" d; char_member "date_format" d;
   char_member "thousands_separator" d; char_member "iso_639_1" d;
   u64_binding ":_checksum" (d_checksum d); u64_binding ":_last_updated" stale].

Definition flag (v : BXBool) : Z := if bool_value v then 1 else 0.
Definition user_values (d : decoded) (now : Z) : list binding :=
  bind_members ["id"; "firstname"; "lastname"; "email"; "salutation_type"] d
  ++ [u8_binding ":is_superadmin" (flag (bool_member "is_superadmin" d));
      u8_binding ":is_accountant" (flag (bool_member "is_accountant" d));
      u64_binding ":_checksum" (d_checksum d); u64_binding ":_last_updated" now;
      u64_binding ":_deleted" 0].
End Values.

(** ** The operations *)

Section Lookups.
Context `{Jansson} `{XXH3} {W : Type} `{!StmtEnv W} `{!Clock W} `{!RequestEnv W} `{!StaleStack W}.
Context (fuel : nat) (conn : MYSQL).

Definition generic (q : BXDatabaseQuery) : BXillError := ErrorGeneric.
Definition of_query (q : BXDatabaseQuery) : BXillError := bx_database_query_error (Some q).

(** A decoded item or [ErrorGeneric]. *)
Definition page_item (decode : option json_t -> prog W (option decoded))
    (persist : decoded -> prog W BXillError) (item : option json_t) : prog W BXillError :=
  d <- decode item ;;
  match d with None => ret ErrorGeneric | Some d => persist d end.

Definition account_persist (d : decoded) : prog W BXillError :=
  checked_row fuel conn (run_row_strict generic fuel conn) (select_checksum "account") (id_key d)
    (d_checksum d) ACCOUNT_INSERT ACCOUNT_UPDATE (account_values d).
Definition account_page_item : option json_t -> prog W BXillError :=
  page_item (decode_members account_fields) account_persist.
Definition bx_account_walk_items : prog W BXillError :=
  bx_walk_pages fuel (negb (bool_decide (conn = None))) (Some "2.0/accounts?limit=$&offset=$"%string)
    None false account_page_item.

Definition currency_persist (d : decoded) : prog W BXillError :=
  checked_row fuel conn (run_row_strict generic fuel conn) (select_checksum "currency") (id_key d)
    (d_checksum d) CURRENCY_INSERT CURRENCY_UPDATE (currency_values d).
Definition currency_page_item : option json_t -> prog W BXillError :=
  page_item (decode_members currency_fields) currency_persist.
Definition bx_currency_walk_items : prog W BXillError :=
  bx_walk_pages fuel (negb (bool_decide (conn = None))) (Some "3.0/currencies?limit=$&offset=$"%string)
    None false currency_page_item.

(** *** Taxes *)

Definition bx_object_tax_decode : option json_t -> prog W (option decoded) :=
  decode_members tax_fields.

Definition execute_tax_query (d : decoded) (sql : string) : prog W BXillError :=
  stale <- stale_u64 ;;
  r <- run_row_strict generic fuel conn sql (tax_values d stale) ;;
  ret (error_of r).

Definition bx_taxes_check_database (d : decoded) : prog W (BXillError + ObjectState) :=
  r <- run_row_strict of_query fuel conn (select_checksum "taxes") (id_key d) ;;
  ret (match r with inl e => inl e | inr q => inr (row_state (d_checksum d) q) end).

Definition _bx_insert_tax (d : decoded) : prog W BXillError := execute_tax_query d TAX_INSERT.
Definition _bx_update_tax (d : decoded) : prog W BXillError := execute_tax_query d TAX_UPDATE.

Definition _bx_sync_item (item : option json_t) : prog W BXillError :=
  match item with
  | None => fault                                       (* the assert of the decoder *)
  | Some _ =>
      d <- bx_object_tax_decode item ;;
      match d with
      | None => ret ErrorGeneric
      | Some d =>
          r <- bx_taxes_check_database d ;;
          match r with
          | inl e => ret e
          | inr Error => ret ErrorGeneric
          | inr NeedCreate => _bx_insert_tax d
          | inr NeedUpdate => _bx_update_tax d
          | inr NeedNothing => ret NoError
          end
      end
  end.

Definition tax_scope (scope : string) : option BXAny := Some (VString (mkString true (Some scope))).

Definition bx_taxes_walk_item : prog W BXillError :=
  let pass scope := bx_walk_pages fuel (negb (bool_decide (conn = None)))
                      (Some "3.0/taxes?limit=$&offset=$&scope=$"%string)
                      (tax_scope scope) true _bx_sync_item in
  e <- pass "active"%string ;;
  if negb (bool_decide (e = NoError)) then ret e else pass "inactive"%string.

(** *** Languages *)

(** The structure is on the stack of the caller. *)
Definition language_decode : option json_t -> prog W (option decoded) :=
  decode_on_stack language_fields.

Definition bx_language_check_database (d : decoded) : prog W (BXillError + ObjectState) :=
  r <- run_row fuel conn (select_checksum "language") (language_key d) ;;
  ret (match r with inl e => inl e | inr q => inr (row_state (d_checksum d) q) end).

Definition language_execute_request (d : decoded) (request : string) : prog W BXillError :=
  stale <- stale_u64 ;;
  r <- run_row_strict of_query fuel conn request (language_values d stale) ;;
  ret (error_of r).

Definition bx_language_update_db (d : decoded) : prog W BXillError :=
  language_execute_request d LANGUAGE_UPDATE.
Definition bx_language_insert_db (d : decoded) : prog W BXillError :=
  language_execute_request d LANGUAGE_INSERT.

(** The write of one language: only a lost connection stops the load. *)
Definition language_write (d : decoded) (s : ObjectState) : prog W BXillError :=
  e <- (match s with
        | NeedNothing | Error => ret NoError
        | NeedCreate => bx_language_insert_db d
        | NeedUpdate => bx_language_update_db d
        end) ;;
  ret (if bool_decide (e = ErrorSQLReconnect) then e else NoError).

Fixpoint language_loop (arr : option json_t) (n : nat) (i : Z) : prog W BXillError :=
  match n with
  | O => ret NoError
  | S n =>
      d <- language_decode (array_get arr i) ;;
      match d with
      | None => language_loop arr n (i + 1)
      | Some d =>
          r <- bx_language_check_database d ;;
          match r with
          | inl e => ret e
          | inr s =>
              e <- language_write d s ;;
              if negb (bool_decide (e = NoError)) then ret e else language_loop arr n (i + 1)
          end
      end
  end.

Definition bx_language_load : prog W BXillError :=
  request <- request_json "2.0/language" [] ;;
  match good_answer request with
  | None => ret ErrorNet
  | Some jroot => language_loop (Some jroot) (Z.to_nat (json_array_size jroot)) 0
  end.

(** *** Users *)

(** [is_in_database]: presence of a row, by a statement on its id. *)
Definition is_in_database (text : string) (item : BXAny) : prog W (BXillError + bool) :=
  r <- run_row fuel conn text [bx_binding ":id" item] ;;
  ret (match r with inl e => inl e | inr q => inr (row_present q) end).

Definition bx_user_is_in_database : BXAny -> prog W (BXillError + bool) :=
  is_in_database "SELECT id FROM user  WHERE id = :id;".

(** [calloc(1, 1)] for a string that is missing; without memory the value stays
    [NULL]. *)
Definition ensure_str (s : BXString) : prog W BXString :=
  if str_isset s && match str_value s with Some _ => true | None => false end then ret s
  else m <- memory ;; ret (mkString true (alloc m EmptyString)).
Definition ensure_member (name : string) (d : decoded) : prog W decoded :=
  s <- ensure_str (string_member name d) ;;
  ret (set_member name (VString s) d).

Definition persist_user (d : decoded) : prog W BXillError :=
  if bool_decide (conn = None) || negb (uint_isset (uint_member "id" d)) then ret ErrorGeneric else
  d <- ensure_member "firstname" d ;;
  d <- ensure_member "lastname" d ;;
  d <- ensure_member "email" d ;;
  d <- ensure_member "salutation_type" d ;;
  now <- now_u64 ;;
  r <- run_row fuel conn (select_checksum "user" +:+ ";") (id_key d) ;;
  match r with
  | inl e => ret e
  | inr q =>
      match row_state (d_checksum d) q with
      | NeedNothing => ret NoError
      | s =>
          r <- run_row fuel conn (match s with NeedCreate => USER_INSERT | _ => USER_UPDATE end)
                 (user_values d now) ;;
          ret (match r with
               | inl e => e
               | inr q => if bx_database_persist_ok (Some q) then NoError else ErrorGeneric
               end)
      end
  end.

Definition decode_user_json (root : option json_t) : prog W (option decoded) :=
  let data := object_get root "data" in
  let root := if json_is JSON_OBJECT root && json_is JSON_OBJECT data then data else root in
  if negb (json_is JSON_OBJECT root) then ret None else decode_members user_fields root.

(** The paths in turn, until one gives a user that is stored or the connection
    is lost. *)
Fixpoint user_paths (paths : list string) (item : BXAny) (last : BXillError) : prog W BXillError :=
  match paths with
  | [] => ret last
  | path :: paths =>
      request <- request_json path [Some item] ;;
      match good_answer request with
      | None => user_paths paths item last
      | Some body =>
          d <- decode_user_json (Some body) ;;
          match d with
          | None => user_paths paths item last
          | Some d =>
              last <- persist_user d ;;
              if bool_decide (last = NoError) || bool_decide (last = ErrorSQLReconnect)
              then ret last else user_paths paths item last
          end
      end
  end.
Definition bx_user_sync_item (item : BXAny) : prog W BXillError :=
  user_paths ["3.0/users/$"%string; "3.0/fictional_users/$"%string] item ErrorGeneric.

Definition user_page_item (item : option json_t) : prog W BXillError :=
  d <- decode_user_json item ;;
  match d with
  | None => ret NoError
  | Some d =>
      e <- persist_user d ;;
      ret (if bool_decide (e = ErrorSQLReconnect) then e else NoError)
  end.

Definition walk_user_path (path : string) : prog W BXillError :=
  bx_walk_pages fuel (negb (bool_decide (conn = None))) (Some path) None false user_page_item.

Definition bx_user_walk_items : prog W BXillError :=
  e <- walk_user_path "3.0/users?limit=$&offset=$" ;;
  if bool_decide (e = ErrorSQLReconnect) then ret e else
  e <- walk_user_path "3.0/fictional_users?limit=$&offset=$" ;;
  ret (if bool_decide (e = ErrorSQLReconnect) then e else NoError).
End Lookups.

(** ** On a server *)

(** A statement and the names that are bound to it: it can be prepared, each of
    its placeholders is bound, and each bound name has its placeholder. *)
Definition names_match (names : list string) (text : string) : bool :=
  statement_ok names text && forallb short names
  && forallb (fun n => bool_decide (n ∈ statement_names text)) names.

Section LookupSpec.
Context `{Jansson} `{XXH3} (db : answers_to) (clock stale : Z).
#[local] Instance lookup_env : StmtEnv server := serving db.
#[local] Instance lookup_clock : Clock server := {| now_u64 := ret clock |}.
#[local] Instance lookup_stale : StaleStack server := {| stale_u64 := ret stale |}.

Lemma names_match_plan text bs :
  names_match (bd_name <$> bs) text = true -> Forall binding_ok bs ->
  row_plan text bs /\ all_named text bs = true.
Proof.
  unfold names_match. rewrite !andb_true_iff. intros [[Hs Hn] Ha] Hb. split; [split; [done|split; [done|]]|].
  - apply Forall_forall. intros b Hin. rewrite forallb_forall in Hn. apply Hn.
    by apply list_elem_of_In, list_elem_of_fmap_2.
  - apply forallb_forall. intros b Hin. rewrite forallb_forall in Ha. apply (Ha (bd_name b)).
    by apply list_elem_of_In, list_elem_of_fmap_2, list_elem_of_In.
Qed.

(** The four modules that store one row per object. *)
Inductive lookup := Accounts | Currencies | Taxes | Users.

Definition lookup_decode (l : lookup) (item : option json_t) : prog server (option decoded) :=
  match l with
  | Accounts => decode_members account_fields item
  | Currencies => decode_members currency_fields item
  | Taxes => bx_object_tax_decode item
  | Users => decode_user_json item
  end.
Definition lookup_item (l : lookup) (fuel : nat) (conn : MYSQL) (item : option json_t)
    : prog server BXillError :=
  match l with
  | Accounts => account_page_item fuel conn item
  | Currencies => currency_page_item fuel conn item
  | Taxes => _bx_sync_item fuel conn item
  | Users => user_page_item fuel conn item
  end.
Definition lookup_select (l : lookup) : string :=
  match l with
  | Accounts => "SELECT _checksum FROM account WHERE id = :id"
  | Currencies => "SELECT _checksum FROM currency WHERE id = :id"
  | Taxes => "SELECT _checksum FROM taxes WHERE id = :id"
  | Users => "SELECT _checksum FROM user WHERE id = :id;"
  end.
Definition lookup_insert (l : lookup) : string :=
  match l with Accounts => ACCOUNT_INSERT | Currencies => CURRENCY_INSERT | Taxes => TAX_INSERT
             | Users => USER_INSERT end.
Definition lookup_update (l : lookup) : string :=
  match l with Accounts => ACCOUNT_UPDATE | Currencies => CURRENCY_UPDATE | Taxes => TAX_UPDATE
             | Users => USER_UPDATE end.

(** A user is stored with empty texts for those that are missing. *)
Definition ensured (name : string) (d : decoded) : decoded :=
  set_member name (VString (match string_member name d with
                            | mkString true (Some s) => mkString true (Some s)
                            | _ => mkString true (Some EmptyString)
                            end)) d.
Definition stored_form (l : lookup) (d : decoded) : decoded :=
  match l with
  | Users => ensured "salutation_type" (ensured "email" (ensured "lastname" (ensured "firstname" d)))
  | _ => d
  end.
Definition lookup_values (l : lookup) (d : decoded) : list binding :=
  match l with
  | Accounts => account_values d clock
  | Currencies => currency_values d clock
  | Taxes => tax_values d stale
  | Users => user_values d clock
  end.

Lemma lookup_values_ok l d : Forall binding_ok (lookup_values l d).
Proof. destruct l; cbn; repeat (constructor; [solve [auto with bindings]|]); constructor. Qed.

Lemma lookup_plans l d text :
  text = lookup_insert l \/ text = lookup_update l ->
  row_plan text (lookup_values l d) /\ all_named text (lookup_values l d) = true.
Proof.
  intros Ht. apply names_match_plan; [|apply lookup_values_ok].
  destruct l, Ht as [-> | ->]; vm_compute; reflexivity.
Qed.

Lemma lookup_key_plan l d : row_plan (lookup_select l) (id_key d) /\ all_named (lookup_select l) (id_key d) = true.
Proof.
  apply names_match_plan; [destruct l; vm_compute; reflexivity|].
  constructor; [auto with bindings|constructor].
Qed.
(** The state of a row that the server gave. *)
Definition state_of (stored : option Z) (checksum : Z) : ObjectState :=
  match stored with
  | None => NeedCreate
  | Some c => if c =? checksum then NeedNothing else NeedUpdate
  end.

Lemma row_state_ran fuel text bs (w w' : server) q checksum :
  row_ran db fuel text bs w w' (inr q) ->
  row_state checksum q = state_of (first_checksum (dataset_rows (answer db (log_entry text bs)))) checksum.
Proof. intros (q' & [= <-] & _ & Hr & _). unfold row_state, stored_checksum. by rewrite Hr. Qed.

(** A lookup whose answer decides of one write, in any of the forms the code
    has: [write] is run with the text that the state asks for. *)
Lemma write_by_state {A} fuel (other : prog server A) (write : string -> prog server A) (result : A) select keys insert update values checksum
    (q : BXDatabaseQuery) w w1 :
  row_ran db fuel select keys w w1 (inr q) ->
  (forall text, text = insert \/ text = update -> exists w', write text w1 = Done (result, w')
     /\ sv_log w' = sv_log w1 ++ [log_entry text values]) ->
  exists w', (match row_state checksum q with
              | NeedNothing => ret result
              | NeedCreate => write insert
              | NeedUpdate => write update
              | Error => other
              end) w1 = Done (result, w')
  /\ sv_log w' = sv_log w ++ log_entry select keys
       :: row_writes (first_checksum (dataset_rows (answer db (log_entry select keys)))) checksum
            insert update values.
Proof.
  intros Hran Hw. rewrite (row_state_ran _ _ _ _ _ _ checksum Hran).
  destruct Hran as (q' & [= <-] & Hlog & _ & _). unfold state_of, row_writes.
  assert (forall text, text = insert \/ text = update -> exists w', write text w1 = Done (result, w')
    /\ sv_log w' = sv_log w ++ [log_entry select keys; log_entry text values]) as Hw'.
  { intros text Ht. destruct (Hw text Ht) as (w' & E & Hl). exists w'. split; [done|].
    by rewrite Hl, Hlog, <- app_assoc. }
  destruct (first_checksum _) as [k|]; [|apply Hw'; by left].
  destruct (k =? checksum); [by exists w1|apply Hw'; by right].
Qed.

Lemma strict_write fuel c l d text w :
  text = lookup_insert l \/ text = lookup_update l ->
  is_dataset (answer db (log_entry text (lookup_values l d))) fuel ->
  exists r w', run_row_strict generic fuel (Some c) text (lookup_values l d) w = Done (r, w')
  /\ row_ran db fuel text (lookup_values l d) w w' r.
Proof.
  intros Ht Ha. destruct (lookup_plans l d text Ht) as [Hp Hn].
  exact (run_row_strict_serving db generic fuel c text _ w Hp Hn Ha).
Qed.

Lemma ensure_member_serving name d (w : server) :
  ensure_member name d w = Done (ensured name d, w).
Proof. unfold ensure_member, ensure_str, ensured. by destruct (string_member name d) as [[] [s|]]. Qed.

Lemma ensured_checksum name d : d_checksum (ensured name d) = d_checksum d.
Proof. done. Qed.

Lemma persist_user_serving fuel c d w :
  uint_isset (uint_member "id" d) = true ->
  let d' := stored_form Users d in
  let select := log_entry (lookup_select Users) (id_key d') in
  is_dataset (answer db select) fuel ->
  (forall text, text = lookup_insert Users \/ text = lookup_update Users ->
     is_dataset (answer db (log_entry text (lookup_values Users d'))) fuel) ->
  exists w', persist_user fuel (Some c) d w = Done (NoError, w')
  /\ sv_log w' = sv_log w ++ select
       :: row_writes (first_checksum (dataset_rows (answer db select))) (d_checksum d')
            (lookup_insert Users) (lookup_update Users) (lookup_values Users d').
Proof.
  intros Hid d' select Hsel Hwr. destruct (lookup_key_plan Users d') as [Hkp _].
  unfold persist_user. rewrite Hid, bool_decide_false by done. cbn [orb negb].
  do 4 rewrite (bind_eq _ _ _ _ _ (ensure_member_serving _ _ w)).
  change (ensured "salutation_type" _) with d'. rewrite (bind_eq _ _ _ clock w) by reflexivity.
  destruct (run_row_serving db fuel c _ (id_key d') w Hkp Hsel) as (r & w1 & E & Hran).
  pose proof Hran as (q & -> & _). unfold row_run in E. rewrite (bind_eq _ _ _ _ _ E).
  set (write text := bind (run_row fuel (Some c) text (user_values d' clock)) (fun r =>
      ret (match r with
           | inl e => e
           | inr q => if bx_database_persist_ok (Some q) then NoError else ErrorGeneric
           end))).
  destruct (write_by_state fuel (write USER_UPDATE) write NoError (lookup_select Users)
      (id_key d') USER_INSERT USER_UPDATE (lookup_values Users d') (d_checksum d') q w w1 Hran)
      as (w' & Ew & Hlog).
  { intros text Ht. destruct (lookup_plans Users d' text Ht) as [Hp _].
    destruct (run_row_serving db fuel c text _ w1 Hp (Hwr text Ht)) as (r & w2 & E2 & q2 & -> & Hl & _ & Hok).
    exists w2. split; [|done]. unfold row_run in E2. subst write. cbn beta.
    rewrite (bind_eq _ _ _ _ _ E2). by rewrite Hok. }
  exists w'. split; [|exact Hlog]. rewrite <- Ew. by destruct (row_state (d_checksum d') q).
Qed.

(** Claim C22. One object of a lookup list on a server (accounts, currencies, taxes, users)
    that decodes: its row is looked up by id; nothing is written when the
    checksum is the stored one; otherwise one INSERT or UPDATE sends every
    member under its name.  The text members a user lacks are sent empty. *)
Theorem lookup_row_statements l fuel c item d w :
  lookup_decode l (Some item) w = Done (Some d, w) ->
  (l = Users -> uint_isset (uint_member "id" d) = true) ->
  let d' := stored_form l d in
  let select := log_entry (lookup_select l) (id_key d') in
  is_dataset (answer db select) fuel ->
  (forall text, text = lookup_insert l \/ text = lookup_update l ->
     is_dataset (answer db (log_entry text (lookup_values l d'))) fuel) ->
  exists w', lookup_item l fuel (Some c) (Some item) w = Done (NoError, w')
  /\ sv_log w' = sv_log w ++ select
       :: row_writes (first_checksum (dataset_rows (answer db select))) (d_checksum d')
            (lookup_insert l) (lookup_update l) (lookup_values l d').
Proof.
  intros Hd Hid d' select Hsel Hwr. destruct (lookup_key_plan l d') as [Hkp Hkn].
  destruct l.
  - unfold lookup_item, account_page_item, page_item. cbn [lookup_decode] in Hd.
    rewrite (bind_eq _ _ _ _ _ Hd).
    apply (checked_row_serving db clock fuel c (run_row_strict generic fuel (Some c))
      (lookup_select Accounts) (id_key d') (d_checksum d') (lookup_insert Accounts)
      (lookup_update Accounts) (account_values d') w Hkp Hsel).
    intros text Ht w0. apply (strict_write fuel c Accounts d' text w0 Ht (Hwr text Ht)).
  - unfold lookup_item, currency_page_item, page_item. cbn [lookup_decode] in Hd.
    rewrite (bind_eq _ _ _ _ _ Hd).
    apply (checked_row_serving db clock fuel c (run_row_strict generic fuel (Some c))
      (lookup_select Currencies) (id_key d') (d_checksum d') (lookup_insert Currencies)
      (lookup_update Currencies) (currency_values d') w Hkp Hsel).
    intros text Ht w0. apply (strict_write fuel c Currencies d' text w0 Ht (Hwr text Ht)).
  - unfold lookup_item, _bx_sync_item. cbn [lookup_decode] in Hd. rewrite (bind_eq _ _ _ _ _ Hd).
    destruct (run_row_strict_serving db of_query fuel c _ (id_key d') w Hkp Hkn Hsel)
      as (r & w1 & E & Hran).
    pose proof Hran as (q & -> & _). unfold bx_taxes_check_database.
    unfold bind at 1. rewrite (bind_eq _ _ _ _ _ E). cbn [ret].
    destruct (write_by_state fuel (ret ErrorGeneric) (execute_tax_query fuel (Some c) d) NoError (lookup_select Taxes)
      (id_key d') TAX_INSERT TAX_UPDATE (lookup_values Taxes d') (d_checksum d) q w w1 Hran)
      as (w' & Ew & Hlog).
    { intros text Ht. destruct (strict_write fuel c Taxes d text w1 Ht) as (r & w2 & E2 & q2 & -> & Hl & _);
        [by apply Hwr|]. exists w2. split; [|done]. unfold execute_tax_query.
      step. by rewrite (bind_eq _ _ _ _ _ E2). }
    exists w'. split; [exact Ew|exact Hlog].
  - unfold lookup_item, user_page_item. cbn [lookup_decode] in Hd. rewrite (bind_eq _ _ _ _ _ Hd).
    destruct (persist_user_serving fuel c d w (Hid eq_refl) Hsel Hwr) as (w' & E & Hlog).
    exists w'. split; [|exact Hlog]. by rewrite (bind_eq _ _ _ _ _ E).
Qed.

(** *** The languages *)

Context (net : string -> list (option BXAny) -> option (Z * json_t)).
#[local] Instance lookup_net : RequestEnv server :=
  {| request_json path args := ret (net path args); page_pause := ret tt |}.

Lemma language_values_ok d : Forall binding_ok (language_values d stale).
Proof. unfold language_values, char_member. repeat (constructor; [solve [auto with bindings]|]). constructor. Qed.

Lemma language_plans d text :
  text = LANGUAGE_INSERT \/ text = LANGUAGE_UPDATE ->
  row_plan text (language_values d stale) /\ all_named text (language_values d stale) = true.
Proof.
  intros Ht. apply names_match_plan; [|apply language_values_ok].
  destruct Ht as [-> | ->]; vm_compute; reflexivity.
Qed.

Lemma language_key_plan d : row_plan (select_checksum "language") (language_key d).
Proof.
  apply names_match_plan; [vm_compute; reflexivity|]. constructor; [auto with bindings|constructor].
Qed.

Definition language_lookup (d : decoded) : string * list (option pointee) :=
  log_entry (select_checksum "language") (language_key d).
Definition language_entries (d : decoded) : list (string * list (option pointee)) :=
  language_lookup d
  :: row_writes (first_checksum (dataset_rows (answer db (language_lookup d)))) (d_checksum d)
       LANGUAGE_INSERT LANGUAGE_UPDATE (language_values d stale).
Definition answers_language (fuel : nat) (d : decoded) : Prop :=
  is_dataset (answer db (language_lookup d)) fuel
  /\ forall text, text = LANGUAGE_INSERT \/ text = LANGUAGE_UPDATE ->
       is_dataset (answer db (log_entry text (language_values d stale))) fuel.

Lemma language_step fuel c d w :
  answers_language fuel d ->
  exists s w1 w', bx_language_check_database fuel (Some c) d w = Done (inr s, w1)
  /\ language_write fuel (Some c) d s w1 = Done (NoError, w')
  /\ sv_log w' = sv_log w ++ language_entries d.
Proof.
  intros [Hsel Hwr].
  destruct (run_row_serving db fuel c _ _ w (language_key_plan d) Hsel) as (r & w1 & E & Hran).
  pose proof Hran as (q & -> & _). exists (row_state (d_checksum d) q), w1.
  set (write text := bind (language_execute_request fuel (Some c) d text) (fun e =>
         ret (if bool_decide (e = ErrorSQLReconnect) then e else NoError))).
  destruct (write_by_state fuel (ret NoError) write NoError (select_checksum "language") (language_key d)
    LANGUAGE_INSERT LANGUAGE_UPDATE (language_values d stale) (d_checksum d) q w w1 Hran)
    as (w' & Ew & Hlog).
  { intros text Ht. destruct (language_plans d text Ht) as [Hp Hn].
    destruct (run_row_strict_serving db of_query fuel c text _ w1 Hp Hn (Hwr text Ht))
      as (r & w2 & E2 & q2 & -> & Hl & _).
    exists w2. split; [|done]. subst write. cbn beta. unfold language_execute_request, bind at 1.
    rewrite (bind_eq _ _ _ stale w1) by reflexivity. by rewrite (bind_eq _ _ _ _ _ E2). }
  exists w'. split; [|split; [|exact Hlog]].
  - unfold bx_language_check_database. by rewrite (bind_eq _ _ _ _ _ E).
  - rewrite <- Ew. by destruct (row_state (d_checksum d) q).
Qed.

Definition load_languages (fuel : nat) (conn : MYSQL) : prog server BXillError :=
  bx_language_load fuel conn.

Lemma language_loop_serving fuel c arr ds i w :
  (forall k d, ds !! k = Some d ->
     (forall w, language_decode (json_array_get arr (i + Z.of_nat k)) w = Done (Some d, w))
     /\ answers_language fuel d) ->
  exists w', language_loop fuel (Some c) (Some arr) (length ds) i w = Done (NoError, w')
  /\ sv_log w' = sv_log w ++ (ds ≫= language_entries).
Proof.
  revert i w. induction ds as [|d ds IH]; intros i w Hds; [exists w; by rewrite app_nil_r|].
  destruct (Hds 0%nat d eq_refl) as [Hd Ha]. rewrite Z.add_0_r in Hd.
  destruct (language_step fuel c d w Ha) as (s & w1 & w2 & E1 & E2 & Hlog).
  destruct (IH (i + 1) w2) as (w' & E' & Hlog').
  { intros k d' Hk. replace (i + 1 + Z.of_nat k) with (i + Z.of_nat (S k)) by lia. by apply Hds. }
  exists w'. cbn [language_loop length array_get]. rewrite (bind_eq _ _ _ _ _ (Hd w)).
  rewrite (bind_eq _ _ _ _ _ E1), (bind_eq _ _ _ _ _ E2), bool_decide_true by done. cbn [negb].
  split; [exact E'|]. by rewrite Hlog', Hlog, <- app_assoc.
Qed.

(** Loading the languages of the answer: each one is looked up and written
    once, in order, unless its checksum is the stored one. *)
Theorem languages_loaded fuel c arr ds w :
  net "2.0/language" [] = Some (200, arr) -> json_array_size arr = Z.of_nat (length ds) ->
  (forall k d, ds !! k = Some d ->
     (forall w, language_decode (json_array_get arr (Z.of_nat k)) w = Done (Some d, w))
     /\ answers_language fuel d) ->
  exists w', load_languages fuel (Some c) w = Done (NoError, w')
  /\ sv_log w' = sv_log w ++ (ds ≫= language_entries).
Proof.
  intros Hn Hs Hds. destruct (language_loop_serving fuel c arr ds 0 w Hds) as (w' & E & Hlog).
  exists w'. split; [|exact Hlog]. unfold load_languages, bx_language_load.
  rewrite (bind_eq _ _ _ (net "2.0/language" []) w) by reflexivity.
  rewrite Hn. cbn [good_answer]. rewrite Z.eqb_refl, Hs, Nat2Z.id. exact E.
Qed.
End LookupSpec.

(** ** Concrete objects *)

#[local] Instance sample_lookup_env : StmtEnv server := serving Positions.position_db.
Definition sample_user : json_t :=
  J (JObject [("id", JInteger 4); ("firstname", JString "Rudolph"); ("email", JString "r@example.org");
              ("is_superadmin", JBool true)]).
Definition idle_server : server := mkServer "" [] None [] [] [].
Definition sample_user_decoded : decoded :=
  match decode_user_json (Some sample_user) idle_server with
  | Done (Some d, _) => d
  | _ => mkDecoded [] 0
  end.

Lemma lookup_row_statements_witness :
  exists w', lookup_item Positions.position_db 1700000000 0 Users 2 (Some 0) (Some sample_user) idle_server
             = Done (NoError, w')
  /\ sv_log w' = [log_entry (lookup_select Users) (id_key sample_user_decoded);
                  log_entry USER_UPDATE (user_values (stored_form Users sample_user_decoded) 1700000000)].
Proof.
  apply (lookup_row_statements Positions.position_db 1700000000 0 Users 2 0 sample_user
    sample_user_decoded idle_server).
  - reflexivity.
  - intros _. reflexivity.
  - split; [discriminate|cbn; lia].
  - intros text [-> | ->]; exact I.
Defined.
