(* ===== verification/ContactLists.v ===== *)
(** * What contacts refer to: groups, sectors, countries

    [bxobjects/contact_group.c], [contact_sector.c], [country_code.c].  The
    theorems: the groups of a contact are replaced by those of its list; a walk
    over the sectors writes the listed ones and marks exactly the others as
    deleted; a country code is that of the first entry of its id. *)
From S2P Require Import Prelude CLib Env Samples Values Objects Utils Walk Chain Database Upsert Rows Lookups.
#[local] Open Scope Z_scope.

(** The number in the first column of the first row. *)
Definition first_value `{CDouble} (q : BXDatabaseQuery) : option Z :=
  match q_results q with
  | row :: _ => match row_columns row with c :: _ => Some (c_i_value c) | [] => None end
  | [] => None
  end.

Definition contact_group_fields : list BXJsonField := [BX_FIELD "id" BX_F_UINT; BX_FIELD "name" BX_F_STR].
Definition contact_sector_fields : list BXJsonField := [BX_FIELD "id" BX_F_UINT; BX_FIELD "name" BX_F_STR].

Definition GROUP_DELETED : string := "SELECT _deleted FROM contact_group WHERE id = :id;".
Definition GROUP_DELETE : string := "UPDATE contact_group SET _deleted = :deleted WHERE id = :id;".
Definition GROUP_SELECT : string := "SELECT _checksum FROM contact_group WHERE id = :id;".
Definition GROUP_INSERT : string :=
  "INSERT INTO contact_group (_checksum, id, name, _last_updated)" +:+
  " VALUES (:_checksum, :id, :name, :_last_updated);".
Definition GROUP_UPDATE : string :=
  "UPDATE contact_group SET _checksum = :_checksum, name = :name, " +:+
  "_last_updated = :_last_updated, _deleted = :_deleted " +:+
  "WHERE id = :id;".
Definition UNLINK_GROUPS : string := "DELETE FROM cg2c WHERE contact = :cid".
Definition LINK_GROUP : string :=
  "INSERT IGNORE INTO cg2c (contact_group, contact) " +:+
  "VALUES (:gid, :cid)".

Definition SECTOR_IDS : string := "SELECT id FROM contact_sector WHERE _deleted = 0;".
Definition SECTOR_SELECT : string := "SELECT _checksum FROM contact_sector WHERE id = :id;".
Definition SECTOR_INSERT : string :=
  "INSERT INTO contact_sector (_checksum, id, name, _last_updated, _deleted)" +:+
  "VALUES (:_checksum, :id, :name, :_last_updated, :_deleted);".
Definition SECTOR_UPDATE : string :=
  "UPDATE contact_sector SET _checksum = :_checksum, name = :name, " +:+
  "_last_updated = :_last_updated, _deleted = :_deleted " +:+
  "WHERE id = :id;".
Definition SECTOR_DELETE : string := "UPDATE contact_sector SET _deleted = :_deleted  WHERE id = :id;".

Section ContactLists.
Context `{Jansson} `{XXH3} {W : Type} `{!StmtEnv W} `{!Clock W} `{!RequestEnv W}.
Context (fuel : nat) (conn : MYSQL).

(** ** Groups *)

Definition group_decode : option json_t -> prog W (option decoded) :=
  decode_members contact_group_fields.
Definition decoded_id (d : decoded) : Z := uint_value (uint_member "id" d).

Definition db_delete_object (id : Z) : prog W BXillError :=
  if negb (0 <? id) then fault else                      (* the assert *)
  r <- run_row fuel conn GROUP_DELETED [i64_binding ":id" id] ;;
  match r with
  | inl e => ret e
  | inr q =>
      match first_value q with
      | None => ret NoError
      | Some deleted =>
          if i32 deleted =? 0 then
            now <- now_u64 ;;
            r <- run_row fuel conn GROUP_DELETE [i64_binding ":deleted" now; i64_binding ":id" id] ;;
            ret (error_of r)
          else ret NoError
      end
  end.

(** [((BXInteger * )item)->value], for the two types of a number. *)
Definition number_of (item : BXAny) : option Z :=
  match item with
  | VInteger v => Some (int_value v)
  | VUInteger v => Some (i64 (uint_value v))
  | _ => None
  end.

Definition group_inserted (d : decoded) (now : Z) : list binding :=
  [char_member "name" d; u64_binding ":_checksum" (d_checksum d); u64_binding ":id" (decoded_id d);
   u64_binding ":_last_updated" now].
Definition group_updated (d : decoded) (now : Z) : list binding :=
  [char_member "name" d; u64_binding ":id" (decoded_id d); u64_binding ":_checksum" (d_checksum d);
   u64_binding ":_last_updated" now; u64_binding ":_deleted" 0].

Definition group_persist (d : decoded) : prog W BXillError :=
  now <- now_u64 ;;
  r <- run_row fuel conn GROUP_SELECT [i64_binding ":id" (decoded_id d)] ;;
  match r with
  | inl e => ret e
  | inr q =>
      match row_state (d_checksum d) q with
      | NeedNothing => ret NoError
      | NeedCreate => r <- run_row fuel conn GROUP_INSERT (group_inserted d now) ;; ret (error_of r)
      | _ => r <- run_row fuel conn GROUP_UPDATE (group_updated d now) ;; ret (error_of r)
      end
  end.

Definition bx_contact_group_sync_item (item : BXAny) : prog W BXillError :=
  request <- request_json "2.0/contact_group/$" [Some item] ;;
  match request with
  | None => ret ErrorNet
  | Some (http_code, body) =>
      if http_code =? 404 then
        match number_of item with Some id => db_delete_object id | None => fault end
      else if negb (http_code =? 200) then ret ErrorNet
      else
        d <- group_decode (Some body) ;;
        match d with None => ret ErrorGeneric | Some d => group_persist d end
  end.

(** The loop over the ids of the list; [gid] is bound by its address. *)
Fixpoint link_loop (ids : list Z) (ins : BXDatabaseQuery) : prog W BXillError :=
  match ids with
  | [] => bx_database_free_query (Some ins) ;;; ret NoError
  | id :: ids =>
      let gid := u64 id in
      let ins := (bind_named (u64_binding ":gid" gid) ins).2 in
      if gid =? 0 then link_loop ids ins else
      let* (ok, ins) := bx_database_execute ins in
      if ok : bool then link_loop ids ins
      else bx_database_free_query (Some ins) ;;; ret (or_reconnect ErrorGeneric ins)
  end.

Definition bx_contact_group_link (contact_id : Z) (group_ids : option string) : prog W BXillError :=
  del <- bx_database_new_query conn (Some UNLINK_GROUPS) ;;
  match del with
  | None => ret ErrorGeneric
  | Some del =>
      let del := bind_each [u64_binding ":cid" contact_id] del in
      e <- finish_statement (or_reconnect ErrorGeneric) del ;;
      if negb (bool_decide (e = NoError)) then ret e else
      m <- memory ;;
      ids <- of_outcome (bx_int_string_array_to_int_array m group_ids) ;;
      match ids with
      | None => ret NoError
      | Some ids =>
          ins <- bx_database_new_query conn (Some LINK_GROUP) ;;
          match ins with
          | None => ret ErrorGeneric
          | Some ins =>
              let ins := bind_each [u64_binding ":gid" 0; u64_binding ":cid" contact_id] ins in
              match ids with
              | [] => fault
              | n :: ids => if Z.of_nat (length ids) <? n then fault
                            else link_loop (take (Z.to_nat n) ids) ins
              end
          end
      end
  end.

(** ** Sectors *)

Definition sector_decode : option json_t -> prog W (option decoded) :=
  decode_members contact_sector_fields.

(** [struct s_ItemMustBeDeleted]: the stored ids, each with its mark; the mark
    of the first that is met is taken away. *)
Fixpoint unmark (id : Z) (items : list (Z * bool)) : list (Z * bool) :=
  match items with
  | [] => []
  | (i, b) :: items => if u64 i =? id then (i, false) :: items else (i, b) :: unmark id items
  end.

(** The first column of every row, marked; a row without columns is read past
    its end. *)
Fixpoint marked_ids (rows : list BXDatabaseRow) : option (list (Z * bool)) :=
  match rows with
  | [] => Some []
  | row :: rows =>
      match row_columns row, marked_ids rows with
      | c :: _, Some items => Some ((c_i_value c, true) :: items)
      | _, _ => None
      end
  end.

(** The stored ids; no memory for them means that nothing is deleted. *)
Definition stored_sectors : prog W (BXillError + list (Z * bool)) :=
  r <- run_row fuel conn SECTOR_IDS [] ;;
  match r with
  | inl e => ret (inl e)
  | inr q =>
      match q_results q with
      | [] => ret (inr [])
      | rows =>
          m <- memory ;;
          if negb m then ret (inr []) else
          items <- lift_option (marked_ids rows) ;;
          ret (inr items)
      end
  end.

Definition sector_lookup (d : decoded) : prog W (BXillError + BXDatabaseQuery) :=
  query <- bx_database_new_query conn (Some SECTOR_SELECT) ;;
  match query with
  | None => ret (inl ErrorSQLSelect)
  | Some q =>
      let '(bound, q) := bind_strict [i64_binding ":id" (decoded_id d)] q in
      let* (ok, q) := if bound : bool then run_query fuel q else ret (false, q) in
      bx_database_free_query (Some q) ;;;
      ret (if ok : bool then inr q else inl (or_reconnect ErrorSQLSelect q))
  end.

(** A write that is executed only, with [on_error] for any failure after the
    query was made. *)
Definition sector_write (on_error : BXillError) (text : string) (bs : list binding)
    : prog W BXillError :=
  query <- bx_database_new_query conn (Some text) ;;
  match query with
  | None => ret ErrorGeneric
  | Some q =>
      let '(bound, q) := bind_strict bs q in
      if bound : bool then finish_statement (or_reconnect on_error) q
      else bx_database_free_query (Some q) ;;; ret (or_reconnect on_error q)
  end.

Definition sector_inserted (d : decoded) (now : Z) : list binding :=
  [char_member "name" d; u64_binding ":_checksum" (d_checksum d); u64_binding ":id" (decoded_id d);
   u64_binding ":_last_updated" now; u64_binding ":_deleted" 0].
Definition sector_updated (d : decoded) (now : Z) : list binding :=
  [bx_binding ":id" (member "id" d); char_member "name" d; u64_binding ":_checksum" (d_checksum d);
   u64_binding ":_last_updated" now; u64_binding ":_deleted" 0].

Definition sector_persist (d : decoded) : prog W BXillError :=
  r <- sector_lookup d ;;
  now <- now_u64 ;;
  match r with
  | inl e => ret e
  | inr q =>
      match row_state (d_checksum d) q with
      | NeedCreate => sector_write ErrorSQLSelect SECTOR_INSERT (sector_inserted d now)
      | NeedNothing => ret NoError
      | _ => sector_write ErrorSQLUpdate SECTOR_UPDATE (sector_updated d now)
      end
  end.

(** The loop over the answer: the error that stops it, or the marks. *)
Fixpoint sector_loop (arr : option json_t) (n : nat) (i : Z) (items : list (Z * bool))
    : prog W (BXillError + list (Z * bool)) :=
  match n with
  | O => ret (inr items)
  | S n =>
      d <- sector_decode (array_get arr i) ;;
      match d with
      | None => sector_loop arr n (i + 1) items
      | Some d =>
          e <- sector_persist d ;;
          if negb (bool_decide (e = NoError)) then ret (inl e)
          else sector_loop arr n (i + 1) (unmark (decoded_id d) items)
      end
  end.

(** The ids that are still marked; [:id] is bound by its address. *)
Fixpoint delete_loop (items : list (Z * bool)) (q : BXDatabaseQuery) : prog W BXillError :=
  match items with
  | [] => bx_database_free_query (Some q) ;;; ret NoError
  | (id, deleted) :: items =>
      if deleted : bool then
        let q := (bind_named (i64_binding ":id" id) q).2 in
        let* (ok, q) := bx_database_execute q in
        if ok : bool then delete_loop items q
        else bx_database_free_query (Some q) ;;; ret (or_reconnect ErrorSQLUpdate q)
      else delete_loop items q
  end.

Definition delete_sectors (items : list (Z * bool)) : prog W BXillError :=
  match items with
  | [] => ret NoError
  | _ =>
      now <- now_u64 ;;
      query <- bx_database_new_query conn (Some SECTOR_DELETE) ;;
      match query with
      | None => ret ErrorGeneric
      | Some q =>
          let '(bound, q) := bind_strict [i64_binding ":_deleted" now; i64_binding ":id" 0] q in
          if bound : bool then delete_loop items q
          else bx_database_free_query (Some q) ;;; ret (or_reconnect ErrorSQLGeneric q)
      end
  end.

Definition bx_contact_sector_walk_items : prog W BXillError :=
  request <- request_json "2.0/contact_branch" [] ;;
  match good_answer request with
  | None => ret ErrorGeneric
  | Some arr =>
      r <- stored_sectors ;;
      match r with
      | inl e => ret e
      | inr items =>
          r <- sector_loop (Some arr) (Z.to_nat (json_array_size arr)) 0 items ;;
          match r with
          | inl e => ret e
          | inr items => delete_sectors items
          end
      end
  end.
End ContactLists.

(** ** Countries *)

(** [COUNTRY_LIST]: the world holds the array with its end mark, [None] before
    it is loaded. *)
Definition Country : Type := Z * string.
Definition UNKNOWN_COUNTRY_CODE : string := "??".

(** [memcpy(code, value, 2)]: the text and its terminator must hold two bytes. *)
Definition code_bytes (value : option string) : option string :=
  match value with
  | None => Some UNKNOWN_COUNTRY_CODE
  | Some (String a (String b _)) => Some (String a (String b EmptyString))
  | Some (String a EmptyString) => Some (String a (String NUL EmptyString))
  | Some EmptyString => None
  end.

Section Countries.
Context `{Jansson} `{XXH3} {W : Type} `{!StmtEnv W} `{!RequestEnv W}.

Definition country_row (country : option json_t) : prog W Country :=
  let id := (bx_object_get_json_int country "id" None).1 in
  m <- memory ;;
  let* (code, _) := of_outcome (bx_object_get_json_string m country "iso_3166_alpha2" None) in
  bytes <- lift_option (code_bytes (str_value code)) ;;
  ret (i32 (int_value id), bytes).

Fixpoint country_rows (arr : option json_t) (n : nat) (i : Z) : prog W (list Country) :=
  match n with
  | O => ret []
  | S n =>
      row <- country_row (array_get arr i) ;;
      rows <- country_rows arr n (i + 1) ;;
      ret (row :: rows)
  end.

Definition country_end : Country := (-1, String NUL (String NUL EmptyString)).

Definition bx_country_code_load : prog (option (list Country) * W) bool :=
  request <- on_snd (request_json "2.0/country" []) ;;
  match good_answer request with
  | None => ret false
  | Some jroot =>
      m <- on_snd memory ;;
      if negb m then modify (fun w => (None, w.2)) ;;; ret false else
      rows <- on_snd (country_rows (Some jroot) (Z.to_nat (json_array_size jroot)) 0) ;;
      modify (fun w => (Some (rows ++ [country_end]), w.2)) ;;; ret true
  end.

(** The search stops at the first [bx_id] of -1. *)
Fixpoint find_country (id : Z) (l : list Country) : outcome (option string) :=
  match l with
  | [] => Fault
  | (k, code) :: l =>
      if k =? -1 then Done None else if k =? id then Done (Some code) else find_country id l
  end.
Definition bx_country_list_get_code (id : Z) (l : option (list Country)) : outcome (option string) :=
  match l with None => Fault | Some l => find_country id l end.

Definition bx_country_list_free : prog (option (list Country) * W) unit :=
  modify (fun w => (None, w.2)).
End Countries.

(** ** Countries: the first entry of an id *)

Fixpoint first_code (id : Z) (rows : list Country) : option string :=
  match rows with
  | [] => None
  | (k, code) :: rows => if k =? id then Some code else first_code id rows
  end.

Lemma find_country_first id rows :
  Forall (fun r : Country => r.1 <> -1) rows ->
  bx_country_list_get_code id (Some (rows ++ [country_end])) = Done (first_code id rows).
Proof.
  cbn. induction 1 as [|[k code] rows Hk _ IH]; [done|]. cbn in *.
  rewrite (proj2 (Z.eqb_neq _ _) Hk). by destruct (k =? id).
Qed.

(** Before the list is loaded the search reads through a null pointer. *)
Lemma country_not_loaded id : bx_country_list_get_code id None = Fault.
Proof. done. Qed.

(** ** On a server *)

Section ListSpec.
Context `{Jansson} `{XXH3} (db : answers_to) (clock : Z)
  (net : string -> list (option BXAny) -> option (Z * json_t)).
#[local] Instance lists_env : StmtEnv server := serving db.
#[local] Instance lists_clock : Clock server := {| now_u64 := ret clock |}.
#[local] Instance lists_net : RequestEnv server :=
  {| request_json path args := ret (net path args); page_pause := ret tt |}.

(** *** The groups of a contact *)

Definition unlink_entry (contact_id : Z) : string * list (option pointee) :=
  log_entry UNLINK_GROUPS [u64_binding ":cid" contact_id].
Definition link_entry (contact_id gid : Z) : string * list (option pointee) :=
  log_entry LINK_GROUP [u64_binding ":gid" gid; u64_binding ":cid" contact_id].
Definition linked (ids : list Z) : list Z := filter (fun g => g <> 0) (u64 <$> ids).

Lemma link_names : statement_names LINK_GROUP = [":gid"; ":cid"].
Proof. vm_compute. reflexivity. Qed.

Lemma link_bound contact_id bs gid :
  value_bound ":cid" bs = Some (Some (PInt (u64 contact_id))) ->
  log_entry LINK_GROUP (bs ++ [u64_binding ":gid" gid]) = link_entry contact_id gid.
Proof.
  intros Hc. unfold link_entry, log_entry. rewrite link_names. cbn [fmap list_fmap].
  rewrite !value_bound_app, Hc. reflexivity.
Qed.

Lemma link_loop_serving contact_id ids bs ins w :
  ready LINK_GROUP bs ins w -> value_bound ":cid" bs = Some (Some (PInt (u64 contact_id))) ->
  exists w', link_loop ids ins w = Done (NoError, w')
  /\ sv_log w' = sv_log w ++ (link_entry contact_id <$> linked ids).
Proof.
  revert bs ins w. induction ids as [|id ids IH]; intros bs ins w Hr Hc.
  - exists w. by rewrite app_nil_r.
  - cbn [link_loop]. pose proof (ready_named _ _ _ _ (u64_binding ":gid" (u64 id)) Hr) as Hr'.
    specialize (Hr' (u64_binding_ok _ _) eq_refl).
    assert (value_bound ":cid" (bs ++ [u64_binding ":gid" (u64 id)]) = Some (Some (PInt (u64 contact_id))))
      as Hc' by (rewrite value_bound_app, Hc; reflexivity).
    unfold linked. cbn [fmap list_fmap]. rewrite filter_cons. destruct (Z.eqb_spec (u64 id) 0) as [Hz|Hz].
    + rewrite decide_False by tauto. by apply (IH _ _ _ Hr').
    + rewrite decide_True by done. cbn [fmap list_fmap].
      destruct (ready_execute db _ _ _ w Hr') as (q' & w1 & E & Hr1 & Hlog).
      rewrite (bind_eq _ _ _ _ _ E). destruct (IH _ q' w1 Hr1 Hc') as (w' & E' & Hlog').
      exists w'. split; [exact E'|]. rewrite Hlog', Hlog, (link_bound _ _ _ Hc), <- app_assoc. done.
Qed.
Definition link_groups (fuel : nat) (conn : MYSQL) (contact_id : Z) (group_ids : option string)
    : prog server BXillError := bx_contact_group_link conn contact_id group_ids.

(** The ids in a list of groups. *)
Definition group_list (group_ids : option string) : list Z :=
  match group_ids with Some s => run_value <$> digit_runs EmptyString s | None => [] end.

Lemma group_ids_read group_ids :
  match group_ids with Some s => forallb fits (digit_runs EmptyString s) = true | None => True end ->
  bx_int_string_array_to_int_array true group_ids = Done (int_array_of (group_list group_ids)).
Proof.
  destruct group_ids as [s|]; [|done]. intros Hf. cbn.
  etrans; [apply (int_array_loop_eq s [] EmptyString); by left|]. by rewrite Hf.
Qed.

(** Claim C23. [bx_contact_group_link] on a server: the links of the contact are deleted,
    then one is inserted for each number of the list that is not zero, in
    order. *)
Theorem groups_linked fuel c contact_id group_ids w :
  match group_ids with Some s => forallb fits (digit_runs EmptyString s) = true | None => True end ->
  exists w', link_groups fuel (Some c) contact_id group_ids w = Done (NoError, w')
  /\ sv_log w' = sv_log w ++ unlink_entry contact_id
       :: (link_entry contact_id <$> linked (group_list group_ids)).
Proof.
  intros Hf%group_ids_read.
  destruct (finish_statement_serving db (or_reconnect ErrorGeneric) UNLINK_GROUPS
    [u64_binding ":cid" contact_id] w) as (w1 & E1 & Hlog1).
  { split; [vm_compute; reflexivity|]. split; solve_bindings. }
  unfold link_groups, bx_contact_group_link.
  rewrite (bind_eq _ _ _ _ _ (new_query_serving db [":cid"] UNLINK_GROUPS w eq_refl)), bind_each_rebind.
  rewrite (bind_eq _ _ _ _ _ E1), bool_decide_true by done. cbn [negb].
  rewrite (bind_eq _ _ _ true w1) by reflexivity. rewrite Hf. rewrite (bind_eq _ _ _ _ w1) by reflexivity.
  destruct (group_list group_ids) as [|id ids] eqn:El; cbn [int_array_of]; [by exists w1|].
  rewrite (bind_eq _ _ _ _ _ (new_query_serving db [":gid"; ":cid"] LINK_GROUP w1 eq_refl)), bind_each_rebind.
  rewrite (proj2 (Z.ltb_ge _ _)) by lia. rewrite Nat2Z.id, firstn_all.
  destruct (link_loop_serving contact_id (id :: ids) [u64_binding ":gid" 0; u64_binding ":cid" contact_id]
    (rebind [u64_binding ":gid" 0; u64_binding ":cid" contact_id] (fresh_query LINK_GROUP)) w1) as (w' & E & Hlog).
  { apply (ready_rebinds LINK_GROUP []); [by apply (ready_fresh [":gid"; ":cid"])|solve_bindings|solve_bindings]. }
  { done. }
  exists w'. split; [exact E|]. by rewrite Hlog, Hlog1, <- app_assoc.
Qed.

(** *** The sectors *)

Definition mark_all (ids : list Z) : list (Z * bool) := (fun i => (i, true)) <$> ids.
Definition marks_after (items : list (Z * bool)) (ds : list decoded) : list (Z * bool) :=
  foldl (fun items d => unmark (decoded_id d) items) items ds.

Lemma unmark_distinct id items :
  NoDup (u64 <$> items.*1) ->
  unmark id items = (fun p : Z * bool => (p.1, p.2 && negb (u64 p.1 =? id))) <$> items.
Proof.
  induction items as [|[i b] items IH]; [done|]. cbn. intros [Hn Hd]%NoDup_cons.
  destruct (Z.eqb_spec (u64 i) id) as [<-|Hi].
  - cbn. rewrite andb_false_r. f_equal. rewrite <- (map_id items) at 1. apply list_fmap_ext.
    intros k [j b'] Hk. cbn. destruct (Z.eqb_spec (u64 j) (u64 i)) as [E|]; [|by rewrite andb_true_r].
    exfalso. apply Hn. rewrite <- E. apply (list_elem_of_fmap_2 u64).
    apply (list_elem_of_fmap_2 fst _ (j, b')). by eapply list_elem_of_lookup_2.
  - cbn. rewrite andb_true_r. f_equal. by apply IH.
Qed.

(** The stored ids that no listed sector has. *)
Definition unlisted (ids : list Z) (ds : list decoded) : list Z :=
  filter (fun i => u64 i ∉ (decoded_id <$> ds)) ids.

Lemma marks_fst (f : Z -> bool) (ids : list Z) : ((fun i => (i, f i)) <$> ids).*1 = ids.
Proof. induction ids as [|i ids IH]; [done|]. cbn. by rewrite IH. Qed.

Lemma marks_after_spec ids ds :
  NoDup (u64 <$> ids) ->
  marks_after (mark_all ids) ds
  = (fun i => (i, bool_decide (u64 i ∉ (decoded_id <$> ds)))) <$> ids.
Proof.
  intros Hd. unfold marks_after. induction ds as [|d ds IH] using rev_ind.
  - cbn. apply list_fmap_ext. intros k i _. by rewrite bool_decide_true by apply not_elem_of_nil.
  - rewrite foldl_snoc, IH, unmark_distinct.
    + rewrite <- list_fmap_compose. apply list_fmap_ext. intros k i _. cbn. f_equal.
      rewrite fmap_app. cbn. destruct (Z.eqb_spec (u64 i) (decoded_id d)) as [E|E].
      * rewrite andb_false_r. symmetry. apply bool_decide_false. rewrite E. set_solver.
      * rewrite andb_true_r. apply bool_decide_ext. set_solver.
    + by rewrite marks_fst.
Qed.

Definition sector_lookup_entry (d : decoded) : string * list (option pointee) :=
  log_entry SECTOR_SELECT [i64_binding ":id" (decoded_id d)].
Definition sector_entries (d : decoded) : list (string * list (option pointee)) :=
  sector_lookup_entry d
  :: match state_of (first_checksum (dataset_rows (answer db (sector_lookup_entry d)))) (d_checksum d) with
     | NeedCreate => [log_entry SECTOR_INSERT (sector_inserted d clock)]
     | NeedNothing => []
     | _ => [log_entry SECTOR_UPDATE (sector_updated d clock)]
     end.
Definition sector_delete_entry (id : Z) : string * list (option pointee) :=
  log_entry SECTOR_DELETE [i64_binding ":_deleted" clock; i64_binding ":id" id].

Definition sector_values_ok (values : list binding) (text : string) : Prop :=
  row_plan text values /\ all_named text values = true.

Lemma sector_inserted_ok d : sector_values_ok (sector_inserted d clock) SECTOR_INSERT.
Proof. apply names_match_plan; [vm_compute; reflexivity|]. unfold sector_inserted, char_member. solve_bindings. Qed.
Lemma sector_updated_ok d : sector_values_ok (sector_updated d clock) SECTOR_UPDATE.
Proof. apply names_match_plan; [vm_compute; reflexivity|]. unfold sector_updated, char_member. solve_bindings. Qed.
Lemma sector_key_ok d : sector_values_ok [i64_binding ":id" (decoded_id d)] SECTOR_SELECT.
Proof. apply names_match_plan; [vm_compute; reflexivity|]. solve_bindings. Qed.

Lemma sector_write_serving c err text bs w :
  sector_values_ok bs text ->
  exists w', sector_write (Some c) err text bs w = Done (NoError, w')
  /\ sv_log w' = sv_log w ++ [log_entry text bs].
Proof.
  intros [Hp Hn]. destruct (finish_statement_serving db (or_reconnect err) text bs w Hp) as (w' & E & Hlog).
  exists w'. split; [|exact Hlog]. unfold sector_write. destruct Hp as [Hok Hp].
  rewrite (bind_eq _ _ _ _ _ (new_query_serving db _ _ w Hok)), strict_fresh by (unfold row_plan; auto).
  exact E.
Qed.

Lemma sector_lookup_serving fuel c d w :
  is_dataset (answer db (sector_lookup_entry d)) fuel ->
  exists q w1, sector_lookup fuel (Some c) d w = Done (inr q, w1)
  /\ row_ran db fuel SECTOR_SELECT [i64_binding ":id" (decoded_id d)] w w1 (inr q).
Proof.
  intros Ha. destruct (sector_key_ok d) as [Hp Hn]. pose proof Hp as (Hok & Hb & Hs).
  destruct (run_bound db fuel _ _ _ w Hok Hb Hs Ha) as (q & w1 & E & Hlog & Hres & Hpo).
  exists q, w1. split; [|by exists q]. unfold sector_lookup.
  rewrite (bind_eq _ _ _ _ _ (new_query_serving db _ _ w Hok)), strict_fresh by done.
  rewrite (bind_eq _ _ _ _ _ E). reflexivity.
Qed.

Lemma sector_persist_serving fuel c d w :
  is_dataset (answer db (sector_lookup_entry d)) fuel ->
  exists w', sector_persist fuel (Some c) d w = Done (NoError, w')
  /\ sv_log w' = sv_log w ++ sector_entries d.
Proof.
  intros Ha. destruct (sector_lookup_serving fuel c d w Ha) as (q & w1 & E & Hran).
  unfold sector_persist. rewrite (bind_eq _ _ _ _ _ E), (bind_eq _ _ _ clock w1) by reflexivity.
  rewrite (row_state_ran _ _ _ _ _ _ _ (d_checksum d) Hran). unfold sector_entries.
  fold (sector_lookup_entry d). destruct Hran as (q' & _ & Hlog & _). fold (sector_lookup_entry d) in Hlog.
  unfold state_of. destruct (first_checksum _) as [k|]; [destruct (k =? d_checksum d)|].
  - exists w1. split; [reflexivity|exact Hlog].
  - destruct (sector_write_serving c ErrorSQLUpdate _ _ w1 (sector_updated_ok d)) as (w' & E' & Hl).
    exists w'. split; [exact E'|]. by rewrite Hl, Hlog, <- app_assoc.
  - destruct (sector_write_serving c ErrorSQLSelect _ _ w1 (sector_inserted_ok d)) as (w' & E' & Hl).
    exists w'. split; [exact E'|]. by rewrite Hl, Hlog, <- app_assoc.
Qed.

(** What the answer decodes to, sector by sector. *)
Definition sectors_decode (fuel : nat) (arr : json_t) (i : Z) (ds : list decoded) : Prop :=
  forall k d, ds !! k = Some d ->
    (forall w : server, sector_decode (json_array_get arr (i + Z.of_nat k)) w = Done (Some d, w))
    /\ is_dataset (answer db (sector_lookup_entry d)) fuel.

Lemma sector_loop_serving fuel c arr ds i items w :
  sectors_decode fuel arr i ds ->
  exists w', sector_loop fuel (Some c) (Some arr) (length ds) i items w = Done (inr (marks_after items ds), w')
  /\ sv_log w' = sv_log w ++ (ds ≫= sector_entries).
Proof.
  revert i items w. induction ds as [|d ds IH]; intros i items w Hds; [exists w; by rewrite app_nil_r|].
  destruct (Hds 0%nat d eq_refl) as [Hd Ha]. rewrite Z.add_0_r in Hd.
  destruct (sector_persist_serving fuel c d w Ha) as (w1 & E & Hlog).
  destruct (IH (i + 1) (unmark (decoded_id d) items) w1) as (w' & E' & Hlog').
  { intros k d' Hk. replace (i + 1 + Z.of_nat k) with (i + Z.of_nat (S k)) by lia. by apply Hds. }
  exists w'. cbn [sector_loop length array_get].
  rewrite (bind_eq _ _ _ _ _ (Hd w)), (bind_eq _ _ _ _ _ E), bool_decide_true by done. cbn [negb].
  split; [exact E'|]. by rewrite Hlog', Hlog, <- app_assoc.
Qed.

Lemma delete_names : statement_names SECTOR_DELETE = [":_deleted"; ":id"].
Proof. vm_compute. reflexivity. Qed.

Lemma delete_loop_serving items bs q w :
  ready SECTOR_DELETE bs q w -> value_bound ":_deleted" bs = Some (Some (PInt (i64 clock))) ->
  exists w', delete_loop items q w = Done (NoError, w')
  /\ sv_log w' = sv_log w ++ (sector_delete_entry <$> (filter (fun p : Z * bool => p.2 = true) items).*1).
Proof.
  revert bs q w. induction items as [|[id b] items IH]; intros bs q w Hr Hc.
  - exists w. by rewrite app_nil_r.
  - cbn [delete_loop]. rewrite filter_cons. destruct b; cbn [snd].
    + rewrite decide_True by done. cbn [fmap list_fmap fst].
      pose proof (ready_named _ _ _ _ (i64_binding ":id" id) Hr (i64_binding_ok _ _) eq_refl) as Hr'.
      destruct (ready_execute db _ _ _ w Hr') as (q' & w1 & E & Hr1 & Hlog).
      rewrite (bind_eq _ _ _ _ _ E).
      destruct (IH _ q' w1 Hr1) as (w' & E' & Hlog'); [rewrite value_bound_app, Hc; reflexivity|].
      exists w'. split; [exact E'|]. rewrite Hlog', Hlog, <- app_assoc. do 2 f_equal.
      unfold sector_delete_entry, log_entry. rewrite delete_names. cbn [fmap list_fmap].
      rewrite !value_bound_app, Hc. reflexivity.
    + rewrite decide_False by done. by apply (IH bs).
Qed.

Lemma delete_sectors_serving c items w :
  exists w', delete_sectors (Some c) items w = Done (NoError, w')
  /\ sv_log w' = sv_log w ++ (sector_delete_entry <$> (filter (fun p : Z * bool => p.2 = true) items).*1).
Proof.
  destruct items as [|item items]; [exists w; by rewrite app_nil_r|]. unfold delete_sectors.
  set (bs := [i64_binding ":_deleted" clock; i64_binding ":id" 0]).
  assert (row_plan SECTOR_DELETE bs /\ all_named SECTOR_DELETE bs = true) as [Hp Hn].
  { apply names_match_plan; [vm_compute; reflexivity|]. subst bs. solve_bindings. }
  rewrite (bind_eq _ _ _ clock w) by reflexivity. pose proof Hp as (Hok & Hb & Hs).
  rewrite (bind_eq _ _ _ _ _ (new_query_serving db _ _ w Hok)), strict_fresh by done.
  apply (delete_loop_serving _ bs); [|done].
  apply (ready_rebinds SECTOR_DELETE []); [by eapply ready_fresh|done|done].
Qed.

Definition walk_sectors (fuel : nat) (conn : MYSQL) : prog server BXillError :=
  bx_contact_sector_walk_items fuel conn.

Lemma stored_sectors_serving fuel c ids w :
  is_dataset (answer db (log_entry SECTOR_IDS [])) fuel ->
  marked_ids (dataset_rows (answer db (log_entry SECTOR_IDS []))) = Some (mark_all ids) ->
  exists w', stored_sectors fuel (Some c) w = Done (inr (mark_all ids), w')
  /\ sv_log w' = sv_log w ++ [log_entry SECTOR_IDS []].
Proof.
  intros Ha Hm. destruct (run_row_serving db fuel c SECTOR_IDS [] w) as (r & w1 & E & q & -> & Hlog & Hres & _);
    [split; [vm_compute; reflexivity|split; constructor]|done|].
  exists w1. split; [|exact Hlog]. unfold stored_sectors. unfold row_run in E. rewrite (bind_eq _ _ _ _ _ E).
  rewrite Hres. destruct (dataset_rows _) as [|row rows]; [by injection Hm as ->|].
  rewrite (bind_eq _ _ _ true w1) by reflexivity. cbn [negb]. by rewrite Hm.
Qed.

(** Claim C24. A walk over the sectors on a server that answers: every listed sector is
    looked up and written when its checksum differs, in order; then each
    stored sector that the answer does not list, and no other, is marked as
    deleted, in the order of the table. *)
Theorem sectors_walked fuel c arr ds ids w :
  net "2.0/contact_branch" [] = Some (200, arr) -> json_array_size arr = Z.of_nat (length ds) ->
  sectors_decode fuel arr 0 ds ->
  is_dataset (answer db (log_entry SECTOR_IDS [])) fuel ->
  marked_ids (dataset_rows (answer db (log_entry SECTOR_IDS []))) = Some (mark_all ids) ->
  NoDup (u64 <$> ids) ->
  exists w', walk_sectors fuel (Some c) w = Done (NoError, w')
  /\ sv_log w' = sv_log w ++ log_entry SECTOR_IDS [] :: (ds ≫= sector_entries)
       ++ (sector_delete_entry <$> unlisted ids ds).
Proof.
  intros Hn Hs Hds Ha Hm Hd. unfold walk_sectors, bx_contact_sector_walk_items.
  rewrite (bind_eq _ _ _ (net "2.0/contact_branch" []) w) by reflexivity.
  rewrite Hn. cbn [good_answer]. rewrite Z.eqb_refl, Hs, Nat2Z.id.
  destruct (stored_sectors_serving fuel c ids w Ha Hm) as (w1 & E1 & Hlog1).
  destruct (sector_loop_serving fuel c arr ds 0 (mark_all ids) w1 Hds) as (w2 & E2 & Hlog2).
  destruct (delete_sectors_serving c (marks_after (mark_all ids) ds) w2) as (w' & E & Hlog).
  exists w'. rewrite (bind_eq _ _ _ _ _ E1), (bind_eq _ _ _ _ _ E2). split; [exact E|].
  rewrite Hlog, Hlog2, Hlog1, <- !app_assoc, (marks_after_spec ids ds Hd). cbn [app]. do 5 f_equal.
  unfold unlisted. clear. induction ids as [|i ids IH]; [done|]. cbn [fmap list_fmap]. rewrite !filter_cons. cbn [snd].
  destruct (decide (u64 i ∉ (decoded_id <$> ds))) as [Hi|Hi].
  - rewrite bool_decide_true by done. rewrite decide_True by done. cbn [fmap list_fmap fst]. by rewrite IH.
  - rewrite bool_decide_false by done. rewrite decide_False by done. exact IH.
Qed.
End ListSpec.

(** ** Concrete lists *)

(** Two stored sectors, 1 and 2; every other lookup finds a row of checksum 5. *)
Definition sectors_db : answers_to := fun text _ =>
  if String.eqb text SECTOR_IDS
  then Some ([mkField "id" MYSQL_TYPE_LONGLONG],
             [[(mkFetched 1 double_zero 8 false, None)]; [(mkFetched 2 double_zero 8 false, None)]])
  else if prefix_of "SELECT" text
  then Some ([mkField "_checksum" MYSQL_TYPE_LONGLONG], [[(mkFetched 5 double_zero 8 false, None)]])
  else None.
#[local] Instance sample_lists_env : StmtEnv server := serving sectors_db.

Definition sample_branches : json_t := J (JArray [JObject [("id", JInteger 2); ("name", JString "Wood")]]).
Definition sample_net (path : string) (args : list (option BXAny)) : option (Z * json_t) :=
  Some (200, sample_branches).
Definition sample_sector : decoded :=
  match sector_decode (json_array_get sample_branches 0) idle_server with
  | Done (Some d, _) => d
  | _ => mkDecoded [] 0
  end.

Lemma groups_linked_witness :
  exists w', link_groups sectors_db 2 (Some 0) 12 (Some "3,0/14"%string) idle_server
             = Done (NoError, w')
  /\ sv_log w' = [unlink_entry 12; link_entry 12 3; link_entry 12 14].
Proof. apply (groups_linked sectors_db 2 0 12 (Some "3,0/14"%string) idle_server). reflexivity. Defined.

Lemma sectors_walked_witness :
  exists w', walk_sectors sectors_db 1700000000 sample_net 3 (Some 0) idle_server = Done (NoError, w')
  /\ sv_log w' = [log_entry SECTOR_IDS []; sector_lookup_entry sample_sector;
                  log_entry SECTOR_UPDATE (sector_updated sample_sector 1700000000);
                  sector_delete_entry 1700000000 1].
Proof.
  apply (sectors_walked sectors_db 1700000000 sample_net 3 0 sample_branches [sample_sector] [1; 2] idle_server).
  - reflexivity.
  - reflexivity.
  - intros [|k] d Hd; [|by destruct k]. injection Hd as <-.
    split; [intros w; reflexivity|]. split; [discriminate|cbn; lia].
  - split; [discriminate|cbn; lia].
  - reflexivity.
  - apply (bool_decide_unpack _). reflexivity.
Defined.
