(* ===== verification/NamedList.v ===== *)
(** * Lists of names: [bx_named_list.c]

    A list endpoint of [{id, name}] objects is walked into a table of the same
    shape.  The theorem: on a server, an object is looked up by its id and
    written once, with its name and checksum, unless its checksum is the one
    stored. *)
From S2P Require Import Prelude CLib Env Samples Values Objects Utils Walk Chain Database Upsert.
#[local] Open Scope Z_scope.

Definition named_tables : list string := [
  "unit"; "salutation"; "title"; "payment_type"; "contact_group"; "communication_kind";
  "pr_project_state"; "pr_project_type"; "timesheet_status"; "todo_status"; "todo_priority";
  "stock"; "stock_place"].

Definition table_ok (table : option string) : bool :=
  match table with Some t => existsb (str_eq t) named_tables | None => false end.

Definition named_select (table : string) : string :=
  snprintf 160 ("SELECT _checksum FROM " +:+ table +:+ " WHERE id = :id").
Definition named_insert (table : string) : string :=
  snprintf 256 ("INSERT INTO " +:+ table +:+
    " (id, name, _checksum, _last_updated, _deleted) " +:+
    "VALUES (:id, :name, :_checksum, :_last_updated, :_deleted)").
Definition named_update (table : string) : string :=
  snprintf 256 ("UPDATE " +:+ table +:+ " SET name = :name, _checksum = :_checksum, " +:+
    "_last_updated = :_last_updated, _deleted = :_deleted WHERE id = :id").

Section NamedList.
Context `{Jansson} `{XXH3} {W : Type} `{!StmtEnv W} `{!Clock W} `{!WalkEnv W}.

Definition upsert_named (fuel : nat) (conn : MYSQL) (table : string) (id : BXUInteger)
    (name : BXString) (checksum : Z) : prog W BXillError :=
  query <- bx_database_new_query conn (Some (named_select table)) ;;
  match query with
  | None => ret ErrorGeneric
  | Some q =>
      let* (ok, q) := run_query fuel (bind_bx ":id" (VUInteger id) q) in
      if negb ok then fail_query q else
      now <- now_u64 ;;
      let stored := stored_checksum q in
      bx_database_free_query (Some q) ;;;
      if bool_decide (stored = Some checksum) then ret NoError else
      let need_insert := match stored with Some _ => false | None => true end in
      query <- bx_database_new_query conn
                 (Some (if need_insert then named_insert table else named_update table)) ;;
      match query with
      | None => ret ErrorGeneric
      | Some q =>
          let q := bind_bx ":name" (VString name) (bind_bx ":id" (VUInteger id) q) in
          let q := bind_u64 ":_deleted" 0 (bind_u64 ":_last_updated" now
                     (bind_u64 ":_checksum" checksum q)) in
          let* (ok, q) := run_query fuel q in
          if negb ok then fail_query q
          else bx_database_free_query (Some q) ;;; ret NoError
      end
  end.

Definition named_list_item (fuel : nat) (conn : MYSQL) (table : string) (item : option json_t)
    : prog W BXillError :=
  m <- memory ;;
  if negb m then ret ErrorGeneric else
  let '(id, st) := bx_object_get_json_uint item "id" (Some XXH3_64bits_reset) in
  m <- memory ;;
  let* (name, st) := of_outcome (bx_object_get_json_string m item "name" st) in
  let checksum := match st with Some h => XXH3_64bits_digest h | None => 0 end in
  upsert_named fuel conn table id name checksum.

Definition bx_named_list_walk (fuel : nat) (app_ok : bool) (conn : MYSQL)
    (path_fmt table : option string) : prog W BXillError :=
  if negb app_ok || bool_decide (conn = None) || negb (table_ok table)
     || bool_decide (path_fmt = None)
  then ret ErrorGeneric
  else bx_walk_pages fuel true path_fmt None false
         (named_list_item fuel conn (default EmptyString table)).

Definition named_walk (path table : string) (fuel : nat) (app_ok : bool) (conn : MYSQL)
    : prog W BXillError :=
  bx_named_list_walk fuel app_ok conn (Some path) (Some table).

Definition bx_unit_walk_items := named_walk "2.0/unit?limit=$&offset=$" "unit".
Definition bx_salutation_walk_items :=
  named_walk "2.0/salutation?limit=$&offset=$" "salutation".
Definition bx_title_walk_items := named_walk "2.0/title?limit=$&offset=$" "title".
Definition bx_payment_type_walk_items :=
  named_walk "2.0/payment_type?limit=$&offset=$" "payment_type".
Definition bx_communication_kind_walk_items :=
  named_walk "2.0/communication_kind?limit=$&offset=$" "communication_kind".
Definition bx_project_state_walk_items :=
  named_walk "2.0/pr_project_state?limit=$&offset=$" "pr_project_state".
Definition bx_project_type_walk_items :=
  named_walk "2.0/pr_project_type?limit=$&offset=$" "pr_project_type".
Definition bx_timesheet_status_walk_items :=
  named_walk "2.0/timesheet_status?limit=$&offset=$" "timesheet_status".
Definition bx_todo_status_walk_items :=
  named_walk "2.0/todo_status?limit=$&offset=$" "todo_status".
Definition bx_todo_priority_walk_items :=
  named_walk "2.0/todo_priority?limit=$&offset=$" "todo_priority".
Definition bx_stock_walk_items := named_walk "2.0/stock?limit=$&offset=$" "stock".
Definition bx_stock_place_walk_items :=
  named_walk "2.0/stock_place?limit=$&offset=$" "stock_place".
End NamedList.

(** ** One item on a server *)

Definition named_keys : list string := [":id"; ":name"; ":_checksum"; ":_last_updated"; ":_deleted"].

Definition named_plan_ok (table : string) : bool :=
  statement_ok [":id"] (named_select table) && statement_ok named_keys (named_insert table)
  && statement_ok named_keys (named_update table).

Lemma named_plans table : table_ok (Some table) = true -> named_plan_ok table = true.
Proof.
  intros Ht. assert (table ∈ named_tables) as Hin.
  { cbn [table_ok] in Ht. apply existsb_exists in Ht as (t & Hin & He).
    unfold str_eq in He. destruct (String.eqb_spec table t) as [->|]; [|done].
    by apply list_elem_of_In. }
  clear Ht. revert table Hin. apply Forall_forall.
  unfold named_tables. repeat constructor.
Qed.

Section NamedSpec.
Context `{Jansson} `{XXH3} (db : answers_to) (clock : Z).
#[local] Instance named_env : StmtEnv server := serving db.
#[local] Instance named_clock : Clock server := {| now_u64 := ret clock |}.

Definition id_binding (id : BXUInteger) : list binding := [bx_binding ":id" (VUInteger id)].
Definition named_bindings (id : BXUInteger) (name : BXString) (checksum : Z) : list binding :=
  [bx_binding ":id" (VUInteger id); bx_binding ":name" (VString name);
   u64_binding ":_checksum" checksum; u64_binding ":_last_updated" clock;
   u64_binding ":_deleted" 0].

Definition named_writes (stored : option Z) (table : string) (id : BXUInteger)
    (name : BXString) (checksum : Z) : list (string * list (option pointee)) :=
  match stored with
  | Some c => if c =? checksum then []
              else [log_entry (named_update table) (named_bindings id name checksum)]
  | None => [log_entry (named_insert table) (named_bindings id name checksum)]
  end.

Definition served_named (fuel : nat) (conn : MYSQL) (table : string) (id : BXUInteger)
    (name : BXString) (checksum : Z) : prog server BXillError :=
  upsert_named fuel conn table id name checksum.

Lemma named_bindings_ok id name checksum :
  Forall binding_ok (named_bindings id name checksum)
  /\ Forall (fun b => short (bd_name b) = true) (named_bindings id name checksum).
Proof. split; unfold named_bindings; auto 10 with bindings. Qed.

Definition named_text (stored : option Z) (table : string) : string :=
  match stored with Some _ => named_update table | None => named_insert table end.

(** The first half: the SELECT is logged and its checksum read. *)
Lemma named_lookup fuel c table id name checksum w :
  named_plan_ok table = true ->
  let select := log_entry (named_select table) (id_binding id) in
  let stored := first_checksum (dataset_rows (db select.1 select.2)) in
  is_dataset (db select.1 select.2) fuel ->
  exists w1, sv_log w1 = sv_log w ++ [select]
  /\ (stored = Some checksum -> served_named fuel (Some c) table id name checksum w = Done (NoError, w1))
  /\ (stored <> Some checksum -> forall q2 w2,
       run_query fuel (rebind (named_bindings id name checksum)
         (fresh_query (named_text stored table))) w1 = Done ((true, q2), w2) ->
       served_named fuel (Some c) table id name checksum w = Done (NoError, w2)).
Proof.
  intros Hp select stored Hans. unfold named_plan_ok in Hp. rewrite !andb_true_iff in Hp.
  destruct Hp as [[Hs Hi] Hu].
  destruct (run_bound db fuel _ (id_binding id) _ w Hs) as (q & w1 & E & Hlog & Hres & _);
    [repeat constructor; apply bx_binding_ok|repeat constructor|exact Hans|].
  exists w1. split; [exact Hlog|].
  assert (stored_checksum q = stored) as Hst by (unfold stored_checksum; by rewrite Hres).
  split; intros Heq; [|intros q2 w2 E2]; unfold served_named, upsert_named;
    (etrans; [eapply bind_eq; by apply (new_query_serving db _ _ w Hs)|]); cbn beta iota zeta;
    rewrite bind_bx_rebind;
    (etrans; [eapply bind_eq; exact E|]); cbn beta iota delta [negb];
    do 2 (etrans; [eapply bind_eq; reflexivity|]; cbn beta zeta); rewrite Hst.
  - by rewrite bool_decide_true.
  - rewrite bool_decide_false by done.
    etrans; [eapply bind_eq; apply (new_query_serving db named_keys _ w1); by destruct stored|].
    cbn beta iota zeta. rewrite !bind_u64_rebind, !bind_bx_rebind, !rebind_app.
    destruct stored; (etrans; [eapply bind_eq; exact E2|]); reflexivity.
Qed.

(** A list item on a server: one SELECT of the checksum by id; then nothing
    when it is the checksum of the item, and otherwise one INSERT or one
    UPDATE that sends the id, the name, the checksum and the time. *)
Theorem named_item_statements fuel c table id name checksum w :
  table_ok (Some table) = true ->
  let select := log_entry (named_select table) (id_binding id) in
  let answer := db select.1 select.2 in
  is_dataset answer fuel ->
  (forall stored, let e := log_entry (named_text stored table) (named_bindings id name checksum) in
                  db e.1 e.2 = None) ->
  exists w', served_named fuel (Some c) table id name checksum w = Done (NoError, w')
  /\ sv_log w' = sv_log w ++ select
       :: named_writes (first_checksum (dataset_rows answer)) table id name checksum.
Proof.
  intros Ht select answer Hans Hw. pose proof (named_plans table Ht) as Hp.
  destruct (named_lookup fuel c table id name checksum w Hp Hans) as (w1 & Hlog & Hsame & Hdiff).
  fold select answer in Hlog, Hsame, Hdiff.
  destruct (named_bindings_ok id name checksum) as [Hbo Hbs].
  unfold named_plan_ok in Hp. rewrite !andb_true_iff in Hp. destruct Hp as [[_ Hi] Hu].
  assert (first_checksum (dataset_rows answer) <> Some checksum ->
    exists w', served_named fuel (Some c) table id name checksum w = Done (NoError, w')
      /\ sv_log w' = sv_log w ++ [select;
           log_entry (named_text (first_checksum (dataset_rows answer)) table)
             (named_bindings id name checksum)]) as Hrun.
  { intros Hne.
    destruct (run_bound db fuel named_keys (named_bindings id name checksum)
                (named_text (first_checksum (dataset_rows answer)) table) w1)
      as (q2 & w2 & E2 & Hlog2 & _); [|done|done|by rewrite Hw|].
    { by destruct (first_checksum (dataset_rows answer)). }
    exists w2. split; [by eapply Hdiff|]. by rewrite Hlog2, Hlog, <- app_assoc. }
  unfold named_writes. destruct (first_checksum (dataset_rows answer)) as [k|]; [|by apply Hrun].
  destruct (Z.eqb_spec k checksum) as [->|Hkc]; [|apply Hrun; congruence].
  exists w1. split; [by apply Hsame|exact Hlog].
Qed.
End NamedSpec.
