(* ===== verification/SyncMore.v ===== *)
(** * The extra tables: [bxobjects/sync_more.c]

    Field tables of the records that [bx_json_upsert] writes, one function per
    record and the walks over their endpoints.  The theorems: every table but
    one has statements that fit their buffers and bind each placeholder; the
    INSERT and the UPDATE of [account_group] write past a parameter name; a
    walk of several endpoints stops early only on a lost connection. *)
From S2P Require Import Prelude CLib Env Samples Values Objects Utils Walk Chain Database Upsert.
From S2P Require Import NamedList.
#[local] Open Scope Z_scope.

#[local] Abbreviation F := BX_FIELD.

(** ** Field tables *)

Definition country_fields : list BXJsonField := [
  F "id" BX_F_UINT; F "name" BX_F_STR; F "name_short" BX_F_STR; F "iso3166_alpha2" BX_F_STR].

Definition account_group_fields : list BXJsonField := [
  F "id" BX_F_UINT; F "uuid" BX_F_UUID; F "account_no" BX_F_STR; F "name" BX_F_STR;
  F "parent_fibu_account_group_id" BX_F_UINT; F "is_active" BX_F_BOOL;
  F "is_locked" BX_F_BOOL].

Definition client_service_fields : list BXJsonField := [
  F "id" BX_F_UINT; F "name" BX_F_STR; F "default_is_billable" BX_F_BOOL;
  F "default_price_per_hour" BX_F_FLOAT; F "account_id" BX_F_UINT].

Definition bank_account_fields : list BXJsonField := [
  F "id" BX_F_UINT; F "name" BX_F_STR; F "owner" BX_F_STR; F "owner_address" BX_F_STR;
  F "owner_zip" BX_F_STR; F "owner_city" BX_F_STR; F "owner_country_code" BX_F_STR;
  F "bc_nr" BX_F_STR; F "bank_name" BX_F_STR; F "bank_nr" BX_F_STR;
  F "bank_account_nr" BX_F_STR; F "iban_nr" BX_F_STR; F "currency_id" BX_F_UINT;
  F "account_id" BX_F_UINT; F "remarks" BX_F_STR; F "invoice_mode" BX_F_STR;
  F "qr_invoice_iban" BX_F_STR; F "type" BX_F_STR].

Definition company_fields : list BXJsonField := [
  F "id" BX_F_UINT; F "name" BX_F_STR; F "address" BX_F_STR; F "address_nr" BX_F_STR;
  F "postcode" BX_F_STR; F "city" BX_F_STR; F "country_id" BX_F_UINT; F "legal_form" BX_F_STR;
  F "country_name" BX_F_STR; F "mail" BX_F_STR; F "phone_fixed" BX_F_STR;
  F "phone_mobile" BX_F_STR; F "fax" BX_F_STR; F "url" BX_F_STR; F "ust_id_nr" BX_F_STR;
  F "mwst_nr" BX_F_STR; F "trade_register_nr" BX_F_STR].

Definition calendar_fields : list BXJsonField := [
  F "id" BX_F_UINT; F "start" BX_F_STR; F "end" BX_F_STR; F "is_vat_subject" BX_F_BOOL;
  F "is_annual_reporting" BX_F_BOOL; F "created_at" BX_F_STR; F "updated_at" BX_F_STR;
  F "vat_accounting_method" BX_F_STR; F "vat_accounting_type" BX_F_STR].

Definition business_year_fields : list BXJsonField := [
  F "id" BX_F_UINT; F "start" BX_F_STR; F "end" BX_F_STR; F "status" BX_F_STR;
  F "closed_at" BX_F_STR].

Definition vat_period_fields : list BXJsonField := [
  F "id" BX_F_UINT; F "start" BX_F_STR; F "end" BX_F_STR; F "type" BX_F_STR;
  F "status" BX_F_STR; F "closed_at" BX_F_STR].

Definition relation_fields : list BXJsonField := [
  F "id" BX_F_UINT; F "contact_id" BX_F_UINT; F "contact_sub_id" BX_F_UINT;
  F "description" BX_F_STR; F "updated_at" BX_F_STR].

Definition article_fields : list BXJsonField := [
  F "id" BX_F_UINT; F "user_id" BX_F_UINT; F "article_type_id" BX_F_UINT;
  F "contact_id" BX_F_UINT; F "intern_code" BX_F_STR; F "intern_name" BX_F_STR;
  F "intern_description" BX_F_STR; F "purchase_price" BX_F_FLOAT; F "sale_price" BX_F_FLOAT;
  F "currency_id" BX_F_UINT; F "tax_id" BX_F_UINT; F "unit_id" BX_F_UINT;
  F "is_stock" BX_F_BOOL; F "stock_id" BX_F_UINT; F "stock_place_id" BX_F_UINT;
  F "stock_nr" BX_F_FLOAT; F "remarks" BX_F_STR; F "article_group_id" BX_F_UINT;
  F "account_id" BX_F_UINT].

Definition note_fields : list BXJsonField := [
  F "id" BX_F_UINT; F "user_id" BX_F_UINT; F "event_start" BX_F_STR; F "subject" BX_F_STR;
  F "info" BX_F_STR; F "contact_id" BX_F_UINT; F "project_id" BX_F_UINT;
  F "entry_id" BX_F_UINT; F "module_id" BX_F_UINT].

Definition task_fields : list BXJsonField := [
  F "id" BX_F_UINT; F "user_id" BX_F_UINT; F "finish_date" BX_F_STR; F "subject" BX_F_STR;
  F "info" BX_F_STR; F "contact_id" BX_F_UINT; F "sub_contact_id" BX_F_UINT;
  F "project_id" BX_F_UINT; F "todo_status_id" BX_F_UINT; F "todo_priority_id" BX_F_UINT;
  F "has_reminder" BX_F_BOOL; F "communication_kind_id" BX_F_UINT].

Definition timesheet_fields : list BXJsonField := [
  F "id" BX_F_UINT; F "user_id" BX_F_UINT; F "status_id" BX_F_UINT;
  F "client_service_id" BX_F_UINT; F "text" BX_F_STR; F "allowable_bill" BX_F_BOOL;
  F "contact_id" BX_F_UINT; F "sub_contact_id" BX_F_UINT; F "pr_project_id" BX_F_UINT;
  F "pr_package_id" BX_F_UINT; F "pr_milestone_id" BX_F_UINT; F "estimated_time" BX_F_STR;
  F "date" BX_F_STR; F "duration" BX_F_STR; F "running" BX_F_BOOL].

Definition purchase_order_fields : list BXJsonField := [
  F "id" BX_F_UINT; F "document_nr" BX_F_STR; F "title" BX_F_STR; F "contact_id" BX_F_UINT;
  F "contact_sub_id" BX_F_UINT; F "user_id" BX_F_UINT; F "project_id" BX_F_UINT;
  F "language_id" BX_F_UINT; F "bank_account_id" BX_F_UINT; F "currency_id" BX_F_UINT;
  F "payment_type_id" BX_F_UINT; F "header" BX_F_STR; F "footer" BX_F_STR;
  F "template_slug" BX_F_STR].

Definition bill_fields : list BXJsonField := [
  F "id" BX_F_STR; F "created_at" BX_F_STR; F "document_no" BX_F_STR; F "status" BX_F_STR;
  F "vendor_ref" BX_F_STR; F "vendor" BX_F_STR; F "title" BX_F_STR;
  F "currency_code" BX_F_STR; F "pending_amount" BX_F_FLOAT; F "net" BX_F_FLOAT;
  F "gross" BX_F_FLOAT; F "bill_date" BX_F_STR; F "due_date" BX_F_STR; F "overdue" BX_F_BOOL].

Definition expense_fields : list BXJsonField := [
  F "id" BX_F_STR; F "created_at" BX_F_STR; F "document_no" BX_F_STR; F "status" BX_F_STR;
  F "vendor" BX_F_STR; F "title" BX_F_STR; F "currency_code" BX_F_STR; F "paid_on" BX_F_STR;
  F "booking_account_id" BX_F_UINT; F "net" BX_F_FLOAT; F "gross" BX_F_FLOAT;
  F "chargeable_contact_id" BX_F_UINT].

Definition manual_entry_fields : list BXJsonField := [
  F "id" BX_F_UINT; F "type" BX_F_STR; F "date" BX_F_STR; F "reference_nr" BX_F_STR;
  F "created_by_user_id" BX_F_UINT; F "edited_by_user_id" BX_F_UINT; F "is_locked" BX_F_BOOL;
  F "locked_info" BX_F_STR].

Definition manual_entry_line_fields : list BXJsonField := [
  F "id" BX_F_UINT; F "date" BX_F_STR; F "debit_account_id" BX_F_UINT;
  F "credit_account_id" BX_F_UINT; F "tax_id" BX_F_UINT; F "description" BX_F_STR;
  F "amount" BX_F_FLOAT; F "currency_id" BX_F_UINT].

Definition kb_quote_fields : list BXJsonField := [
  F "id" BX_F_UINT; F "document_nr" BX_F_STR; F "title" BX_F_STR; F "contact_id" BX_F_UINT;
  F "contact_sub_id" BX_F_UINT; F "user_id" BX_F_UINT; F "project_id" BX_F_UINT;
  F "language_id" BX_F_UINT; F "bank_account_id" BX_F_UINT; F "currency_id" BX_F_UINT;
  F "payment_type_id" BX_F_UINT; F "header" BX_F_STR; F "footer" BX_F_STR;
  F "total_gross" BX_F_FLOAT; F "total_net" BX_F_FLOAT; F "total_taxes" BX_F_FLOAT;
  F "total" BX_F_FLOAT; F "total_rounding_difference" BX_F_FLOAT; F "mwst_type" BX_F_INT;
  F "mwst_is_net" BX_F_UINT; F "show_position_taxes" BX_F_UINT; F "is_valid_from" BX_F_STR;
  F "is_valid_until" BX_F_STR; F "contact_address" BX_F_STR; F "kb_item_status_id" BX_F_INT;
  F "updated_at" BX_F_STR; F "template_slug" BX_F_STR].

Definition kb_order_fields : list BXJsonField := [
  F "id" BX_F_UINT; F "document_nr" BX_F_STR; F "title" BX_F_STR; F "contact_id" BX_F_UINT;
  F "contact_sub_id" BX_F_UINT; F "user_id" BX_F_UINT; F "project_id" BX_F_UINT;
  F "language_id" BX_F_UINT; F "bank_account_id" BX_F_UINT; F "currency_id" BX_F_UINT;
  F "payment_type_id" BX_F_UINT; F "header" BX_F_STR; F "footer" BX_F_STR;
  F "total_gross" BX_F_FLOAT; F "total_net" BX_F_FLOAT; F "total_taxes" BX_F_FLOAT;
  F "total" BX_F_FLOAT; F "total_rounding_difference" BX_F_FLOAT; F "mwst_type" BX_F_INT;
  F "mwst_is_net" BX_F_UINT; F "is_valid_from" BX_F_STR; F "contact_address" BX_F_STR;
  F "kb_item_status_id" BX_F_INT; F "updated_at" BX_F_STR].

Definition kb_delivery_fields : list BXJsonField := [
  F "id" BX_F_UINT; F "document_nr" BX_F_STR; F "title" BX_F_STR; F "contact_id" BX_F_UINT;
  F "user_id" BX_F_UINT; F "project_id" BX_F_UINT; F "language_id" BX_F_UINT;
  F "kb_item_status_id" BX_F_INT; F "is_valid_from" BX_F_STR; F "contact_address" BX_F_STR;
  F "updated_at" BX_F_STR].

Definition kb_comment_fields : list BXJsonField := [
  F "id" BX_F_UINT; F "text" BX_F_STR; F "user_id" BX_F_UINT; F "user_name" BX_F_STR;
  F "date" BX_F_STR; F "is_public" BX_F_BOOL; F "_document_type" BX_F_STR].

Definition additional_address_fields : list BXJsonField := [
  F "id" BX_F_UINT; F "name" BX_F_STR; F "name_addition" BX_F_STR; F "address" BX_F_STR;
  F "street_name" BX_F_STR; F "house_number" BX_F_STR; F "address_addition" BX_F_STR;
  F "postcode" BX_F_STR; F "city" BX_F_STR; F "country_id" BX_F_UINT; F "subject" BX_F_STR;
  F "description" BX_F_STR].

Definition invoice_payment_fields : list BXJsonField := [
  F "id" BX_F_UINT; F "date" BX_F_STR; F "value" BX_F_FLOAT; F "bank_account_id" BX_F_UINT;
  F "title" BX_F_STR; F "is_cash_discount" BX_F_BOOL; F "kb_invoice_id" BX_F_UINT].

Definition invoice_reminder_fields : list BXJsonField := [
  F "id" BX_F_UINT; F "kb_invoice_id" BX_F_UINT; F "title" BX_F_STR;
  F "is_valid_from" BX_F_STR; F "is_valid_to" BX_F_STR; F "reminder_level" BX_F_INT;
  F "is_sent" BX_F_BOOL; F "remaining_price" BX_F_FLOAT].

Definition invoice_comment_fields : list BXJsonField := [
  F "id" BX_F_UINT; F "text" BX_F_STR; F "user_id" BX_F_UINT; F "user_name" BX_F_STR;
  F "date" BX_F_STR; F "is_public" BX_F_BOOL; F "_document_type" BX_F_STR].

Definition project_milestone_fields : list BXJsonField := [
  F "id" BX_F_UINT; F "name" BX_F_STR; F "end_date" BX_F_STR; F "comment" BX_F_STR;
  F "pr_parent_milestone_id" BX_F_UINT].

Definition project_package_fields : list BXJsonField := [
  F "id" BX_F_UINT; F "name" BX_F_STR; F "spent_time_in_hours" BX_F_FLOAT;
  F "estimated_time_in_hours" BX_F_FLOAT; F "comment" BX_F_STR;
  F "pr_milestone_id" BX_F_UINT].

(** ** One record *)

(** [json_string] and [json_object_set_new] on a row that is an object. *)
Class JsonSet `{Jansson} := {
  json_string : string -> json_t;
  json_object_set_new : option json_t -> string -> json_t -> option json_t
}.

Section SyncMore.
Context `{Jansson} `{!JsonSet} `{XXH3} {W : Type} `{!StmtEnv W} `{!Clock W} `{!WalkEnv W}.
Context (fuel : nat) (conn : MYSQL).

Definition up (table : string) (item : option json_t) (fields : list BXJsonField)
    : prog W BXillError :=
  bx_json_upsert fuel conn table item fields None 0.

Definition country_one item := up "country" item country_fields.
Definition account_group_one item := up "account_group" item account_group_fields.
Definition client_service_one item := up "client_service" item client_service_fields.
Definition bank_account_one item := up "bank_account" item bank_account_fields.
Definition company_one item := up "company_profile" item company_fields.
Definition calendar_one item := up "calendar_year" item calendar_fields.
Definition business_year_one item := up "business_year" item business_year_fields.
Definition vat_period_one item := up "vat_period" item vat_period_fields.
Definition relation_one item := up "contact_relation" item relation_fields.
Definition article_one item := up "article" item article_fields.
Definition note_one item := up "note" item note_fields.
Definition task_one item := up "task" item task_fields.
Definition timesheet_one item := up "timesheet" item timesheet_fields.
Definition purchase_order_one item := up "purchase_order" item purchase_order_fields.
Definition bill_one item := up "purchase_bill" item bill_fields.
Definition expense_one item := up "expense" item expense_fields.

(** [json_integer_value]: 0 when it is not an integer. *)
Definition integer_value (j : option json_t) : Z :=
  match j with
  | Some v => if json_is JSON_INTEGER j then json_integer_value v else 0
  | None => 0
  end.

(** The rows of an array, from the [i]th on; [stops] tells which errors end
    the loop, the others are dropped. *)
Fixpoint upsert_rows (stops : BXillError -> bool) (prepare : option json_t -> option json_t)
    (table : string) (fields : list BXJsonField) (parent_sql : string) (parent_id : Z)
    (arr : option json_t) (n : nat) (i : Z) : prog W BXillError :=
  match n with
  | O => ret NoError
  | S n =>
      e <- bx_json_upsert fuel conn table (prepare (array_get arr i)) fields
             (Some parent_sql) parent_id ;;
      if stops e then ret e
      else upsert_rows stops prepare table fields parent_sql parent_id arr n (i + 1)
  end.

Definition any_error (e : BXillError) : bool := negb (bool_decide (e = NoError)).
Definition reconnect_only (e : BXillError) : bool := bool_decide (e = ErrorSQLReconnect).

Definition array_rows (stops : BXillError -> bool) (prepare : option json_t -> option json_t)
    (table : string) (fields : list BXJsonField) (parent_sql : string) (parent_id : Z)
    (arr : option json_t) : prog W BXillError :=
  upsert_rows stops prepare table fields parent_sql parent_id arr
    (Z.to_nat (array_size arr)) 0.

Definition manual_one (item : option json_t) : prog W BXillError :=
  e <- up "manual_entry" item manual_entry_fields ;;
  if any_error e then ret e else
  let entry_id := u64 (integer_value (object_get item "id")) in
  let lines := object_get item "entries" in
  if negb (json_is JSON_ARRAY lines) then ret NoError
  else array_rows any_error (fun row => row) "manual_entry_line" manual_entry_line_fields
         "_entry_id" entry_id lines.

(** ** Endpoints *)

(** Any error but a lost connection is logged and dropped. *)
Definition keep_going (e : BXillError) : BXillError :=
  if bool_decide (e = ErrorSQLReconnect) then e else NoError.

Definition pages (path : string) (sync : option json_t -> prog W BXillError)
    : prog W BXillError :=
  bx_walk_pages fuel (negb (bool_decide (conn = None))) (Some path) None false sync.

(** [if ((e = keep_going(...)) != NoError) return e;], one after the other. *)
Fixpoint in_turn (steps : list (prog W BXillError)) : prog W BXillError :=
  match steps with
  | [] => ret NoError
  | step :: steps =>
      e <- step ;;
      if bool_decide (keep_going e = NoError) then in_turn steps else ret (keep_going e)
  end.

Definition bx_lookups_walk_more : prog W BXillError :=
  in_turn [
    pages "2.0/country?limit=$&offset=$" country_one;
    pages "2.0/account_groups?limit=$&offset=$" account_group_one;
    bx_communication_kind_walk_items fuel true conn;
    bx_project_state_walk_items fuel true conn;
    bx_project_type_walk_items fuel true conn;
    bx_timesheet_status_walk_items fuel true conn;
    bx_todo_status_walk_items fuel true conn;
    bx_todo_priority_walk_items fuel true conn;
    bx_stock_walk_items fuel true conn;
    bx_stock_place_walk_items fuel true conn;
    pages "2.0/client_service?limit=$&offset=$" client_service_one;
    pages "3.0/banking/accounts?limit=$&offset=$" bank_account_one;
    pages "2.0/company_profile" company_one;
    pages "3.0/accounting/calendar_years?limit=$&offset=$" calendar_one;
    pages "3.0/accounting/business_years" business_year_one;
    pages "3.0/accounting/vat_periods" vat_period_one].

Definition bx_records_walk_more : prog W BXillError :=
  in_turn [
    pages "2.0/contact_relation?limit=$&offset=$" relation_one;
    pages "2.0/article?limit=$&offset=$" article_one;
    pages "2.0/note?limit=$&offset=$" note_one;
    pages "2.0/task?limit=$&offset=$" task_one;
    pages "2.0/timesheet?limit=$&offset=$" timesheet_one;
    pages "3.0/purchase_orders?limit=$&offset=$" purchase_order_one;
    pages "4.0/purchase/bills?limit=$&page=$" bill_one;
    pages "4.0/expenses?limit=$&page=$" expense_one;
    pages "3.0/accounting/manual_entries?limit=$&offset=$" manual_one].

(** ** What hangs on a contact, an invoice, a project *)

Definition json_as_array (root : option json_t) : option json_t := as_array root.
Definition id_arg (id : Z) : list (option BXAny) := [Some (VUInteger (mkUInteger true id))].

Definition bx_contact_extra_sync (contact_id : Z) : prog W BXillError :=
  req <- do_request "2.0/contact/$/additional_address" (id_arg contact_id) ;;
  match req with
  | None => ret ErrorNet
  | Some decoded =>
      match json_as_array (Some decoded) with
      | None => ret NoError
      | Some arr => array_rows any_error (fun row => row) "additional_address"
                      additional_address_fields "_contact_id" contact_id (Some arr)
      end
  end.

(** One endpoint of an invoice or of a project: a request or an array that is
    missing, and any error but a lost connection, are passed over. *)
Definition optional_rows (path : string) (prepare : option json_t -> option json_t)
    (table : string) (fields : list BXJsonField) (parent_sql : string) (id : Z)
    : prog W BXillError :=
  req <- do_request path (id_arg id) ;;
  match json_as_array req with
  | None => ret NoError
  | Some arr => array_rows reconnect_only prepare table fields parent_sql id (Some arr)
  end.

Definition typed_row (kind : string) (row : option json_t) : option json_t :=
  json_object_set_new row "_document_type" (json_string kind).

Definition bx_invoice_extra_sync (invoice_id : Z) : prog W BXillError :=
  e <- optional_rows "2.0/kb_invoice/$/payment" (fun row => row) "invoice_payment"
         invoice_payment_fields "_invoice_id" invoice_id ;;
  if any_error e then ret e else
  e <- optional_rows "2.0/kb_invoice/$/kb_reminder" (fun row => row) "invoice_reminder"
         invoice_reminder_fields "_invoice_id" invoice_id ;;
  if any_error e then ret e else
  optional_rows "2.0/kb_invoice/$/comment" (typed_row "kb_invoice") "kb_comment"
    invoice_comment_fields "_document_id" invoice_id.

Definition bx_project_extra_sync (project_id : Z) : prog W BXillError :=
  e <- optional_rows "3.0/projects/$/milestones" (fun row => row) "project_milestone"
         project_milestone_fields "_project_id" project_id ;;
  if any_error e then ret e else
  optional_rows "3.0/projects/$/packages" (fun row => row) "project_package"
    project_package_fields "_project_id" project_id.
End SyncMore.

(** ** The plan of every table *)

Definition sync_tables : list (string * list BXJsonField * option string) := [
  ("country", country_fields, None); ("client_service", client_service_fields, None);
  ("bank_account", bank_account_fields, None); ("company_profile", company_fields, None);
  ("calendar_year", calendar_fields, None); ("business_year", business_year_fields, None);
  ("vat_period", vat_period_fields, None); ("contact_relation", relation_fields, None);
  ("article", article_fields, None); ("note", note_fields, None); ("task", task_fields, None);
  ("timesheet", timesheet_fields, None); ("purchase_order", purchase_order_fields, None);
  ("purchase_bill", bill_fields, None); ("expense", expense_fields, None);
  ("manual_entry", manual_entry_fields, None);
  ("manual_entry_line", manual_entry_line_fields, Some "_entry_id");
  ("kb_quote", kb_quote_fields, None); ("kb_order", kb_order_fields, None);
  ("kb_delivery", kb_delivery_fields, None);
  ("kb_comment", kb_comment_fields, Some "_document_id");
  ("kb_comment", invoice_comment_fields, Some "_document_id");
  ("additional_address", additional_address_fields, Some "_contact_id");
  ("invoice_payment", invoice_payment_fields, Some "_invoice_id");
  ("invoice_reminder", invoice_reminder_fields, Some "_invoice_id");
  ("project_milestone", project_milestone_fields, Some "_project_id");
  ("project_package", project_package_fields, Some "_project_id")].

(** The statements as they are meant, without buffers. *)
Definition join (parts : list string) : string :=
  match parts with
  | [] => EmptyString
  | p :: parts => foldl (fun acc q => acc +:+ ", " +:+ q) p parts
  end.

Definition own_columns : list string := ["_checksum"; "_last_updated"; "_deleted"].
Definition where_id (fields : list BXJsonField) (parent_sql : option string) : string :=
  " WHERE " +:+ pk_name fields +:+ " = :id" +:+
  match parent_sql with Some p => " AND " +:+ p +:+ " = :_parent" | None => EmptyString end.
Definition select_text (table : string) (fields : list BXJsonField) (parent_sql : option string)
    : string :=
  "SELECT _checksum FROM " +:+ table +:+ where_id fields parent_sql.
Definition insert_text (table : string) (fields : list BXJsonField) (parent_sql : option string)
    : string :=
  "INSERT INTO " +:+ table +:+ " (" +:+
  join ((fname <$> fields) ++ match parent_sql with Some p => [p] | None => [] end ++ own_columns)
  +:+ ") VALUES (" +:+
  join ((fun n => ":" +:+ n) <$> ((fname <$> fields)
        ++ match parent_sql with Some _ => ["_parent"] | None => [] end ++ own_columns)) +:+ ")".
Definition update_text (table : string) (fields : list BXJsonField) (parent_sql : option string)
    : string :=
  "UPDATE " +:+ table +:+ " SET " +:+
  join ((fun n => n +:+ " = :" +:+ n) <$> (tail (fname <$> fields) ++ own_columns))
  +:+ where_id fields parent_sql.

Definition same_text (o : outcome string) (text : string) : bool :=
  match o with Done s => str_eq s text | _ => false end.

Definition table_complete (t : string * list BXJsonField * option string) : bool :=
  let '(table, fields, parent_sql) := t in
  plan_ok table fields parent_sql
  && str_eq (select_sql table fields parent_sql) (select_text table fields parent_sql)
  && same_text (write_sql true table fields parent_sql) (insert_text table fields parent_sql)
  && same_text (write_sql false table fields parent_sql) (update_text table fields parent_sql).

Lemma sync_tables_complete : forallb table_complete sync_tables = true.
Proof. vm_compute. reflexivity. Qed.

(** Claim C19. Every table that the extra syncs write, [account_group] apart: it is an
    allowed table; the SELECT, the INSERT and the UPDATE are the intended texts,
    none cut by its buffer, none with a name too long to record; and each of
    their distinct placeholders is one that [bx_json_upsert] binds. *)
Theorem sync_tables_plans table fields parent_sql :
  (table, fields, parent_sql) ∈ sync_tables ->
  plan_ok table fields parent_sql = true
  /\ select_sql table fields parent_sql = select_text table fields parent_sql
  /\ write_sql true table fields parent_sql = Done (insert_text table fields parent_sql)
  /\ write_sql false table fields parent_sql = Done (update_text table fields parent_sql).
Proof.
  intros Hin. pose proof sync_tables_complete as Hall. rewrite forallb_forall in Hall.
  specialize (Hall _ (proj1 (list_elem_of_In _ _) Hin)). unfold table_complete in Hall.
  rewrite !andb_true_iff in Hall. destruct Hall as [[[Hp Hs] Hi] Hu].
  split; [exact Hp|]. unfold same_text in *. split_and!.
  - by apply str_eq_true.
  - destruct (write_sql true table fields parent_sql); [|done..]. f_equal. by apply str_eq_true.
  - destruct (write_sql false table fields parent_sql); [|done..]. f_equal. by apply str_eq_true.
Qed.

Lemma sync_tables_plans_witness :
  plan_ok "kb_quote" kb_quote_fields None = true
  /\ select_sql "kb_quote" kb_quote_fields None = select_text "kb_quote" kb_quote_fields None
  /\ write_sql true "kb_quote" kb_quote_fields None = Done (insert_text "kb_quote" kb_quote_fields None)
  /\ write_sql false "kb_quote" kb_quote_fields None = Done (update_text "kb_quote" kb_quote_fields None).
Proof. apply sync_tables_plans. unfold sync_tables. set_solver. Defined.

(** ** The account groups *)

Section AccountGroup.
Context `{Jansson} `{XXH3} (db : answers_to) (clock : Z).
#[local] Instance group_env : StmtEnv server := serving db.
#[local] Instance group_clock : Clock server := {| now_u64 := ret clock |}.

Lemma account_group_text b :
  match write_sql b "account_group" account_group_fields None with
  | Done sql => parse_query sql = Fault /\ (strlen sql =? 0) = false
  | _ => False
  end.
Proof. destruct b; vm_compute; split; reflexivity. Qed.

(** An account group that is new or has changed: the name of
    [parent_fibu_account_group_id] does not fit the parameter it is copied
    into, and the write of its terminator leaves the array. *)
Theorem account_group_overflows fuel c obj slots h w :
  let answer := let e := select_entry "account_group" account_group_fields slots None 0 in
                db e.1 e.2 in
  read_slots (Some obj) account_group_fields (Some XXH3_64bits_reset) w = Done ((slots, Some h), w) ->
  pk_ok slots = true -> is_dataset answer fuel ->
  first_checksum (dataset_rows answer) <> Some (XXH3_64bits_digest h) ->
  account_group_one fuel (Some c) (Some obj) w = Fault.
Proof.
  intros answer Hread Hpk Hans Hne.
  destruct (upsert_lookup db clock fuel c "account_group" obj account_group_fields None 0 slots h w)
    as (w1 & _ & E); [reflexivity|done|by vm_compute|reflexivity|done..|].
  etrans; [exact E|]. fold answer. rewrite bool_decide_false by done.
  unfold write_row. set (b := match first_checksum (dataset_rows answer) with Some _ => false | None => true end).
  pose proof (account_group_text b) as Hb.
  destruct (write_sql b "account_group" account_group_fields None) as [sql| |]; [|done..].
  destruct Hb as [Hp Hl].
  etrans; [eapply bind_eq; reflexivity|]. cbn beta.
  unfold bind at 1. unfold bx_database_new_query.
  cbn. unfold bind, ret. rewrite Hl. cbn. by rewrite Hp.
Qed.
End AccountGroup.

(** ** Walks in turn *)

Section InTurn.
Context {W : Type}.

(** The steps run one after the other and none loses the connection. *)
Inductive runs : list (prog W BXillError) -> W -> W -> Prop :=
| runs_nil w : runs [] w w
| runs_cons step steps w e w1 w' :
    step w = Done (e, w1) -> e <> ErrorSQLReconnect -> runs steps w1 w' ->
    runs (step :: steps) w w'.

(** A list of walks ends without error exactly when every one of them ran,
    whatever their other errors, and with [ErrorSQLReconnect] exactly when one
    of them lost the connection and those before it ran. *)
Theorem in_turn_spec steps w e w' :
  in_turn steps w = Done (e, w') <->
  (e = NoError /\ runs steps w w')
  \/ (e = ErrorSQLReconnect /\ exists before step after w1,
        steps = before ++ step :: after /\ runs before w w1 /\ step w1 = Done (e, w')).
Proof.
  revert w. induction steps as [|step steps IH]; intros w; cbn [in_turn].
  - split.
    + intros [= <- <-]. left. split; [done|constructor].
    + intros [[-> Hr]|(_ & before & step & after & w1 & Hl & _)].
      * by inversion Hr.
      * by destruct before.
  - rewrite bind_Done. unfold keep_going. split.
    + intros (e1 & w1 & Es & E). destruct (decide (e1 = ErrorSQLReconnect)) as [->|Hr].
      * cbn in E. injection E as <- <-.
        right. split; [done|]. exists [], step, steps, w. by repeat constructor.
      * rewrite (bool_decide_false _ Hr), bool_decide_true in E by done.
        apply IH in E as [[-> Hs]|(-> & b & s & a & w2 & -> & Hb & Hs)].
        -- left. split; [done|]. by econstructor.
        -- right. split; [done|]. exists (step :: b), s, a, w2. split; [done|]. split; [|done].
           by econstructor.
    + intros [[-> Hr]|(-> & b & s & a & w2 & Hl & Hb & Hs)].
      * inversion Hr as [|? ? ? e1 w1 ? Es Hne Hrs]; subst. exists e1, w1. split; [done|].
        rewrite (bool_decide_false _ Hne), bool_decide_true by done. apply IH. by left.
      * destruct b as [|s0 b]; injection Hl as -> ->.
        -- inversion Hb; subst. exists ErrorSQLReconnect, w'. by split.
        -- inversion Hb as [|? ? ? e1 w1 ? Es Hne Hrs]; subst. exists e1, w1. split; [done|].
           rewrite (bool_decide_false _ Hne), bool_decide_true by done. apply IH. right.
           split; [done|]. by exists b, s, a, w2.
Qed.
End InTurn.

(** ** Sample objects on a sample server *)

(** Every SELECT finds one row whose checksum is 5; the rest has no dataset. *)
Definition sample_db : answers_to := fun text _ =>
  if prefix_of "SELECT" text
  then Some ([mkField "_checksum" MYSQL_TYPE_LONGLONG],
             [[(mkFetched 5 double_zero 8 false, None)]])
  else None.

Definition sample_country : json_t :=
  J (JObject [("id", JInteger 41); ("name", JString "Suisse"); ("name_short", JString "CH")]).
Definition sample_group : json_t := J (JObject [("id", JInteger 3); ("account_no", JString "10")]).

#[local] Instance sample_server : StmtEnv server := serving sample_db.
#[local] Instance sample_clock : Clock server := {| now_u64 := ret 1700000000 |}.

Definition read_sample (obj : json_t) (fields : list BXJsonField) : list BXAny * XXH3_state_t :=
  match read_slots (Some obj) fields (Some XXH3_64bits_reset) idle with
  | Done ((slots, Some h), _) => (slots, h)
  | _ => ([], XXH3_64bits_reset)
  end.

Lemma upsert_statements_witness :
  let slots := (read_sample sample_country country_fields).1 in
  let checksum := XXH3_64bits_digest (read_sample sample_country country_fields).2 in
  exists w', served_upsert sample_db 1700000000 2 (Some 0) "country" (Some sample_country)
               country_fields None 0 idle = Done (NoError, w')
  /\ sv_log w' = [select_entry "country" country_fields slots None 0;
                  write_entry 1700000000 false "country" country_fields slots None 0 checksum].
Proof.
  apply (upsert_statements sample_db 1700000000 2 0 "country" sample_country country_fields None 0
           (read_sample sample_country country_fields).1
           (read_sample sample_country country_fields).2 idle).
  - reflexivity.
  - reflexivity.
  - reflexivity.
  - split; [discriminate | cbn; lia].
  - intros []; reflexivity.
Defined.

Lemma account_group_overflows_witness :
  account_group_one 2 (Some 0) (Some sample_group) idle = Fault.
Proof.
  apply (account_group_overflows sample_db 1700000000 2 0 sample_group
           (read_sample sample_group account_group_fields).1
           (read_sample sample_group account_group_fields).2 idle).
  - reflexivity.
  - reflexivity.
  - split; [discriminate | cbn; lia].
  - vm_compute. discriminate.
Defined.

Lemma named_item_statements_witness :
  exists w', served_named sample_db 1700000000 2 (Some 0) "stock" (mkUInteger true 7)
               (mkString true (Some "Main")) 5 idle = Done (NoError, w')
  /\ sv_log w' = [log_entry (named_select "stock") (id_binding (mkUInteger true 7))].
Proof.
  apply (named_item_statements sample_db 1700000000 2 0 "stock" (mkUInteger true 7)
           (mkString true (Some "Main")) 5 idle).
  - reflexivity.
  - split; [discriminate | cbn; lia].
  - intros []; reflexivity.
Defined.
