(* ===== verification/KbDoc.v ===== *)
(** * Quotes, orders, deliveries: [kb_doc_one] of [bxobjects/sync_more.c]

    A document of a list is completed by its own endpoint when the list gives
    it without positions; then its row, its positions and its comments are
    written.  The theorem: on a server the request for the full document, the
    statements of the row, those of the positions, the request for the comments
    and their statements follow one another, each in order. *)
From S2P Require Import Prelude CLib Env Samples Values Objects Utils Walk Chain Database Upsert Rows Positions NamedList SyncMore.
#[local] Open Scope Z_scope.

(** The endpoints: the row, its fields, the positions, the comments. *)
Record kb_document := mkKbDocument {
  kd_table : string;
  kd_get : string;
  kd_fields : list BXJsonField;
  kd_positions : option (string * string);
  kd_name : string
}.

(** The name of the comments, chosen by the table. *)
Definition kb_name (table : string) : string :=
  if str_eq table "kb_quote" then "kb_offer"
  else if str_eq table "kb_order" then "kb_order" else "kb_delivery".
Definition kb_quote : kb_document :=
  mkKbDocument "kb_quote" "2.0/kb_offer/$" kb_quote_fields (Some ("quote_position"%string, "_quote_id"%string))
    (kb_name "kb_quote").
Definition kb_order : kb_document :=
  mkKbDocument "kb_order" "2.0/kb_order/$" kb_order_fields (Some ("order_position"%string, "_order_id"%string))
    (kb_name "kb_order").
Definition kb_delivery : kb_document :=
  mkKbDocument "kb_delivery" "2.0/kb_delivery/$" kb_delivery_fields None (kb_name "kb_delivery").

Definition comment_path (k : kb_document) (id : Z) : string :=
  snprintf 96 ("2.0/" +:+ kd_name k +:+ "/" +:+ dec id +:+ "/comment").

Section KbDoc.
Context `{Jansson} `{!JsonSet} `{XXH3} {W : Type} `{!StmtEnv W} `{!Clock W} `{!RequestEnv W}.
Context (fuel : nat) (conn : MYSQL).

Definition kb_doc_object (root : option json_t) : option json_t :=
  if json_is JSON_OBJECT root then
    let data := object_get root "data" in
    if json_is JSON_OBJECT data then data else root
  else None.

Definition kb_doc_has_id (obj : option json_t) : bool :=
  let id := object_get obj "id" in json_is JSON_INTEGER id || json_is JSON_STRING id.

(** The document and its positions: those of the list, or of the full document
    when the list has none. *)
Definition kb_doc_full (get_fmt : string) (src : option json_t)
    : prog W (option json_t * option json_t) :=
  match object_get src "positions" with
  | Some positions => ret (src, Some positions)
  | None =>
      let id := (bx_object_get_json_uint src "id" None).1 in
      if uint_isset id then
        full <- request_json get_fmt [Some (VUInteger id)] ;;
        let decoded := kb_doc_object (good_answer full) in
        ret (if kb_doc_has_id decoded then (decoded, object_get decoded "positions") else (src, None))
      else ret (src, None)
  end.

(** [(uint64_t)json_integer_value(...)] *)
Definition kb_doc_id (src : option json_t) : Z := u64 (integer_value (object_get src "id")).

(** The comments; [e] is the result of the row before. *)
Fixpoint comment_rows (k : kb_document) (id : Z) (arr : option json_t) (n : nat) (i : Z) (e : BXillError)
    : prog W BXillError :=
  match n with
  | O => ret e
  | S n =>
      e <- bx_json_upsert fuel conn "kb_comment" (typed_row (kd_name k) (array_get arr i))
             kb_comment_fields (Some "_document_id"%string) id ;;
      if bool_decide (e = ErrorSQLReconnect) then ret e
      else comment_rows k id arr n (i + 1) e
  end.

Definition kb_doc_comments (k : kb_document) (src : option json_t) : prog W BXillError :=
  let id := kb_doc_id src in
  cr <- request_json (comment_path k id) [] ;;
  match cr with
  | Some (_, decoded) =>
      if json_is JSON_ARRAY (Some decoded)
      then comment_rows k id (Some decoded) (Z.to_nat (json_array_size decoded)) 0 NoError
      else ret NoError
  | None => ret NoError
  end.

Definition kb_doc_one (k : kb_document) (item : option json_t) : prog W BXillError :=
  let src := kb_doc_object item in
  if negb (kb_doc_has_id src) then ret NoError else
  let* (src, positions) := kb_doc_full (kd_get k) src in
  e <- bx_json_upsert fuel conn (kd_table k) src (kd_fields k) None 0 ;;
  if negb (bool_decide (e = NoError)) then ret e else
  e <- (match kd_positions k, positions with
        | Some (table, parent), Some _ =>
            bx_kb_positions_store fuel conn table parent (kb_doc_id src) positions
        | _, _ => ret NoError
        end) ;;
  if negb (bool_decide (e = NoError)) then ret e
  else match src with Some _ => kb_doc_comments k src | None => ret NoError end.

Definition quote_one : option json_t -> prog W BXillError := kb_doc_one kb_quote.
Definition order_one : option json_t -> prog W BXillError := kb_doc_one kb_order.
Definition delivery_one : option json_t -> prog W BXillError := kb_doc_one kb_delivery.

Definition bx_kb_sales_walk_items : prog W BXillError :=
  in_turn [
    pages fuel conn "2.0/kb_offer?limit=$&offset=$" quote_one;
    pages fuel conn "2.0/kb_order?limit=$&offset=$" order_one;
    pages fuel conn "2.0/kb_delivery?limit=$&offset=$" delivery_one].
End KbDoc.

(** ** On a server *)

Section KbSpec.
Context `{Jansson} `{!JsonSet} `{XXH3} (db : answers_to) (clock : Z)
  (net : string -> list (option BXAny) -> option (Z * json_t)).
#[local] Instance kb_env : StmtEnv server := serving db.
#[local] Instance kb_clock : Clock server := {| now_u64 := ret clock |}.

(** A request leaves its path and its arguments in the log, between the statements. *)
Definition request_entry (path : string) (args : list (option BXAny)) : string * list (option pointee) :=
  ("GET " +:+ path, (fun a => a ≫= sql_value) <$> args).
#[local] Instance kb_net : RequestEnv server := {|
  request_json path args w :=
    Done (net path args, mkServer (sv_text w) (sv_bound w) (sv_fields w) (sv_row w) (sv_rest w)
                           (sv_log w ++ [request_entry path args]));
  page_pause := ret tt
|}.

Definition store_document (fuel : nat) (conn : MYSQL) (k : kb_document) (item : option json_t)
    : prog server BXillError := kb_doc_one fuel conn k item.

(** [completed k src full positions asked]: the document of the list [src], the document
    whose row is written, its positions, and the requests made for it. *)
Inductive completed (k : kb_document) (src : option json_t)
    : option json_t -> option json_t -> list (string * list (option pointee)) -> Prop :=
| completed_listed positions :
    object_get src "positions" = Some positions -> completed k src src (Some positions) []
| completed_fetched id full :
    object_get src "positions" = None ->
    (bx_object_get_json_uint src "id" None).1 = id -> uint_isset id = true ->
    full = kb_doc_object (good_answer (net (kd_get k) [Some (VUInteger id)])) ->
    kb_doc_has_id full = true ->
    completed k src full (object_get full "positions") [request_entry (kd_get k) [Some (VUInteger id)]]
| completed_unanswered id :
    object_get src "positions" = None ->
    (bx_object_get_json_uint src "id" None).1 = id -> uint_isset id = true ->
    kb_doc_has_id (kb_doc_object (good_answer (net (kd_get k) [Some (VUInteger id)]))) = false ->
    completed k src src None [request_entry (kd_get k) [Some (VUInteger id)]]
| completed_no_number :
    object_get src "positions" = None ->
    uint_isset (bx_object_get_json_uint src "id" None).1 = false ->
    completed k src src None [].

Lemma full_serving k src full positions asked w :
  completed k src full positions asked ->
  exists w', kb_doc_full (kd_get k) src w = Done ((full, positions), w')
  /\ sv_log w' = sv_log w ++ asked.
Proof.
  unfold kb_doc_full. intros [ps Hp|id f Hp <- Hi -> Hf|id Hp <- Hi Hf|Hp Hi]; rewrite Hp, ?Hi.
  - exists w. by rewrite app_nil_r.
  - eexists. split; [cbn [request_json kb_net bind]; by rewrite Hf|done].
  - eexists. split; [cbn [request_json kb_net bind]; by rewrite Hf|done].
  - exists w. by rewrite app_nil_r.
Qed.

(** A row as it is read: its values and the state of the hash. *)
Definition row_read : Type := list BXAny * XXH3_state_t.

Definition comments_read (fuel : nat) (k : kb_document) (id : Z) (arr : json_t) (i : Z) (rows : list row_read)
    : Prop :=
  forall n r, rows !! n = Some r -> exists obj,
    typed_row (kd_name k) (json_array_get arr (i + Z.of_nat n)) = Some obj
    /\ upsert_served db clock fuel "kb_comment" obj kb_comment_fields (Some "_document_id"%string) id r.1 r.2.
Definition comment_entries (id : Z) (r : row_read) : list (string * list (option pointee)) :=
  upsert_entries db clock "kb_comment" kb_comment_fields (Some "_document_id"%string) id r.1 r.2.

Lemma comment_rows_serving fuel c k id arr rows i w :
  comments_read fuel k id arr i rows ->
  exists w', comment_rows fuel (Some c) k id (Some arr) (length rows) i NoError w = Done (NoError, w')
  /\ sv_log w' = sv_log w ++ (rows ≫= comment_entries id).
Proof.
  revert i w. induction rows as [|r rows IH]; intros i w Hr; [exists w; by rewrite app_nil_r|].
  destruct (Hr 0%nat r eq_refl) as (obj & Ho & Hu). rewrite Z.add_0_r in Ho.
  destruct (upsert_served_run db clock fuel c _ _ _ _ _ _ _ w Hu) as (w1 & E & Hlog).
  destruct (IH (i + 1) w1) as (w' & E' & Hlog').
  { intros n r' Hn. replace (i + 1 + Z.of_nat n) with (i + Z.of_nat (S n)) by lia. by apply Hr. }
  exists w'. cbn [comment_rows length array_get]. rewrite Ho. unfold served_upsert in E.
  rewrite (bind_eq _ _ _ _ _ E), bool_decide_false by done. split; [exact E'|].
  by rewrite Hlog', Hlog, <- app_assoc.
Qed.

(** The positions of a document that the server stores: none, or those that
    decode to [ds]. *)
Definition positions_served (fuel : nat) (k : kb_document) (id : Z) (positions : option json_t)
    (ds : list decoded) : Prop :=
  match kd_positions k, positions with
  | Some (table, parent), Some arr =>
      pos_table_ok table parent = true /\ json_typeof arr = JSON_ARRAY
      /\ json_array_size arr = Z.of_nat (length ds)
      /\ forall n d, ds !! n = Some d ->
           item_decodes db (json_array_get arr (Z.of_nat n)) d
           /\ answers_position db clock fuel table parent id d
  | _, _ => ds = []
  end.
Definition document_positions (k : kb_document) (id : Z) (ds : list decoded)
    : list (string * list (option pointee)) :=
  match kd_positions k with
  | Some (table, parent) => ds ≫= position_entries db clock table parent id
  | None => []
  end.

Lemma document_positions_serving fuel c k id positions ds w :
  positions_served fuel k id positions ds ->
  exists w', match kd_positions k, positions with
             | Some (table, parent), Some _ => bx_kb_positions_store fuel (Some c) table parent id positions
             | _, _ => ret NoError
             end w = Done (NoError, w')
  /\ sv_log w' = sv_log w ++ document_positions k id ds.
Proof.
  unfold positions_served, document_positions. destruct (kd_positions k) as [[table parent]|], positions as [arr|].
  - intros (Ht & Ha & Hs & Hd). exact (positions_store_serving db clock fuel c table parent id arr ds w Ht Ha Hs Hd).
  - intros ->. exists w. by rewrite app_nil_r.
  - intros ->. exists w. by rewrite app_nil_r.
  - intros ->. exists w. by rewrite app_nil_r.
Qed.

(** The comments that the server stores: none when the request or its array is
    missing. *)
Definition comments_served (fuel : nat) (k : kb_document) (id : Z) (rows : list row_read) : Prop :=
  match net (comment_path k id) [] with
  | Some (_, arr) =>
      if json_is JSON_ARRAY (Some arr)
      then json_array_size arr = Z.of_nat (length rows) /\ comments_read fuel k id arr 0 rows
      else rows = []
  | None => rows = []
  end.

Lemma document_comments_serving fuel c k src rows w :
  comments_served fuel k (kb_doc_id (Some src)) rows ->
  exists w', kb_doc_comments fuel (Some c) k (Some src) w = Done (NoError, w')
  /\ sv_log w' = sv_log w ++ request_entry (comment_path k (kb_doc_id (Some src))) []
                  :: (rows ≫= comment_entries (kb_doc_id (Some src))).
Proof.
  unfold comments_served, kb_doc_comments. intros Hc.
  set (asked := request_entry (comment_path k (kb_doc_id (Some src))) []).
  set (w1 := mkServer (sv_text w) (sv_bound w) (sv_fields w) (sv_row w) (sv_rest w) (sv_log w ++ [asked])).
  rewrite (bind_eq _ _ _ (net (comment_path k (kb_doc_id (Some src))) []) w1) by reflexivity.
  assert (forall l, sv_log w ++ asked :: l = sv_log w1 ++ l) as -> by (intros l; cbn; by rewrite <- app_assoc).
  destruct (net _ []) as [[code arr]|]; [|subst rows; exists w1; by rewrite app_nil_r].
  destruct (json_is JSON_ARRAY (Some arr)); [|subst rows; exists w1; by rewrite app_nil_r].
  destruct Hc as [Hs Hr]. rewrite Hs, Nat2Z.id. by apply comment_rows_serving.
Qed.

(** Claim C21. One document on a server.  A list entry without positions, whose id is a
    number, is first completed by one request of its endpoint: a good answer with an id
    replaces it, any other leaves it without positions.  Then the statements of its row,
    those of its positions, the request for its comments and their statements follow in
    this order, and no other request or statement. *)
Theorem sales_document_stored fuel c k item src positions asked slots h ds rows w :
  kb_doc_has_id (kb_doc_object item) = true ->
  completed k (kb_doc_object item) (Some src) positions asked ->
  upsert_served db clock fuel (kd_table k) src (kd_fields k) None 0 slots h ->
  positions_served fuel k (kb_doc_id (Some src)) positions ds ->
  comments_served fuel k (kb_doc_id (Some src)) rows ->
  exists w', store_document fuel (Some c) k item w = Done (NoError, w')
  /\ sv_log w' = sv_log w ++ asked ++ upsert_entries db clock (kd_table k) (kd_fields k) None 0 slots h
       ++ document_positions k (kb_doc_id (Some src)) ds
       ++ request_entry (comment_path k (kb_doc_id (Some src))) []
       :: (rows ≫= comment_entries (kb_doc_id (Some src))).
Proof.
  intros Hid Hsrc Hu Hp Hc. unfold store_document, kb_doc_one. rewrite Hid. cbn [negb].
  destruct (full_serving k _ _ _ _ w Hsrc) as (w0 & E0 & Hlog0).
  destruct (upsert_served_run db clock fuel c _ _ _ _ _ _ _ w0 Hu) as (w1 & E1 & Hlog1).
  destruct (document_positions_serving fuel c k _ positions ds w1 Hp) as (w2 & E2 & Hlog2).
  destruct (document_comments_serving fuel c k src rows w2 Hc) as (w' & E & Hlog).
  exists w'. unfold served_upsert in E1.
  rewrite (bind_eq _ _ _ _ _ E0), (bind_eq _ _ _ _ _ E1), bool_decide_true by done. cbn [negb].
  rewrite (bind_eq _ _ _ _ _ E2), bool_decide_true by done. cbn [negb]. split; [exact E|].
  by rewrite Hlog, Hlog2, Hlog1, Hlog0, <- !app_assoc.
Qed.
End KbSpec.

(** ** A concrete quote *)

#[local] Instance sample_json_set : JsonSet := {|
  json_string s := JString s;
  json_object_set_new row key value :=
    match row with Some (JObject l) => Some (JObject ((key, value) :: l)) | _ => row end
|}.
#[local] Instance sample_kb_env : StmtEnv server := serving position_db.

Definition sample_quote : json_t :=
  J (JObject [("id", JInteger 9); ("title", JString "Roof"); ("positions", JArray [sample_position])]).
Definition sample_comment : sample_json := JObject [("id", JInteger 31); ("text", JString "ok")].
(** The list gives the quote without positions; its endpoint gives them. *)
Definition listed_quote : json_t := J (JObject [("id", JInteger 9); ("title", JString "Roof")]).
Definition quote_net (path : string) (args : list (option BXAny)) : option (Z * json_t) :=
  if String.eqb path "2.0/kb_offer/$" then Some (200, sample_quote)
  else if String.eqb path "2.0/kb_offer/9/comment" then Some (200, J (JArray [sample_comment])) else None.

Definition item_read (obj : option json_t) (fields : list BXJsonField) (h : XXH3_state_t) : row_read :=
  match read_slots obj fields (Some h) idle with
  | Done ((slots, Some h), _) => (slots, h)
  | _ => ([], h)
  end.
Definition quote_row : row_read := item_read (Some sample_quote) kb_quote_fields XXH3_64bits_reset.
Definition comment_row : row_read :=
  item_read (typed_row "kb_offer" (Some (J sample_comment))) kb_comment_fields
    (start_hash (Some "_document_id"%string) 9).

Lemma sales_document_stored_witness :
  exists w', store_document position_db 1700000000 quote_net 2 (Some 0) kb_quote (Some listed_quote) idle
             = Done (NoError, w')
  /\ sv_log w' = [] ++ [request_entry "2.0/kb_offer/$" [Some (VUInteger (mkUInteger true 9))]]
       ++ upsert_entries position_db 1700000000 "kb_quote" kb_quote_fields None 0 quote_row.1 quote_row.2
       ++ document_positions position_db 1700000000 kb_quote 9 [sample_decoded]
       ++ request_entry "2.0/kb_offer/9/comment" []
       :: ([comment_row] ≫= comment_entries position_db 1700000000 9).
Proof.
  apply (sales_document_stored position_db 1700000000 quote_net 2 0 kb_quote (Some listed_quote) sample_quote
    (Some (J (JArray [sample_position]))) [request_entry "2.0/kb_offer/$" [Some (VUInteger (mkUInteger true 9))]]
    quote_row.1 quote_row.2 [sample_decoded] [comment_row] idle).
  - reflexivity.
  - apply (completed_fetched quote_net kb_quote (Some listed_quote) (mkUInteger true 9) (Some sample_quote));
      reflexivity.
  - split; [reflexivity|]. split; [intros w; reflexivity|]. split; [reflexivity|].
    split; [split; [discriminate|cbn; lia]|]. intros []; reflexivity.
  - split; [reflexivity|]. split; [reflexivity|]. split; [reflexivity|].
    intros [|n] d Hd; [|by destruct n]. injection Hd as <-. split.
    + exists sample_position_slots.1, sample_position_slots.2. split; [intros w|]; reflexivity.
    + split; [split; [discriminate|cbn; lia]|]. intros text [-> | ->]; exact I.
  - split; [reflexivity|]. intros [|n] r Hr; [|by destruct n]. injection Hr as <-.
    eexists. split; [reflexivity|]. split; [reflexivity|]. split; [intros w; reflexivity|].
    split; [reflexivity|]. split; [split; [discriminate|cbn; lia]|]. intros []; reflexivity.
Defined.
