(* ===== verification/Items.v ===== *)
(** * One contact, project, invoice: [bxobjects/contact.c], [project.c], [invoice.c]

    What the chain does with one object of a page: decode it, ask the cache,
    check what it refers to, write its row, set the cache and fetch what hangs
    on it.  The world is the cache of the resource next to the world of the
    database and of the network.  The theorems: in every environment the cache
    takes an object only after its row was written; on a server, the exact
    statements, the skip of an object whose contact is missing, and the state
    of the cache afterwards. *)
From S2P Require Import Prelude CLib Env Samples Values Objects Utils Walk Chain IdsCache Prune ChainThread Database Upsert Rows Positions Lookups ContactLists NamedList SyncMore.
#[local] Open Scope Z_scope.

Definition CONTACT_INSERT : string :=
  "INSERT IGNORE INTO contact (" +:+
  "id, " +:+
  "contact_type_id, " +:+
  "salutation_id, " +:+
  "country," +:+
  "user_id, " +:+
  "owner_id, " +:+
  "title_id, " +:+
  "salutation_form, " +:+
  "postcode, " +:+
  "nr, " +:+
  "name_1, " +:+
  "name_2, " +:+
  "birthday, " +:+
  "address, " +:+
  "city, " +:+
  "mail, " +:+
  "mail_second, " +:+
  "phone_fixed, " +:+
  "phone_fixed_second," +:+
  "phone_mobile, " +:+
  "fax, " +:+
  "url, " +:+
  "skype_name, " +:+
  "remarks, " +:+
  "updated_at, " +:+
  "profile_image, " +:+
  "language_id, " +:+
  "_checksum, " +:+
  "_last_updated, " +:+
  "_archived) " +:+
  "VALUES (" +:+
  ":id, " +:+
  ":contact_type_id, " +:+
  ":salutation_id, " +:+
  ":country, " +:+
  ":user_id, " +:+
  ":owner_id," +:+
  ":title_id, " +:+
  ":salutation_form, " +:+
  ":postcode, " +:+
  ":nr, " +:+
  ":name_1, " +:+
  ":name_2, " +:+
  ":birthday, " +:+
  ":address," +:+
  ":city, " +:+
  ":mail, " +:+
  ":mail_second, " +:+
  ":phone_fixed, " +:+
  ":phone_fixed_second, " +:+
  ":phone_mobile," +:+
  ":fax, " +:+
  ":url, " +:+
  ":skype_name, " +:+
  ":remarks, " +:+
  ":updated_at, " +:+
  ":profile_image, " +:+
  ":language_id, " +:+
  ":_checksum, " +:+
  ":_last_updated, " +:+
  ":_archived " +:+
  ");".
Definition CONTACT_UPDATE : string :=
  "UPDATE contact SET " +:+
  "contact_type_id    = :contact_type_id, " +:+
  "salutation_id      = :salutation_id, " +:+
  "country            = :country, " +:+
  "user_id            = :user_id, " +:+
  "owner_id           = :owner_id, " +:+
  "title_id           = :title_id," +:+
  "salutation_form    = :salutation_form, " +:+
  "postcode           = :postcode, " +:+
  "nr                 = :nr," +:+
  "name_1             = :name_1, " +:+
  "name_2             = :name_2, " +:+
  "birthday           = :birthday, " +:+
  "address            = :address, " +:+
  "city               = :city, " +:+
  "mail               = :mail, " +:+
  "mail_second        = :mail_second," +:+
  "phone_fixed        = :phone_fixed, " +:+
  "phone_fixed_second = :phone_fixed_second," +:+
  "phone_mobile       = :phone_mobile, " +:+
  "fax                = :fax, " +:+
  "url                = :url, " +:+
  "skype_name         = :skype_name, " +:+
  "remarks            = :remarks, " +:+
  "updated_at         = :updated_at, " +:+
  "profile_image      = :profile_image, " +:+
  "language_id        = :language_id, " +:+
  "_checksum          = :_checksum, " +:+
  "_last_updated      = :_last_updated, " +:+
  "_archived          = :_archived " +:+
  "WHERE id = :id;".

Definition PROJECT_INSERT : string :=
  "INSERT IGNORE INTO pr_project (id, uuid, nr, name, start_date," +:+
  "end_date, comment, pr_state_id, pr_project_type_id, contact_id," +:+
  "contact_sub_id, pr_invoice_type_id, pr_invoice_type_amount, " +:+
  "pr_budget_type_id," +:+
  "pr_budget_type_amount, _checksum, _last_updated" +:+
  ") VALUES (" +:+
  ":id, :uuid, :nr, :name, :start_date," +:+
  ":end_date, :comment, :pr_state_id, :pr_project_type_id, :contact_id," +:+
  ":contact_sub_id, :pr_invoice_type_id, :pr_invoice_type_amount, " +:+
  ":pr_budget_type_id," +:+
  ":pr_budget_type_amount, :_checksum, :_last_updated" +:+
  ");".
Definition PROJECT_UPDATE : string :=
  "UPDATE pr_project SET uuid = :uuid, nr = :nr, name = :name," +:+
  "start_date = :start_date, end_date = :end_date, comment = :comment," +:+
  "pr_state_id = :pr_state_id, pr_project_type_id = :pr_project_type_id," +:+
  "contact_id = :contact_id, contact_sub_id = :contact_sub_id," +:+
  "pr_invoice_type_id = :pr_invoice_type_id, pr_invoice_type_amount = " +:+
  ":pr_invoice_type_amount, " +:+
  "pr_budget_type_id = :pr_budget_type_id, pr_budget_type_amount = " +:+
  ":pr_budget_type_amount, " +:+
  "_checksum = :_checksum, _last_updated = :_last_updated WHERE id = :id;".

Definition INVOICE_INSERT : string :=
  "INSERT IGNORE INTO invoice (id, document_nr, title, contact_id, " +:+
  "contact_sub_id, " +:+
  "user_id, project_id, language_id, bank_account_id, currency_id, " +:+
  "payment_type_id, header, footer, mwst_type, mwst_is_net, " +:+
  "show_position_taxes, is_valid_from, is_valid_to, contact_address, " +:+
  "kb_item_status_id, reference, api_reference, viewed_by_client_at, " +:+
  "updated_at, esr_id, qr_invoice_id, template_slug, network_link, " +:+
  "_checksum, _last_updated, total_gross, total_net, total_taxes, " +:+
  "total_received_payments, total_credit_vouchers, total_remaining_payments, " +:+
  "total, total_rounding_difference) " +:+
  "VALUES (:id, :document_nr, :title, " +:+
  ":contact_id, :contact_sub_id, :user_id, :project_id, :language_id, " +:+
  ":bank_account_id, :currency_id, :payment_type_id, :header, :footer, " +:+
  ":mwst_type, :mwst_is_net, :show_position_taxes, :is_valid_from, " +:+
  ":is_valid_to, :contact_address, :kb_item_status_id, :reference, " +:+
  ":api_reference, :viewed_by_client_at, :updated_at, :esr_id, " +:+
  ":qr_invoice_id, :template_slug, :network_link, :_checksum, " +:+
  ":_last_updated, :total_gross, :total_net, :total_taxes, " +:+
  ":total_received_payments, :total_credit_vouchers, " +:+
  ":total_remaining_payments, :total, :total_rounding_difference " +:+
  ");".
Definition INVOICE_UPDATE : string :=
  "UPDATE invoice SET document_nr = :document_nr, title = :title, " +:+
  "contact_id = :contact_id, contact_sub_id = :contact_sub_id, " +:+
  "user_id = :user_id, project_id = :project_id, language_id = :language_id, " +:+
  "bank_account_id = :bank_account_id, currency_id = :currency_id, " +:+
  "payment_type_id = :payment_type_id, header = :header, footer = :footer, " +:+
  "mwst_type = :mwst_type, mwst_is_net = :mwst_is_net, " +:+
  "show_position_taxes = :show_position_taxes, is_valid_from = " +:+
  ":is_valid_from," +:+
  "is_valid_to = :is_valid_to, contact_address = :contact_address, " +:+
  "kb_item_status_id = :kb_item_status_id, reference = :reference, " +:+
  "api_reference = :api_reference, viewed_by_client_at = " +:+
  ":viewed_by_client_at," +:+
  "updated_at = :updated_at, esr_id = :esr_id, qr_invoice_id = " +:+
  ":qr_invoice_id," +:+
  "template_slug = :template_slug, network_link = :network_link, " +:+
  "_checksum = :_checksum, _last_updated = :_last_updated, total_gross = " +:+
  ":total_gross, total_net = :total_net, total_taxes = :total_taxes, " +:+
  "total_received_payments = :total_received_payments, total_credit_vouchers " +:+
  "= :total_credit_vouchers, total_remaining_payments = " +:+
  ":total_remaining_payments, total = :total, total_rounding_difference = " +:+
  ":total_rounding_difference " +:+
  "WHERE id = :id;".

Definition contact_fields : list BXJsonField := [
  BX_FIELD "id" BX_F_UINT; BX_FIELD "user_id" BX_F_UINT; BX_FIELD "contact_type_id" BX_F_UINT;
  BX_FIELD "salutation_id" BX_F_UINT; BX_FIELD "country_id" BX_F_UINT;
  BX_FIELD "owner_id" BX_F_UINT; BX_FIELD "title_id" BX_F_UINT;
  BX_FIELD "salutation_form" BX_F_UINT; BX_FIELD "language_id" BX_F_UINT;
  BX_FIELD "postcode" BX_F_STR; BX_FIELD "nr" BX_F_STR; BX_FIELD "name_1" BX_F_STR;
  BX_FIELD "name_2" BX_F_STR; BX_FIELD "address" BX_F_STR; BX_FIELD "birthday" BX_F_STR;
  BX_FIELD "updated_at" BX_F_STR; BX_FIELD "city" BX_F_STR; BX_FIELD "mail" BX_F_STR;
  BX_FIELD "mail_second" BX_F_STR; BX_FIELD "phone_fixed" BX_F_STR;
  BX_FIELD "phone_fixed_second" BX_F_STR; BX_FIELD "phone_mobile" BX_F_STR;
  BX_FIELD "fax" BX_F_STR; BX_FIELD "url" BX_F_STR; BX_FIELD "skype_name" BX_F_STR;
  BX_FIELD "remarks" BX_F_STR; BX_FIELD "contact_group_ids" BX_F_STR;
  BX_FIELD "contact_branch_ids" BX_F_STR; BX_FIELD "profile_image" BX_F_STR].
Definition project_fields : list BXJsonField := [
  BX_FIELD "id" BX_F_UINT; BX_FIELD "pr_state_id" BX_F_UINT;
  BX_FIELD "pr_project_type_id" BX_F_UINT; BX_FIELD "contact_id" BX_F_UINT;
  BX_FIELD "contact_sub_id" BX_F_UINT; BX_FIELD "pr_invoice_type_id" BX_F_UINT;
  BX_FIELD "pr_budget_type_id" BX_F_UINT; BX_FIELD "uuid" BX_F_UUID; BX_FIELD "nr" BX_F_STR;
  BX_FIELD "name" BX_F_STR; BX_FIELD "start_date" BX_F_STR; BX_FIELD "end_date" BX_F_STR;
  BX_FIELD "comment" BX_F_STR; BX_FIELD "pr_invoice_type_amount" BX_F_FLOAT;
  BX_FIELD "pr_budget_type_amount" BX_F_FLOAT].
Definition invoice_fields : list BXJsonField := [
  BX_FIELD "id" BX_F_UINT; BX_FIELD "user_id" BX_F_UINT; BX_FIELD "contact_id" BX_F_UINT;
  BX_FIELD "contact_sub_id" BX_F_UINT; BX_FIELD "project_id" BX_F_UINT;
  BX_FIELD "bank_account_id" BX_F_UINT; BX_FIELD "currency_id" BX_F_UINT;
  BX_FIELD "payment_type_id" BX_F_UINT; BX_FIELD "kb_item_status_id" BX_F_UINT;
  BX_FIELD "esr_id" BX_F_UINT; BX_FIELD "qr_invoice_id" BX_F_UINT;
  BX_FIELD "language_id" BX_F_UINT; BX_FIELD "mwst_type" BX_F_UINT;
  BX_FIELD "show_position_taxes" BX_F_UINT; BX_FIELD "mwst_is_net" BX_F_UINT;
  BX_FIELD "total_gross" BX_F_FLOAT; BX_FIELD "total_net" BX_F_FLOAT;
  BX_FIELD "total_taxes" BX_F_FLOAT; BX_FIELD "total_received_payments" BX_F_FLOAT;
  BX_FIELD "total_credit_vouchers" BX_F_FLOAT; BX_FIELD "total_remaining_payments" BX_F_FLOAT;
  BX_FIELD "total" BX_F_FLOAT; BX_FIELD "total_rounding_difference" BX_F_FLOAT;
  BX_FIELD "document_nr" BX_F_STR; BX_FIELD "is_valid_from" BX_F_STR;
  BX_FIELD "is_valid_to" BX_F_STR; BX_FIELD "contact_address" BX_F_STR;
  BX_FIELD "template_slug" BX_F_STR; BX_FIELD "updated_at" BX_F_STR;
  BX_FIELD "reference" BX_F_STR; BX_FIELD "api_reference" BX_F_STR;
  BX_FIELD "viewed_by_client_at" BX_F_STR; BX_FIELD "header" BX_F_STR;
  BX_FIELD "footer" BX_F_STR; BX_FIELD "title" BX_F_STR; BX_FIELD "network_link" BX_F_STR].
Definition contact_members : list string := [
  "id"; "contact_type_id"; "salutation_id"; "user_id"; "owner_id"; "title_id"; "salutation_form";
  "language_id"; "postcode"; "nr"; "name_1"; "name_2"; "birthday"; "address"; "city"; "mail";
  "mail_second"; "phone_fixed_second"; "phone_fixed"; "phone_mobile"; "fax"; "url"; "skype_name";
  "remarks"; "updated_at"; "profile_image"].
Definition project_members : list string := [
  "id"; "uuid"; "nr"; "name"; "start_date"; "end_date"; "comment"; "pr_state_id";
  "pr_project_type_id"; "contact_id"; "contact_sub_id"; "pr_invoice_type_id";
  "pr_invoice_type_amount"; "pr_budget_type_id"; "pr_budget_type_amount"].
Definition invoice_members : list string := [
  "id"; "document_nr"; "title"; "contact_id"; "contact_sub_id"; "user_id"; "project_id";
  "language_id"; "bank_account_id"; "currency_id"; "payment_type_id"; "header"; "footer";
  "mwst_type"; "mwst_is_net"; "show_position_taxes"; "is_valid_from"; "is_valid_to";
  "contact_address"; "kb_item_status_id"; "reference"; "api_reference"; "viewed_by_client_at";
  "updated_at"; "esr_id"; "qr_invoice_id"; "template_slug"; "network_link"; "total_gross";
  "total_net"; "total_taxes"; "total_received_payments"; "total_credit_vouchers";
  "total_remaining_payments"; "total"; "total_rounding_difference"].

(** The list of countries, loaded before the threads start. *)
Class CountryList (W : Type) := { country_list : prog W (option (list Country)) }.

Section Values.
Context `{CDouble}.

Definition contact_values (d : decoded) (archived : BXBool) (now : Z) (country : option string)
    : list binding :=
  bind_members contact_members d
  ++ [bx_binding ":_archived" (VBool archived); u64_binding ":_checksum" (d_checksum d);
      u64_binding ":_last_updated" now; char_binding ":country" country 2].
Definition project_values (d : decoded) (stale : Z) : list binding :=
  bind_members project_members d
  ++ [u64_binding ":_checksum" (d_checksum d); u64_binding ":_last_updated" stale].
Definition invoice_values (d : decoded) (now : Z) : list binding :=
  bind_members invoice_members d
  ++ [u64_binding ":_checksum" (d_checksum d); u64_binding ":_last_updated" now].

(** [v.isset && v.value != 0] *)
Definition refers (v : BXUInteger) : bool := uint_isset v && negb (uint_value v =? 0).
End Values.

Section Items.
Context `{Jansson} `{!JsonSet} `{XXH3} {W : Type} `{!StmtEnv W} `{!Clock W} `{!RequestEnv W}
  `{!StaleStack W} `{!CountryList W}.
Context (fuel : nat) (conn : MYSQL).

Definition cached (A : Type) : Type := prog (option Cache * W) A.

Definition bx_object_contact_decode : option json_t -> prog W (option decoded) :=
  decode_members contact_fields.
Definition project_decode : option json_t -> prog W (option decoded) := decode_members project_fields.
Definition bx_object_invoice_decode : option json_t -> prog W (option decoded) :=
  decode_members invoice_fields.

Definition bx_contact_is_in_database : BXAny -> prog W (BXillError + bool) :=
  is_in_database fuel conn "SELECT id FROM contact WHERE id = :id;".
Definition bx_project_is_in_database : BXAny -> prog W (BXillError + bool) :=
  is_in_database fuel conn "SELECT id FROM pr_project WHERE id = :id;".

(** [cache_set_item]; its result is ignored.  It allocates when the array is
    full. *)
Definition set_item (id checksum : Z) : cached unit :=
  m <- on_snd memory ;;
  on_fst (cache_set_item m id checksum) ;;; ret tt.
Definition reconnect_or_ok (e : BXillError) : BXillError :=
  if bool_decide (e = ErrorSQLReconnect) then e else NoError.

(** ** Contacts *)

Definition ensure_user_exists (id : BXUInteger) : prog W BXillError :=
  if negb (refers id) then ret NoError else
  r <- bx_user_is_in_database fuel conn (VUInteger id) ;;
  match r with
  | inl e => ret e
  | inr true => ret NoError
  | inr false =>
      e <- bx_user_sync_item fuel conn (VUInteger id) ;;
      if bool_decide (e = ErrorSQLReconnect) then ret e else
      r <- bx_user_is_in_database fuel conn (VUInteger id) ;;
      ret (match r with inl e => e | inr true => NoError | inr false => ErrorGeneric end)
  end.

(** The user and the owner. *)
Definition contact_users (d : decoded) : prog W BXillError :=
  e <- ensure_user_exists (uint_member "user_id" d) ;;
  if negb (bool_decide (e = NoError)) then ret e else
  let owner := uint_member "owner_id" d in
  if uint_isset owner && negb (uint_value owner =? uint_value (uint_member "user_id" d))
  then ensure_user_exists owner else ret NoError.

(** The row: an error, or whether it was written ([bx_database_persist_ok]). *)
Definition contact_write (q : BXDatabaseQuery) (d : decoded) (archived : BXBool)
    : prog W (BXillError + bool) :=
  now <- now_u64 ;;
  countries <- country_list ;;
  code <- of_outcome (bx_country_list_get_code (i32 (uint_value (uint_member "country_id" d))) countries) ;;
  r <- finish_row fuel (bind_each (contact_values d archived now code) q) ;;
  ret (match r with inl e => inl e | inr q => inr (bx_database_persist_ok (Some q)) end).

Definition contact_extras (d : decoded) : prog W BXillError :=
  let id := uint_value (uint_member "id" d) in
  e <- bx_contact_group_link conn id (str_value (string_member "contact_group_ids" d)) ;;
  if bool_decide (e = ErrorSQLReconnect) then ret e else
  e <- bx_contact_extra_sync fuel conn id ;;
  ret (reconnect_or_ok e).

(** What follows the answer of the cache, for an object to insert or update. *)
Definition contact_store (d : decoded) (archived : BXBool) (text : string) : cached BXillError :=
  query <- on_snd (bx_database_new_query conn (Some text)) ;;
  match query with
  | None => ret ErrorGeneric
  | Some q =>
      e <- on_snd (contact_users d) ;;
      if negb (bool_decide (e = NoError)) then
        on_snd (bx_database_free_query (Some q)) ;;; ret (reconnect_or_ok e)
      else
        r <- on_snd (contact_write q d archived) ;;
        match r with
        | inl e => ret e
        | inr false => ret NoError
        | inr true =>
            set_item (uint_value (uint_member "id" d)) (d_checksum d) ;;;
            on_snd (contact_extras d)
        end
  end.

Definition _bx_contact_sync_item (archived : BXBool) (item : option json_t) : cached BXillError :=
  match item with
  | None => fault                                          (* the assert *)
  | Some _ =>
      d <- on_snd (bx_object_contact_decode item) ;;
      match d with
      | None => ret ErrorGeneric
      | Some d =>
          state <- on_fst (cache_check_item (uint_value (uint_member "id" d)) (d_checksum d)) ;;
          match state with
          | CacheOk => ret NoError
          | CacheNotSet => contact_store d archived CONTACT_INSERT
          | CacheNotSync => contact_store d archived CONTACT_UPDATE
          end
      end
  end.

(** The same for one object fetched by its id. *)
Definition sync_fetched (path : string) (args : list (option BXAny))
    (sync : option json_t -> cached BXillError) : cached BXillError :=
  request <- on_snd (request_json path args) ;;
  match good_answer request with
  | None => ret ErrorNet
  | Some body => sync (Some body)
  end.
Definition bx_contact_sync_item (show_archived : BXBool) (item : BXAny) : cached BXillError :=
  sync_fetched "2.0/contact/$?show_archived=$" [Some item; Some (VBool show_archived)]
    (_bx_contact_sync_item show_archived).

(** ** Projects *)

Definition bx_project_check_database (d : decoded) : prog W ObjectState :=
  r <- run_row_strict of_query fuel conn (select_checksum "pr_project") (id_key d) ;;
  ret (match r with inl _ => Error | inr q => row_state (d_checksum d) q end).

Definition execute_request (d : decoded) (request : string) : prog W BXillError :=
  stale <- stale_u64 ;;
  query <- bx_database_new_query conn (Some request) ;;
  match query with
  | None => ret ErrorGeneric
  | Some q =>
      let '(bound, q) := bind_strict (project_values d stale) q in
      if negb bound then bx_database_free_query (Some q) ;;; ret ErrorGeneric else
      let* (ok, q) := bx_database_execute q in
      if negb ok then
        bx_database_free_query (Some q) ;;; ret (or_reconnect ErrorGeneric q)
      else
        let* (got, q) := bx_database_results fuel q in
        bx_database_free_query (Some q) ;;;
        ret (if negb got then ErrorGeneric
             else if negb (bx_database_persist_ok (Some q)) then ErrorSQLInsert else NoError)
  end.
Definition bx_project_update_db (d : decoded) : prog W BXillError := execute_request d PROJECT_UPDATE.
Definition bx_project_insert_db (d : decoded) : prog W BXillError := execute_request d PROJECT_INSERT.

(** A reference: absent, or present in the database; [inr false] when the row it
    names is missing. *)
Definition referred (is_in : BXAny -> prog W (BXillError + bool)) (v : BXUInteger)
    : prog W (BXillError + bool) :=
  if refers v then is_in (VUInteger v) else ret (inr true).

Definition project_store (d : decoded) (write : decoded -> prog W BXillError) : cached BXillError :=
  r <- on_snd (referred bx_contact_is_in_database (uint_member "contact_id" d)) ;;
  match r with
  | inl e => ret e
  | inr false => ret NoError
  | inr true =>
      e <- on_snd (write d) ;;
      if negb (bool_decide (e = NoError)) then ret (reconnect_or_ok e)
      else
        set_item (uint_value (uint_member "id" d)) (d_checksum d) ;;;
        e <- on_snd (bx_project_extra_sync fuel conn (uint_value (uint_member "id" d))) ;;
        ret (reconnect_or_ok e)
  end.

Definition _bx_project_sync_item (item : option json_t) : cached BXillError :=
  d <- on_snd (project_decode item) ;;
  match d with
  | None => ret ErrorGeneric
  | Some d =>
      state <- on_fst (cache_check_item (uint_value (uint_member "id" d)) (d_checksum d)) ;;
      match state with
      | CacheOk => ret NoError
      | CacheNotSet => project_store d bx_project_insert_db
      | CacheNotSync => project_store d bx_project_update_db
      end
  end.
Definition bx_project_sync_item (item : BXAny) : cached BXillError :=
  sync_fetched "2.0/pr_project/$" [Some item] _bx_project_sync_item.

(** ** Invoices *)

Definition GET_INVOICE_PATH : string := "2.0/kb_invoice/$".

(** The invoice and its positions: those of the list, or of the full document
    when the list has none.  The code of that answer is not looked at; [None]
    when it does not decode. *)
Definition invoice_full (d : decoded) (item : option json_t)
    : prog W (option (decoded * option json_t)) :=
  match object_get item "positions" with
  | Some positions => ret (Some (d, Some positions))
  | None =>
      full <- request_json GET_INVOICE_PATH [Some (member "id" d)] ;;
      match full with
      | None => ret (Some (d, None))
      | Some (_, body) =>
          d <- bx_object_invoice_decode (Some body) ;;
          ret (match d with Some d => Some (d, object_get (Some body) "positions") | None => None end)
      end
  end.

(** A project of id 0 is no project. *)
Definition drop_project (d : decoded) : decoded :=
  let p := uint_member "project_id" d in
  if uint_value p =? 0 then set_member "project_id" (VUInteger (mkUInteger false 0)) d else d.

Definition invoice_references (d : decoded) : prog W (BXillError + bool) :=
  r <- referred bx_contact_is_in_database (uint_member "contact_id" d) ;;
  match r with
  | inr true => referred bx_project_is_in_database (uint_member "project_id" d)
  | r => ret r
  end.

(** The row and its positions: an error that is returned, or whether the cache
    may take the invoice. *)
Definition invoice_write (d : decoded) (positions : option json_t) (text : string)
    : prog W (BXillError + bool) :=
  query <- bx_database_new_query conn (Some text) ;;
  match query with
  | None => ret (inl NoError)
  | Some q =>
      now <- now_u64 ;;
      r <- finish_row fuel (bind_each (invoice_values d now) q) ;;
      match r with
      | inl e => ret (inl e)
      | inr q =>
          if negb (bx_database_persist_ok (Some q)) then ret (inr false) else
          e <- bx_invoice_positions_store fuel conn (uint_value (uint_member "id" d)) positions ;;
          ret (if bool_decide (e = NoError) then inr true else inl (reconnect_or_ok e))
      end
  end.

Definition invoice_store (d : decoded) (item : option json_t) (text : string) : cached BXillError :=
  full <- on_snd (invoice_full d item) ;;
  match full with
  | None => ret NoError
  | Some (d, positions) =>
      r <- on_snd (invoice_references d) ;;
      match r with
      | inl e => ret e
      | inr false => ret NoError
      | inr true =>
          let d := drop_project d in
          r <- on_snd (invoice_write d positions text) ;;
          match r with
          | inl e => ret e
          | inr false => ret NoError
          | inr true =>
              set_item (uint_value (uint_member "id" d)) (d_checksum d) ;;;
              e <- on_snd (bx_invoice_extra_sync fuel conn (uint_value (uint_member "id" d))) ;;
              ret (reconnect_or_ok e)
          end
      end
  end.

Definition _bx_invoice_sync_item (item : option json_t) : cached BXillError :=
  match item with
  | None => fault                                          (* the assert *)
  | Some _ =>
      d <- on_snd (bx_object_invoice_decode item) ;;
      match d with
      | None => ret NoError
      | Some d =>
          state <- on_fst (cache_check_item (uint_value (uint_member "id" d)) (d_checksum d)) ;;
          match state with
          | CacheOk => ret NoError
          | CacheNotSet => invoice_store d item INVOICE_INSERT
          | CacheNotSync => invoice_store d item INVOICE_UPDATE
          end
      end
  end.
Definition bx_invoice_sync_item (item : BXAny) : cached BXillError :=
  sync_fetched GET_INVOICE_PATH [Some item] _bx_invoice_sync_item.

(** The ids of the cache that were not seen in this version, fetched one by
    one; [turns] bounds the loop. *)
Fixpoint missed_loop (turns : nat) (iter : CacheIter) : cached BXillError :=
  match turns with
  | O => out_of_fuel
  | S turns =>
      let* (next, iter) := on_fst (cache_iter_next_prunable_id iter 1) in
      match next with
      | None => ret NoError
      | Some id =>
          request <- on_snd (request_json GET_INVOICE_PATH [Some (VUInteger (mkUInteger true id))]) ;;
          match request with
          | None => ret ErrorNet
          | Some (http_code, body) =>
              if http_code =? 404 then missed_loop turns iter
              else if negb (http_code =? 200) then ret ErrorNet
              else
                e <- _bx_invoice_sync_item (Some body) ;;
                if bool_decide (e = NoError) then missed_loop turns iter else ret e
          end
      end
  end.
Definition _invoice_fetch_missed (turns : nat) : cached BXillError :=
  iter <- on_fst cache_iter_init ;;
  missed_loop turns iter.

(** ** The whole walks *)

#[local] Instance cached_walk : WalkEnv (option Cache * W) := {|
  do_request path args := on_snd (do_request path args);
  thrd_sleep := on_snd thrd_sleep
|}.

Definition _contact_page_item (archived : BXBool) (item : option json_t) : cached BXillError :=
  e <- _bx_contact_sync_item archived item ;;
  ret (reconnect_or_ok e).
Definition contact_pass (archived : bool) : cached BXillError :=
  let archived := mkBool true archived in
  bx_walk_pages fuel (negb (bool_decide (conn = None))) (Some WALK_CONTACT_PATH)
    (Some (VBool archived)) false (_contact_page_item archived).
Definition bx_contact_walk_items : cached BXillError :=
  e <- contact_pass false ;;
  if negb (bool_decide (e = NoError)) then ret e else contact_pass true.
Definition bx_project_walk_item : cached BXillError :=
  bx_walk_pages fuel (negb (bool_decide (conn = None))) (Some WALK_PROJECT_PATH) None false
    _bx_project_sync_item.
Definition bx_invoice_walk_items (turns : nat) : cached BXillError :=
  e <- bx_walk_pages fuel (negb (bool_decide (conn = None))) (Some WALK_INVOICE_PATH) None false
         _bx_invoice_sync_item ;;
  if negb (bool_decide (e = NoError)) then ret e else _invoice_fetch_missed turns.
End Items.

(** ** The interface of the chain *)

Section ChainInterface.
Context `{Jansson} `{!JsonSet} `{XXH3} {W : Type} `{!StmtEnv W} `{!Clock W} `{!RequestEnv W}
  `{!StaleStack W} `{!CountryList W} `{!HasCaches W}.

(** The three object modules, over the caches of the thread. *)
Definition synced_items (fuel turns : nat) : ChainItems W := {|
  contact_sync_item conn archived item :=
    on_cache Contacts (_bx_contact_sync_item fuel conn (mkBool true archived) item);
  project_sync_item conn item := on_cache Projects (_bx_project_sync_item fuel conn item);
  invoice_sync_item conn item := on_cache Invoices (_bx_invoice_sync_item fuel conn item);
  invoice_fetch_missed conn := on_cache Invoices (_invoice_fetch_missed fuel conn turns)
|}.
End ChainInterface.

(** ** The cache takes an object only after its row was written

    In any environment, with any failures. *)

(** The steps of a program over a cache and a world. *)
Ltac cached_steps :=
  repeat match goal with
  | H : bind _ _ (_, _) = Done _ |- _ =>
      apply bind_Done in H; destruct H as (? & [? ?] & ? & H)
  | H : on_snd _ (_, _) = Done (_, (_, _)) |- _ =>
      apply on_snd_Done in H; destruct H as [? H]; subst
  | H : ret _ _ = Done _ |- _ => unfold ret in H; simplify_eq
  | H : (match ?x with _ => _ end) (_, _) = Done _ |- _ => destruct x eqn:?
  end.

Section AnyEnvironment.
Context `{Jansson} `{!JsonSet} `{XXH3} {W : Type} `{!StmtEnv W} `{!Clock W} `{!RequestEnv W}
  `{!StaleStack W} `{!CountryList W}.
Context (fuel : nat) (conn : MYSQL).

(** *** The run that stores an object

    Each constructor lists the calls of the code in their order, every one from the
    world the one before left. *)

(** The statement for what the cache said of the object. *)
Definition row_text (r : resource) (st : CacheState) : option string :=
  match r, st with
  | _, CacheOk => None
  | Contacts, CacheNotSet => Some CONTACT_INSERT
  | Contacts, CacheNotSync => Some CONTACT_UPDATE
  | Projects, CacheNotSet => Some PROJECT_INSERT
  | Projects, CacheNotSync => Some PROJECT_UPDATE
  | Invoices, CacheNotSet => Some INVOICE_INSERT
  | Invoices, CacheNotSync => Some INVOICE_UPDATE
  end.

(** The statement [text] was prepared in [w]; in [w1] it was executed with the
    parameters [bs] and its rows were read, without failure, foreign key error or
    warning; [w2] is the world once its query is freed. *)
Definition executed_row (q0 : BXDatabaseQuery) (bs : list binding) (w1 w2 : W) : Prop :=
  exists q wq u, run_query fuel (bind_each bs q0) w1 = Done ((true, q), wq)
    /\ bx_database_free_query (Some q) wq = Done (u, w2)
    /\ bx_database_persist_ok (Some q) = true.

(** The object whose invoice row is written, and its positions: the item of the list
    with the positions it names; or the item, when the full document is not answered;
    or what the body of the answer decodes to, whatever id it carries. *)
Inductive invoice_object (item : option json_t) (d : decoded) (w : W)
    : decoded -> option json_t -> W -> Prop :=
| invoice_listed positions :
    object_get item "positions" = Some positions ->
    invoice_object item d w d (Some positions) w
| invoice_alone w1 :
    object_get item "positions" = None ->
    request_json "2.0/kb_invoice/$" [Some (member "id" d)] w = Done (None, w1) ->
    invoice_object item d w d None w1
| invoice_fetched code body w1 d1 w2 :
    object_get item "positions" = None ->
    request_json "2.0/kb_invoice/$" [Some (member "id" d)] w = Done (Some (code, body), w1) ->
    bx_object_invoice_decode (Some body) w1 = Done (Some d1, w2) ->
    invoice_object item d w d1 (object_get (Some body) "positions") w2.

(** [stored r archived item d st w d' w']: the run for the object [d] decoded from
    [item], of which the cache said [st], writes from [w] the row of [d'] and, for an
    invoice, its positions. *)
Inductive stored (archived : BXBool) (item : option json_t) (d : decoded) (st : CacheState) (w : W)
    : resource -> decoded -> W -> Prop :=
| contact_stored text q w1 w2 now w3 countries w4 code w5 w6 :
    row_text Contacts st = Some text ->
    bx_database_new_query conn (Some text) w = Done (Some q, w1) ->
    contact_users fuel conn d w1 = Done (NoError, w2) ->
    now_u64 w2 = Done (now, w3) ->
    country_list w3 = Done (countries, w4) ->
    of_outcome (bx_country_list_get_code (i32 (uint_value (uint_member "country_id" d))) countries) w4
      = Done (code, w5) ->
    executed_row q (contact_values d archived now code) w5 w6 ->
    stored archived item d st w Contacts d w6
| project_stored text w1 stale w2 q w3 w4 :
    row_text Projects st = Some text ->
    referred (bx_contact_is_in_database fuel conn) (uint_member "contact_id" d) w = Done (inr true, w1) ->
    stale_u64 w1 = Done (stale, w2) ->
    bx_database_new_query conn (Some text) w2 = Done (Some q, w3) ->
    executed_row q (project_values d stale) w3 w4 ->
    stored archived item d st w Projects d w4
| invoice_stored text d1 positions w1 w2 w3 q w4 now w5 w6 w7 :
    row_text Invoices st = Some text ->
    invoice_object item d w d1 positions w1 ->
    referred (bx_contact_is_in_database fuel conn) (uint_member "contact_id" d1) w1 = Done (inr true, w2) ->
    referred (bx_project_is_in_database fuel conn) (uint_member "project_id" d1) w2 = Done (inr true, w3) ->
    bx_database_new_query conn (Some text) w3 = Done (Some q, w4) ->
    now_u64 w4 = Done (now, w5) ->
    executed_row q (invoice_values (drop_project d1) now) w5 w6 ->
    bx_invoice_positions_store fuel conn (decoded_id (drop_project d1)) positions w6 = Done (NoError, w7) ->
    stored archived item d st w Invoices (drop_project d1) w7.

Lemma bind_strict_each bs q q' : bind_strict bs q = (true, q') -> q' = bind_each bs q.
Proof.
  revert q. induction bs as [|b bs IH]; intros q; cbn; [by intros [= <-]|].
  destruct (bind_named b q) as [[] q1]; [apply IH|done].
Qed.

(** The steps of a program over a world. *)
Ltac run_steps :=
  repeat match goal with
  | H : bind _ _ _ = Done _ |- _ =>
      apply bind_Done in H; destruct H as (? & ? & ? & H)
  | H : ret _ _ = Done _ |- _ => unfold ret in H; simplify_eq
  | H : (match ?x with _ => _ end) _ = Done _ |- _ => destruct x eqn:?
  | H : negb _ = false |- _ => apply negb_false_iff in H
  end.

Lemma finish_row_ok q bs q' w w' :
  finish_row fuel (bind_each bs q) w = Done (inr q', w') -> bx_database_persist_ok (Some q') = true ->
  executed_row q bs w w'.
Proof.
  unfold finish_row. intros E Hp. run_steps. case_match; simplify_eq. by repeat eexists.
Qed.

Lemma contact_write_ok q d archived w w' :
  contact_write fuel q d archived w = Done (inr true, w') ->
  exists now w1 countries w2 code w3, now_u64 w = Done (now, w1) /\ country_list w1 = Done (countries, w2)
    /\ of_outcome (bx_country_list_get_code (i32 (uint_value (uint_member "country_id" d))) countries) w2
       = Done (code, w3)
    /\ executed_row q (contact_values d archived now code) w3 w'.
Proof.
  unfold contact_write. intros E. run_steps. case_match; simplify_eq.
  do 6 eexists. split_and!; [eassumption..|]. by eapply finish_row_ok.
Qed.

Lemma execute_request_ok d text w w' :
  execute_request fuel conn d text w = Done (NoError, w') ->
  exists stale w1 q w2, stale_u64 w = Done (stale, w1)
    /\ bx_database_new_query conn (Some text) w1 = Done (Some q, w2)
    /\ executed_row q (project_values d stale) w2 w'.
Proof.
  unfold execute_request. unfold or_reconnect. intros E. run_steps; try done; try (by case_match).
  match goal with H : bind_strict _ _ = (?b, _) |- _ => destruct b; [|done]; apply bind_strict_each in H; subst end.
  match type of E with (if negb ?g then _ else if negb ?p then _ else _) = _ =>
    destruct g; [|done]; destruct p eqn:Hp; [|done] end.
  do 4 eexists. split_and!; [eassumption..|]. do 3 eexists. split_and!; [|eassumption|exact Hp].
  unfold run_query. erewrite bind_eq by eassumption. cbn. eassumption.
Qed.

Lemma invoice_full_ok d item d1 positions w w' :
  invoice_full d item w = Done (Some (d1, positions), w') -> invoice_object item d w d1 positions w'.
Proof.
  unfold invoice_full. destruct (object_get item "positions") as [ps|] eqn:Ho.
  - intros [= <- <- <-]. by constructor.
  - intros E. run_steps; [|by eapply invoice_alone].
    match goal with H : bx_object_invoice_decode _ _ = Done (?o, _) |- _ =>
      destruct o as [d2|]; simplify_eq end.
    by eapply invoice_fetched.
Qed.

Lemma invoice_references_ok d w w' :
  invoice_references fuel conn d w = Done (inr true, w') ->
  exists w1, referred (bx_contact_is_in_database fuel conn) (uint_member "contact_id" d) w
             = Done (inr true, w1)
    /\ referred (bx_project_is_in_database fuel conn) (uint_member "project_id" d) w1
       = Done (inr true, w').
Proof.
  intros (r & w1 & Hr & E)%bind_Done. destruct r as [e|[]]; [discriminate E| |discriminate E].
  exists w1. exact (conj Hr E).
Qed.

Lemma invoice_write_ok d positions text w w' :
  invoice_write fuel conn d positions text w = Done (inr true, w') ->
  exists q w1 now w2 w3, bx_database_new_query conn (Some text) w = Done (Some q, w1)
    /\ now_u64 w1 = Done (now, w2) /\ executed_row q (invoice_values d now) w2 w3
    /\ bx_invoice_positions_store fuel conn (decoded_id d) positions w3 = Done (NoError, w').
Proof.
  unfold invoice_write. intros E. run_steps; try done.
  case_bool_decide; simplify_eq. do 5 eexists. split_and!; [eassumption..| |eassumption].
  by eapply finish_row_ok.
Qed.

(** *** What a store leaves in the cache *)

(** The cache is as it was, or took an object that was stored. *)
Definition takes (c : Cache) (oc : option Cache) (done : decoded -> Prop) : Prop :=
  exists c', oc = Some c' /\ cache_wf c'
    /\ (abstract c' = abstract c
        \/ exists d, done d /\ abstract c' = spec_set (decoded_id d) (d_checksum d) (abstract c)).

Lemma takes_refl c done : cache_wf c -> takes c (Some c) done.
Proof. intros Hw. exists c. split_and!; [done..|by left]. Qed.

Lemma set_takes c d w u oc w' (done : decoded -> Prop) :
  cache_wf c -> c_size c + CACHE_CHUNK_SIZE < 2 ^ 32 -> done d ->
  set_item (decoded_id d) (d_checksum d) (Some c, w) = Done (u, (oc, w')) -> takes c oc done.
Proof.
  intros Hw Hs Hd E. unfold set_item in E. cached_steps.
  match goal with H : on_fst _ _ = _ |- _ => apply on_fst_Done in H as [_ E'] end.
  match type of E' with cache_set_item ?m _ _ _ = _ =>
    destruct (cache_set_run c m (decoded_id d) (d_checksum d) Hw Hs) as (b & c' & E0 & Hw' & Hb) end.
  rewrite E' in E0. injection E0 as -> ->. exists c'. split_and!; [reflexivity|exact Hw'|].
  destruct b; [|left; by destruct Hb as (_ & -> & _)]. right. by exists d.
Qed.

Section Stores.
Context (c : Cache) (Hwf : cache_wf c) (Hroom : c_size c + CACHE_CHUNK_SIZE < 2 ^ 32).
Context (archived : BXBool) (item : option json_t) (d : decoded) (st : CacheState).

Lemma contact_store_takes text w e oc w' :
  row_text Contacts st = Some text ->
  contact_store fuel conn d archived text (Some c, w) = Done (e, (oc, w')) ->
  takes c oc (fun d' => exists w6, stored archived item d st w Contacts d' w6).
Proof.
  unfold contact_store. intros Ht E. cached_steps; try by apply takes_refl.
  all: eapply set_takes; [done..| |eassumption].
  all: match goal with H : negb (bool_decide (?x = NoError)) = false |- _ =>
         apply negb_false_iff, bool_decide_eq_true in H; subst x end.
  all: match goal with H : _ = Done (inr true, _) |- _ =>
         apply contact_write_ok in H as (now & wa & cl & wb & code & wc & Hn & Hl & Hc & Hr) end.
  all: eexists; by eapply contact_stored.
Qed.

Lemma project_store_takes text w e oc w' :
  row_text Projects st = Some text ->
  project_store fuel conn d (fun d => execute_request fuel conn d text) (Some c, w) = Done (e, (oc, w')) ->
  takes c oc (fun d' => exists w6, stored archived item d st w Projects d' w6).
Proof.
  unfold project_store. intros Ht E. cached_steps; try by apply takes_refl.
  all: eapply set_takes; [done..| |eassumption].
  all: match goal with H : negb (bool_decide (?x = NoError)) = false |- _ =>
         apply negb_false_iff, bool_decide_eq_true in H; subst x end.
  all: match goal with H : _ = Done (NoError, _) |- _ =>
         apply execute_request_ok in H as (stale & wa & q & wb & Hs & Hq & Hr) end.
  all: eexists; by eapply project_stored.
Qed.

Lemma invoice_store_takes text w e oc w' :
  row_text Invoices st = Some text ->
  invoice_store fuel conn d item text (Some c, w) = Done (e, (oc, w')) ->
  takes c oc (fun d' => exists w6, stored archived item d st w Invoices d' w6).
Proof.
  unfold invoice_store. intros Ht E. cached_steps; try by apply takes_refl.
  all: eapply set_takes; [done..| |eassumption].
  all: match goal with H : invoice_full _ _ _ = _ |- _ => apply invoice_full_ok in H as Hf end.
  all: match goal with H : invoice_references _ _ _ _ = _ |- _ =>
         apply invoice_references_ok in H as (wr & Hr1 & Hr2) end.
  all: match goal with H : invoice_write _ _ _ _ _ _ = _ |- _ =>
         apply invoice_write_ok in H as (q & wa & now & wb & wc & Hq & Hn & Hr & Hp) end.
  all: eexists; exact (invoice_stored archived item d st w text _ _ _ _ _ q _ now _ _ _
    Ht Hf Hr1 Hr2 Hq Hn Hr Hp).
Qed.
End Stores.

(** One object of a resource. *)
Definition sync_of (r : resource) (archived : BXBool) (item : option json_t) : cached BXillError :=
  match r with
  | Contacts => _bx_contact_sync_item fuel conn archived item
  | Projects => _bx_project_sync_item fuel conn item
  | Invoices => _bx_invoice_sync_item fuel conn item
  end.

Definition decode_of (r : resource) : option json_t -> prog W (option decoded) :=
  match r with
  | Contacts => bx_object_contact_decode
  | Projects => project_decode
  | Invoices => bx_object_invoice_decode
  end.

(** Claim C8. One call of the sync function of a contact, project or invoice, in any
    environment and whatever fails, leaves a well-formed cache.  The call decodes its
    item and asks the cache for that object: if the item does not decode the cache is as
    it was, and otherwise the entry of the object may be marked as seen.  Beyond that at
    most one entry changes: that of the object whose row this very run wrote, with its
    checksum, after the statement for what the cache had said was executed with the
    values of the object and without error, and for an invoice after its positions were
    stored.  The object is the item itself for a contact and a project; for an invoice
    whose list entry has no positions it is the one decoded from the fetched body, whose
    id the code does not compare. *)
Theorem item_cached_after_write r archived item c w e oc w' :
  cache_wf c -> c_size c + CACHE_CHUNK_SIZE < 2 ^ 32 ->
  sync_of r archived item (Some c, w) = Done (e, (oc, w')) ->
  exists c' od w1, oc = Some c' /\ cache_wf c' /\ decode_of r item w = Done (od, w1)
  /\ match od with
     | None => abstract c' = abstract c
     | Some d =>
         let '(st, checked) := spec_check (decoded_id d) (d_checksum d) (abstract c) in
         abstract c' = checked
         \/ exists d' w2, stored archived item d st w1 r d' w2
              /\ abstract c' = spec_set (decoded_id d') (d_checksum d') checked
     end.
Proof.
  intros Hw Hs E.
  assert (exists od w1, decode_of r item w = Done (od, w1)
    /\ match od with
       | None => oc = Some c
       | Some d => exists st oc1, cache_check_item (decoded_id d) (d_checksum d) (Some c) = Done (st, oc1)
           /\ match row_text r st with
              | None => oc = oc1
              | Some text =>
                  match r with
                  | Contacts => contact_store fuel conn d archived text (oc1, w1)
                  | Projects => project_store fuel conn d (fun d => execute_request fuel conn d text) (oc1, w1)
                  | Invoices => invoice_store fuel conn d item text (oc1, w1)
                  end = Done (e, (oc, w'))
              end
       end) as (od & w1 & Ed & Hrest).
  { destruct r; cbn [sync_of] in E.
    all: [> unfold _bx_contact_sync_item in E | unfold _bx_project_sync_item in E | unfold _bx_invoice_sync_item in E].
    all: destruct item as [item|]; try done; cached_steps.
    all: try match goal with H : on_fst _ _ = _ |- _ => apply on_fst_Done in H as [-> H] end.
    all: do 2 eexists; split; [eassumption|]; cbn; try done; do 2 eexists; (split; [eassumption|]); done. }
  destruct od as [d|]; [|exists c, None, w1; by subst oc].
  destruct Hrest as (st & oc1 & Ec & Hrest).
  destruct (cache_check_run c (decoded_id d) (d_checksum d) Hw) as (c1 & Ec' & Hw1 & Ha & Hsz).
  rewrite Ec in Ec'. injection Ec' as -> ->.
  destruct (spec_check (decoded_id d) (d_checksum d) (abstract c)) as [st checked] eqn:Esp. cbn in *.
  destruct (row_text r st) as [text|] eqn:Et; [|exists c1, (Some d), w1; subst oc; rewrite Esp; auto].
  rewrite <- Hsz in Hs.
  assert (takes c1 oc (fun d' => exists w6, stored archived item d st w1 r d' w6)) as Htakes.
  { destruct r; [by eapply contact_store_takes|by eapply project_store_takes|by eapply invoice_store_takes]. }
  destruct Htakes as (c' & -> & Hw' & Hc). exists c', (Some d), w1. rewrite Esp.
  split_and!; [done..|]. rewrite <- Ha. destruct Hc as [Hc|(d' & [w6 Hst] & Hc)]; [by left|].
  right. by exists d', w6.
Qed.
End AnyEnvironment.

(** ** On a server *)

Section ItemSpec.
Context `{Jansson} `{!JsonSet} `{XXH3} (db : answers_to) (clock stale : Z)
  (net : string -> list (option BXAny) -> option (Z * json_t)) (countries : option (list Country)).
#[local] Instance items_env : StmtEnv server := serving db.
#[local] Instance items_clock : Clock server := {| now_u64 := ret clock |}.
#[local] Instance items_stale : StaleStack server := {| stale_u64 := ret stale |}.
#[local] Instance items_countries : CountryList server := {| country_list := ret countries |}.
#[local] Instance items_net : RequestEnv server :=
  {| request_json path args := ret (net path args); page_pause := ret tt |}.

(** *** References *)

Definition present (o : option (list MYSQL_FIELD * list served)) : bool :=
  match dataset_rows o with
  | row :: _ => match row_columns row with [] => false | _ => true end
  | [] => false
  end.
Definition CONTACT_PRESENT : string := "SELECT id FROM contact WHERE id = :id;".
Definition PROJECT_PRESENT : string := "SELECT id FROM pr_project WHERE id = :id;".
Definition reference_entry (text : string) (v : BXUInteger) : string * list (option pointee) :=
  log_entry text [bx_binding ":id" (VUInteger v)].

(** The lookup of a reference, and what it says. *)
Definition reference_entries (text : string) (v : BXUInteger) : list (string * list (option pointee)) :=
  if refers v then [reference_entry text v] else [].
Definition reference_ok (text : string) (v : BXUInteger) : bool :=
  if refers v then present (answer db (reference_entry text v)) else true.

Lemma is_in_database_serving fuel c text v w :
  statement_ok [":id"] text = true -> is_dataset (answer db (reference_entry text v)) fuel ->
  exists w', is_in_database fuel (Some c) text (VUInteger v) w
             = Done (inr (present (answer db (reference_entry text v))), w')
  /\ sv_log w' = sv_log w ++ [reference_entry text v].
Proof.
  intros Hok Ha. destruct (run_row_serving db fuel c text [bx_binding ":id" (VUInteger v)] w)
    as (r & w' & E & q & -> & Hlog & Hres & _); [split; [exact Hok|split; solve_bindings]|exact Ha|].
  exists w'. split; [|exact Hlog]. unfold is_in_database. unfold row_run in E. rewrite (bind_eq _ _ _ _ _ E).
  unfold row_present. by rewrite Hres.
Qed.

Lemma referred_serving fuel c text v w :
  statement_ok [":id"] text = true -> is_dataset (answer db (reference_entry text v)) fuel ->
  exists w', referred (is_in_database fuel (Some c) text) v w = Done (inr (reference_ok text v), w')
  /\ sv_log w' = sv_log w ++ reference_entries text v.
Proof.
  intros Hok Ha. unfold referred, reference_ok, reference_entries. destruct (refers v).
  - by apply is_in_database_serving.
  - exists w. by rewrite app_nil_r.
Qed.

(** *** The cache *)

Definition cache_ready (c : Cache) : Prop := cache_wf c /\ c_size c + CACHE_CHUNK_SIZE < 2 ^ 32.

Lemma check_serving (c : Cache) d (w : server) :
  cache_ready c -> exists c1, on_fst (cache_check_item (decoded_id d) (d_checksum d)) (Some c, w)
    = Done ((spec_check (decoded_id d) (d_checksum d) (abstract c)).1, (Some c1, w))
  /\ cache_ready c1 /\ abstract c1 = (spec_check (decoded_id d) (d_checksum d) (abstract c)).2.
Proof.
  intros [Hw Hs]. destruct (cache_check_run c (decoded_id d) (d_checksum d) Hw) as (c1 & E & Hw1 & Ha & Hsz).
  exists c1. split; [by apply on_fst_eq|]. split; [|done]. split; [done|]. by rewrite Hsz.
Qed.

Lemma set_item_serving (c : Cache) d (w : server) :
  cache_ready c -> exists c1, set_item (decoded_id d) (d_checksum d) (Some c, w) = Done (tt, (Some c1, w))
  /\ cache_wf c1 /\ abstract c1 = spec_set (decoded_id d) (d_checksum d) (abstract c).
Proof.
  intros [Hw Hs]. destruct (cache_set_run c true (decoded_id d) (d_checksum d) Hw Hs) as (b & c1 & E & Hw1 & Hb).
  exists c1. destruct b; [|by destruct Hb]. split; [|done]. unfold set_item.
  rewrite (bind_eq _ _ _ true (Some c, w)) by reflexivity. by rewrite (bind_eq _ _ _ _ _ (on_fst_eq _ _ w _ _ E)).
Qed.

(** *** What an object that is not up to date leads to

    [run] is the code from some point on, [w0] the world once the references
    are looked up.  A skipped object gives its result and leaves the cache; a
    stored one logs [rows], enters the cache, and then what hangs on it
    ([extras]) decides of the result: only a lost connection is reported. *)
Definition item_outcome (skip : option BXillError) (w0 : server) (rows : list (string * list (option pointee)))
    (d : decoded) (extras : prog server BXillError) (checked : cache_spec)
    (run : outcome (BXillError * (option Cache * server)) -> Prop) (cache' : Cache) : Prop :=
  match skip with
  | Some e => run (Done (e, (Some cache', w0))) /\ abstract cache' = checked
  | None =>
      exists w1, sv_log w1 = sv_log w0 ++ rows
      /\ abstract cache' = spec_set (decoded_id d) (d_checksum d) checked
      /\ forall e w', extras w1 = Done (e, w') -> run (Done (reconnect_or_ok e, (Some cache', w')))
  end.
Definition unless (ok : bool) : option BXillError := if ok then None else Some NoError.

(** *** Projects *)

Lemma project_plans d text :
  text = PROJECT_INSERT \/ text = PROJECT_UPDATE ->
  row_plan text (project_values d stale) /\ all_named text (project_values d stale) = true.
Proof.
  intros Ht. apply names_match_plan.
  - destruct Ht as [-> | ->]; vm_compute; reflexivity.
  - unfold project_values. cbn [bind_members project_members fmap list_fmap app]. solve_bindings.
Qed.

Definition project_entry (text : string) (d : decoded) : string * list (option pointee) :=
  log_entry text (project_values d stale).

Lemma execute_request_serving fuel c d text w :
  text = PROJECT_INSERT \/ text = PROJECT_UPDATE -> is_dataset (answer db (project_entry text d)) fuel ->
  exists w', execute_request fuel (Some c) d text w = Done (NoError, w')
  /\ sv_log w' = sv_log w ++ [project_entry text d].
Proof.
  intros Ht Ha. destruct (project_plans d text Ht) as [Hp Hn]. pose proof Hp as (Hok & Hb & Hs).
  destruct (run_bound db fuel _ _ text w Hok Hb Hs Ha) as (q & w' & E & Hlog & _ & Hpers).
  exists w'. split; [|exact Hlog]. unfold execute_request. rewrite (bind_eq _ _ _ stale w) by reflexivity.
  rewrite (bind_eq _ _ _ _ _ (new_query_serving db _ _ w Hok)), strict_fresh by done. cbn [negb].
  unfold run_query in E. apply bind_Done in E as ([ok q1] & w1 & E1 & E2).
  rewrite (bind_eq _ _ _ _ _ E1). destruct ok; [|discriminate E2]. cbn [negb].
  rewrite (bind_eq _ _ _ _ _ E2). cbn beta iota. rewrite Hpers. reflexivity.
Qed.

Definition project_item (fuel : nat) (conn : MYSQL) (item : option json_t)
    : prog (option Cache * server) BXillError := _bx_project_sync_item fuel conn item.
Definition project_extras (fuel : nat) (conn : MYSQL) (d : decoded) : prog server BXillError :=
  bx_project_extra_sync fuel conn (decoded_id d).
Definition write_text_of (st : CacheState) (insert update : string) : string :=
  match st with CacheNotSet => insert | _ => update end.

Definition project_answers (fuel : nat) (d : decoded) : Prop :=
  is_dataset (answer db (reference_entry CONTACT_PRESENT (uint_member "contact_id" d))) fuel
  /\ forall text, text = PROJECT_INSERT \/ text = PROJECT_UPDATE ->
       is_dataset (answer db (project_entry text d)) fuel.

Lemma project_store_serving fuel c d text c1 w :
  cache_ready c1 -> project_answers fuel d -> text = PROJECT_INSERT \/ text = PROJECT_UPDATE ->
  let contact := uint_member "contact_id" d in
  exists w0 cache', sv_log w0 = sv_log w ++ reference_entries CONTACT_PRESENT contact /\ cache_wf cache' /\
  item_outcome (unless (reference_ok CONTACT_PRESENT contact)) w0 [project_entry text d] d
    (project_extras fuel (Some c) d) (abstract c1)
    (eq (project_store fuel (Some c) d (fun d => execute_request fuel (Some c) d text) (Some c1, w))) cache'.
Proof.
  intros Hc1 [Hcon Hwr] Ht contact. unfold item_outcome, unless, project_store.
  destruct (referred_serving fuel c CONTACT_PRESENT contact w) as (w0 & Er & Hl0); [reflexivity|done|].
  apply (on_snd_eq _ (Some c1)) in Er. exists w0. destruct (reference_ok CONTACT_PRESENT contact).
  - destruct (execute_request_serving fuel c d text w0 Ht (Hwr text Ht)) as (w1 & Ew & Hl1).
    destruct (set_item_serving c1 d w1 Hc1) as (c2 & Es & Hc2 & Ha2).
    exists c2. split; [done|]. split; [done|]. exists w1. split; [done|]. split; [done|]. intros e w' Ee.
    rewrite (bind_eq _ _ _ _ _ Er), (bind_eq _ _ _ _ _ (on_snd_eq _ (Some c1) w0 _ _ Ew)).
    rewrite bool_decide_true by done. cbn [negb].
    rewrite (bind_eq _ _ _ _ _ Es), (bind_eq _ _ _ _ _ (on_snd_eq _ (Some c2) w1 _ _ Ee)). reflexivity.
  - exists c1. split; [done|]. split; [apply Hc1|]. split; [|done]. rewrite (bind_eq _ _ _ _ _ Er). reflexivity.
Qed.

(** Claim C11. One project on a server. When the cache has its checksum nothing is done.
    Otherwise the contact it names is looked up: when it is missing the
    project is skipped, and neither written nor cached; when it is there, or
    none is named, one INSERT (not in the cache) or UPDATE is executed, the
    cache takes id and checksum, and the milestones and packages follow, of
    whose errors only a lost connection is reported. *)
Theorem project_synced fuel c item d cache w :
  cache_ready cache -> project_decode item w = Done (Some d, w) -> project_answers fuel d ->
  let checked := spec_check (decoded_id d) (d_checksum d) (abstract cache) in
  let contact := uint_member "contact_id" d in
  let run := project_item fuel (Some c) item (Some cache, w) in
  exists w0 cache', cache_wf cache' /\
  match checked.1 with
  | CacheOk => run = Done (NoError, (Some cache', w)) /\ abstract cache' = checked.2
  | st => sv_log w0 = sv_log w ++ reference_entries CONTACT_PRESENT contact
          /\ item_outcome (unless (reference_ok CONTACT_PRESENT contact)) w0
               [project_entry (write_text_of st PROJECT_INSERT PROJECT_UPDATE) d] d
               (project_extras fuel (Some c) d) checked.2 (eq run) cache'
  end.
Proof.
  intros Hc Hd Ha checked.
  destruct (check_serving cache d w Hc) as (c1 & E1 & Hc1 & Ha1). fold checked in E1, Ha1.
  assert (project_item fuel (Some c) item (Some cache, w)
    = match checked.1 with
      | CacheOk => ret NoError
      | CacheNotSet => project_store fuel (Some c) d (bx_project_insert_db fuel (Some c))
      | CacheNotSync => project_store fuel (Some c) d (bx_project_update_db fuel (Some c))
      end (Some c1, w)) as E.
  { unfold project_item, _bx_project_sync_item.
    rewrite (bind_eq _ _ _ _ _ (on_snd_eq _ (Some cache) w _ _ Hd)). by rewrite (bind_eq _ _ _ _ _ E1). }
  intros contact run. subst run. rewrite E, <- Ha1.
  destruct checked.1; [exists w, c1; split; [apply Hc1|done]| |].
  - destruct (project_store_serving fuel c d PROJECT_INSERT c1 w Hc1 Ha) as (w0 & c' & Hl & Hw & Ho); [by left|].
    by exists w0, c'.
  - destruct (project_store_serving fuel c d PROJECT_UPDATE c1 w Hc1 Ha) as (w0 & c' & Hl & Hw & Ho); [by right|].
    by exists w0, c'.
Qed.

(** *** Invoices *)

Definition invoice_item (fuel : nat) (conn : MYSQL) (item : option json_t)
    : prog (option Cache * server) BXillError := _bx_invoice_sync_item fuel conn item.
Definition invoice_extras (fuel : nat) (conn : MYSQL) (d : decoded) : prog server BXillError :=
  bx_invoice_extra_sync fuel conn (decoded_id d).

Lemma invoice_plans d text :
  text = INVOICE_INSERT \/ text = INVOICE_UPDATE -> row_plan text (invoice_values d clock).
Proof.
  intros Ht. apply names_match_plan.
  - destruct Ht as [-> | ->]; vm_compute; reflexivity.
  - unfold invoice_values. cbn [bind_members invoice_members fmap list_fmap app]. solve_bindings.
Qed.

Definition invoice_entry (text : string) (d : decoded) : string * list (option pointee) :=
  log_entry text (invoice_values d clock).

(** The positions of an invoice that the server stores: none, or those that
    decode to [ds]. *)
Definition positions_of (fuel : nat) (id : Z) (positions : option json_t) (ds : list decoded) : Prop :=
  match positions with
  | Some arr =>
      if json_is JSON_ARRAY (Some arr)
      then json_array_size arr = Z.of_nat (length ds)
           /\ forall k d, ds !! k = Some d ->
                item_decodes db (json_array_get arr (Z.of_nat k)) d
                /\ answers_position db clock fuel "invoice_position" "_invoice_id" id d
      else ds = []
  | None => ds = []
  end.
Definition invoice_positions (id : Z) (ds : list decoded) : list (string * list (option pointee)) :=
  ds ≫= position_entries db clock "invoice_position" "_invoice_id" id.

Lemma invoice_positions_serving fuel c id positions ds w :
  positions_of fuel id positions ds ->
  exists w', bx_invoice_positions_store fuel (Some c) id positions w = Done (NoError, w')
  /\ sv_log w' = sv_log w ++ invoice_positions id ds.
Proof.
  unfold positions_of, bx_invoice_positions_store. destruct positions as [arr|].
  - destruct (json_is JSON_ARRAY (Some arr)) eqn:Ea.
    + intros [Hs Hd]. unfold json_is in Ea. apply bool_decide_eq_true in Ea.
      exact (positions_store_serving db clock fuel c "invoice_position" "_invoice_id" id arr ds w eq_refl Ea Hs Hd).
    + intros ->. exists w. unfold bx_kb_positions_store. rewrite Ea. by rewrite app_nil_r.
  - intros ->. exists w. by rewrite app_nil_r.
Qed.

Lemma invoice_write_serving fuel c d positions ds text w :
  text = INVOICE_INSERT \/ text = INVOICE_UPDATE -> is_dataset (answer db (invoice_entry text d)) fuel ->
  positions_of fuel (decoded_id d) positions ds ->
  exists w', invoice_write fuel (Some c) d positions text w = Done (inr true, w')
  /\ sv_log w' = sv_log w ++ invoice_entry text d :: invoice_positions (decoded_id d) ds.
Proof.
  intros Ht Ha Hp. pose proof (invoice_plans d text Ht) as Hplan. pose proof Hplan as (Hok & _ & _).
  destruct (finish_row_serving db fuel text _ w Hplan Ha) as (r & w1 & E & q & -> & Hl & _ & Hpers).
  destruct (invoice_positions_serving fuel c (decoded_id d) positions ds w1 Hp) as (w' & Ep & Hl').
  exists w'. split; [|by rewrite Hl', Hl, <- app_assoc]. unfold invoice_write.
  rewrite (bind_eq _ _ _ _ _ (new_query_serving db _ _ w Hok)), (bind_eq _ _ _ clock w) by reflexivity.
  rewrite bind_each_rebind, (bind_eq _ _ _ _ _ E), Hpers. cbn [negb].
  rewrite (bind_eq _ _ _ _ _ Ep). reflexivity.
Qed.

(** What the server answers for an invoice. *)
Record invoice_answers (fuel : nat) (d : decoded) (positions : option json_t) (ds : list decoded) : Prop := {
  ia_contact : is_dataset (answer db (reference_entry CONTACT_PRESENT (uint_member "contact_id" d))) fuel;
  ia_project : is_dataset (answer db (reference_entry PROJECT_PRESENT (uint_member "project_id" d))) fuel;
  ia_row : forall text, text = INVOICE_INSERT \/ text = INVOICE_UPDATE ->
             is_dataset (answer db (invoice_entry text (drop_project d))) fuel;
  ia_positions : positions_of fuel (decoded_id (drop_project d)) positions ds
}.

(** Its lookups: the contact, then the project when the contact is there. *)
Definition invoice_refs_ok (d : decoded) : bool :=
  reference_ok CONTACT_PRESENT (uint_member "contact_id" d)
  && reference_ok PROJECT_PRESENT (uint_member "project_id" d).
Definition invoice_ref_entries (d : decoded) : list (string * list (option pointee)) :=
  reference_entries CONTACT_PRESENT (uint_member "contact_id" d)
  ++ if reference_ok CONTACT_PRESENT (uint_member "contact_id" d)
     then reference_entries PROJECT_PRESENT (uint_member "project_id" d) else [].

Lemma invoice_references_serving fuel c d positions ds w :
  invoice_answers fuel d positions ds ->
  exists w', invoice_references fuel (Some c) d w = Done (inr (invoice_refs_ok d), w')
  /\ sv_log w' = sv_log w ++ invoice_ref_entries d.
Proof.
  intros [Hc Hp _ _]. unfold invoice_references, invoice_refs_ok, invoice_ref_entries.
  destruct (referred_serving fuel c CONTACT_PRESENT (uint_member "contact_id" d) w) as (w1 & E1 & Hl1);
    [reflexivity|done|]. rewrite (bind_eq _ _ _ _ _ E1).
  destruct (reference_ok CONTACT_PRESENT _); [|exists w1; by rewrite app_nil_r].
  destruct (referred_serving fuel c PROJECT_PRESENT (uint_member "project_id" d) w1) as (w' & E' & H');
    [reflexivity|done|]. exists w'. split; [exact E'|]. by rewrite H', Hl1, app_assoc.
Qed.

Lemma invoice_store_serving fuel c d0 d item positions ds text c1 w :
  cache_ready c1 -> invoice_full d0 item w = Done (Some (d, positions), w) ->
  invoice_answers fuel d positions ds -> text = INVOICE_INSERT \/ text = INVOICE_UPDATE ->
  exists w0 cache', sv_log w0 = sv_log w ++ invoice_ref_entries d /\ cache_wf cache' /\
  item_outcome (unless (invoice_refs_ok d)) w0
    (invoice_entry text (drop_project d) :: invoice_positions (decoded_id (drop_project d)) ds)
    (drop_project d) (invoice_extras fuel (Some c) (drop_project d)) (abstract c1)
    (eq (invoice_store fuel (Some c) d0 item text (Some c1, w))) cache'.
Proof.
  intros Hc1 Hf Ha Ht. unfold item_outcome, unless, invoice_store.
  destruct (invoice_references_serving fuel c d positions ds w Ha) as (w0 & Er & Hl0).
  destruct Ha as [_ _ Hrow Hpos]. apply (on_snd_eq _ (Some c1)) in Er, Hf. exists w0.
  destruct (invoice_refs_ok d).
  - destruct (invoice_write_serving fuel c (drop_project d) positions ds text w0 Ht (Hrow text Ht) Hpos) as (w1 & Ew & Hl1).
    destruct (set_item_serving c1 (drop_project d) w1 Hc1) as (c2 & Es & Hc2 & Ha2).
    exists c2. split; [done|]. split; [done|]. exists w1. split; [done|]. split; [done|]. intros e w' Ee.
    rewrite (bind_eq _ _ _ _ _ Hf), (bind_eq _ _ _ _ _ Er), (bind_eq _ _ _ _ _ (on_snd_eq _ (Some c1) w0 _ _ Ew)).
    rewrite (bind_eq _ _ _ _ _ Es), (bind_eq _ _ _ _ _ (on_snd_eq _ (Some c2) w1 _ _ Ee)). reflexivity.
  - exists c1. split; [done|]. split; [apply Hc1|]. split; [|done].
    rewrite (bind_eq _ _ _ _ _ Hf), (bind_eq _ _ _ _ _ Er). reflexivity.
Qed.

(** Claim C9. One invoice on a server. Nothing is done when the cache has the checksum of the
    list entry. Otherwise, with the full document when the entry has no
    positions: its contact and its project are looked up, and it is skipped
    when one is missing; then its row is inserted or updated, each of its
    positions stored, the checksum of the document cached, and payments,
    reminders and comments follow. *)
Theorem invoice_synced fuel c item d0 d positions ds cache w :
  cache_ready cache -> bx_object_invoice_decode (Some item) w = Done (Some d0, w) ->
  invoice_full d0 (Some item) w = Done (Some (d, positions), w) ->
  invoice_answers fuel d positions ds ->
  let checked := spec_check (decoded_id d0) (d_checksum d0) (abstract cache) in
  let run := invoice_item fuel (Some c) (Some item) (Some cache, w) in
  exists w0 cache', cache_wf cache' /\
  match checked.1 with
  | CacheOk => run = Done (NoError, (Some cache', w)) /\ abstract cache' = checked.2
  | st => sv_log w0 = sv_log w ++ invoice_ref_entries d
          /\ item_outcome (unless (invoice_refs_ok d)) w0
               (invoice_entry (write_text_of st INVOICE_INSERT INVOICE_UPDATE) (drop_project d)
                  :: invoice_positions (decoded_id (drop_project d)) ds)
               (drop_project d) (invoice_extras fuel (Some c) (drop_project d)) checked.2 (eq run) cache'
  end.
Proof.
  intros Hc Hd Hf Ha checked run.
  destruct (check_serving cache d0 w Hc) as (c1 & E1 & Hc1 & Ha1). fold checked in E1, Ha1.
  assert (run = match checked.1 with
      | CacheOk => ret NoError
      | CacheNotSet => invoice_store fuel (Some c) d0 (Some item) INVOICE_INSERT
      | CacheNotSync => invoice_store fuel (Some c) d0 (Some item) INVOICE_UPDATE
      end (Some c1, w)) as ->.
  { subst run. unfold invoice_item, _bx_invoice_sync_item.
    rewrite (bind_eq _ _ _ _ _ (on_snd_eq _ (Some cache) w _ _ Hd)). by rewrite (bind_eq _ _ _ _ _ E1). }
  rewrite <- Ha1. destruct checked.1; [exists w, c1; split; [apply Hc1|done]| |].
  - destruct (invoice_store_serving fuel c d0 d (Some item) positions ds INVOICE_INSERT c1 w Hc1 Hf Ha)
      as (w0 & c' & Hl & Hw & Ho); [by left|]. by exists w0, c'.
  - destruct (invoice_store_serving fuel c d0 d (Some item) positions ds INVOICE_UPDATE c1 w Hc1 Hf Ha)
      as (w0 & c' & Hl & Hw & Ho); [by right|]. by exists w0, c'.
Qed.

(** *** Contacts *)





(** A user that is in the database is looked up once and not fetched. *)
Definition USER_PRESENT : string := "SELECT id FROM user  WHERE id = :id;".
Lemma user_present fuel c v w :
  refers v = true -> is_dataset (answer db (reference_entry USER_PRESENT v)) fuel ->
  present (answer db (reference_entry USER_PRESENT v)) = true ->
  exists w', ensure_user_exists fuel (Some c) v w = Done (NoError, w')
  /\ sv_log w' = sv_log w ++ [reference_entry USER_PRESENT v].
Proof.
  intros Hr Ha Hp. destruct (is_in_database_serving fuel c USER_PRESENT v w eq_refl Ha) as (w' & E & Hl).
  exists w'. split; [|exact Hl]. unfold ensure_user_exists. rewrite Hr. cbn [negb].
  rewrite Hp in E. rewrite (bind_eq _ _ _ _ _ E). reflexivity.
Qed.


End ItemSpec.

(** ** Concrete items *)

#[local] Instance sample_item_set : JsonSet := {|
  json_string s := JString s;
  json_object_set_new row key value :=
    match row with Some (JObject l) => Some (JObject ((key, value) :: l)) | _ => row end
|}.
#[local] Instance sample_items_env : StmtEnv server := serving position_db.
#[local] Instance sample_items_clock : Clock server := {| now_u64 := ret 1700000000 |}.
#[local] Instance sample_items_stale : StaleStack server := {| stale_u64 := ret 0 |}.
Definition sample_countries : option (list Country) := Some [(1, "CH"%string); country_end].
#[local] Instance sample_items_countries : CountryList server := {| country_list := ret sample_countries |}.
Definition no_net (path : string) (args : list (option BXAny)) : option (Z * json_t) := None.
#[local] Instance sample_items_net : RequestEnv server :=
  {| request_json path args := ret (no_net path args); page_pause := ret tt |}.

Definition sample_project : json_t :=
  J (JObject [("id", JInteger 15); ("name", JString "Barn"); ("contact_id", JInteger 3)]).
Definition sample_invoice : json_t :=
  J (JObject [("id", JInteger 7); ("title", JString "Bill"); ("contact_id", JInteger 3);
              ("positions", JArray [sample_position])]).
Definition decode_sample (decode : option json_t -> prog server (option decoded)) (item : json_t) : decoded :=
  match decode (Some item) idle_server with
  | Done (Some d, _) => d
  | _ => mkDecoded [] 0
  end.
Definition project_decoded : decoded := decode_sample project_decode sample_project.
Definition invoice_decoded : decoded := decode_sample bx_object_invoice_decode sample_invoice.
Definition archived_mark : BXBool := mkBool true false.

Lemma small_cache_ready : cache_ready small_cache.
Proof. split; [exact small_cache_wf | vm_compute; reflexivity]. Qed.

Lemma project_synced_witness :
  let checked := spec_check 15 (d_checksum project_decoded) (abstract small_cache) in
  let contact := uint_member "contact_id" project_decoded in
  let run := project_item position_db 1700000000 0 no_net 2 (Some 0) (Some sample_project)
               (Some small_cache, idle_server) in
  exists w0 cache', cache_wf cache' /\
  match checked.1 with
  | CacheOk => run = Done (NoError, (Some cache', idle_server)) /\ abstract cache' = checked.2
  | st => sv_log w0 = [] ++ reference_entries CONTACT_PRESENT contact
          /\ item_outcome (unless (reference_ok position_db CONTACT_PRESENT contact)) w0
               [project_entry 0 (write_text_of st PROJECT_INSERT PROJECT_UPDATE) project_decoded] project_decoded
               (project_extras position_db 1700000000 no_net 2 (Some 0) project_decoded) checked.2 (eq run) cache'
  end.
Proof.
  apply (project_synced position_db 1700000000 0 no_net 2 0 (Some sample_project) project_decoded
    small_cache idle_server).
  - exact small_cache_ready.
  - reflexivity.
  - split; [split; [discriminate|cbn; lia]|]. intros text [-> | ->]; exact I.
Defined.

Lemma invoice_synced_witness :
  let checked := spec_check 7 (d_checksum invoice_decoded) (abstract small_cache) in
  let run := invoice_item position_db 1700000000 no_net 2 (Some 0) (Some sample_invoice)
               (Some small_cache, idle_server) in
  let d := drop_project invoice_decoded in
  exists w0 cache', cache_wf cache' /\
  match checked.1 with
  | CacheOk => run = Done (NoError, (Some cache', idle_server)) /\ abstract cache' = checked.2
  | st => sv_log w0 = [] ++ invoice_ref_entries position_db invoice_decoded
          /\ item_outcome (unless (invoice_refs_ok position_db invoice_decoded)) w0
               (invoice_entry 1700000000 (write_text_of st INVOICE_INSERT INVOICE_UPDATE) d
                  :: invoice_positions position_db 1700000000 7 [sample_decoded])
               d (invoice_extras position_db 1700000000 no_net 2 (Some 0) d) checked.2 (eq run) cache'
  end.
Proof.
  apply (invoice_synced position_db 1700000000 no_net 2 0 sample_invoice invoice_decoded invoice_decoded
    (Some (J (JArray [sample_position]))) [sample_decoded] small_cache idle_server).
  - exact small_cache_ready.
  - reflexivity.
  - reflexivity.
  - split; [split; [discriminate|cbn; lia]|split; [discriminate|cbn; lia]|intros text [-> | ->]; exact I|].
    split; [reflexivity|]. intros [|k] d Hd; [|by destruct k]. injection Hd as <-. split.
    + exists sample_position_slots.1, sample_position_slots.2. split; [intros w|]; reflexivity.
    + split; [split; [discriminate|cbn; lia]|]. intros text [-> | ->]; exact I.
Defined.



(** The cache and the world after that project. *)
Definition after_project : option Cache * server :=
  match sync_of 2 (Some 0) Projects archived_mark (Some sample_project) (Some small_cache, idle_server) with
  | Done (_, x) => x
  | _ => (None, idle_server)
  end.

Example project_enters_cache :
  match after_project.1 with Some c => sp_map (abstract c) !! 15 | None => None end
  = Some (d_checksum project_decoded, 12).
Proof. vm_compute. reflexivity. Qed.

Lemma item_cached_after_write_witness :
  exists c' d w2, after_project.1 = Some c' /\ cache_wf c'
    /\ stored (W := server) 2 (Some 0) archived_mark (Some sample_project) project_decoded CacheNotSet
         idle_server Projects d w2
    /\ abstract c' = spec_set (decoded_id d) (d_checksum d)
         (spec_check (decoded_id project_decoded) (d_checksum project_decoded) (abstract small_cache)).2.
Proof.
  destruct (item_cached_after_write 2 (Some 0) Projects archived_mark (Some sample_project) small_cache
    idle_server NoError after_project.1 after_project.2) as (c' & od & w1 & Hc & Hw & Hd & Hrest).
  - exact small_cache_wf.
  - vm_compute. reflexivity.
  - reflexivity.
  - assert (decode_of Projects (Some sample_project) idle_server
            = Done (Some project_decoded, idle_server)) as E by reflexivity.
    rewrite Hd in E. injection E as -> ->.
    assert ((spec_check (decoded_id project_decoded) (d_checksum project_decoded) (abstract small_cache)).1
            = CacheNotSet) as Est by (vm_compute; reflexivity).
    assert (sp_map (spec_check (decoded_id project_decoded) (d_checksum project_decoded)
              (abstract small_cache)).2 !! 15 = None) as Eno by (vm_compute; reflexivity).
    pose proof project_enters_cache as Ein. rewrite Hc in Ein.
    destruct (spec_check _ _ _) as [st checked]. cbn in Est, Eno. subst st.
    destruct Hrest as [Ha|(d' & w2 & Hst & Ha)].
    + rewrite Ha, Eno in Ein. discriminate Ein.
    + exists c', d', w2. split; [exact Hc|]. split; [exact Hw|]. split; [exact Hst|exact Ha].
Defined.

