(* ===== verification/Files.v ===== *)
(** * Files: [bxobjects/file.c]

    The list of files is walked like the other lists; each file has a row and a
    copy of its bytes in the cache directory, under a name made of its UUID.
    The theorems: the name holds lower-case hexadecimal digits only; on a disk
    where any call may fail, at every moment the copy is the old one or what
    the last [fclose] left of the new one; a file that was listed in a walk is
    not among those that the pruning deletes. *)
From S2P Require Import Prelude CLib Env Samples Values Objects Utils Walk Chain IdsCache Prune Database Upsert Rows Lookups Items.
#[local] Open Scope Z_scope.

Definition FILE_INSERT : string :=
  "INSERT INTO bx_file (id, uuid, name, size_in_bytes, extension, mime_type, " +:+
  "uploader_email, user_id, is_archived, source_id, source_type, " +:+
  "is_referenced, created_at, _checksum, _last_updated, _deleted) VALUES " +:+
  "(:id, :uuid, :name, :size_in_bytes, :extension, :mime_type, " +:+
  ":uploader_email, :user_id, :is_archived, :source_id, :source_type, " +:+
  ":is_referenced, :created_at, :_checksum, :_last_updated, :_deleted)".
Definition FILE_UPDATE : string :=
  "UPDATE bx_file SET uuid = :uuid, name = :name, " +:+
  "size_in_bytes = :size_in_bytes, extension = :extension, " +:+
  "mime_type = :mime_type, uploader_email = :uploader_email, " +:+
  "user_id = :user_id, is_archived = :is_archived, source_id = :source_id, " +:+
  "source_type = :source_type, is_referenced = :is_referenced, " +:+
  "created_at = :created_at, _checksum = :_checksum, " +:+
  "_last_updated = :_last_updated, _deleted = :_deleted WHERE id = :id".

Definition WALK_FILES_PATH : string := "3.0/files?limit=$&offset=$&archived_state=$".
Definition DOWNLOAD_FILE_PATH : string := "3.0/files/$/download".

(** [BXFileMeta], in the order of decoding. *)
Definition BXFileMeta : list BXJsonField := [
  BX_FIELD "id" BX_F_UINT; BX_FIELD "uuid" BX_F_STR; BX_FIELD "name" BX_F_STR;
  BX_FIELD "size_in_bytes" BX_F_UINT; BX_FIELD "extension" BX_F_STR;
  BX_FIELD "mime_type" BX_F_STR; BX_FIELD "uploader_email" BX_F_STR;
  BX_FIELD "user_id" BX_F_UINT; BX_FIELD "is_archived" BX_F_BOOL;
  BX_FIELD "source_id" BX_F_UINT; BX_FIELD "source_type" BX_F_STR;
  BX_FIELD "is_referenced" BX_F_BOOL; BX_FIELD "created_at" BX_F_STR].
Definition file_members : list string := [
  "id"; "uuid"; "name"; "size_in_bytes"; "extension"; "mime_type"; "uploader_email"; "user_id";
  "is_archived"; "source_id"; "source_type"; "is_referenced"; "created_at"].

(** ** Names *)

(** [if (c >= 'A' && c <= 'F') c = c - 'A' + 'a'] *)
Definition lower_hex (c : ascii) : ascii :=
  if (65 <=? code c) && (code c <=? 70) then chr (code c - 65 + 97) else c.
Definition is_hex (c : ascii) : bool :=
  isdigit c || ((97 <=? code c) && (code c <=? 102)).

(** The loop; [hex] holds the digits so far.  [None] is the return of 0. *)
Fixpoint uuid_to_hex_loop (p : string) (hex : string) : option string :=
  match p with
  | EmptyString => Some hex
  | String c p =>
      if 32 <=? strlen hex then Some hex
      else if Ascii.eqb c "-" then uuid_to_hex_loop p hex
      else
        let c := lower_hex c in
        if is_hex c then uuid_to_hex_loop p (hex +:+ String c EmptyString) else None
  end.
Definition uuid_to_hex (uuid : string) : option string :=
  match uuid_to_hex_loop uuid EmptyString with
  | Some hex => if strlen hex =? 32 then Some hex else None
  | None => None
  end.

(** [snprintf] into a buffer of 4096 bytes; [None] when the text is cut. *)
Definition fits_path (text : string) : option string :=
  if 4096 <=? strlen text then None else Some text.
Definition file_dir_path (cache_dir hex : string) : option string :=
  fits_path (cache_dir +:+ "/" +:+ String.substring 0 2 hex +:+ "/" +:+ String.substring 2 2 hex).
Definition file_dest_path (cache_dir hex : string) : option string :=
  fits_path (cache_dir +:+ "/" +:+ String.substring 0 2 hex +:+ "/" +:+ String.substring 2 2 hex
             +:+ "/" +:+ hex +:+ ".bin").

(** ** The file system *)

Definition EEXIST : Z := 17.

(** The calls of the C library and the system that the module makes. *)
Class FileSystem (W : Type) := {
  FILE : Type;
  fs_stat : string -> prog W (option Z);              (* [st_size] *)
  fs_mkdir : string -> prog W (option Z);             (* [None], or [errno] *)
  fs_fopen : string -> prog W (option FILE);          (* mode "wb" *)
  fs_fwrite : FILE -> string -> prog W (Z * bool);    (* the count, and [ferror] *)
  fs_fclose : FILE -> prog W bool;
  fs_unlink : string -> prog W bool;
  fs_rename : string -> string -> prog W bool
}.

(** [bx_do_request_raw]: the code and the body of the answer. *)
Class RawRequestEnv `{CDouble} (W : Type) := {
  request_raw : string -> list (option BXAny) -> prog W (option (Z * option string))
}.

Section Disk.
Context `{CDouble} {W : Type} `{!FileSystem W} `{!RawRequestEnv W}.

(** [mkdir(tmp, 0755) != 0 && errno != EEXIST] *)
Definition mkdir_one (dir : string) : prog W bool :=
  e <- fs_mkdir dir ;;
  ret (match e with None => true | Some errno => errno =? EEXIST end).

(** [tmp] up to the position [p], and the rest. *)
Fixpoint mkdir_loop (upto rest : string) : prog W bool :=
  match rest with
  | EmptyString => mkdir_one upto
  | String c rest =>
      if Ascii.eqb c "/" then
        ok <- mkdir_one upto ;;
        if negb ok then ret false else mkdir_loop (upto +:+ String c EmptyString) rest
      else mkdir_loop (upto +:+ String c EmptyString) rest
  end.

(** Without the last slash. *)
Fixpoint drop_last_slash (dir : string) : string :=
  match dir with
  | EmptyString => EmptyString
  | String c EmptyString => if Ascii.eqb c "/" then EmptyString else dir
  | String c dir => String c (drop_last_slash dir)
  end.

Definition mkdir_p (dir : string) : prog W bool :=
  let len := strlen dir in
  if (len =? 0) || (4096 <=? len) then ret false
  else match drop_last_slash dir with
       | String c rest => mkdir_loop (String c EmptyString) rest
       | EmptyString => mkdir_one EmptyString
       end.

Definition local_size_matches (path : string) (size : Z) : prog W bool :=
  st <- fs_stat path ;;
  ret (match st with None => false | Some n => u64 n =? size end).

(** The bytes are written next to their place and renamed. *)
Definition store_body (dest data : string) : prog W BXillError :=
  match fits_path (dest +:+ ".part") with
  | None => ret ErrorGeneric
  | Some tmp =>
      fp <- fs_fopen tmp ;;
      match fp with
      | None => ret ErrorGeneric
      | Some fp =>
          let* (n, ferr) := fs_fwrite fp data in
          fs_fclose fp ;;;
          if ferr || negb (n =? strlen data) then fs_unlink tmp ;;; ret ErrorGeneric else
          ok <- fs_rename tmp dest ;;
          if negb ok then fs_unlink tmp ;;; ret ErrorGeneric else ret NoError
      end
  end.

Definition download_file (f : decoded) (cache_dir : option string) : prog W BXillError :=
  let uuid := string_member "uuid" f in
  match cache_dir, str_isset uuid, str_value uuid with
  | Some cache_dir, true, Some uuid =>
      match uuid_to_hex uuid with
      | None => ret NoError
      | Some hex =>
          match file_dest_path cache_dir hex with
          | None => ret ErrorGeneric
          | Some dest =>
              let size := uint_member "size_in_bytes" f in
              same <- (if uint_isset size then local_size_matches dest (uint_value size)
                       else ret false) ;;
              if same : bool then ret NoError else
              match file_dir_path cache_dir hex with
              | None => ret ErrorGeneric
              | Some dir =>
                  ok <- mkdir_p dir ;;
                  if negb ok then ret ErrorGeneric else
                  req <- request_raw DOWNLOAD_FILE_PATH [Some (member "id" f)] ;;
                  match req with
                  | Some (http_code, Some data) =>
                      if http_code =? 200 then store_body dest data else ret NoError
                  | _ => ret NoError
                  end
              end
          end
      end
  | _, _, _ => ret NoError
  end.
End Disk.

(** ** Rows and the walk *)

Section Files.
Context `{Jansson} `{XXH3} {W : Type} `{!StmtEnv W} `{!Clock W} `{!RequestEnv W}
  `{!FileSystem W} `{!RawRequestEnv W} `{!ConfEnv W}.
Context (fuel : nat) (conn : MYSQL).

Definition file_values (f : decoded) (now : Z) : list binding :=
  bind_members file_members f
  ++ [u64_binding ":_checksum" (d_checksum f); u64_binding ":_last_updated" now;
      u64_binding ":_deleted" 0].

Definition persist_file (f : decoded) : prog W BXillError :=
  checked_row fuel conn (run_row_strict generic fuel conn) (select_checksum "bx_file") (id_key f)
    (d_checksum f) FILE_INSERT FILE_UPDATE (file_values f).

(** The row, when the cache does not know it, and its entry. *)
Definition file_row (f : decoded) : cached BXillError :=
  let id := uint_value (uint_member "id" f) in
  st <- on_fst (cache_check_item id (d_checksum f)) ;;
  match st with
  | CacheOk => ret NoError
  | _ =>
      e <- on_snd (persist_file f) ;;
      (if bool_decide (e = NoError) then set_item id (d_checksum f) else ret tt) ;;;
      ret e
  end.

Definition file_page_item (cache_dir : option string) (item : option json_t) : cached BXillError :=
  f <- on_snd (decode_on_stack BXFileMeta item) ;;
  match f with
  | None => ret ErrorGeneric
  | Some f =>
      if negb (uint_isset (uint_member "id" f)) then ret NoError else
      e <- file_row f ;;
      if bool_decide (e = ErrorSQLReconnect) then ret e else
      d <- on_snd (download_file f cache_dir) ;;
      ret (reconnect_or_ok (if bool_decide (e = NoError) then d else e))
  end.

#[local] Existing Instance cached_walk.

(** The directory of the configuration, copied. *)
Definition cache_directory : prog W (option string) :=
  cdir <- conf_get_string "cache-directory" ;;
  match cdir with
  | None | Some EmptyString => ret None
  | Some dir => m <- memory ;; ret (alloc m dir)
  end.

Definition bx_file_walk_items : cached BXillError :=
  cache_dir <- on_snd cache_directory ;;
  bx_walk_pages fuel (negb (bool_decide (conn = None))) (Some WALK_FILES_PATH)
    (Some (VString (mkString true (Some "all"%string)))) false (file_page_item cache_dir).
End Files.

(** ** The name of a copy *)

Definition all_hex (s : string) : Prop := Forall (fun c => is_hex c = true) (list_of s).
Definition hex_digits (s : list ascii) : list ascii := lower_hex <$> filter (fun c => c <> "-"%char) s.

Lemma is_hex_not c : is_hex c = true -> c <> "/"%char /\ c <> "."%char /\ c <> "-"%char.
Proof. intros Hc. split_and!; intros ->; discriminate Hc. Qed.

Lemma strlen_snoc hex c : strlen (hex +:+ String c EmptyString) = strlen hex + 1.
Proof. rewrite !strlen_list_of, list_of_app, length_app. cbn. lia. Qed.

(** What the loop adds to the digits so far: those of a prefix of the text. *)
Lemma hex_loop_front p hex h :
  uuid_to_hex_loop p hex = Some h ->
  exists front back, list_of p = front ++ back
    /\ list_of h = list_of hex ++ hex_digits front
    /\ Forall (fun c => is_hex c = true) (hex_digits front).
Proof.
  revert hex. induction p as [|c p IH]; intros hex; cbn [uuid_to_hex_loop list_of].
  { intros [= <-]. exists [], []. split_and!; [done|by rewrite app_nil_r|constructor]. }
  destruct (32 <=? strlen hex); [intros [= <-]; exists [], (c :: list_of p); split_and!; [done|by rewrite app_nil_r|constructor]|].
  destruct (Ascii.eqb_spec c "-"%char) as [->|Hc].
  - intros (front & back & -> & Hh & Hf)%IH. by exists ("-"%char :: front), back.
  - destruct (is_hex (lower_hex c)) eqn:Hx; [|done].
    intros (front & back & -> & Hh & Hf)%IH. exists (c :: front), back. unfold hex_digits.
    rewrite filter_cons_True by done. split; [done|]. split; [|by constructor].
    by rewrite Hh, list_of_app, <- app_assoc.
Qed.

Lemma hex_loop_back front back hex :
  Forall (fun c => is_hex c = true) (hex_digits front) ->
  strlen hex + Z.of_nat (length (hex_digits front)) = 32 ->
  uuid_to_hex_loop (string_of (front ++ back)) hex = Some (hex +:+ string_of (hex_digits front)).
Proof.
  revert hex. induction front as [|c front IH]; intros hex Hf Hn; cbn [app].
  - cbn in *. assert (strlen hex = 32) as Hl by lia.
    assert (hex +:+ EmptyString = hex) as ->.
    { apply list_of_inj. by rewrite list_of_app, app_nil_r. }
    destruct back as [|c back]; cbn; [done|]. by rewrite Hl.
  - destruct (decide (c = "-"%char)) as [->|Hc].
    + unfold hex_digits in *. rewrite filter_cons_False in * by naive_solver. cbn.
      destruct (Z.leb_spec 32 (strlen hex)) as [Hl|_]; [|by apply IH].
      f_equal. assert (lower_hex <$> filter (fun c => c <> "-"%char) front = []) as ->.
      { apply nil_length_inv. lia. }
      apply list_of_inj. by rewrite list_of_app, app_nil_r.
    + unfold hex_digits in *. rewrite filter_cons_True in * by done. cbn in *.
      apply Forall_cons in Hf as [Hx Hf].
      destruct (Z.leb_spec 32 (strlen hex)) as [Hl|_]; [lia|].
      apply Ascii.eqb_neq in Hc as ->. rewrite Hx, IH; [|done|rewrite strlen_snoc; lia].
      f_equal. apply list_of_inj. rewrite !list_of_app, !list_of_string_of. cbn.
      by rewrite <- app_assoc, list_of_string_of.
Qed.

(** [uuid_to_hex] accepts a text exactly when the first 32 of its characters other
    than dashes are hexadecimal digits, and gives those in lower case. *)
Theorem uuid_to_hex_spec uuid hex :
  uuid_to_hex uuid = Some hex <->
  exists front back, list_of uuid = front ++ back /\ list_of hex = hex_digits front
    /\ strlen hex = 32 /\ all_hex hex.
Proof.
  unfold uuid_to_hex, all_hex. split.
  - destruct (uuid_to_hex_loop uuid EmptyString) as [h|] eqn:E; [|done].
    destruct (Z.eqb_spec (strlen h) 32) as [Hl|]; [|done]. intros [= <-].
    destruct (hex_loop_front _ _ _ E) as (front & back & Hu & Hh & Hf). cbn in Hh.
    exists front, back. by rewrite Hh.
  - intros (front & back & Hu & Hh & Hl & Hf).
    rewrite <- (string_of_list_of uuid), Hu, (hex_loop_back front back EmptyString).
    + rewrite <- Hh, string_of_list_of. cbn. by rewrite Hl.
    + by rewrite <- Hh.
    + rewrite <- Hh. by rewrite strlen_list_of in Hl.
Qed.

(** A copy lies two directories below the cache directory, in a file whose name
    and directories are hexadecimal digits. *)
Lemma file_dest_shape dir hex dest :
  strlen hex = 32 -> all_hex hex -> file_dest_path dir hex = Some dest ->
  exists ab cd, dest = dir +:+ "/" +:+ ab +:+ "/" +:+ cd +:+ "/" +:+ hex +:+ ".bin"
    /\ all_hex ab /\ all_hex cd /\ strlen ab = 2 /\ strlen cd = 2 /\ strlen dest < 4096
    /\ file_dir_path dir hex = Some (dir +:+ "/" +:+ ab +:+ "/" +:+ cd).
Proof.
  intros Hl Hh. unfold file_dest_path, file_dir_path, fits_path.
  destruct (Z.leb_spec 4096 (strlen (dir +:+ "/" +:+ String.substring 0 2 hex +:+ "/"
    +:+ String.substring 2 2 hex +:+ "/" +:+ hex +:+ ".bin"))) as [|Hlt]; [done|].
  intros [= <-]. exists (String.substring 0 2 hex), (String.substring 2 2 hex).
  destruct hex as [|a [|b [|c [|d hex]]]]; try discriminate Hl.
  unfold all_hex in *. cbn [list_of] in Hh. rewrite !Forall_cons in Hh.
  assert (forall s : string, String.substring 0 0 s = EmptyString) as Hs by (by intros []).
  cbn [String.substring] in *. rewrite Hs in *. cbn [list_of]. rewrite !Forall_cons.
  split_and!; try done; try tauto.
  case_match eqn:E; [|done]. apply Z.leb_le in E. exfalso.
  rewrite !strlen_list_of, !list_of_app in *. rewrite !length_app in *. cbn in *. lia.
Qed.

(** ** On a disk where any call may fail *)

(** The files and every state they went through, the last one first; the bytes
    that the open stream accepted. *)
Record disk := mkDisk {
  dk_files : gmap string string;
  dk_past : list (gmap string string);
  dk_accepted : string
}.

(** The failures: of [mkdir]; of [fopen]; the bytes that [fwrite] takes, those
    that reach the file before it is closed, and [ferror]; of [fclose], with the
    bytes that it still writes; of [rename] and [unlink]. *)
Record disk_faults := mkFaults {
  df_mkdir : string -> option Z;
  df_open : bool;
  df_accept : nat;
  df_flushed : nat;
  df_error : bool;
  df_close : option nat;
  df_rename : bool;
  df_unlink : bool
}.

Definition first_bytes (n : nat) (s : string) : string := String.substring 0 n s.

Section OnDisk.
Context `{CDouble} (df : disk_faults) (net : string -> list (option BXAny) -> option (Z * option string)).

Definition put_files (f : gmap string string -> gmap string string) (d : disk) : disk :=
  mkDisk (f (dk_files d)) (f (dk_files d) :: dk_past d) (dk_accepted d).
Definition closed_bytes (accepted : string) : string :=
  match df_close df with None => accepted | Some k => first_bytes k accepted end.

#[local] Instance disk_fs : FileSystem disk := {|
  FILE := string;
  fs_stat path := gets (fun d => strlen <$> dk_files d !! path);
  fs_mkdir dir := ret (df_mkdir df dir);
  fs_fopen path := if df_open df
                   then modify (put_files <[path := EmptyString]>) ;;; ret (Some path)
                   else ret None;
  fs_fwrite path data :=
    let accepted := first_bytes (df_accept df) data in
    modify (fun d => let d := put_files <[path := first_bytes (df_flushed df) accepted]> d in
                     mkDisk (dk_files d) (dk_past d) accepted) ;;;
    ret (strlen accepted, df_error df);
  fs_fclose path :=
    modify (fun d => put_files <[path := closed_bytes (dk_accepted d)]> d) ;;;
    ret (is_none (df_close df));
  fs_unlink path := (if df_unlink df then modify (put_files (delete path)) else ret tt) ;;; ret (df_unlink df);
  fs_rename a b :=
    if df_rename df then
      modify (put_files (fun m => match m !! a with
                                  | Some bytes => <[b := bytes]> (delete a m)
                                  | None => m
                                  end)) ;;; ret true
    else ret false
|}.
#[local] Instance disk_net : RawRequestEnv disk := {| request_raw path args := ret (net path args) |}.

Definition download_on_disk (f : decoded) (cache_dir : option string) : prog disk BXillError :=
  download_file f cache_dir.

Lemma mkdir_quiet upto rest (d : disk) : exists ok, mkdir_loop upto rest d = Done (ok, d).
Proof.
  revert upto. induction rest as [|c rest IH]; intros upto; cbn [mkdir_loop]; [by eexists|].
  destruct (Ascii.eqb c "/"); [|apply IH].
  assert (exists ok, mkdir_one upto d = Done (ok, d)) as [ok E] by (eexists; reflexivity).
  rewrite (bind_eq _ _ _ _ _ E). destruct ok; [apply IH|by eexists].
Qed.

Lemma mkdir_p_quiet dir (d : disk) : exists ok, mkdir_p dir d = Done (ok, d).
Proof.
  unfold mkdir_p. case_match; [by eexists|]. case_match; [by eexists|apply mkdir_quiet].
Qed.

(** The bytes that a copy may be replaced with: the body of the answer, as
    [fclose] left it. *)
Definition fetched (f : decoded) (bytes : string) : Prop :=
  exists data, net DOWNLOAD_FILE_PATH [Some (member "id" f)] = Some (200, Some data)
    /\ bytes = closed_bytes data.

(** A state of the disk since [old]: the copy is the old one or a fetched one,
    and nothing else changed but the temporary file next to it. *)
Definition copy_state (old : gmap string string) (dest : string) (news : string -> Prop)
    (files : gmap string string) : Prop :=
  (files !! dest = old !! dest \/ exists bytes, news bytes /\ files !! dest = Some bytes)
  /\ forall p, p <> dest -> p <> dest +:+ ".part" -> files !! p = old !! p.

Lemma part_ne dest : dest +:+ ".part" <> dest.
Proof.
  intros E. apply (f_equal strlen) in E. rewrite !strlen_list_of, list_of_app, length_app in E.
  cbn in E. lia.
Qed.

Lemma copy_state_part old dest news files bytes :
  copy_state old dest news files -> copy_state old dest news (<[dest +:+ ".part" := bytes]> files).
Proof.
  intros [Hd Ho]. pose proof (part_ne dest). split; [by rewrite lookup_insert_ne|].
  intros p Hp Hq. rewrite lookup_insert_ne by done. by apply Ho.
Qed.
Lemma copy_state_unlink old dest news files :
  copy_state old dest news files -> copy_state old dest news (delete (dest +:+ ".part") files).
Proof.
  intros [Hd Ho]. pose proof (part_ne dest). split; [by rewrite lookup_delete_ne|].
  intros p Hp Hq. rewrite lookup_delete_ne by done. by apply Ho.
Qed.
Lemma copy_state_rename old dest (news : string -> Prop) files bytes :
  copy_state old dest news files -> news bytes ->
  copy_state old dest news (<[dest := bytes]> (delete (dest +:+ ".part") files)).
Proof.
  intros [Hd Ho] Hb. split; [right; exists bytes; by rewrite lookup_insert_eq|].
  intros p Hp Hq. rewrite lookup_insert_ne, lookup_delete_ne by done. by apply Ho.
Qed.
Lemma copy_state_refl old dest news : copy_state old dest news old.
Proof. split; [by left|done]. Qed.

Lemma first_bytes_short n s : strlen (first_bytes n s) = strlen s -> first_bytes n s = s.
Proof.
  unfold first_bytes. revert n. induction s as [|c s IH]; intros [|n]; cbn; try done.
  intros E. f_equal. apply IH. unfold strlen in *. cbn in E. lia.
Qed.

(** Writing the body: every state on the way is a [copy_state]; an error leaves
    the copy as it was. *)
Lemma store_body_states old dest data (news : string -> Prop) (d : disk) :
  copy_state old dest news (dk_files d) -> Forall (copy_state old dest news) (dk_past d) ->
  dk_files d !! dest = old !! dest -> news (closed_bytes data) ->
  exists e d', store_body dest data d = Done (e, d')
  /\ Forall (copy_state old dest news) (dk_files d' :: dk_past d')
  /\ (e = NoError \/ e = ErrorGeneric /\ dk_files d' !! dest = old !! dest).
Proof.
  intros Hs Hp Hd Hn. pose proof (part_ne dest) as Hne. unfold store_body, fits_path.
  destruct (4096 <=? _); [exists ErrorGeneric, d; split; [done|]; split; [by constructor|by right]|].
  cbn [fs_fopen disk_fs]. destruct (df_open df); [|exists ErrorGeneric, d; split; [done|]; split; [by constructor|by right]].
  set (part := dest +:+ ".part") in *.
  assert (forall b m, copy_state old dest news m -> copy_state old dest news (<[part := b]> m)) as Hpart
    by (intros; by apply copy_state_part).
  cbn [fs_fwrite fs_fclose fs_unlink fs_rename disk_fs]. run_prog. unfold put_files.
  cbn [dk_files dk_past dk_accepted].
  set (acc := first_bytes (df_accept df) data).
  set (m1 := <[part:=_]> (dk_files d)). set (m2 := <[part:=_]> m1). set (m3 := <[part:=_]> m2).
  assert (copy_state old dest news m1) as H1 by by apply Hpart.
  assert (copy_state old dest news m2) as H2 by by apply Hpart.
  assert (copy_state old dest news m3) as H3 by by apply Hpart.
  assert (m3 !! dest = old !! dest) as Hm3 by (unfold m3, m2, m1; by rewrite !lookup_insert_ne by done).
  assert (copy_state old dest news (delete part m3)) as H4 by by apply copy_state_unlink.
  assert (delete part m3 !! dest = old !! dest) as Hm4 by by rewrite lookup_delete_ne.
  destruct (df_error df || negb _) eqn:Ew.
  { destruct (df_unlink df); eexists _, _; (split; [reflexivity|]); cbn [dk_files dk_past];
      (split; [rewrite !Forall_cons; tauto|by right]). }
  destruct (df_rename df); cbn [negb].
  2:{ destruct (df_unlink df); eexists _, _; (split; [reflexivity|]); cbn [dk_files dk_past];
      (split; [rewrite !Forall_cons; tauto|by right]). }
  apply orb_false_iff in Ew as [_ Ew]. apply negb_false_iff, Z.eqb_eq in Ew.
  assert (acc = data) as Hacc by by apply first_bytes_short.
  assert (m3 !! part = Some (closed_bytes data)) as Hm by (unfold m3; by rewrite lookup_insert_eq, Hacc).
  cbn [dk_files dk_past]. rewrite Hm.
  assert (copy_state old dest news (<[dest:=closed_bytes data]> (delete part m3))) as H5 by by apply copy_state_rename.
  eexists _, _. split; [reflexivity|]. cbn [dk_files dk_past].
  split; [rewrite !Forall_cons; tauto|by left].
Qed.

(** Claim C13. Downloading one file, whatever calls fail: at every moment the copy is the old
    one or the body of the answer as [fclose] left it (the whole body when
    [fclose] succeeds), no other file changes but the temporary one next to it,
    and an error leaves the copy as it was. *)
Theorem download_atomic f dir uuid hex dest files :
  string_member "uuid" f = mkString true (Some uuid) -> uuid_to_hex uuid = Some hex ->
  file_dest_path dir hex = Some dest ->
  exists e d', download_on_disk f (Some dir) (mkDisk files [] EmptyString) = Done (e, d')
  /\ Forall (copy_state files dest (fetched f)) (dk_files d' :: dk_past d')
  /\ (e = NoError \/ e = ErrorGeneric /\ dk_files d' !! dest = files !! dest).
Proof.
  intros Hu Hx Hd. set (d0 := mkDisk files [] EmptyString).
  assert (forall e, e = NoError \/ e = ErrorGeneric -> exists e' d', Done (e, d0) = Done (e', d')
    /\ Forall (copy_state files dest (fetched f)) (dk_files d' :: dk_past d')
    /\ (e' = NoError \/ e' = ErrorGeneric /\ dk_files d' !! dest = files !! dest)) as Hstay.
  { intros e He. exists e, d0. split; [done|]. split; [|naive_solver].
    constructor; [apply copy_state_refl|constructor]. }
  unfold download_on_disk, download_file. rewrite Hu. cbn [str_isset str_value]. rewrite Hx, Hd.
  assert (exists b, (if uint_isset (uint_member "size_in_bytes" f)
    then local_size_matches dest (uint_value (uint_member "size_in_bytes" f)) else ret false) d0
    = Done (b, d0)) as [b Eb] by (destruct (uint_isset _); by eexists).
  rewrite (bind_eq _ _ _ _ _ Eb). destruct b; [apply Hstay; by left|].
  destruct (file_dir_path dir hex) as [fdir|]; [|apply Hstay; by right].
  destruct (mkdir_p_quiet fdir d0) as [ok Em]. rewrite (bind_eq _ _ _ _ _ Em).
  destruct ok; cbn [negb]; [|apply Hstay; by right].
  rewrite (bind_eq _ _ _ (net DOWNLOAD_FILE_PATH [Some (member "id" f)]) d0) by reflexivity.
  destruct (net DOWNLOAD_FILE_PATH _) as [[code [data|]]|] eqn:En; [|apply Hstay; by left..].
  destruct (Z.eqb_spec code 200) as [->|]; [|apply Hstay; by left].
  apply (store_body_states files dest data (fetched f) d0).
  - apply copy_state_refl.
  - constructor.
  - done.
  - by exists data.
Qed.
End OnDisk.

(** ** What a walk lists, the pruning keeps

    In any environment whose requests answer by a function of their path and
    parameters. *)

(** Marked in this version, or not there, or a tombstone: not to be pruned. *)
Definition seen_now (id : Z) (c : Cache) : Prop :=
  match sp_map (abstract c) !! id with
  | None => True
  | Some p => p.2 = 0 \/ p.2 = c_version c
  end.
Definition keeps (c c' : Cache) : Prop :=
  cache_wf c' /\ c_version c' = c_version c /\ forall id, seen_now id c -> seen_now id c'.

Lemma keeps_refl c : cache_wf c -> keeps c c.
Proof. intros Hw. unfold keeps. by split_and!. Qed.
Lemma keeps_trans c1 c2 c3 : keeps c1 c2 -> keeps c2 c3 -> keeps c1 c3.
Proof. intros (_ & Hv & Hk) (Hw' & Hv' & Hk'). unfold keeps. split_and!; [done|congruence|auto]. Qed.

Lemma keeps_insert c c' id cs :
  cache_wf c' -> abstract c' = mkSpec (c_version c) (<[id := (cs, c_version c)]> (sp_map (abstract c))) ->
  keeps c c' /\ seen_now id c'.
Proof.
  intros Hw Ha. assert (c_version c' = c_version c) as Hv by (by apply (f_equal sp_version) in Ha).
  assert (seen_now id c') as Hid.
  { unfold seen_now. rewrite Ha. cbn. rewrite lookup_insert_eq. cbn. by right. }
  split; [|exact Hid]. unfold keeps. split_and!; [done..|]. intros i Hi.
  destruct (decide (i = id)) as [->|Hne]; [exact Hid|].
  unfold seen_now in *. rewrite Ha, Hv. cbn. by rewrite lookup_insert_ne.
Qed.

Lemma check_keeps c id checksum st oc :
  cache_wf c -> cache_check_item id checksum (Some c) = Done (st, oc) ->
  exists c', oc = Some c' /\ keeps c c' /\ seen_now id c' /\ c_size c' = c_size c.
Proof.
  intros Hw E. destruct (cache_check_run c id checksum Hw) as (c' & E' & Hw' & Ha & Hs).
  rewrite E in E'. injection E' as -> ->. exists c'. split; [done|]. unfold spec_check in Ha.
  destruct (sp_map (abstract c) !! id) as [[cs seen]|] eqn:Hid.
  2:{ cbn in Ha. assert (c_version c' = c_version c) as Hv by (by apply (f_equal sp_version) in Ha).
      unfold keeps, seen_now. rewrite Ha, Hv, Hid. by split_and!. }
  destruct (Z.eqb_spec seen 0) as [->|].
  - cbn in Ha. assert (c_version c' = c_version c) as Hv by (by apply (f_equal sp_version) in Ha).
    unfold keeps, seen_now. rewrite Ha, Hv, Hid. split_and!; try done. by left.
  - destruct (keeps_insert c c' id cs Hw' Ha) as [Hk Hi]. by split_and!.
Qed.

Lemma set_keeps c m id checksum b oc :
  cache_wf c -> c_size c + CACHE_CHUNK_SIZE < 2 ^ 32 ->
  cache_set_item m id checksum (Some c) = Done (b, oc) ->
  exists c', oc = Some c' /\ keeps c c' /\ c_size c' <= c_size c + CACHE_CHUNK_SIZE.
Proof.
  intros Hw Hs E. destruct (cache_set_run c m id checksum Hw Hs) as (b' & c' & E' & Hw' & Hb).
  rewrite E in E'. injection E' as <- ->. exists c'. split; [done|].
  split; [|by eapply cache_set_size].
  destruct b; [by destruct (keeps_insert c c' id checksum Hw' Hb)|].
  destruct Hb as (_ & -> & _). by apply keeps_refl.
Qed.

Lemma prunable_not_seen id c drift :
  cache_wf c -> 0 < drift -> seen_now id c -> id ∉ prunable_ids (c_version c) drift (live c).
Proof.
  intros Hw Hd Hs Hin. unfold prunable_ids in Hin.
  apply list_elem_of_fmap in Hin as (it & -> & Hp). apply list_elem_of_filter in Hp as [Hp Hl].
  unfold seen_now, abstract in Hs. cbn in Hs.
  assert (to_map (live c) !! ci_id it = Some (ci_checksum it, ci_last_seen it)) as E
    by (apply to_map_lookup; [apply Hw|by destruct it]).
  rewrite E in Hs. cbn in Hs. unfold prunable in Hp. pose proof (wf_version c Hw). lia.
Qed.

(** The id of an item of the list, if it has one. *)
Definition listed_id `{Jansson} `{XXH3} (item : option json_t) : option Z :=
  let v := (bx_object_get_json_uint item "id" None).1 in
  if uint_isset v then Some (uint_value v) else None.

Lemma get_uint_any_hash `{Jansson} `{XXH3} item key st :
  (bx_object_get_json_uint item key st).1 = (bx_object_get_json_uint item key None).1.
Proof. unfold bx_object_get_json_uint. by destruct (field item key). Qed.

Section Listed.
Context `{Jansson} `{XXH3} {W : Type} `{!StmtEnv W} `{!Clock W} `{!FileSystem W}
  `{!RawRequestEnv W} `{!ConfEnv W}.
Context (net : string -> list (option BXAny) -> option (Z * json_t)) (pause : prog W unit).
#[local] Instance listed_net : RequestEnv W :=
  {| request_json path args := ret (net path args); page_pause := pause |}.
#[local] Existing Instance cached_walk.
Context (fuel : nat) (conn : MYSQL).

Lemma decode_file_id item f (w w' : W) :
  decode_on_stack BXFileMeta item w = Done (Some f, w') ->
  uint_member "id" f = (bx_object_get_json_uint item "id" None).1.
Proof.
  unfold decode_on_stack. intros (m & w1 & _ & E)%bind_Done. destruct m; cbn [negb] in E; [|done].
  apply bind_Done in E as ([slots st] & w2 & Er & [= <- _]).
  unfold BXFileMeta in Er. cbn [read_slots] in Er.
  apply bind_Done in Er as ([v h] & w3 & E1 & Er). apply bind_Done in Er as ([vs h2] & w4 & _ & [= <- _ _]).
  unfold read_slot in E1. cbn [jf_kind jf_key BX_FIELD] in E1.
  destruct (bx_object_get_json_uint item "id" _) as [u h'] eqn:Eu. injection E1 as <- _ _.
  rewrite <- (get_uint_any_hash item "id" (Some XXH3_64bits_reset)), Eu. done.
Qed.

Definition grows_by (n : nat) (c c' : Cache) : Prop :=
  keeps c c' /\ c_size c' <= c_size c + CACHE_CHUNK_SIZE * Z.of_nat n.
Definition room (n : nat) (c : Cache) : Prop :=
  cache_wf c /\ c_size c + CACHE_CHUNK_SIZE * Z.of_nat n < 2 ^ 32.

Lemma grows_by_room n k c c' : room (n + k) c -> grows_by n c c' -> room k c'.
Proof. intros [Hw Hr] [[Hw' _] Hs]. split; [done|]. unfold CACHE_CHUNK_SIZE in *. lia. Qed.
Lemma grows_by_trans n k c1 c2 c3 : grows_by n c1 c2 -> grows_by k c2 c3 -> grows_by (n + k) c1 c3.
Proof.
  intros [Hk1 Hs1] [Hk2 Hs2]. split; [by eapply keeps_trans|]. unfold CACHE_CHUNK_SIZE in *. lia.
Qed.

Lemma file_row_keeps f c (w : W) e oc w' :
  room 1 c -> file_row fuel conn f (Some c, w) = Done (e, (oc, w')) ->
  exists c', oc = Some c' /\ grows_by 1 c c' /\ seen_now (uint_value (uint_member "id" f)) c'.
Proof.
  intros [Hw Hr] E. unfold file_row in E. set (id := uint_value (uint_member "id" f)) in *.
  apply bind_Done in E as (st & [oc1 w1] & [-> Ec]%on_fst_Done & E).
  destruct (check_keeps c id _ _ _ Hw Ec) as (c1 & -> & Hk & Hi & Hs).
  assert (grows_by 1 c c1) as Hg by (split; [done|unfold CACHE_CHUNK_SIZE in *; lia]).
  assert (
    bind (on_snd (persist_file fuel conn f)) (fun e => bind (if bool_decide (e = NoError)
      then set_item id (d_checksum f) else ret tt) (fun _ => ret e)) (Some c1, w) = Done (e, (oc, w')) ->
    exists c', oc = Some c' /\ grows_by 1 c c' /\ seen_now id c') as Hset.
  { clear E. intros E'. cached_steps; [|exists c1; split_and!; [done|exact Hg|exact Hi]].
    unfold set_item in *. cached_steps.
    match goal with H : on_fst _ _ = _ |- _ => apply on_fst_Done in H as [_ E2] end.
    destruct (set_keeps c1 _ id _ _ _ (proj1 Hk) ltac:(unfold CACHE_CHUNK_SIZE in *; lia) E2)
      as (c2 & -> & Hk2 & Hs2).
    exists c2. split; [done|]. split; [|by apply Hk2].
    split; [by eapply keeps_trans|unfold CACHE_CHUNK_SIZE in *; lia]. }
  destruct st; [unfold ret in E; simplify_eq; exists c1; split_and!; [done|exact Hg|exact Hi]| |]; by apply Hset.
Qed.

Definition seen_item (c : Cache) (item : option json_t) : Prop :=
  forall id, listed_id item = Some id -> seen_now id c.

Lemma file_item_keeps dir item c (w : W) oc w' :
  room 1 c -> file_page_item fuel conn dir item (Some c, w) = Done (NoError, (oc, w')) ->
  exists c', oc = Some c' /\ grows_by 1 c c' /\ seen_item c' item.
Proof.
  intros Hr E. unfold file_page_item in E.
  apply bind_Done in E as (f & [oc1 w1] & [-> Ed]%on_snd_Done & E). destruct f as [f|]; [|done].
  assert (listed_id item = if uint_isset (uint_member "id" f) then Some (uint_value (uint_member "id" f)) else None)
    as Hid by (rewrite (decode_file_id _ _ _ _ Ed); reflexivity).
  destruct (uint_isset _); cbn [negb] in E.
  2:{ injection E as <- <-. exists c. destruct Hr as [Hw Hs]. split_and!; [done| |].
      - split; [by apply keeps_refl|unfold CACHE_CHUNK_SIZE; lia].
      - intros id. by rewrite Hid. }
  apply bind_Done in E as (e & [oc2 w2] & Er & E).
  destruct (file_row_keeps f c w1 e oc2 w2 Hr Er) as (c2 & -> & Hg & Hi).
  exists c2. cached_steps. all: split_and!; [done|exact Hg|].
  all: intros id; rewrite Hid; intros [= <-]; exact Hi.
Qed.

Lemma file_items_keep dir arr n i c (w : W) oc w' :
  room n c -> sync_items (file_page_item fuel conn dir) arr n i (Some c, w) = Done (NoError, (oc, w')) ->
  exists c', oc = Some c' /\ grows_by n c c' /\ Forall (seen_item c') (items_from arr i n).
Proof.
  revert i c w. induction n as [|n IH]; intros i c w Hr E.
  { injection E as <- <-. exists c. split_and!; [done| |constructor].
    split; [by apply keeps_refl, Hr|unfold CACHE_CHUNK_SIZE; lia]. }
  cbn [sync_items] in E. apply bind_Done in E as (e & [oc1 w1] & E1 & E).
  destruct (decide (e = NoError)) as [->|He]; [|by injection E].
  assert (room 1 c) as Hr1 by (destruct Hr; split; [done|unfold CACHE_CHUNK_SIZE in *; lia]).
  destruct (file_item_keeps dir _ c w oc1 w1 Hr1 E1) as (c1 & -> & Hg & Hi).
  destruct (IH (i + 1) c1 w1 (grows_by_room 1 n c c1 Hr Hg) E) as (c' & -> & Hg' & Hf).
  exists c'. split_and!; [done|by apply (grows_by_trans 1 n c c1)|].
  rewrite items_from_cons. constructor; [|exact Hf]. intros id Hid. apply Hg', Hi, Hid.
Qed.

(** The pages that the server lists from an offset on, and the empty page that
    ends them. *)
Definition page_at (off : Z) (items : list (option json_t)) : Prop :=
  exists code root arr,
    net WALK_FILES_PATH [int_arg BXILL_LIST_LIMIT; int_arg off;
                         Some (VString (mkString true (Some "all"%string)))] = Some (code, root)
    /\ as_array (Some root) = Some arr /\ page_items arr = items.
Fixpoint lists (off : Z) (pages : list (list (option json_t))) : Prop :=
  match pages with
  | [] => page_at off []
  | items :: pages => items <> [] /\ page_at off items /\ lists (off + BXILL_LIST_LIMIT) pages
  end.

(** One turn of the walk over the files. *)
Lemma file_page dir turns off root arr code c (w : W) oc w' e :
  net WALK_FILES_PATH [int_arg BXILL_LIST_LIMIT; int_arg off;
                       Some (VString (mkString true (Some "all"%string)))] = Some (code, root) ->
  as_array (Some root) = Some arr ->
  walk_loop (S turns) (mkWalk WALK_FILES_PATH (Some (VString (mkString true (Some "all"%string)))) false
    (file_page_item fuel conn dir) None) off (c, w) = Done (e, (oc, w')) -> e = NoError ->
  exists oc1 w1,
    sync_items (file_page_item fuel conn dir) arr (Z.to_nat (json_array_size arr)) 0 (c, w)
      = Done (NoError, (oc1, w1))
    /\ (if 0 <? json_array_size arr
        then walk_loop turns (mkWalk WALK_FILES_PATH (Some (VString (mkString true (Some "all"%string)))) false
               (file_page_item fuel conn dir) None) (off + BXILL_LIST_LIMIT) (oc1, w1)
        else ret NoError (oc1, w1)) = Done (NoError, (oc, w')).
Proof.
  intros Hn Ha E ->. cbn [walk_loop] in E. apply bind_Done in E as (r & x & E1 & E).
  assert (r = Some root /\ x = (c, w)) as [-> ->].
  { cbn in E1. unfold on_snd, bind, ret in E1. cbn in E1.
    change (request_args _ off) with [int_arg BXILL_LIST_LIMIT; int_arg off;
      Some (VString (mkString true (Some "all"%string)))] in E1. rewrite Hn in E1. cbn in E1. by simplify_eq. }
  rewrite Ha in E. apply bind_Done in E as (e & [oc1 w1] & E1' & E).
  case_bool_decide; cbn [negb] in E; [subst e|by unfold ret in E; simplify_eq].
  exists oc1, w1. split; [exact E1'|].
  apply bind_Done in E as (pe & x & E2 & E). injection E2 as <- <-. cbn [bool_decide decide] in E.
  rewrite bool_decide_true in E by done. cbn [negb wk_path wk_sleep] in E.
  change (paged WALK_FILES_PATH) with true in E. cbn [negb] in E.
  apply bind_Done in E as ([] & x & E2 & E). injection E2 as <-.
  destruct (0 <? json_array_size arr); exact E.
Qed.

Lemma walk_files_keep dir pages turns off c (w : W) oc w' :
  lists off pages -> room (length (concat pages)) c ->
  walk_loop turns (mkWalk WALK_FILES_PATH (Some (VString (mkString true (Some "all"%string)))) false
    (file_page_item fuel conn dir) None) off (Some c, w) = Done (NoError, (oc, w')) ->
  exists c', oc = Some c' /\ keeps c c' /\ Forall (seen_item c') (concat pages).
Proof.
  revert turns off c w. induction pages as [|items pages IH]; intros [|turns] off c w Hl Hr E; try done.
  - destruct Hl as (code & root & arr & Hn & Ha & Hp).
    pose proof (file_page _ _ _ _ _ _ _ _ _ _ _ Hn Ha E eq_refl) as (oc1 & w1 & E1 & E2).
    assert (0 <? json_array_size arr = false) as Hz by by apply page_items_nil.
    rewrite Hz in E2. injection E2 as -> ->. apply Z.ltb_ge in Hz.
    rewrite (Z2Nat.nonpos _ Hz) in E1. injection E1 as <- <-.
    exists c. split_and!; [done|by apply keeps_refl, Hr|constructor].
  - destruct Hl as (Hne & (code & root & arr & Hn & Ha & Hp) & Hl).
    pose proof (file_page _ _ _ _ _ _ _ _ _ _ _ Hn Ha E eq_refl) as (oc1 & w1 & E1 & E2).
    assert (0 <? json_array_size arr = true) as Hz by (apply page_items_some; by rewrite Hp).
    rewrite Hz in E2. cbn [concat] in *. rewrite length_app in Hr.
    assert (Z.to_nat (json_array_size arr) = length items) as Hlen
      by (rewrite <- Hp; unfold page_items, items_from; by rewrite length_fmap, length_seq).
    rewrite Hlen in E1.
    assert (room (length items) c) as Hr1 by (destruct Hr; split; [done|unfold CACHE_CHUNK_SIZE in *; lia]).
    destruct (file_items_keep dir arr _ 0 c w oc1 w1 Hr1 E1) as (c1 & -> & Hg & Hf).
    destruct (IH turns _ c1 w1 Hl (grows_by_room _ _ c c1 Hr Hg) E2) as (c' & -> & Hk & Hf').
    exists c'. split_and!; [done|by eapply keeps_trans; [apply Hg|]|].
    apply Forall_app. split; [|exact Hf']. unfold page_items in Hp. rewrite <- Hlen, Hp in Hf.
    eapply Forall_impl; [exact Hf|]. intros item Hi id Hid. apply Hk, Hi, Hid.
Qed.

Lemma cache_directory_quiet (c c' : option Cache) (w w' : W) dir :
  on_snd cache_directory (c, w) = Done (dir, (c', w')) -> c' = c.
Proof. by intros [-> _]%on_snd_Done. Qed.

(** Claim C12. A complete walk over the files, whatever the database and the disk answer: for
    every file of the list with an id, the pruning that follows does not delete
    its row, whatever the drift of the configuration. *)
Theorem listed_files_survive pages c (w : W) oc w' :
  lists 0 pages -> room (length (concat pages)) c ->
  bx_file_walk_items fuel conn (Some c, w) = Done (NoError, (oc, w')) ->
  exists c', oc = Some c' /\ cache_wf c'
  /\ forall item id o log, item ∈ concat pages -> listed_id item = Some id -> is_i32 (d_drift o) ->
     exists e c2 log', traced_prune o (Some c', log) = Done (e, (Some c2, log'))
       /\ (id ∈ dl_deleted log' -> id ∈ dl_deleted log).
Proof.
  intros Hl Hr E. unfold bx_file_walk_items in E.
  apply bind_Done in E as (dir & [oc1 w1] & Ed & E). apply cache_directory_quiet in Ed as ->.
  unfold bx_walk_pages, bx_walk_pages_from in E. destruct (negb _); [done|].
  destruct (walk_files_keep dir pages fuel 0 c w1 oc w' Hl Hr E) as (c' & -> & (Hw & Hv & _) & Hf).
  exists c'. split_and!; [done..|]. intros item id o log Hin Hid Ho.
  destruct (prune_items_run o c' log Hw) as (c2 & log' & Ep & Hd & _).
  eexists _, c2, log'. split; [exact Ep|]. rewrite Hd. intros [|Hx%run_deletes_incl]%elem_of_app; [done|].
  exfalso. revert Hx. apply prunable_not_seen; [done|by apply drift_positive|].
  rewrite Forall_forall in Hf. by apply (Hf item).
Qed.
End Listed.

(** ** Concrete files *)

Definition sample_file : json_t :=
  J (JObject [("id", JInteger 15); ("uuid", JString "550E8400-e29b-41d4-a716-446655440000");
              ("size_in_bytes", JInteger 5)]).
Definition sample_file_hex : string := "550e8400e29b41d4a716446655440000".

Example sample_uuid_hex : uuid_to_hex "550E8400-e29b-41d4-a716-446655440000" = Some sample_file_hex.
Proof. reflexivity. Qed.
Example short_uuid_refused : uuid_to_hex "550E8400-e29b-41d4-a716-44665544000" = None.
Proof. reflexivity. Qed.
Example path_refused : uuid_to_hex "../../../../../../etc/passwd" = None.
Proof. reflexivity. Qed.

(** Everything works, or [fclose] loses all but two bytes. *)
Definition no_faults : disk_faults := mkFaults (fun _ => None) true 100 0 false None true true.
Definition full_disk : disk_faults := mkFaults (fun _ => None) true 100 0 false (Some 2%nat) true true.
Definition sample_download (path : string) (args : list (option BXAny)) : option (Z * option string) :=
  Some (200, Some "hello"%string).
Definition sample_meta : decoded := mkDecoded [
  ("id"%string, VUInteger (mkUInteger true 15));
  ("uuid"%string, VString (mkString true (Some "550E8400-e29b-41d4-a716-446655440000"%string)));
  ("size_in_bytes"%string, VUInteger (mkUInteger true 5))] 7.
Definition sample_copy : string := "/c/55/0e/550e8400e29b41d4a716446655440000.bin".

Lemma download_atomic_witness :
  exists e d', download_on_disk full_disk sample_download sample_meta (Some "/c"%string)
                 (mkDisk ∅ [] EmptyString) = Done (e, d')
  /\ Forall (copy_state ∅ sample_copy (fetched full_disk sample_download sample_meta))
       (dk_files d' :: dk_past d')
  /\ (e = NoError \/ e = ErrorGeneric /\ dk_files d' !! sample_copy = (∅ : gmap string string) !! sample_copy).
Proof.
  apply (download_atomic full_disk sample_download sample_meta "/c"
    "550E8400-e29b-41d4-a716-446655440000" sample_file_hex sample_copy ∅); reflexivity.
Defined.

Definition copies_after (df : disk_faults) : option (BXillError * option string) :=
  match download_on_disk df sample_download sample_meta (Some "/c"%string) (mkDisk ∅ [] EmptyString) with
  | Done (e, d) => Some (e, dk_files d !! sample_copy)
  | _ => None
  end.
Example download_stores : copies_after no_faults = Some (NoError, Some "hello"%string).
Proof. vm_compute. reflexivity. Qed.

(** The result of [fclose] is not looked at: on a full disk a cut copy takes the
    place of the old one and no error is reported. *)
Lemma lost_flush_is_kept : copies_after full_disk = Some (NoError, Some "he"%string).
Proof. vm_compute. reflexivity. Qed.

#[local] Instance sample_files_env : StmtEnv server := serving Positions.position_db.
#[local] Instance sample_files_clock : Clock server := {| now_u64 := ret 1700000000 |}.
#[local] Instance sample_files_fs : FileSystem server := {|
  FILE := unit; fs_stat _ := ret None; fs_mkdir _ := ret None; fs_fopen _ := ret None;
  fs_fwrite _ _ := ret (0, true); fs_fclose _ := ret false; fs_unlink _ := ret false;
  fs_rename _ _ := ret false
|}.
#[local] Instance sample_files_raw : RawRequestEnv server := {| request_raw _ _ := ret None |}.
#[local] Instance sample_files_conf : ConfEnv server := {|
  conf_get_string _ := ret (Some "/c"%string); conf_get_int _ := ret 0;
  conf_put_database _ _ _ := ret false
|}.
Definition files_net (path : string) (args : list (option BXAny)) : option (Z * json_t) :=
  match args with
  | [_; Some (VInteger off); _] => Some (200, if int_value off =? 0 then J (JArray [sample_file]) else J (JArray []))
  | _ => None
  end.
#[local] Instance sample_files_net : RequestEnv server :=
  {| request_json path args := ret (files_net path args); page_pause := ret tt |}.

(** The cache and the world after a walk over that list. *)
Definition after_files : option Cache * server :=
  match bx_file_walk_items (W := server) 5 (Some 0) (Some small_cache, idle_server) with
  | Done (_, x) => x
  | _ => (None, idle_server)
  end.

Lemma listed_files_survive_witness :
  exists c', after_files.1 = Some c' /\ cache_wf c'
  /\ forall item id o log, item ∈ concat [[Some sample_file]] -> listed_id item = Some id -> is_i32 (d_drift o) ->
     exists e c2 log', traced_prune o (Some c', log) = Done (e, (Some c2, log'))
       /\ (id ∈ dl_deleted log' -> id ∈ dl_deleted log).
Proof.
  apply (listed_files_survive files_net (ret tt) 5 (Some 0) [[Some sample_file]] small_cache
    idle_server after_files.1 after_files.2).
  - split; [discriminate|]. split.
    + exists 200, (J (JArray [sample_file])), (J (JArray [sample_file])). split_and!; reflexivity.
    + exists 200, (J (JArray [])), (J (JArray [])). split_and!; reflexivity.
  - split; [exact small_cache_wf|reflexivity].
  - reflexivity.
Defined.
