(* ===== verification/Threads.v ===== *)
(** * The data threads and the start ([src/src/main.c])

    The threads next to the chain: the extra records, the sectors, the files;
    the whole of [chain_thread] around its loop; the lookups that [main] loads
    before it starts them.  The theorems: over a record of the calls that get a
    connection, every thread that ends used each connection only between its
    opening and its closing; when a data thread stops on its own; what is left
    of it after a failed reconnection. *)
From S2P Require Import Prelude CLib Env Samples Values Utils Walk Chain IdsCache Prune ChainThread Database Upsert Rows Lookups ContactLists NamedList SyncMore KbDoc Items Files.
#[local] Open Scope Z_scope.

(** What the object modules offer to [main.c]. *)
Class ThreadWalks (W : Type) := {
  taxes_walk_item : MYSQL -> prog W BXillError;
  records_walk_more : MYSQL -> prog W BXillError;
  kb_sales_walk_items : MYSQL -> prog W BXillError;
  contact_sector_walk_items : MYSQL -> prog W BXillError;
  file_walk_items : MYSQL -> prog (option Cache * W) BXillError;
  language_load : MYSQL -> prog W BXillError;
  lookup_walks : list (MYSQL -> prog W BXillError)
}.

Section Threads.
Context {W : Type} `{!ConfEnv W} `{!QueryEnv W} `{!QueryAlloc W} `{!ThreadEnv W} `{!ThreadWalks W}.

(** ** [random_item_thread] and [contact_sector_thread] *)

(** Their local variables. *)
Record DataThread := mkData { dt_conn : MYSQL; dt_error_counter : Z; dt_cycle_ts : Z }.

(** The [if (e != ErrorSQLReconnect)] blocks: the last error that is not
    [NoError]. *)
Definition and_then (e : BXillError) (walk : prog W BXillError) : prog W BXillError :=
  if bool_decide (e = ErrorSQLReconnect) then ret e
  else r <- walk ;; ret (if bool_decide (r = NoError) then e else r).

Definition random_work (conn : MYSQL) : prog W BXillError :=
  e <- taxes_walk_item conn ;;
  e <- and_then e (records_walk_more conn) ;;
  and_then e (kb_sales_walk_items conn).

(** One turn; both loops have the same. *)
Definition data_turn (work : MYSQL -> prog W BXillError) (fuel : nat) (t : DataThread)
    : prog W (bool * DataThread) :=
  wait_standby fuel ;;;
  now <- time_now ;;
  let ts := (bx_walker_cycle_mark now (dt_cycle_ts t)).1 in
  e <- work (dt_conn t) ;;
  let* (handled, conn) := thread_handle_error e (dt_conn t) in
  let n := if handled : bool then 0 else dt_error_counter t + 1 in
  if negb handled && (BXILL_THREAD_EXIT_MAX_COUNT <? dt_error_counter t)
  then ret (false, mkData conn n ts)
  else thread_sleep ;;; ret (true, mkData conn n ts).

Definition data_loop (work : MYSQL -> prog W BXillError) (turns fuel : nat)
    : DataThread -> prog W (option Z * DataThread) :=
  service_loop queue_run (data_turn work fuel) turns.

(** The loop from its start, and the end of the thread; a thread that still
    runs after [turns] turns is [OutOfFuel]. *)
Definition data_thread (work : MYSQL -> prog W BXillError) (turns fuel : nat) (conn : MYSQL)
    : prog W Z :=
  let* (r, t) := data_loop work turns fuel (mkData conn 0 0) in
  match r with
  | None => out_of_fuel
  | Some r => thread_teardown_mysql (dt_conn t) ;;; ret r
  end.

Definition random_item_thread (turns fuel : nat) : prog W Z :=
  conn <- thread_setup_mysql ;;
  match conn with
  | None => ret EXIT_FAILURE
  | Some _ => data_thread random_work turns fuel conn
  end.

Definition contact_sector_thread (turns fuel : nat) : prog W Z :=
  conn <- thread_setup_mysql ;;
  match conn with
  | None => thread_teardown_mysql conn ;;; ret EXIT_FAILURE
  | Some _ => data_thread contact_sector_walk_items turns fuel conn
  end.

(** ** [file_thread]

    The cache is a local variable: the first component of the world. *)

Definition file_prog (A : Type) : Type := prog (option Cache * W) A.

Definition SELECT_FILES : string := "SELECT id, _checksum FROM bx_file".
Definition DELETE_FILE : string := "DELETE FROM bx_file WHERE id = :id".

Record FileThread := mkFile {
  ft_conn : MYSQL; ft_error_counter : Z; ft_prune : option query; ft_cycle_ts : Z
}.

(** The walk, and the pruning after a clean one. *)
Definition file_work (conn : MYSQL) (prune : option query) : file_prog BXillError :=
  e <- file_walk_items conn ;;
  if bool_decide (e = NoError) then bx_prune_items prune else ret e.

Definition file_turn (fuel : nat) (t : FileThread) : file_prog (bool * FileThread) :=
  on_snd (wait_standby fuel) ;;;
  now <- on_snd time_now ;;
  let ts := (bx_walker_cycle_mark now (ft_cycle_ts t)).1 in
  e <- file_work (ft_conn t) (ft_prune t) ;;
  let* (handled, conn) := on_snd (thread_handle_error e (ft_conn t)) in
  let* (go, t) :=
    (if handled then
       if bool_decide (conn <> ft_conn t) then
         let* (ok, q) := on_snd (rebuild_prune_query (ft_prune t) conn DELETE_FILE) in
         ret (ok, mkFile conn 0 q ts)
       else ret (true, mkFile conn 0 (ft_prune t) ts)
     else ret (negb (BXILL_THREAD_EXIT_MAX_COUNT <? ft_error_counter t),
               mkFile conn (ft_error_counter t + 1) (ft_prune t) ts)) in
  if negb go then ret (false, t)
  else on_fst cache_next_version ;;; on_snd thread_sleep ;;; ret (true, t).

Definition file_loop (turns fuel : nat) : FileThread -> file_prog (option Z * FileThread) :=
  service_loop (on_snd queue_run) (file_turn fuel) turns.

(** From the hydration on, with a cache; the cache is freed on every path. *)
Definition file_run (turns fuel : nat) (mem : bool) (conn : MYSQL) : file_prog Z :=
  q <- on_snd (new_query conn SELECT_FILES) ;;
  e <- bx_cache_hydrate mem q ;;
  conn <- (if bool_decide (e = ErrorSQLReconnect) then on_snd (thread_reconnect conn)
           else ret conn) ;;
  on_snd (free_query q) ;;;
  if bool_decide (e = ErrorSQLReconnect) && bool_decide (conn = None) then
    on_snd (thread_teardown_mysql conn) ;;; ret EXIT_FAILURE
  else
    prune <- on_snd (new_query conn DELETE_FILE) ;;
    let* (r, t) := file_loop turns fuel (mkFile conn 0 prune 0) in
    match r with
    | None => out_of_fuel
    | Some r =>
        on_snd (free_query (ft_prune t)) ;;;
        on_snd (thread_teardown_mysql (ft_conn t)) ;;;
        ret r
    end.

(** [mem]: [cache_create] and [cache_set_item] find memory. *)
Definition file_thread (turns fuel : nat) (mem : bool) : prog W Z :=
  conn <- thread_setup_mysql ;;
  match conn with
  | None => thread_teardown_mysql conn ;;; ret EXIT_FAILURE
  | Some _ =>
      match cache_create mem with
      | None => thread_teardown_mysql conn ;;; ret EXIT_FAILURE
      | cache =>
          fun w => match file_run turns fuel mem conn (cache, w) with
                   | Done (r, (_, w)) => Done (r, w)
                   | Fault => Fault
                   | OutOfFuel => OutOfFuel
                   end
      end
  end.

(** ** [chain_thread] around its loop *)

Section ChainStart.
Context `{!HasCaches W} `{Jansson} `{!WalkEnv W} `{!ChainItems W}.

Definition SELECT_CONTACTS : string := "SELECT id, _checksum FROM contact".
Definition SELECT_PROJECTS : string := "SELECT id, _checksum FROM pr_project".
Definition SELECT_INVOICES : string := "SELECT id, _checksum FROM invoice".

Definition create_caches (mem : bool) : prog W bool :=
  modify (fun w => set_cache Invoices (cache_create mem)
                     (set_cache Projects (cache_create mem) (set_cache Contacts (cache_create mem) w))) ;;;
  ret mem.
Definition destroy_caches : prog W unit :=
  modify (fun w => set_cache Invoices None (set_cache Projects None (set_cache Contacts None w))).

(** The three hydrations; [||] stops at the first that fails. *)
Fixpoint hydrate_all (mem : bool) (conn : MYSQL) (l : list (resource * string)) : prog W (bool * MYSQL) :=
  match l with
  | [] => ret (true, conn)
  | (r, sql) :: l =>
      let* (st, conn) := hydrate_cache mem conn r sql in
      if st =? 0 then hydrate_all mem conn l else ret (false, conn)
  end.

(** The exits before the loop. *)
Definition chain_quit (conn : MYSQL) : prog W (option MYSQL) :=
  destroy_caches ;;; thread_teardown_mysql conn ;;; ret None.

(** Connection, caches, languages; [None] is a thread that ends here. *)
Definition chain_setup (mem : bool) : prog W (option MYSQL) :=
  conn <- thread_setup_mysql ;;
  match conn with
  | None => thread_teardown_mysql conn ;;; ret None
  | Some _ =>
      created <- create_caches mem ;;
      if negb created then chain_quit conn else
      let* (ok, conn) := hydrate_all mem conn
                           [(Contacts, SELECT_CONTACTS); (Projects, SELECT_PROJECTS);
                            (Invoices, SELECT_INVOICES)] in
      if negb ok then chain_quit conn else
      e <- language_load conn ;;
      if bool_decide (e = ErrorSQLReconnect) then
        conn <- thread_reconnect conn ;;
        match conn with None => chain_quit conn | Some _ => ret (Some conn) end
      else ret (Some conn)
  end.

Definition chain_thread (turns fuel : nat) (mem conf_ok : bool) : chain_prog (W := W) Z :=
  started <- on_snd (chain_setup mem) ;;
  match started with
  | None => ret EXIT_FAILURE
  | Some conn =>
      q1 <- on_snd (new_query conn DELETE_CONTACT) ;;
      q2 <- on_snd (new_query conn DELETE_PROJECT) ;;
      q3 <- on_snd (new_query conn DELETE_INVOICE) ;;
      let* (r, t) := chain_loop turns fuel conf_ok (mkThread conn 0 q1 q2 q3 0) in
      match r with
      | None => out_of_fuel
      | Some r =>
          on_snd (free_query (ct_contact_prune t)) ;;;
          on_snd (free_query (ct_project_prune t)) ;;;
          on_snd (free_query (ct_invoice_prune t)) ;;;
          on_snd destroy_caches ;;;
          on_snd (thread_teardown_mysql (ct_conn t)) ;;;
          ret r
      end
  end.
End ChainStart.

(** ** The lookups of [main] *)

(** [if (lookup_conn) lookup_conn = lookup_step(...)], for each walk. *)
Fixpoint lookup_all (walks : list (MYSQL -> prog W BXillError)) (conn : MYSQL) : prog W MYSQL :=
  match walks, conn with
  | [], _ => ret conn
  | _ :: _, None => ret None
  | walk :: walks, Some _ =>
      e <- walk conn ;;
      conn <- lookup_step conn e ;;
      lookup_all walks conn
  end.

Definition lookup_bootstrap : prog W unit :=
  conn <- thread_setup_mysql ;;
  match conn with
  | None => ret tt
  | Some _ =>
      conn <- lookup_all lookup_walks conn ;;
      match conn with None => ret tt | Some _ => thread_teardown_mysql conn end
  end.
End Threads.

(** ** Over the object modules

    The interface above, of the modules as they are. *)
Section Modules.
Context `{Jansson} `{!JsonSet} `{XXH3} {W : Type} `{!StmtEnv W} `{!Clock W} `{!RequestEnv W}
  `{!StaleStack W} `{!FileSystem W} `{!RawRequestEnv W} `{!ConfEnv W}.

Definition bx_contact_group_walk_items : nat -> bool -> MYSQL -> prog W BXillError :=
  named_walk "2.0/contact_group?limit=$&offset=$" "contact_group".

(** The order of [main]. *)
Definition module_lookups (fuel : nat) : list (MYSQL -> prog W BXillError) := [
  bx_unit_walk_items fuel true;
  bx_account_walk_items fuel;
  bx_salutation_walk_items fuel true;
  bx_title_walk_items fuel true;
  bx_payment_type_walk_items fuel true;
  bx_currency_walk_items fuel;
  bx_contact_group_walk_items fuel true;
  bx_language_load fuel;
  bx_lookups_walk_more fuel;
  bx_user_walk_items fuel].

Definition module_walks (fuel : nat) : ThreadWalks W := {|
  taxes_walk_item := bx_taxes_walk_item fuel;
  records_walk_more := bx_records_walk_more fuel;
  kb_sales_walk_items := bx_kb_sales_walk_items fuel;
  contact_sector_walk_items := bx_contact_sector_walk_items fuel;
  file_walk_items := bx_file_walk_items fuel;
  language_load := bx_language_load fuel;
  lookup_walks := module_lookups fuel
|}.
End Modules.

(** ** When a thread gives up *)

Section GiveUp.
Context {W : Type} `{!ConfEnv W} `{!ThreadEnv W}.
Context (work : MYSQL -> prog W BXillError) (fuel : nat).

(** The body of a turn from [w1] on: wait, look at the clock, do the work with the
    connection, and hand its error to [thread_handle_error], which answers [handled]
    and the connection for the next turn. *)
Definition turn_run (conn : MYSQL) (w1 : W) (handled : bool) (conn' : MYSQL) (w' : W) : Prop :=
  exists u w2 now w3 e w4,
    wait_standby fuel w1 = Done (u, w2) /\ time_now w2 = Done (now, w3)
    /\ work conn w3 = Done (e, w4)
    /\ thread_handle_error e conn w4 = Done ((handled, conn'), w').

(** The turns made, in order, each with what [thread_handle_error] answered in it; the
    thread sleeps after a turn unless it ends there. *)
Inductive turns_done : MYSQL -> W -> list bool -> MYSQL -> W -> Prop :=
| turns_none conn w : turns_done conn w [] conn w
| turns_more conn w w1 handled conn1 w2 u w3 hs conn' w' :
    queue_run w = Done (true, w1) -> turn_run conn w1 handled conn1 w2 ->
    thread_sleep w2 = Done (u, w3) -> turns_done conn1 w3 hs conn' w' ->
    turns_done conn w (handled :: hs) conn' w'
| turns_last conn w w1 handled conn' w' :
    queue_run w = Done (true, w1) -> turn_run conn w1 handled conn' w' ->
    turns_done conn w [handled] conn' w'.

(** The errors in a row at the end of [hs], after [n] before it. *)
Definition streak (n : Z) (hs : list bool) : Z := foldl (fun n (h : bool) => if h then 0 else n + 1) n hs.

Lemma data_turn_counts t (w : W) go t' w' :
  data_turn work fuel t w = Done ((go, t'), w') ->
  exists h w1, turn_run (dt_conn t) w h (dt_conn t') w1
  /\ dt_error_counter t' = (if h : bool then 0 else dt_error_counter t + 1)
  /\ go = h || (dt_error_counter t <=? BXILL_THREAD_EXIT_MAX_COUNT)
  /\ (if go then exists u, thread_sleep w1 = Done (u, w') else w' = w1).
Proof.
  unfold data_turn. intros (u & w1 & E1 & E)%bind_Done.
  apply bind_Done in E as (now & w2 & E2 & E). cbv zeta in E.
  apply bind_Done in E as (e & w3 & E3 & E). apply bind_Done in E as ([h c] & w4 & E4 & E).
  exists h, w4. rewrite Z.leb_antisym.
  assert (forall c', c' = c -> turn_run (dt_conn t) w h c' w4) as Hrun.
  { intros c' ->. by exists u, w1, now, w2, e, w3. }
  destruct (negb h && _) eqn:Eb.
  - injection E as <- <- <-. apply andb_true_iff in Eb as [Eh%negb_true_iff Eb]. rewrite Eh, Eb in *.
    by split; [apply Hrun|].
  - apply bind_Done in E as (u' & w5 & E5 & [= <- <- <-]). split; [by apply Hrun|]. split; [done|].
    apply andb_false_iff in Eb. destruct h; cbn in *; [by split; [|exists u']|].
    destruct Eb as [|Eb]; [done|]. rewrite Eb. by split; [|exists u'].
Qed.

(** What [data_loop] returns, by the turns it made. *)
Definition stopped (turns : nat) (n : Z) (hs : list bool) (r : option Z) : Prop :=
  (r = Some EXIT_FAILURE <-> 12 <= streak n hs)
  /\ (forall a b, hs = a ++ b -> b <> [] -> streak n a < 12)
  /\ (r = None -> length hs = turns).

Lemma stopped_nil turns n r :
  n < 12 -> r <> Some EXIT_FAILURE -> (r = None -> turns = O) -> stopped turns n [] r.
Proof.
  intros Hn Hr Ht. split; [split; [done|cbn; lia]|]. split; [|intros H0; by rewrite Ht].
  intros a b Hab Hb. symmetry in Hab. apply app_nil in Hab. destruct Hab as [_ Hab]. by rewrite Hab in Hb.
Qed.

Lemma stopped_last turns n : n < 12 -> 12 <= n + 1 -> stopped turns n [false] (Some EXIT_FAILURE).
Proof.
  intros Hn Hn1. split; [split; [cbn; lia|done]|]. split; [|done].
  intros [|x a] b Hab Hb; [cbn; lia|]. injection Hab as _ Hab.
  symmetry in Hab. apply app_nil in Hab. destruct Hab as [_ Hab]. by rewrite Hab in Hb.
Qed.

Lemma stopped_cons turns n (h : bool) hs r :
  n < 12 -> stopped turns (if h then 0 else n + 1) hs r -> stopped (S turns) n (h :: hs) r.
Proof.
  intros Hn (Hf & Hp & Hl). split; [done|]. split; [|intros H0; cbn; by rewrite Hl].
  intros [|x a] b Hab Hb; [cbn; lia|]. injection Hab as <- Hab. by eapply (Hp a b).
Qed.

Lemma data_loop_run turns t (w : W) r t' w' :
  0 <= dt_error_counter t < 12 -> data_loop work turns fuel t w = Done ((r, t'), w') ->
  exists hs w1, turns_done (dt_conn t) w hs (dt_conn t') w1
  /\ stopped turns (dt_error_counter t) hs r
  /\ (if decide (r = Some EXIT_SUCCESS) then queue_run w1 = Done (false, w') else w' = w1).
Proof.
  unfold data_loop. revert t w. induction turns as [|turns IH]; intros t w Hn; cbn [service_loop].
  { intros [= <- <- <-]. exists [], w. split; [constructor|]. split; [by apply stopped_nil; [lia|..]|done]. }
  intros (run & w1 & Er & E)%bind_Done. destruct run; cbn [negb] in E.
  2: { injection E as <- <- <-. exists [], w. split; [constructor|].
       split; [by apply stopped_nil; [lia|..]|by rewrite decide_True]. }
  apply bind_Done in E as ([go t1] & w2 & Et & E).
  apply data_turn_counts in Et as (h & w1' & Ht & Hc & Hgo & Hsleep). destruct go.
  - assert (0 <= dt_error_counter t1 < 12) as Hn1.
    { destruct h; [lia|]. cbn in Hgo. symmetry in Hgo. apply Z.leb_le in Hgo.
      unfold BXILL_THREAD_EXIT_MAX_COUNT in Hgo. lia. }
    destruct Hsleep as [u Hsleep]. apply IH in E as (hs & w3 & Hr & Hst & Hq); [|done].
    exists (h :: hs), w3. split; [by eapply turns_more|]. rewrite Hc in Hst.
    split; [|done]. by apply stopped_cons; [lia|].
  - injection E as <- <- <-. symmetry in Hgo. apply orb_false_iff in Hgo as [-> Hgt].
    apply Z.leb_gt in Hgt. unfold BXILL_THREAD_EXIT_MAX_COUNT in Hgt.
    exists [false], w1'. split; [by eapply turns_last|]. split; [by apply stopped_last; lia|done].
Qed.

Lemma streak_mono n m hs : n <= m -> streak n hs <= streak m hs.
Proof.
  unfold streak. revert n m. induction hs as [|[] hs IH]; intros n m Hnm; cbn; [done|lia|].
  apply IH. lia.
Qed.
Lemma streak_snoc n hs h : streak n (hs ++ [h]) = if h then 0 else streak n hs + 1.
Proof. unfold streak. by rewrite foldl_app. Qed.
Lemma streak_nonneg n hs : 0 <= n -> 0 <= streak n hs.
Proof. induction hs as [|h hs IH] using rev_ind; [done|]. rewrite streak_snoc. destruct h; lia. Qed.

Lemma streak_suffix k hs : Z.of_nat k <= streak 0 hs <-> replicate k false `suffix_of` hs.
Proof.
  revert k. induction hs as [|h hs IH] using rev_ind; intros k.
  - cbn. split; [|intros [l Hl]]; destruct k; cbn; [by exists []|lia|lia|by destruct l].
  - rewrite streak_snoc. destruct k as [|k].
    { split; [intros _; by apply suffix_nil|]. pose proof (streak_nonneg 0 hs). destruct h; lia. }
    rewrite replicate_S_end. destruct h.
    + split; [lia|]. intros Hs%suffix_snoc_inv_1. done.
    + rewrite Nat2Z.inj_succ. rewrite <- Z.add_1_r, <- Z.add_le_mono_r, IH. split.
      * intros [l ->]. exists l. by rewrite app_assoc.
      * apply suffix_snoc_inv_2.
Qed.
End GiveUp.

(** Claim C38. A data thread stops on its own exactly at the end of the first twelve turns
    in a row for which [thread_handle_error] answered that it did not handle the error
    (the comparison follows the increment, so the limit of ten tolerates eleven).  It
    answers that an error is handled when there is none, and otherwise only when the
    turn ends with a connection; one such turn starts the count again.  In every other
    case the thread stops when the run flag is down. *)
Theorem twelve_errors_in_a_row {W} `{!ConfEnv W} `{!ThreadEnv W}
    (work : MYSQL -> prog W BXillError) fuel turns conn (w : W) r t' w' :
  data_loop work turns fuel (mkData conn 0 0) w = Done ((r, t'), w') ->
  exists hs w1, turns_done work fuel conn w hs (dt_conn t') w1
  /\ (r = Some EXIT_FAILURE <-> replicate 12 false `suffix_of` hs)
  /\ (forall a b, hs = a ++ b -> b <> [] -> ~ replicate 12 false `suffix_of` a)
  /\ (r = None -> length hs = turns)
  /\ (if decide (r = Some EXIT_SUCCESS) then queue_run w1 = Done (false, w') else w' = w1)
  /\ (forall e c (wa wb : W) h c', thread_handle_error e c wa = Done ((h, c'), wb) ->
       (e = NoError -> h = true /\ c' = c) /\ (e <> NoError -> h = true -> c' <> None)).
Proof.
  intros E. apply data_loop_run in E as (hs & w1 & Hr & (Hf & Hp & Hl) & Hq); [|cbn; lia].
  exists hs, w1. split; [done|]. split; [by rewrite <- streak_suffix|]. split.
  - intros a b Hab Hb Hs. apply streak_suffix in Hs. apply Hp in Hab; [|done]. cbn in Hab, Hs. lia.
  - split; [done|]. split; [done|]. intros e c wa wb h c' Eh. by apply handle_error_cases in Eh as (? & ? & _).
Qed.

(** ** A thread without a connection *)

(** An environment in which the calls that the loops make return, and no
    standby is requested. *)
Record steady {W} `{!ThreadEnv W} (P : W -> Prop) : Prop := {
  steady_run w : P w -> wp queue_run (fun _ => P) w;
  steady_standby w : P w -> wp queue_standby (fun b w' => b = false /\ P w') w;
  steady_now w : P w -> wp time_now (fun _ => P) w;
  steady_sleep w : P w -> wp thread_sleep (fun _ => P) w;
  steady_error w : P w -> wp thread_error_sleep (fun _ => P) w
}.

Section NoConnection.
Context {W : Type} `{!ConfEnv W} `{!ThreadEnv W} (P : W -> Prop) (HP : steady P).

Lemma wait_steady fuel w : P w -> wp (wait_standby (S fuel)) (fun _ => P) w.
Proof.
  intros Hw. cbn [wait_standby]. apply wp_bind. eapply wp_mono; [by apply (steady_standby _ HP)|].
  by intros b w' [-> Hw'].
Qed.

(** An error with no connection is not handled: nothing connects again. *)
Lemma handle_no_connection e w :
  P w -> e <> NoError -> e <> ErrorSQLReconnect ->
  wp (thread_handle_error e None) (fun r w' => r = (false, None) /\ P w') w.
Proof.
  intros Hw He Hr. unfold thread_handle_error. rewrite decide_False by done. cbv zeta.
  rewrite (bool_decide_false _ Hr), wp_bind. change (wp (ret false) ?Q w) with (Q false w). cbn beta iota.
  rewrite wp_bind. eapply wp_mono; [by apply (steady_error _ HP)|]. by intros.
Qed.

Context (work : MYSQL -> prog W BXillError)
  (Hwork : forall w, P w -> wp (work None) (fun e w' => e <> NoError /\ e <> ErrorSQLReconnect /\ P w') w).

Lemma turn_no_connection fuel n ts w :
  P w -> wp (data_turn work (S fuel) (mkData None n ts))
    (fun r w' => r.1 = (n <=? BXILL_THREAD_EXIT_MAX_COUNT)
                 /\ (exists ts', r.2 = mkData None (n + 1) ts') /\ P w') w.
Proof.
  intros Hw. unfold data_turn. rewrite wp_bind. eapply wp_mono; [by apply wait_steady|].
  intros ? w1 H1. rewrite wp_bind. eapply wp_mono; [by apply (steady_now _ HP)|].
  intros now w2 H2. cbv zeta. cbn [dt_conn dt_error_counter dt_cycle_ts].
  rewrite wp_bind. eapply wp_mono; [by apply Hwork|].
  intros e w3 (He & Hr & H3). rewrite wp_bind. eapply wp_mono; [by apply handle_no_connection|].
  intros [h c] w4 [[= -> ->] H4]. cbn [negb andb]. rewrite Z.leb_antisym.
  destruct (_ <? _); cbn [negb].
  - change (wp (ret ?x) ?Q w4) with (Q x w4). cbn. eauto.
  - rewrite wp_bind. eapply wp_mono; [by apply (steady_sleep _ HP)|]. cbn. eauto.
Qed.

Lemma loop_no_connection fuel k n ts w :
  P w -> n + Z.of_nat k = 12 -> (0 < k)%nat ->
  wp (data_loop work k (S fuel) (mkData None n ts))
    (fun r _ => r.1 <> None /\ dt_conn r.2 = None) w.
Proof.
  revert n ts w. induction k as [|k IH]; intros n ts w Hw Hk Hpos; [lia|].
  unfold data_loop in *. cbn [service_loop]. rewrite wp_bind.
  eapply wp_mono; [by apply (steady_run _ HP)|]. intros [] w1 H1; cbn [negb]; [|by split].
  rewrite wp_bind. eapply wp_mono; [by apply turn_no_connection|].
  intros [go t] w2 (Hgo & [ts' Ht] & H2). cbn in Hgo, Ht. rewrite Ht. clear t Ht. destruct go; [|by split].
  symmetry in Hgo. apply Z.leb_le in Hgo. unfold BXILL_THREAD_EXIT_MAX_COUNT in Hgo.
  destruct k; [lia|]. apply IH; [done|lia|lia].
Qed.
End NoConnection.

Section ModuleWalks.
Context `{Jansson} `{!JsonSet} `{XXH3} {W : Type} `{!StmtEnv W} `{!Clock W} `{!RequestEnv W}
  `{!StaleStack W} `{!FileSystem W} `{!RawRequestEnv W} `{!ConfEnv W}.

(** Without a connection the lists are not even requested. *)
Lemma random_work_no_connection pages (w : W) :
  random_work (ThreadWalks0 := module_walks pages) None w = Done (ErrorGeneric, w).
Proof. reflexivity. Qed.

(** Claim C15. Once a reconnection has failed, the thread of the extra records never
    connects again, whatever the server does: it makes at most the turns that
    are left before its count of errors is full, without a request, and ends. *)
Theorem failed_reconnect_is_final `{!ThreadEnv W} (P : W -> Prop) pages fuel n ts (w : W) :
  steady P -> P w -> 0 <= n < 12 ->
  wp (data_loop (random_work (ThreadWalks0 := module_walks pages)) (Z.to_nat (12 - n)) (S fuel)
        (mkData None n ts))
     (fun r _ => r.1 <> None /\ dt_conn r.2 = None) w.
Proof.
  intros HP Hw Hn. apply (loop_no_connection P HP); [|done|lia|lia].
  intros w1 Hw1. unfold wp. rewrite random_work_no_connection. by split_and!.
Qed.
End ModuleWalks.

(** ** Connections

    The environment is wrapped in one that writes down, for the thread, each
    connection that is opened and closed and each call that is given a connection:
    those of [main.c] itself and those of the modules it passes its connection to. *)
Inductive conn_event := Opened (c : Z) | Used (c : Z) | Closed (c : Z).
Definition uses (conn : MYSQL) : list conn_event :=
  match conn with Some c => [Used c] | None => [] end.

Definition traced (W : Type) : Type := list conn_event * W.

(** The program, and the events of its result behind the history. *)
Definition noting {W A} (events : A -> list conn_event) (m : prog W A) : prog (traced W) A :=
  fun x => match m x.2 with
           | Done (a, w) => Done (a, (x.1 ++ events a, w))
           | Fault => Fault
           | OutOfFuel => OutOfFuel
           end.
Definition lent {W A} (conn : MYSQL) : prog W A -> prog (traced W) A := noting (fun _ => uses conn).
(** The same next to a local variable of the thread. *)
Definition lent_beside {V W A} (conn : MYSQL) (m : prog (V * W) A) : prog (V * traced W) A :=
  fun x => match m (x.1, x.2.2) with
           | Done (a, (v, w)) => Done (a, (v, (x.2.1 ++ uses conn, w)))
           | Fault => Fault
           | OutOfFuel => OutOfFuel
           end.

(** A whole life of connections: each is opened, used and closed before the next. *)
Inductive sessions : list conn_event -> Prop :=
| sessions_none : sessions []
| sessions_more h c n : sessions h -> sessions (h ++ Opened c :: replicate n (Used c) ++ [Closed c]).

(** The same while the thread holds the connection [conn]. *)
Definition holds (conn : MYSQL) (h : list conn_event) : Prop :=
  match conn with
  | None => sessions h
  | Some c => exists h1 n, sessions h1 /\ h = h1 ++ Opened c :: replicate n (Used c)
  end.
Definition at_conn {W} (conn : MYSQL) (x : traced W) : Prop := holds conn x.1.

Section Recording.
Context {W : Type} `{!ThreadEnv W} `{!ConfEnv W} `{!QueryEnv W} `{!QueryAlloc W} `{!ThreadWalks W}
  `{!HasCaches W} `{Jansson} `{!WalkEnv W} `{!ChainItems W}.

#[export] Instance traced_threads : ThreadEnv (traced W) := {|
  mysql_init := noting (fun conn => match conn with Some c => [Opened c] | None => [] end) mysql_init;
  mysql_close conn :=
    noting (fun _ => match conn with Some c => [Closed c] | None => [] end) (mysql_close conn);
  mysql_real_connect c h u p d := lent (Some c) (mysql_real_connect c h u p d);
  mysql_ping_failed c := lent (Some c) (mysql_ping_failed c);
  mysql_errno c := lent (Some c) (mysql_errno c);
  mysql_thread_id conn := lent conn (mysql_thread_id conn);
  mysql_set_character_set c s := lent (Some c) (mysql_set_character_set c s);
  mysql_thread_init := on_snd mysql_thread_init;
  mysql_thread_end := on_snd mysql_thread_end;
  queue_run := on_snd queue_run;
  queue_standby := on_snd queue_standby;
  standby_sleep := on_snd standby_sleep;
  thread_sleep := on_snd thread_sleep;
  thread_error_sleep := on_snd thread_error_sleep;
  time_now := on_snd time_now
|}.
#[export] Instance traced_conf : ConfEnv (traced W) := {|
  conf_get_string key := on_snd (conf_get_string key);
  conf_get_int key := on_snd (conf_get_int key);
  conf_put_database conn key value := lent conn (conf_put_database conn key value)
|}.
(** A prepared statement is bound and executed without a connection argument. *)
#[export] Instance traced_queries : QueryEnv (traced W) := {|
  query := query;
  add_param_uint64 q name v := on_snd (add_param_uint64 q name v);
  database_execute q := on_snd (database_execute q);
  database_results q := on_snd (database_results q);
  query_rows q := on_snd (query_rows q);
  query_need_reconnect q := on_snd (query_need_reconnect q);
  database_free_result q := on_snd (database_free_result q)
|}.
#[export] Instance traced_alloc : QueryAlloc (traced W) := {|
  new_query conn sql := lent conn (new_query (W := W) conn sql);
  free_query q := on_snd (free_query (W := W) q)
|}.
#[export] Instance traced_walks : ThreadWalks (traced W) := {|
  taxes_walk_item conn := lent conn (taxes_walk_item conn);
  records_walk_more conn := lent conn (records_walk_more conn);
  kb_sales_walk_items conn := lent conn (kb_sales_walk_items conn);
  contact_sector_walk_items conn := lent conn (contact_sector_walk_items conn);
  file_walk_items conn := lent_beside conn (file_walk_items conn);
  language_load conn := lent conn (language_load conn);
  lookup_walks := (fun walk conn => lent conn (walk conn)) <$> lookup_walks (W := W)
|}.
#[export] Instance traced_caches : HasCaches (traced W) := {|
  cache_of r x := cache_of r x.2;
  set_cache r c x := (x.1, set_cache r c x.2)
|}.
#[export] Instance traced_net : WalkEnv (traced W) := {|
  do_request path args := on_snd (do_request path args);
  thrd_sleep := on_snd thrd_sleep
|}.
#[export] Instance traced_items : ChainItems (traced W) := {|
  contact_sync_item conn archived item := lent conn (contact_sync_item conn archived item);
  project_sync_item conn item := lent conn (project_sync_item conn item);
  invoice_sync_item conn item := lent conn (invoice_sync_item conn item);
  invoice_fetch_missed conn := lent conn (invoice_fetch_missed conn)
|}.

Lemma holds_uses conn h : holds conn h -> holds conn (h ++ uses conn).
Proof.
  destruct conn as [c|]; cbn; [|by rewrite app_nil_r].
  intros (h1 & n & Hh & ->). exists h1, (S n). split; [done|].
  rewrite <- app_assoc. cbn. by rewrite <- replicate_cons_app.
Qed.

(** *** Single calls *)

Lemma noting_upon {A} (P : list conn_event -> Prop) (Q : A -> list conn_event -> Prop) events (m : prog W A) :
  (forall a h, P h -> Q a (h ++ events a)) ->
  upon (fun x : traced W => P x.1) (noting events m) (fun a x => Q a x.1).
Proof.
  intros HQ [h w] a [h' w'] Hh. unfold noting. cbn.
  destruct (m w) as [[b w1]| |]; [|done..]. intros [= <- <- <-]. by apply HQ.
Qed.
Lemma lent_upon {A} conn (m : prog W A) : upon (at_conn conn) (lent conn m) (fun _ => at_conn conn).
Proof.
  apply (noting_upon (holds conn) (fun _ => holds conn)). intros _ h. apply holds_uses.
Qed.
Lemma quiet_upon {A} conn (m : prog W A) : upon (at_conn conn) (on_snd m) (fun _ => at_conn conn).
Proof. intros [h w] a [h' w'] Hh [-> _]%on_snd_Done. exact Hh. Qed.
Lemma init_upon : upon (at_conn None) (mysql_init (W := traced W)) at_conn.
Proof.
  apply (noting_upon (holds None) holds). intros [c|] h Hh; [|by rewrite app_nil_r].
  by exists h, 0%nat.
Qed.
Lemma close_upon conn : upon (at_conn conn) (mysql_close (W := traced W) conn) (fun _ => at_conn None).
Proof.
  apply (noting_upon (holds conn) (fun _ => holds None)). intros _ h Hh.
  destruct conn as [c|]; [|by rewrite app_nil_r]. destruct Hh as (h1 & n & Hh & ->).
  rewrite <- app_assoc. by constructor.
Qed.

(** The next step of the program leaves the connection the thread holds. *)
Ltac held := eapply upon_bind; [first [apply lent_upon | apply quiet_upon]|]; intros; cbv beta.
(** The next step takes it or gives it back. *)
#[local] Tactic Notation "by_lemma" uconstr(L) := eapply upon_bind; [apply L|]; cbv beta.

(** *** Connecting and its errors *)

Lemma teardown_upon conn :
  upon (at_conn conn) (thread_teardown_mysql (W := traced W) conn) (fun _ => at_conn None).
Proof. by_lemma close_upon. intros _. apply quiet_upon. Qed.

Lemma setup_upon : upon (at_conn None) (thread_setup_mysql (W := traced W)) at_conn.
Proof.
  by_lemma init_upon. intros [c|]; [|by apply upon_ret].
  do 6 held. apply upon_if.
  - by_lemma close_upon. intros _. by apply upon_ret.
  - do 2 held. by apply upon_ret.
Qed.

Lemma reconnect_upon conn : upon (at_conn conn) (thread_reconnect (W := traced W) conn) at_conn.
Proof. unfold thread_reconnect. held. by_lemma teardown_upon. intros _. apply setup_upon. Qed.

Lemma handle_error_upon e conn :
  upon (at_conn conn) (thread_handle_error (W := traced W) e conn) (fun r => at_conn r.2).
Proof.
  unfold thread_handle_error. destruct (decide _); [by apply upon_ret|]. cbv zeta.
  eapply (upon_bind _ _ _ (fun _ => at_conn conn)).
  - destruct conn as [c|]; [|by apply upon_ret]. held. apply upon_if; [|by apply upon_ret].
    held. by apply upon_ret.
  - intros b. apply upon_if.
    + by_lemma reconnect_upon. intros conn'. by apply upon_ret.
    + held. by apply upon_ret.
Qed.

Lemma lookup_step_upon conn e : upon (at_conn conn) (lookup_step (W := traced W) conn e) at_conn.
Proof.
  unfold lookup_step. destruct (decide _); [by apply upon_ret|]. destruct conn as [c|]; [|by apply upon_ret].
  destruct (decide _); [apply reconnect_upon|by apply upon_ret].
Qed.

Lemma standby_upon fuel conn :
  upon (at_conn conn) (wait_standby (W := traced W) fuel) (fun _ => at_conn conn).
Proof.
  induction fuel as [|fuel IH]; cbn [wait_standby]; [apply upon_stop|].
  held. apply upon_if; [|by apply upon_ret]. by held.
Qed.

(** A loop of turns that each leave the connection its variables name. *)
Lemma service_upon {V T} (I : T -> V -> Prop) running turn :
  (forall t, upon (I t) running (fun _ => I t)) ->
  (forall t, upon (I t) (turn t) (fun r => I r.2)) ->
  forall turns t, upon (I t) (service_loop running turn turns t) (fun r => I r.2).
Proof.
  intros Hrun Hturn turns. induction turns as [|turns IH]; intros t; cbn [service_loop]; [by apply upon_ret|].
  eapply upon_bind; [apply Hrun|]. intros run. apply upon_if; [by apply upon_ret|].
  eapply upon_bind; [apply Hturn|]. intros [go t1]. apply upon_if; [apply IH|by apply upon_ret].
Qed.

(** *** The threads of the extra records and of the sectors *)

(** The walks of the modules. *)
Definition walk_upon (walk : MYSQL -> prog (traced W) BXillError) : Prop :=
  forall conn, upon (at_conn conn) (walk conn) (fun _ => at_conn conn).

Lemma random_work_upon : walk_upon random_work.
Proof.
  intros conn. unfold random_work, and_then. held.
  eapply (upon_bind _ _ _ (fun _ => at_conn conn)); [apply upon_if; [by apply upon_ret|held; by apply upon_ret]|].
  intros e. apply upon_if; [by apply upon_ret|]. held. by apply upon_ret.
Qed.

Lemma data_turn_upon work fuel t :
  walk_upon work ->
  upon (at_conn (dt_conn t)) (data_turn work fuel t) (fun r => at_conn (dt_conn r.2)).
Proof.
  intros Hs. unfold data_turn. by_lemma standby_upon. intros _. held. cbv zeta.
  by_lemma Hs. intros e. by_lemma handle_error_upon. intros [h conn].
  apply upon_if; [by apply upon_ret|]. held. by apply upon_ret.
Qed.

Lemma data_thread_upon work turns fuel conn :
  walk_upon work -> upon (at_conn conn) (data_thread work turns fuel conn) (fun _ => at_conn None).
Proof.
  intros Hs. unfold data_thread, data_loop.
  eapply (upon_bind _ _ _ (fun r => at_conn (dt_conn r.2))).
  - refine (service_upon (fun t => at_conn (dt_conn t)) _ _ _ _ turns (mkData conn 0 0)); intros t.
    + apply quiet_upon.
    + by apply data_turn_upon.
  - intros [[r|] t]; [|apply upon_stop]. by_lemma teardown_upon. intros _. by apply upon_ret.
Qed.

Lemma random_thread_upon turns fuel :
  upon (at_conn None) (random_item_thread (W := traced W) turns fuel) (fun _ => at_conn None).
Proof.
  unfold random_item_thread. by_lemma setup_upon. intros [c|]; [|by apply upon_ret].
  apply data_thread_upon, random_work_upon.
Qed.

Lemma sector_thread_upon turns fuel :
  upon (at_conn None) (contact_sector_thread (W := traced W) turns fuel) (fun _ => at_conn None).
Proof.
  unfold contact_sector_thread. by_lemma setup_upon. intros [c|].
  - apply data_thread_upon. intros conn. apply lent_upon.
  - by_lemma teardown_upon. intros _. by apply upon_ret.
Qed.

(** *** The lookups *)

Lemma lookup_all_upon walks conn :
  (forall walk, walk ∈ walks -> walk_upon walk) ->
  upon (at_conn conn) (lookup_all walks conn) at_conn.
Proof.
  revert conn. induction walks as [|walk walks IH]; intros conn Hs; cbn [lookup_all].
  - destruct conn; by apply upon_ret.
  - destruct conn as [c|]; [|by apply upon_ret].
    assert (walk_upon walk) as Hw by (apply Hs; by constructor). by_lemma Hw. intros e.
    by_lemma lookup_step_upon. intros conn. apply IH. intros walk' Hw'. apply Hs. by constructor.
Qed.

Lemma lookup_bootstrap_upon :
  upon (at_conn None) (lookup_bootstrap (W := traced W)) (fun _ => at_conn None).
Proof.
  unfold lookup_bootstrap. by_lemma setup_upon. intros [c|]; [|by apply upon_ret].
  by_lemma lookup_all_upon.
  - intros walk Hw conn. apply list_elem_of_fmap in Hw as (walk' & -> & _). apply lent_upon.
  - intros [d|]; [apply teardown_upon|by apply upon_ret].
Qed.

(** *** The file thread *)

Definition beside {V} (conn : MYSQL) (x : V * traced W) : Prop := at_conn conn x.2.

Lemma snd_upon {V A} (m : prog (traced W) A) conn (Q : A -> MYSQL) :
  upon (at_conn conn) m (fun a => at_conn (Q a)) ->
  upon (beside (V := V) conn) (on_snd m) (fun a => beside (Q a)).
Proof. apply (upon_on_snd (at_conn conn) m (fun a => at_conn (Q a))). Qed.
Lemma both_quiet {V A} conn (m : prog W A) : upon (beside (V := V) conn) (on_snd (on_snd m)) (fun _ => beside conn).
Proof. apply (snd_upon _ _ (fun _ => conn)), quiet_upon. Qed.
Lemma both_lent {V A} conn (m : prog W A) : upon (beside (V := V) conn) (on_snd (lent conn m)) (fun _ => beside conn).
Proof. apply (snd_upon _ _ (fun _ => conn)), lent_upon. Qed.
Lemma fst_upon {V A} conn (m : prog V A) : upon (beside conn) (on_fst m) (fun _ => beside conn).
Proof. apply (upon_on_fst (at_conn conn)). Qed.

(** What keeps the connection, as a move of the worlds. *)
Definition keeps (conn : MYSQL) : relation (traced W) := fun x y => at_conn conn x -> at_conn conn y.
Definition kept {V} (conn : MYSQL) : relation (V * traced W) := fun x y => beside conn x -> beside conn y.
#[local] Instance keeps_preorder conn : PreOrder (keeps conn).
Proof. split; [by intros x Hx|]. intros x y z Hxy Hyz Hx. by apply Hyz, Hxy. Qed.
#[local] Instance kept_preorder {V} conn : PreOrder (kept (V := V) conn).
Proof. split; [by intros x Hx|]. intros x y z Hxy Hyz Hx. by apply Hyz, Hxy. Qed.

Lemma keeps_quiet {A} conn (m : prog W A) : moves (keeps conn) (on_snd m).
Proof. intros x a y E Hx. by eapply quiet_upon. Qed.
Lemma keeps_lent {A} conn (m : prog W A) : moves (keeps conn) (lent conn m).
Proof. intros x a y E Hx. by eapply lent_upon. Qed.
Lemma kept_snd {V A} conn (m : prog (traced W) A) : moves (keeps conn) m -> moves (kept (V := V) conn) (on_snd m).
Proof. intros Hm [v x] a [v' x'] [-> E]%on_snd_Done Hx. by eapply Hm. Qed.
Lemma kept_fst {V A} conn (m : prog V A) : moves (kept conn) (on_fst m).
Proof. intros x a y E Hx. by eapply fst_upon. Qed.
Lemma kept_beside {V A} conn (m : prog (V * W) A) : moves (kept conn) (lent_beside conn m).
Proof.
  intros [v [h w]] a [v' [h' w']] E Hx. unfold lent_beside in E. cbn in E.
  destruct (m (v, w)) as [[b [v1 w1]]| |]; simplify_eq. by apply holds_uses.
Qed.
Lemma kept_upon {V A} conn (m : prog (V * traced W) A) :
  moves (kept conn) m -> upon (beside conn) m (fun _ => beside conn).
Proof. intros Hm x a y Hx E. by eapply Hm. Qed.
Lemma moves_if {X A} (R : relation X) (b : bool) (m n : prog X A) :
  moves R m -> moves R n -> moves R (if b then m else n).
Proof. by destruct b. Qed.

(** Programs made of calls that keep the connection. *)
Ltac keep :=
  repeat (intros; cbv zeta;
    lazymatch goal with
    | |- moves _ (bind _ _) => apply moves_bind; [apply _| |]
    | |- moves _ (ret _) => apply moves_ret; apply _
    | |- moves _ (gets _) => apply moves_gets; apply _
    | |- moves _ out_of_fuel => apply moves_out_of_fuel
    | |- moves _ (if _ then _ else _) => apply moves_if
    | |- moves _ (on_fst _) => apply kept_fst
    | |- moves _ (on_snd _) => first [apply keeps_quiet | apply kept_snd]
    | |- moves _ (lent _ _) => apply keeps_lent
    | |- moves (keeps _) _ => first [apply keeps_quiet | apply keeps_lent]
    | |- moves (kept _) _ => apply kept_beside
    end).

Lemma query_error_keeps conn q : moves (keeps conn) (query_error q).
Proof. unfold query_error. keep. Qed.

Lemma prune_loop_kept conn fuel q iter drift : moves (kept conn) (prune_items_loop fuel q iter drift).
Proof.
  revert iter. induction fuel as [|fuel IH]; intros iter; cbn [prune_items_loop]; [keep|].
  apply moves_bind; [apply _|keep|]. intros [[id|] iter']; [|keep].
  apply moves_bind; [apply _|keep|]. intros bound. apply moves_bind; [apply _|keep|]. intros ok.
  apply moves_if; [apply kept_snd, query_error_keeps|]. apply moves_bind; [apply _|keep|]. intros _. apply IH.
Qed.

Lemma prune_kept conn q : moves (kept conn) (bx_prune_items q).
Proof.
  unfold bx_prune_items. do 2 (apply moves_bind; [apply _|keep|]; intros ?).
  destruct q as [q|]; [|keep]. apply moves_bind; [apply _|keep|]. intros p. apply prune_loop_kept.
Qed.

Lemma hydrate_rows_kept conn mem rows : moves (kept conn) (hydrate_rows (W := traced W) mem rows).
Proof.
  induction rows as [|row rows IH]; cbn [hydrate_rows]; [keep|].
  apply moves_bind; [apply _| |by intros]. unfold hydrate_row. repeat case_match; keep.
Qed.

Lemma hydrate_kept mem conn q : moves (kept conn) (bx_cache_hydrate mem q).
Proof.
  unfold bx_cache_hydrate. destruct q as [q|]; [|keep].
  do 2 (apply moves_bind; [apply _|keep|]; intros ?).
  apply moves_if; [|apply kept_snd, query_error_keeps].
  apply moves_bind; [apply _|keep|]. intros rows.
  apply moves_bind; [apply _|apply hydrate_rows_kept|]. intros _. keep.
Qed.

Lemma file_work_kept conn q : moves (kept conn) (file_work conn q).
Proof. unfold file_work. keep. apply prune_kept. Qed.

Lemma rebuild_keeps conn q sql : moves (keeps conn) (rebuild_prune_query q conn sql).
Proof. unfold rebuild_prune_query. keep. Qed.

Lemma file_turn_upon fuel t :
  upon (beside (ft_conn t)) (file_turn fuel t) (fun r => beside (ft_conn r.2)).
Proof.
  unfold file_turn. by_lemma (snd_upon (V := option Cache) _ _ (fun _ => ft_conn t) (standby_upon fuel (ft_conn t))).
  intros _. by_lemma both_quiet. intros now. cbv zeta. by_lemma (kept_upon _ _ (file_work_kept _ _)).
  intros e. by_lemma (snd_upon (V := option Cache) _ _ _ (handle_error_upon e (ft_conn t))).
  intros [h conn]. cbn [snd]. eapply (upon_bind _ _ _ (fun r => beside (ft_conn r.2))).
  - apply upon_if; [apply upon_if|]; [|by apply upon_ret..].
    by_lemma (kept_upon (V := option Cache) _ _ (kept_snd _ _ (rebuild_keeps conn _ _))). intros [ok q]. by apply upon_ret.
  - intros [go t1]. apply upon_if; [by apply upon_ret|]. by_lemma fst_upon. intros _.
    by_lemma both_quiet. intros _. by apply upon_ret.
Qed.

Lemma file_run_upon turns fuel mem conn :
  upon (beside conn) (file_run turns fuel mem conn) (fun _ => beside None).
Proof.
  unfold file_run, file_loop. by_lemma both_lent. intros q. by_lemma (kept_upon _ _ (hydrate_kept _ _ _)).
  intros e. eapply (upon_bind _ _ _ beside).
  { apply upon_if; [|by apply upon_ret]. apply (snd_upon _ _ (fun a => a)), reconnect_upon. }
  intros conn'. by_lemma both_quiet. intros _. apply upon_if.
  - by_lemma (snd_upon (V := option Cache) _ _ (fun _ => None) (teardown_upon conn')).
    intros _. by apply upon_ret.
  - by_lemma both_lent. intros prune.
    eapply (upon_bind _ _ _ (fun r => beside (ft_conn r.2))).
    + refine (service_upon (fun t => beside (ft_conn t)) _ _ _ _ turns (mkFile conn' 0 prune 0)); intros t;
        [apply both_quiet | apply file_turn_upon].
    + intros [[r|] t]; [|apply upon_stop]. by_lemma both_quiet. intros _.
      by_lemma (snd_upon (V := option Cache) _ _ (fun _ => None) (teardown_upon (ft_conn t))).
      intros _. by apply upon_ret.
Qed.

Lemma file_thread_upon turns fuel mem :
  upon (at_conn None) (file_thread (W := traced W) turns fuel mem) (fun _ => at_conn None).
Proof.
  unfold file_thread. by_lemma setup_upon. intros [c|].
  2: { by_lemma teardown_upon. intros _. by apply upon_ret. }
  destruct (cache_create mem) as [cache|]; [|by_lemma teardown_upon; intros _; by apply upon_ret].
  intros x r y Hx E. destruct (file_run _ _ _ _ _) as [[r' [oc y']]| |] eqn:Er; simplify_eq.
  exact (file_run_upon turns fuel mem (Some c) (Some cache, x) _ _ Hx Er).
Qed.

(** *** The chain thread *)

Lemma on_cache_keeps {A} conn r (m : prog (option Cache * traced W) A) :
  moves (kept conn) m -> moves (keeps conn) (on_cache r m).
Proof.
  intros Hm x a y E Hx. unfold on_cache in E.
  destruct (m (cache_of r x, x)) as [[b [c x1]]| |] eqn:Em; [|done..]. injection E as <- <-.
  exact (Hm _ _ _ Em Hx).
Qed.

Lemma set_cursor_kept conn c : moves (kept conn) (set_cursor (W := traced W) c).
Proof. by intros [s x] a [s' x'] [= <- <- <-] Hx. Qed.
Lemma set_contact_kept conn b : moves (kept conn) (set_contact_from_zero (W := traced W) b).
Proof. by intros [s x] a [s' x'] [= <- <- <-] Hx. Qed.
Lemma set_invoice_kept conn b : moves (kept conn) (set_invoice_from_zero (W := traced W) b).
Proof. by intros [s x] a [s' x'] [= <- <- <-] Hx. Qed.

Lemma save_keeps conf_ok conn c : moves (keeps conn) (bx_chain_save (W := traced W) conf_ok conn c).
Proof. unfold bx_chain_save. keep. Qed.

Lemma finish_kept conf_ok conn next x y z :
  moves (kept conn) (finish_resource (W := traced W) conf_ok conn next x y z).
Proof. unfold finish_resource, advance_phase. keep; [apply set_cursor_kept | apply save_keeps]. Qed.

Lemma validated_kept conf_ok conn phase n :
  moves (kept conn) (on_validated_page (W := traced W) conf_ok conn phase n).
Proof. unfold on_validated_page, checkpoint. keep; [apply save_keeps | apply set_cursor_kept]. Qed.

Lemma pages_kept fuel conf_ok conn phase ok path extra sync off :
  (forall item, moves (kept conn) (sync item)) ->
  moves (kept conn)
    (bx_walk_pages_from fuel ok path extra false sync off
       (Some (on_validated_page (W := traced W) conf_ok conn phase))).
Proof.
  intros Hs. apply walk_moves; [apply _|..|exact Hs|].
  - intros path' args. apply kept_snd, keeps_quiet.
  - apply kept_snd, keeps_quiet.
  - intros n. apply validated_kept.
Qed.

Lemma chain_sync_kept fuel conf_ok conn :
  moves (kept conn) (bx_chain_sync (W := traced W) fuel true conf_ok conn).
Proof.
  unfold bx_chain_sync, sync_contact_active, sync_contact_archived, sync_project, sync_invoice_list,
    sync_invoice_missed, get_statics, bx_contact_walk_pass, bx_project_walk_item_from,
    bx_invoice_walk_list, bx_invoice_fetch_missed.
  keep; first [apply pages_kept | apply finish_kept | apply set_contact_kept | apply set_invoice_kept].
  all: unfold contact_page_item, project_page_item, invoice_page_item; keep.
Qed.

Lemma prune_if_kept conn go e r q : moves (kept conn) (prune_if (W := traced W) go e r q).
Proof. unfold prune_if. keep. apply on_cache_keeps, prune_kept. Qed.
Lemma bump_if_kept conn go r : moves (kept conn) (bump_if (W := traced W) go r).
Proof. unfold bump_if. keep. apply on_cache_keeps, kept_fst. Qed.
Lemma chain_work_kept fuel conf_ok t :
  moves (kept (ct_conn t)) (chain_work (W := traced W) fuel conf_ok t).
Proof. unfold chain_work. keep; [apply chain_sync_kept | apply prune_if_kept..]. Qed.

Lemma rebuild_queries_upon t conn :
  upon (at_conn conn) (rebuild_queries (W := traced W) t conn) (fun r => at_conn (ct_conn r.2)).
Proof.
  assert (forall q sql, upon (at_conn conn) (rebuild_prune_query (W := traced W) q conn sql) (fun _ => at_conn conn)) as Hr.
  { intros q sql x a y Hx E. by eapply rebuild_keeps. }
  unfold rebuild_queries. by_lemma Hr. intros [ok1 q1]. cbv zeta. apply upon_if; [by apply upon_ret|].
  by_lemma Hr. intros [ok2 q2]. apply upon_if; [by apply upon_ret|]. by_lemma Hr. intros [ok3 q3]. by apply upon_ret.
Qed.

Lemma handle_step_upon e t :
  upon (at_conn (ct_conn t)) (handle_step (W := traced W) e t) (fun r => at_conn (ct_conn r.2)).
Proof.
  unfold handle_step. cbv zeta. by_lemma handle_error_upon. intros [handled conn]. cbn [snd].
  apply upon_if; [apply upon_if; [apply rebuild_queries_upon|]|]; by apply upon_ret.
Qed.

Lemma chain_turn_upon fuel conf_ok t :
  upon (beside (ct_conn t)) (chain_turn (W := traced W) fuel conf_ok t) (fun r => beside (ct_conn r.2)).
Proof.
  unfold chain_turn. by_lemma (snd_upon (V := ChainStatics) _ _ (fun _ => ct_conn t) (standby_upon fuel (ct_conn t))).
  intros _. unfold bx_chain_read. eapply (upon_bind _ _ _ (fun _ => beside (ct_conn t))).
  { by intros x a y Hx [= _ <-]. }
  intros mark. by_lemma both_quiet. intros now. cbv zeta.
  set (t1 := mkThread _ _ _ _ _ _). change (ct_conn t) with (ct_conn t1).
  by_lemma (kept_upon _ _ (chain_work_kept fuel conf_ok t1)). intros [e cr].
  by_lemma (snd_upon (V := ChainStatics) _ _ _ (handle_step_upon e t1)). intros [go t2]. cbn [snd].
  apply upon_if; [by apply upon_ret|].
  do 3 (by_lemma (kept_upon _ _ (bump_if_kept (ct_conn t2) _ _)); intros _).
  eapply (upon_bind _ _ _ (fun _ => beside (ct_conn t2))); [apply upon_if; [apply both_quiet|by apply upon_ret]|].
  intros _. by apply upon_ret.
Qed.

Lemma caches_upon conn c1 c2 c3 :
  upon (at_conn conn) (modify (fun x : traced W =>
    set_cache Invoices c1 (set_cache Projects c2 (set_cache Contacts c3 x)))) (fun _ => at_conn conn).
Proof. by intros x a y Hx [= _ <-]. Qed.

Lemma chain_quit_upon conn :
  upon (at_conn conn) (chain_quit (W := traced W) conn) (fun r x => r = None /\ at_conn None x).
Proof.
  unfold chain_quit, destroy_caches. by_lemma caches_upon. intros _.
  by_lemma teardown_upon. intros _. by apply upon_ret.
Qed.

Lemma hydrate_cache_upon mem conn r sql :
  upon (at_conn conn) (hydrate_cache (W := traced W) mem conn r sql) (fun a => at_conn a.2).
Proof.
  unfold hydrate_cache. held. eapply (upon_bind _ _ _ (fun _ => at_conn conn)).
  { intros x e y Hx E. by eapply on_cache_keeps; [apply hydrate_kept|..]. }
  intros e. destruct (decide _).
  - by_lemma reconnect_upon. intros [d|]; held; by apply upon_ret.
  - held. by apply upon_ret.
Qed.

Lemma hydrate_all_upon mem conn l :
  upon (at_conn conn) (hydrate_all (W := traced W) mem conn l) (fun a => at_conn a.2).
Proof.
  revert conn. induction l as [|[r sql] l IH]; intros conn; cbn [hydrate_all]; [by apply upon_ret|].
  by_lemma hydrate_cache_upon. intros [st conn']. apply upon_if; [apply IH|by apply upon_ret].
Qed.

(** The connection of a thread that has started, or none. *)
Definition started_at (r : option MYSQL) : traced W -> Prop :=
  match r with Some conn => at_conn conn | None => at_conn None end.

Lemma chain_setup_upon mem :
  upon (at_conn None) (chain_setup (W := traced W) mem) started_at.
Proof.
  assert (forall conn, upon (at_conn conn) (chain_quit (W := traced W) conn) started_at) as Hquit.
  { intros conn x r y Hx E. by eapply chain_quit_upon in E as [-> ?]. }
  unfold chain_setup. by_lemma setup_upon. intros [c|].
  2: { by_lemma teardown_upon. intros _. by apply upon_ret. }
  eapply (upon_bind _ _ _ (fun _ => at_conn (Some c))).
  { unfold create_caches. by_lemma caches_upon. intros _. by apply upon_ret. }
  intros created. apply upon_if; [apply Hquit|]. by_lemma hydrate_all_upon. intros [ok conn].
  apply upon_if; [apply Hquit|]. cbn [snd]. held. apply upon_if; [|by apply upon_ret].
  by_lemma reconnect_upon. intros [d|]; [by apply upon_ret|apply Hquit].
Qed.

Lemma chain_thread_upon turns fuel mem conf_ok :
  upon (beside None) (chain_thread (W := traced W) turns fuel mem conf_ok) (fun _ => beside None).
Proof.
  unfold chain_thread, chain_loop.
  by_lemma (upon_on_snd (V := ChainStatics) _ _ _ (chain_setup_upon mem)).
  intros [conn|]; [|by apply upon_ret]. change (fun v : ChainStatics * traced W => started_at (Some conn) v.2)
    with (beside (V := ChainStatics) conn).
  do 3 (by_lemma both_lent; intros ?).
  eapply (upon_bind _ _ _ (fun r => beside (ct_conn r.2))).
  - refine (service_upon (fun t => beside (ct_conn t)) _ _ _ _ turns (mkThread conn 0 _ _ _ 0)); intros t;
      [apply both_quiet | apply chain_turn_upon].
  - intros [[r|] t]; [|apply upon_stop]. cbn [snd]. do 3 (by_lemma both_quiet; intros _).
    by_lemma (snd_upon (V := ChainStatics) _ _ (fun _ => ct_conn t) (caches_upon (ct_conn t) None None None)). intros _.
    by_lemma (snd_upon (V := ChainStatics) _ _ (fun _ => None) (teardown_upon (ct_conn t))). intros _.
    by apply upon_ret.
Qed.

(** Claim C14. Whenever a thread of [main.c] ends, or the lookups before the threads, each
    connection it opened was used only between its opening and its one closing, and was
    closed before the next was opened and before the end: after a failed set-up, a lost
    connection, a failed reconnection, too many errors or the end of the run, and
    whatever the client library, the modules and the network answer.  A use is a call
    that is given the connection, by [main.c] or in a call of a module; the execution of
    a prepared statement is not given one (a prune query can outlive its connection).
    Runs that fault or do not end are not spoken of. *)
Theorem threads_close_connections turns fuel mem conf_ok (w : W) :
  (forall r h w', random_item_thread turns fuel ([], w) = Done (r, (h, w')) -> sessions h)
  /\ (forall r h w', contact_sector_thread turns fuel ([], w) = Done (r, (h, w')) -> sessions h)
  /\ (forall r h w', file_thread turns fuel mem ([], w) = Done (r, (h, w')) -> sessions h)
  /\ (forall s r s' h w', chain_thread turns fuel mem conf_ok (s, ([], w)) = Done (r, (s', (h, w'))) ->
        sessions h)
  /\ (forall u h w', lookup_bootstrap ([], w) = Done (u, (h, w')) -> sessions h).
Proof.
  assert (at_conn None ([], w)) as Hw by constructor. split_and!.
  - intros r h w'. by apply random_thread_upon.
  - intros r h w'. by apply sector_thread_upon.
  - intros r h w'. by apply file_thread_upon.
  - intros s r s' h w'. by apply (chain_thread_upon turns fuel mem conf_ok (s, ([], w))).
  - intros u h w'. by apply lookup_bootstrap_upon.
Qed.
End Recording.

(** ** A sample client library

    Addresses are the least that are free; a call on a connection that is not
    open is a fault; a number of calls lose their connection. *)
Record fleet := mkFleet { fl_open : gset Z; fl_turns : nat; fl_lost : nat }.

Section Fleet.

Definition with_open {A} (c : Z) (m : prog fleet A) : prog fleet A :=
  fun w => if decide (c ∈ fl_open w) then m w else Fault.
Definition on_conn {A} (conn : MYSQL) (none : prog fleet A) (m : prog fleet A) : prog fleet A :=
  match conn with None => none | Some c => with_open c m end.

#[local] Instance fleet_conf : ConfEnv fleet := {|
  conf_get_string _ := ret None; conf_get_int _ := ret 0;
  conf_put_database conn _ _ := on_conn conn (ret false) (ret true)
|}.
#[local] Instance fleet_threads : ThreadEnv fleet := {|
  mysql_init w := let c := fresh (fl_open w) in
                  Done (Some c, mkFleet ({[c]} ∪ fl_open w) (fl_turns w) (fl_lost w));
  mysql_real_connect c _ _ _ _ := with_open c (ret true);
  mysql_close conn := on_conn conn (ret tt) (fun w =>
    Done (tt, mkFleet (fl_open w ∖ match conn with Some c => {[c]} | None => ∅ end)
                (fl_turns w) (fl_lost w)));
  mysql_ping_failed c := with_open c (ret false);
  mysql_errno c := with_open c (ret 0);
  mysql_thread_id conn := on_conn conn fault (ret 0);
  mysql_set_character_set c _ := with_open c (ret tt);
  mysql_thread_init := ret tt; mysql_thread_end := ret tt;
  queue_run w := Done (match fl_turns w with O => false | S _ => true end,
                       mkFleet (fl_open w) (pred (fl_turns w)) (fl_lost w));
  queue_standby := ret false; standby_sleep := ret tt; thread_sleep := ret tt;
  thread_error_sleep := ret tt; time_now := ret (Some 0)
|}.
(** A walk loses its connection as long as some loss is left. *)
Definition fleet_walk (conn : MYSQL) : prog fleet BXillError :=
  on_conn conn (ret ErrorGeneric) (fun w =>
    Done (match fl_lost w with O => ErrorNet | S _ => ErrorSQLReconnect end,
          mkFleet (fl_open w) (fl_turns w) (pred (fl_lost w)))).
#[local] Instance fleet_walks : ThreadWalks fleet := {|
  taxes_walk_item := fleet_walk; records_walk_more := fleet_walk; kb_sales_walk_items := fleet_walk;
  contact_sector_walk_items := fleet_walk; file_walk_items conn := on_snd (fleet_walk conn);
  language_load := fleet_walk; lookup_walks := [fleet_walk; fleet_walk; fleet_walk]
|}.
#[local] Instance fleet_queries : QueryEnv fleet := {|
  query := unit; add_param_uint64 _ _ _ := ret false; database_execute _ := ret false;
  database_results _ := ret false; query_rows _ := ret []; query_need_reconnect _ := ret false;
  database_free_result _ := ret tt
|}.
#[local] Instance fleet_alloc : QueryAlloc fleet := {|
  new_query conn _ := on_conn conn fault (ret (Some tt)); free_query _ := ret tt
|}.
#[local] Instance fleet_caches : HasCaches fleet := {|
  cache_of _ _ := cache_create true; set_cache _ _ w := w |}.
#[local] Instance fleet_net : WalkEnv fleet := {| do_request _ _ := ret None; thrd_sleep := ret tt |}.
#[local] Instance fleet_items : ChainItems fleet := {|
  contact_sync_item conn _ _ := fleet_walk conn; project_sync_item conn _ := fleet_walk conn;
  invoice_sync_item conn _ := fleet_walk conn; invoice_fetch_missed := fleet_walk
|}.

(** Two losses in six turns; connection 7 belongs to another thread. *)
Definition fleet_start : fleet := mkFleet {[7]} 6 2.
Definition fleet_run : list conn_event * Z :=
  match random_item_thread 9 2 ([], fleet_start) with
  | Done (r, (h, _)) => (h, r)
  | _ => ([], 7)
  end.

Lemma threads_close_connections_witness :
  sessions fleet_run.1 /\ fleet_run.2 = EXIT_SUCCESS
  /\ length (List.filter (fun e => match e with Opened _ => true | _ => false end) fleet_run.1) = 3%nat.
Proof.
  split; [|split].
  - apply (proj1 (threads_close_connections 9 2 true true fleet_start) fleet_run.2 fleet_run.1
      (mkFleet {[7]} 0 0)). vm_compute. reflexivity.
  - vm_compute. reflexivity.
  - vm_compute. reflexivity.
Defined.

(** Twelve turns without an answer: after them the thread is out of its loop. *)
Definition worn_fleet : fleet := mkFleet {[1]} 20 0.
Definition worn_result : option Z * DataThread * fleet :=
  match data_loop fleet_walk 30 2 (mkData (Some 1) 0 0) worn_fleet with
  | Done x => x
  | _ => (None, mkData None 0 0, worn_fleet)
  end.

Lemma twelve_errors_in_a_row_witness :
  worn_result.1.1 = Some EXIT_FAILURE
  /\ exists hs w1, turns_done fleet_walk 2 (Some 1) worn_fleet hs (dt_conn worn_result.1.2) w1
  /\ (worn_result.1.1 = Some EXIT_FAILURE <-> replicate 12 false `suffix_of` hs).
Proof.
  split; [vm_compute; reflexivity|].
  destruct (twelve_errors_in_a_row fleet_walk 2 30 (Some 1) worn_fleet worn_result.1.1
           worn_result.1.2 worn_result.2) as (hs & w1 & Ht & Hf & _); [vm_compute; reflexivity|].
  exists hs, w1. split; [exact Ht|exact Hf].
Defined.
End Fleet.

(** The server of the sample files, which would accept a connection at any time. *)
Section BackAgain.
#[local] Existing Instance sample_item_set.
#[local] Existing Instance sample_files_env.
#[local] Existing Instance sample_files_clock.
#[local] Existing Instance sample_files_fs.
#[local] Existing Instance sample_files_raw.
#[local] Existing Instance sample_files_conf.
#[local] Existing Instance sample_files_net.
#[local] Instance no_stale : StaleStack server := {| stale_u64 := ret 0 |}.
#[local] Instance back_again : ThreadEnv server := {|
  mysql_init := ret (Some 1); mysql_real_connect _ _ _ _ _ := ret true;
  mysql_close _ := ret tt; mysql_ping_failed _ := ret false; mysql_errno _ := ret 0;
  mysql_thread_id _ := ret 0; mysql_set_character_set _ _ := ret tt;
  mysql_thread_init := ret tt; mysql_thread_end := ret tt;
  queue_run := ret true; queue_standby := ret false; standby_sleep := ret tt;
  thread_sleep := ret tt; thread_error_sleep := ret tt; time_now := ret (Some 0)
|}.

Lemma failed_reconnect_is_final_witness :
  wp (data_loop (random_work (ThreadWalks0 := module_walks 5)) 11 3 (mkData None 1 0))
    (fun r _ => r.1 <> None /\ dt_conn r.2 = None) idle_server.
Proof.
  apply (failed_reconnect_is_final (fun _ => True) 5 2 1 0 idle_server); [|exact I|lia].
  split; intros w Hw; cbn; auto.
Defined.
End BackAgain.

(** ** The address of a new connection *)

Section SameAddress.
Context {W : Type} `{!ConfEnv W} `{!QueryEnv W} `{!QueryAlloc W} `{!ThreadEnv W} `{!ThreadWalks W}.

(** A reconnection is noticed by the address: when the allocator gives the
    address of the connection that was just closed, the prepared queries of the
    closed connection stay. *)
Lemma same_address_keeps_queries t c (w w' : W) :
  ct_conn t = Some c ->
  thread_handle_error ErrorSQLReconnect (Some c) w = Done ((true, Some c), w') ->
  handle_step ErrorSQLReconnect t w
  = Done ((true, mkThread (Some c) 0 (ct_contact_prune t) (ct_project_prune t) (ct_invoice_prune t)
                   (ct_cycle_ts t)), w').
Proof.
  intros Hc E. unfold handle_step. rewrite Hc, (bind_eq _ _ _ _ _ E).
  by rewrite bool_decide_false by naive_solver.
Qed.
End SameAddress.

(** A server whose third walk loses the connection; a query works on the
    connection it was prepared on only.  [rl_reuse]: a new connection gets the
    address of the one that was closed.  The table holds a file that the
    service does not list any more. *)
Record relay := mkRelay {
  rl_reuse : bool;
  rl_connections : Z;
  rl_walks : Z;
  rl_bound : Z;
  rl_deleted : list Z
}.

Section Relay.
#[local] Instance relay_conf : ConfEnv relay := {|
  conf_get_string _ := ret None; conf_get_int _ := ret 0; conf_put_database _ _ _ := ret false |}.
#[local] Instance relay_queries : QueryEnv relay := {|
  query := Z;
  add_param_uint64 _ _ id w :=
    Done (true, mkRelay (rl_reuse w) (rl_connections w) (rl_walks w) id (rl_deleted w));
  database_execute q w :=
    if q =? rl_connections w
    then Done (true, mkRelay (rl_reuse w) (rl_connections w) (rl_walks w) (rl_bound w)
                       (rl_deleted w ++ if rl_bound w =? 0 then [] else [rl_bound w]))
    else Done (false, w);
  database_results _ := ret true;
  query_rows _ := ret [[9; 5]];
  query_need_reconnect q := gets (fun w => negb (q =? rl_connections w));
  database_free_result _ := ret tt
|}.
#[local] Instance relay_alloc : QueryAlloc relay := {|
  new_query _ _ := gets (fun w => Some (rl_connections w)); free_query _ := ret tt |}.
#[local] Instance relay_threads : ThreadEnv relay := {|
  mysql_init w := Done (Some (if rl_reuse w then 1 else rl_connections w + 1),
    mkRelay (rl_reuse w) (rl_connections w + 1) (rl_walks w) (rl_bound w) (rl_deleted w));
  mysql_real_connect _ _ _ _ _ := ret true; mysql_close _ := ret tt;
  mysql_ping_failed _ := ret false; mysql_errno _ := ret 0; mysql_thread_id _ := ret 0;
  mysql_set_character_set _ _ := ret tt; mysql_thread_init := ret tt; mysql_thread_end := ret tt;
  queue_run := ret true; queue_standby := ret false; standby_sleep := ret tt;
  thread_sleep := ret tt; thread_error_sleep := ret tt; time_now := ret (Some 0)
|}.
#[local] Instance relay_walks : ThreadWalks relay := {|
  taxes_walk_item _ := ret NoError; records_walk_more _ := ret NoError;
  kb_sales_walk_items _ := ret NoError; contact_sector_walk_items _ := ret NoError;
  file_walk_items _ := on_snd (fun w =>
    Done (if rl_walks w =? 2 then ErrorSQLReconnect else NoError,
          mkRelay (rl_reuse w) (rl_connections w) (rl_walks w + 1) (rl_bound w) (rl_deleted w)));
  language_load _ := ret NoError; lookup_walks := []
|}.

(** Connect, hydrate, and some turns: the connections made, what was deleted. *)
Definition relay_run (reuse : bool) (turns : nat) : option (Z * list Z) :=
  let run : prog (option Cache * relay) (option Z * FileThread) :=
    conn <- on_snd thread_setup_mysql ;;
    q <- on_snd (new_query conn SELECT_FILES) ;;
    bx_cache_hydrate true q ;;;
    prune <- on_snd (new_query conn DELETE_FILE) ;;
    file_loop turns 1 (mkFile conn 0 prune 0) in
  match run (cache_create true, mkRelay reuse 0 0 0 []) with
  | Done ((None, _), (_, w)) => Some (rl_connections w, rl_deleted w)
  | _ => None
  end.

(** One lost connection.  With another address the vanished file is deleted once its
    drift is over.  With the same address the old query stays, every later turn of this
    run opens another connection, and nothing is deleted. *)
Example address_reuse_stops_pruning :
  relay_run false 40 = Some (2, [9])
  /\ relay_run true 10 = Some (2, []) /\ relay_run true 40 = Some (32, []).
Proof. split; [|split]; vm_compute; reflexivity. Qed.
End Relay.
