(* ===== verification/Login.v ===== *)
(** * The login dialogue ([src/src/bx_oauth.c])

    [bxsync --login]: the client is set up, the browser is sent to the
    authorization page with a PKCE challenge and a state, and the code that
    comes back (on a local port, or pasted into the terminal) is exchanged for
    tokens.  The theorems: only a code that came with the state of this login is
    exchanged, with the verifier whose challenge was sent; a look at the clock
    after the five minutes ends the wait, without another poll. *)
From S2P Require Import Prelude CLib Env Samples Values OAuth.
#[local] Open Scope Z_scope.

Definition BX_OAUTH_AUTHORIZE_URL : string :=
  "https://auth.bexio.com/realms/bexio/protocol/openid-connect/auth".
Definition BX_OAUTH_REDIRECT_DEFAULT : string := "http://127.0.0.1:8765/callback".
Definition BX_OAUTH_DEFAULT_SCOPE : string :=
  "openid offline_access company_profile contact_show kb_invoice_show " +:+
  "kb_offer_show kb_order_show kb_delivery_show kb_bill_show " +:+
  "kb_expense_show kb_article_order_show accounting project_show " +:+
  "article_show note_show task_show file bank_account_show".
Definition BX_OAUTH_LOGIN_TIMEOUT_MS : Z := 5 * 60 * 1000.

(** What [poll] and [write] answer. *)
Inductive poll_result := PollReady (listener input : bool) | PollTimeout | PollInterrupted | PollFailed.
Inductive write_result := Wrote (n : Z) | WriteInterrupted | WriteFailed.

(** liboauth2, OpenSSL, sockets, the terminal and the clock. *)
Class LoginEnv (W : Type) := {
  url_decode : string -> option string;                  (* [oauth2_url_decode] *)
  le_log_init : prog W bool;
  le_endpoint_init : prog W bool;
  le_set_endpoint : string -> list (string * string) -> prog W bool;
  le_log_shutdown : prog W unit;
  le_rand : Z -> prog W (option string);
  le_digest : string -> prog W (option string);          (* SHA-256 *)
  le_base64url : string -> prog W (option string);       (* [None]: [NULL] or no bytes *)
  le_query_encode : string -> list (string * string) -> prog W (option string);
  le_print : string -> prog W unit;
  le_socket : prog W (option Z);
  le_reuse_address : Z -> prog W unit;
  le_bind : Z -> Z -> prog W bool;
  le_listen : Z -> prog W bool;
  le_accept : Z -> prog W (option Z);
  le_read_timeout : Z -> Z -> prog W unit;
  le_read : Z -> prog W (option ascii);                  (* [None]: the end or an error *)
  le_write : Z -> string -> prog W write_result;
  le_close : Z -> prog W unit;
  le_poll : option Z -> Z -> prog W poll_result;         (* the listener and the terminal *)
  le_fgets : prog W (option string);
  le_clock : prog W (Z * Z)                              (* seconds, nanoseconds *)
}.

(** A buffer read as a C string. *)
Fixpoint until_nul (s : string) : string :=
  match s with
  | EmptyString => EmptyString
  | String c s => if Ascii.eqb c "000" then EmptyString else String c (until_nul s)
  end.
(** [strchr(s, '=')] cut off. *)
Fixpoint before_equals (s : string) : string :=
  match s with
  | EmptyString => EmptyString
  | String c s => if Ascii.eqb c "=" then EmptyString else String c (before_equals s)
  end.

Section Login.
Context `{Jansson} {W : Type} `{!OAuthEnv W} `{!LoginEnv W}.

Definition outside {A} (m : prog W A) : oa_prog (W := W) A := on_snd m.

(** ** Init and destroy *)

(** A configuration string that is there and not empty, copied. *)
Definition conf_string (key : string) : oa_prog (W := W) (option string) :=
  s <- call (oe_conf_get_string key) ;;
  match s with
  | None | Some EmptyString => ret None
  | Some s => dup_str s
  end.

Definition endpoint_options (client_id secret : string) : list (string * string) :=
  [("auth", "client_secret_basic"); ("client_id", client_id); ("client_secret", secret)].

(** [endpoint]: the token endpoint was made; the log is there. *)
Definition bx_oauth_destroy : oa_prog (W := W) unit :=
  oauth_unlock ;;; outside le_log_shutdown.

(** The object is filled in the first component of the world; [true] when it is
    returned. *)
Definition bx_oauth_init : oa_prog (W := W) bool :=
  m <- call oe_malloc ;;
  if negb m then ret false else
  log <- outside le_log_init ;;
  if negb log then ret false else
  client_id <- conf_string "oauth-client-id" ;;
  secret <- conf_string "oauth-client-secret" ;;
  uri <- conf_string "oauth-redirect-uri" ;;
  scope <- conf_string "oauth-scope" ;;
  uri <- (match uri with None => dup_str BX_OAUTH_REDIRECT_DEFAULT | Some _ => ret uri end) ;;
  scope <- (match scope with None => dup_str BX_OAUTH_DEFAULT_SCOPE | Some _ => ret scope end) ;;
  let fields client_id uri scope : BXOAuth :=
    mkOAuth client_id uri scope None None 0 false None false false in
  match client_id, secret, uri, scope with
  | Some client_id, Some secret, Some uri, Some scope =>
      oa_set (fun _ => fields client_id uri scope) ;;;
      opts <- call oe_nv_list ;;
      ep <- outside le_endpoint_init ;;
      if negb (opts && ep) then bx_oauth_destroy ;;; ret false else
      ok <- outside (le_set_endpoint BX_OAUTH_TOKEN_URL (endpoint_options client_id secret)) ;;
      if negb ok then bx_oauth_destroy ;;; ret false else ret true
  | _, _, _, _ =>
      oa_set (fun _ => fields EmptyString EmptyString EmptyString) ;;;
      bx_oauth_destroy ;;; ret false
  end.

(** ** The challenge *)

(** base64url of the digest of the verifier, without its padding. *)
Definition pkce_challenge (verifier : string) : oa_prog (W := W) (option string) :=
  hash <- outside (le_digest verifier) ;;
  match hash with
  | None => ret None
  | Some hash =>
      b64 <- outside (le_base64url hash) ;;
      match b64 with
      | None => ret None
      | Some b64 => m <- call oe_malloc ;; ret (if m : bool then Some (before_equals b64) else None)
      end
  end.

(** ** The callback *)

Definition listen_local (port : Z) : prog W (option Z) :=
  fd <- le_socket ;;
  match fd with
  | None => ret None
  | Some fd =>
      le_reuse_address fd ;;;
      bound <- le_bind fd port ;;
      listening <- (if bound : bool then le_listen fd else ret false) ;;
      if negb listening then le_close fd ;;; ret None else ret (Some fd)
  end.

Definition CRLF : string := String "013" (String "010" EmptyString).
Definition REPLY : string :=
  "HTTP/1.1 200 OK" +:+ CRLF +:+ "Content-Type: text/html; charset=utf-8" +:+ CRLF
  +:+ "Connection: close" +:+ CRLF +:+ CRLF
  +:+ "<!DOCTYPE html><html><body><p>bxsync got the browser callback. "
  +:+ "Return to the terminal.</p></body></html>" +:+ String "010" EmptyString.

(** The rest of the text is written until nothing is left; [fuel] bounds the
    calls. *)
Fixpoint reply_loop (fuel : nat) (fd : Z) (rest : string) : prog W unit :=
  match rest with
  | EmptyString => ret tt
  | _ =>
      match fuel with
      | O => out_of_fuel
      | S fuel =>
          r <- le_write fd rest ;;
          match r with
          | WriteFailed => ret tt
          | WriteInterrupted => reply_loop fuel fd rest
          | Wrote n => reply_loop fuel fd (String.substring (Z.to_nat n) (String.length rest) rest)
          end
      end
  end.
Definition reply_ok (fuel : nat) (fd : Z) : prog W unit := reply_loop fuel fd REPLY.

(** One line of at most 4095 bytes, byte by byte. *)
Fixpoint read_request (n : nat) (fd : Z) : prog W string :=
  match n with
  | O => ret EmptyString
  | S n =>
      c <- le_read fd ;;
      match c with
      | None => ret EmptyString
      | Some c =>
          if Ascii.eqb c "010" then ret (String c EmptyString)
          else rest <- read_request n fd ;; ret (String c rest)
      end
  end.

(** The code of a text whose state is the expected one. *)
Definition matching_code (text expect : string) : option string :=
  match query_value url_decode (Some text) (Some "code"%string),
        query_value url_decode (Some text) (Some "state"%string) with
  | Some code, Some state => if str_eq state expect then Some code else None
  | _, _ => None
  end.

Definition accept_code (fuel : nat) (lfd : Z) (expect_state : string) : prog W (option string) :=
  cfd <- le_accept lfd ;;
  match cfd with
  | None => ret None
  | Some cfd =>
      le_read_timeout cfd 5 ;;;
      req <- read_request (Z.to_nat 4095) cfd ;;
      reply_ok fuel cfd ;;;
      le_close cfd ;;;
      ret (matching_code (until_nul req) expect_state)
  end.

(** ** Waiting *)

Definition login_left (start now : Z * Z) : Z :=
  BX_OAUTH_LOGIN_TIMEOUT_MS
  - i32 ((now.1 - start.1) * 1000 + Z.quot (now.2 - start.2) 1000000).

(** A turn of the loop: the end of the wait with its code, or another turn. *)
Definition login_turn (fuel : nat) (lfd : option Z) (state : string) (start : Z * Z)
    : prog W (option (option string)) :=
  now <- le_clock ;;
  let left := login_left start now in
  if left <=? 0 then ret (Some None) else
  pr <- le_poll lfd left ;;
  match pr with
  | PollInterrupted => ret None
  | PollFailed | PollTimeout => ret (Some None)
  | PollReady listener input =>
      code <- match lfd with
              | Some fd => if listener then accept_code fuel fd state else ret None
              | None => ret None
              end ;;
      match code with
      | Some code => ret (Some (Some code))
      | None =>
          if negb input then ret None else
          line <- le_fgets ;;
          match line with
          | None => ret None
          | Some line =>
              match code_from_line url_decode line state with
              | Some code => ret (Some (Some code))
              | None => ret None
              end
          end
      end
  end.

Fixpoint login_wait (turns fuel : nat) (lfd : option Z) (state : string) (start : Z * Z)
    : prog W (option string) :=
  match turns with
  | O => out_of_fuel
  | S turns =>
      r <- login_turn fuel lfd state start ;;
      match r with
      | Some code => ret code
      | None => login_wait turns fuel lfd state start
      end
  end.

Definition login_params (oa : BXOAuth) (state challenge : string) : list (string * string) :=
  [("response_type", "code"); ("client_id", oa_client_id oa); ("redirect_uri", oa_redirect_uri oa);
   ("scope", oa_scope oa); ("state", state); ("code_challenge", challenge);
   ("code_challenge_method", "S256")]%string.

(** From the help text to the exchange; the listener is closed in the end. *)
Definition login_dialogue (turns fuel : nat) (port : Z) (url verifier state : string)
    : oa_prog (W := W) BXOauthStatus :=
  outside (le_print url) ;;;
  lfd <- outside (listen_local port) ;;
  start <- outside le_clock ;;
  code <- outside (login_wait turns fuel lfd state start) ;;
  ok <- match code with Some code => exchange_code code verifier | None => ret false end ;;
  match lfd with Some fd => outside (le_close fd) | None => ret tt end ;;;
  ret (if ok : bool then BX_OAUTH_OK else BX_OAUTH_FAILED).

Definition bx_oauth_login (turns fuel : nat) : oa_prog (W := W) BXOauthStatus :=
  uri <- oa_get oa_redirect_uri ;;
  match redirect_port uri with
  | None => ret BX_OAUTH_FAILED
  | Some port =>
      verifier <- outside (le_rand 64) ;;
      state <- outside (le_rand 32) ;;
      match verifier, state with
      | Some verifier, Some state =>
          challenge <- pkce_challenge verifier ;;
          match challenge with
          | None => ret BX_OAUTH_FAILED
          | Some challenge =>
              m <- call oe_nv_list ;;
              if negb m then ret BX_OAUTH_FAILED else
              oa <- oa_get (fun oa => oa) ;;
              url <- outside (le_query_encode BX_OAUTH_AUTHORIZE_URL (login_params oa state challenge)) ;;
              match url with
              | None => ret BX_OAUTH_FAILED
              | Some url => login_dialogue turns fuel port url verifier state
              end
          end
      | _, _ => ret BX_OAUTH_FAILED
      end
  end.
End Login.

(** ** What is exchanged *)

Section LoginSpec.
Context `{Jansson} {W : Type} `{!OAuthEnv W} `{!LoginEnv W}.

(** A text carries a code with the state of the login. *)
Definition carries (text state code : string) : Prop :=
  query_value url_decode (Some text) (Some "state"%string) = Some state
  /\ query_value url_decode (Some text) (Some "code"%string) = Some code.

Lemma matching_code_carries text state code : matching_code text state = Some code -> carries text state code.
Proof.
  unfold matching_code, carries. repeat case_match; try done.
  intros [= <-]. split; [|done]. f_equal. by apply str_eq_true.
Qed.

Lemma code_from_line_carries line state code :
  code_from_line url_decode line state = Some code -> exists text, carries text state code.
Proof.
  induction line as [|c line IH]; cbn [code_from_line]; [done|].
  destruct (isspace c); [done|]. intros Hc. exists (String c line).
  by apply matching_code_carries.
Qed.

Lemma login_turn_carries fuel lfd state start (w : W) code w' :
  login_turn fuel lfd state start w = Done (Some (Some code), w') -> exists text, carries text state code.
Proof.
  unfold login_turn. intros (now & w1 & _ & E)%bind_Done. cbv zeta in E.
  destruct (_ <=? 0); [done|]. apply bind_Done in E as (pr & w2 & _ & E).
  destruct pr as [l i| | |]; try done. apply bind_Done in E as (r & w3 & Er & E).
  destruct r as [r|].
  - injection E as -> _. destruct lfd as [fd|]; [|done]. destruct l; [|done].
    apply bind_Done in Er as ([cfd|] & w4 & _ & Er); [|done]. inv_done.
    eexists. by apply matching_code_carries.
  - destruct i; cbn [negb] in E; [|done]. apply bind_Done in E as ([line|] & w4 & _ & E); [|done].
    destruct (code_from_line _ line state) as [r|] eqn:El; [|done]. injection E as -> _.
    by apply code_from_line_carries in El.
Qed.


(** At the end of the terminal's input the array of [poll] is filled again in the
    next turn: the [-1] that was stored there does nothing, and a poll that
    reports the end at once makes another turn at once. *)
Lemma end_of_input_polls_again fuel state start (w : W) now w1 w2 w3 :
  le_clock w = Done (now, w1) -> 0 < login_left start now ->
  le_poll None (login_left start now) w1 = Done (PollReady false true, w2) ->
  le_fgets w2 = Done (None, w3) ->
  login_turn fuel None state start w = Done (None, w3).
Proof.
  intros E1 Hl E2 E3. unfold login_turn. rewrite (bind_eq _ _ _ _ _ E1). cbv zeta.
  destruct (Z.leb_spec (login_left start now) 0); [lia|].
  rewrite (bind_eq _ _ _ _ _ E2). cbn [negb]. rewrite bind_ret. by rewrite (bind_eq _ _ _ _ _ E3).
Qed.



End LoginSpec.

(** ** The five minutes *)

Section Deadline.
Context `{Jansson} {W : Type} `{!LoginEnv W}.
Context (fuel : nat) (lfd : option Z) (state : string) (start : Z * Z).

(** The time since the start, in nanoseconds. *)
Definition elapsed (now : Z * Z) : Z := (now.1 - start.1) * 10 ^ 9 + (now.2 - start.2).

(** The clock shows five minutes and a millisecond after the start, or more (up to the
    23 days that fit the [int] of the code). *)
Definition too_late (now : Z * Z) : Prop :=
  0 <= start.2 < 10 ^ 9 /\ 0 <= now.2 < 10 ^ 9
  /\ 300001 * 10 ^ 6 <= elapsed now < 2 * 10 ^ 15.

(** The milliseconds that the loop computes are exact up to one. *)
Lemma login_left_near now :
  0 <= start.2 < 10 ^ 9 -> 0 <= now.2 < 10 ^ 9 -> - (10 ^ 15) < elapsed now < 2 * 10 ^ 15 ->
  exists e, login_left start now = BX_OAUTH_LOGIN_TIMEOUT_MS - e
    /\ elapsed now - 10 ^ 6 < e * 10 ^ 6 < elapsed now + 10 ^ 6.
Proof.
  unfold elapsed, login_left. intros Bs Bn Hd.
  set (x := now.2) in *. set (y := start.2) in *.
  assert (- (10 ^ 6) < Z.quot (x - y) 1000000 * 10 ^ 6 - (x - y) < 10 ^ 6) as Hq.
  { pose proof (Z.quot_rem (x - y) 1000000 ltac:(lia)) as E.
    pose proof (Z.rem_bound_abs (x - y) 1000000 ltac:(lia)) as B. lia. }
  set (q := Z.quot (x - y) 1000000) in *. exists ((now.1 - start.1) * 1000 + q).
  split; [|lia]. f_equal. apply i32_small. unfold is_i32. lia.
Qed.

Lemma too_late_left now : too_late now -> login_left start now <= 0.
Proof.
  intros (Hs & Hn & Hd). destruct (login_left_near now Hs Hn) as (e & -> & He); [lia|].
  unfold BX_OAUTH_LOGIN_TIMEOUT_MS. lia.
Qed.

(** [k] turns that went on: each saw the clock before the deadline and polled for the
    time that was left, and the poll was interrupted or reported something. *)
Inductive went_on : nat -> W -> W -> Prop :=
| went_none w : went_on 0 w w
| went_more k w now w1 pr w2 w3 w' :
    le_clock w = Done (now, w1) -> 0 < login_left start now -> ~ too_late now ->
    le_poll lfd (login_left start now) w1 = Done (pr, w2) ->
    (pr = PollInterrupted \/ exists listener input, pr = PollReady listener input) ->
    login_turn fuel lfd state start w = Done (None, w3) -> went_on k w3 w' ->
    went_on (S k) w w'.

(** How the last turn ends, the clock having shown [now]. *)
Definition last_turn (now : Z * Z) (w1 : W) (r : option string) (w' : W) : Prop :=
  if decide (0 < login_left start now) then
    exists pr w2, le_poll lfd (login_left start now) w1 = Done (pr, w2)
    /\ match r with
       | None => (pr = PollTimeout \/ pr = PollFailed) /\ w' = w2
       | Some code => ~ too_late now
           /\ (exists listener input, pr = PollReady listener input)
           /\ exists text, carries text state code
       end
  else r = None /\ w' = w1.

Lemma login_turn_cases (w : W) r w' :
  login_turn fuel lfd state start w = Done (r, w') ->
  exists now w1, le_clock w = Done (now, w1) /\
  match r with
  | Some r => last_turn now w1 r w'
  | None => 0 < login_left start now /\ exists pr w2,
      le_poll lfd (login_left start now) w1 = Done (pr, w2)
      /\ (pr = PollInterrupted \/ exists listener input, pr = PollReady listener input)
  end.
Proof.
  intros Et. pose proof Et as E. unfold login_turn in E.
  apply bind_Done in E as (now & w1 & Ec & E). cbv zeta in E.
  exists now, w1. split; [done|]. unfold last_turn.
  destruct (Z.leb_spec (login_left start now) 0) as [Hl|Hl].
  { injection E as <- <-. by rewrite decide_False by lia. }
  assert (~ too_late now) as Hlate by (intros ?%too_late_left; lia).
  apply bind_Done in E as (pr & w2 & Ep & E). destruct r as [[code|]|].
  - rewrite decide_True by done. exists pr, w2. split; [done|]. split; [done|].
    split; [|by eapply login_turn_carries]. destruct pr; try done. by eexists _, _.
  - rewrite decide_True by done. exists pr, w2. split; [done|].
    destruct pr as [l i| | |]; try done.
    + exfalso. apply bind_Done in E as ([r|] & w3 & _ & E); [done|].
      destruct i; cbn [negb] in E; [|done]. apply bind_Done in E as ([line|] & w4 & _ & E); [|done].
      by destruct (code_from_line _ line state).
    + injection E as <-. by split; [left|].
    + injection E as <-. by split; [right|].
  - split; [done|]. exists pr, w2. split; [done|].
    destruct pr as [l i| | |]; try done; [right; by eexists _, _|by left].
Qed.

(** A wait whose clock shows the five minutes over ends there. *)
Lemma login_wait_stops turns k (w : W) wk now w1 :
  went_on k w wk -> le_clock wk = Done (now, w1) -> too_late now -> (k < turns)%nat ->
  login_wait turns fuel lfd state start w = Done (None, w1).
Proof.
  intros Hon. revert turns. induction Hon as [w|k w now' w2 pr w3 w4 w' Ec Hl Hlate Ep Hpr Et Hon IH];
    intros [|turns] Ek Hlate' Hk; try lia; cbn [login_wait].
  - unfold login_turn at 1. unfold bind at 1 2. rewrite Ek. cbv zeta.
    by rewrite (proj2 (Z.leb_le _ _) (too_late_left _ Hlate')).
  - unfold bind at 1. rewrite Et. apply IH; [done..|lia].
Qed.

(** Claim C28. The wait for the code and its five minutes, with no assumption on the
    browser, the terminal or the clock.  Every look at the clock comes before the poll of
    its turn, and the poll is given the time that is left.  A turn that finds the five
    minutes over (to the millisecond) ends the wait at once without a code: it does not
    poll, accept or read.  So whatever turns a wait made, each began in time, and a code
    is only returned by a turn that began in time, polled and got a text with the state of
    the login; and once the clock of a turn shows the five minutes over, the wait returns,
    without a code.  How long one call to accept or to read a line takes, and so whether
    the next turn comes, is not spoken of. *)
Theorem login_wait_deadline turns (w : W) :
  (forall r w', login_wait turns fuel lfd state start w = Done (r, w') ->
     exists k wk now w1, (k < turns)%nat /\ went_on k w wk /\ le_clock wk = Done (now, w1)
     /\ last_turn now w1 r w'
     /\ (too_late now -> r = None /\ w' = w1))
  /\ (forall k wk now w1, went_on k w wk -> le_clock wk = Done (now, w1) -> too_late now ->
     (k < turns)%nat -> login_wait turns fuel lfd state start w = Done (None, w1)).
Proof.
  split; [|intros; by eapply login_wait_stops].
  revert w. induction turns as [|turns IH]; intros w r w'; cbn [login_wait]; [done|].
  intros (r1 & w1 & Et & E)%bind_Done.
  destruct (login_turn_cases w r1 w1 Et) as (now & w2 & Ec & Hr). destruct r1 as [code|].
  - injection E as <- <-. exists 0%nat, w, now, w2. split; [lia|]. split; [constructor|].
    split; [done|]. split; [done|]. intros Hl%too_late_left. unfold last_turn in Hr.
    by rewrite decide_False in Hr by lia.
  - destruct Hr as (Hl & pr & w3 & Ep & Hpr).
    apply IH in E as (k & wk & now' & w4 & Hk & Hon & Hrest). exists (S k), wk, now', w4.
    split; [lia|]. split; [|done]. eapply went_more; try done.
    intros ?%too_late_left. lia.
Qed.
End Deadline.

(** ** A login at the terminal

    The port is taken, so the address is pasted: first one of another login,
    then the right one.  The token endpoint answers with two tokens. *)
Record browser := mkBrowser {
  br_clock : Z;                              (* nanoseconds *)
  br_lines : list string;
  br_posted : list (list (string * string));
  br_saved : list string                     (* statements and values *)
}.

Section Browser.
Definition saved (s : string) (w : browser) : bool * browser :=
  (true, mkBrowser (br_clock w) (br_lines w) (br_posted w) (br_saved w ++ [s])).

#[local] Instance browser_oauth : OAuthEnv browser := {|
  oe_malloc w := (true, w);
  oe_conf_get_string key w :=
    (if str_eq key "mysql-host" || str_eq key "mysql-user" || str_eq key "mysql-database"
        || str_eq key "oauth-client-id" || str_eq key "oauth-client-secret"
     then Some key else None, w);
  oe_conf_get_int _ w := (0, w);
  oe_conf_set_string key _ := saved key;
  oe_conf_set_int key _ := saved key;
  oe_conf_release _ w := (tt, w);
  oe_conf_load_database w := (true, w);
  oe_mysql_init w := (Some 1, w);
  oe_real_connect _ _ _ _ _ w := (true, w);
  oe_mysql_close _ w := (tt, w);
  oe_mysql_query _ sql := saved sql;
  oe_store_result _ w := (Some [[Some "1"%string]], w);
  oe_stmt_init _ w := (Some 1, w);
  oe_stmt_prepare _ _ w := (true, w);
  oe_stmt_execute _ binds :=
    saved (match binds with _ :: _ :: _ :: BString s :: _ => s | _ => EmptyString end);
  oe_stmt_close _ w := (tt, w);
  oe_nv_list w := (true, w);
  oe_http_ctx w := (true, w);
  oe_http_auth w := (true, w);
  oe_post_form form w :=
    (Some "{}"%string, mkBrowser (br_clock w) (br_lines w) (br_posted w ++ [form]) (br_saved w));
  oe_decode_object _ w := (Some (J (JObject [])), w);
  oe_json_string _ key :=
    if str_eq key "access_token" then Some "new-access"%string
    else if str_eq key "refresh_token" then Some "new-refresh"%string else None;
  oe_json_number _ _ := 3600;
  oe_time w := (1000, w)
|}.
#[local] Instance browser_login : LoginEnv browser := {|
  url_decode s := Some s;
  le_log_init := ret true; le_endpoint_init := ret true; le_set_endpoint _ _ := ret true;
  le_log_shutdown := ret tt;
  le_rand n := ret (Some (if (n =? 64)%Z then "verifier"%string else "st4te"%string));
  le_digest s := ret (Some ("sha:" +:+ s)%string); le_base64url s := ret (Some (s +:+ "==")%string);
  le_query_encode url _ := ret (Some url); le_print _ := ret tt;
  le_socket := ret (Some 5); le_reuse_address _ := ret tt; le_bind _ _ := ret false;
  le_listen _ := ret false; le_accept _ := ret None; le_read_timeout _ _ := ret tt;
  le_read _ := ret None; le_write _ s := ret (Wrote (Z.max 1 (Z.of_nat (String.length s))));
  le_close _ := ret tt; le_poll _ _ := ret (PollReady false true);
  le_fgets w := match br_lines w with
                | [] => Done (None, w)
                | l :: ls => Done (Some l, mkBrowser (br_clock w) ls (br_posted w) (br_saved w))
                end;
  le_clock w := let t := br_clock w + 10 ^ 6 in
    Done ((t / 10 ^ 9, t mod 10 ^ 9), mkBrowser t (br_lines w) (br_posted w) (br_saved w))
|}.

Definition at_terminal : browser :=
  mkBrowser 0 ["http://127.0.0.1:8765/callback?code=theirs&state=other";
               "  http://127.0.0.1:8765/callback?code=abc&state=st4te"]%string [] [].
Definition fresh_client : BXOAuth :=
  match bx_oauth_init (with_tokens None false, at_terminal) with
  | Done (true, (o, _)) => o
  | _ => with_tokens None false
  end.
Definition logged_in : BXOauthStatus * (BXOAuth * browser) :=
  match bx_oauth_login 9 240 (fresh_client, at_terminal) with
  | Done x => x
  | _ => (BX_OAUTH_FAILED, (fresh_client, at_terminal))
  end.

(** One code is posted, with the verifier, and the new tokens are stored. *)
Example login_ex :
  logged_in.1 = BX_OAUTH_OK
  /\ br_posted logged_in.2.2 =
     [[("grant_type", "authorization_code"); ("code", "abc");
       ("redirect_uri", BX_OAUTH_REDIRECT_DEFAULT); ("client_id", "oauth-client-id");
       ("code_verifier", "verifier")]]%string
  /\ oa_refresh_token logged_in.2.1 = Some "new-refresh"%string
  /\ oa_lock_conn logged_in.2.1 = None.
Proof. vm_compute. auto. Qed.


(** The wait at the terminal, from the clock of its start. *)
Definition waited : option string * browser :=
  match login_wait 9 240 (Some 5) "st4te" (0, 0) at_terminal with
  | Done x => x
  | _ => (None, at_terminal)
  end.

Lemma login_wait_deadline_witness :
  waited.1 = Some "abc"%string
  /\ exists k wk now w1, (k < 9)%nat /\ went_on 240 (Some 5) "st4te" (0, 0) k at_terminal wk
  /\ le_clock wk = Done (now, w1)
  /\ last_turn (Some 5) "st4te" (0, 0) now w1 waited.1 waited.2
  /\ (too_late (0, 0) now -> waited.1 = None /\ waited.2 = w1).
Proof.
  split; [vm_compute; reflexivity|].
  destruct (login_wait_deadline 240 (Some 5) "st4te" (0, 0) 9 at_terminal) as [Hw _].
  apply Hw. vm_compute. reflexivity.
Defined.
End Browser.
