(* ===== verification/Start.v ===== *)
(** * The start of the process ([src/src/main.c])

    The command line, the daemon, the pid file, the order in which [main] starts
    and stops the other parts, and the signals.  [main] runs over the log of
    [Log] and the settings of [Conf]; its calls of the other parts are an
    interface.  The theorems: in daemon mode [main] calls no part of the service
    before the process has the configured group and user, and each of them as
    those; the signal loop ends on a kill signal only, and a kill signal that
    comes between its test and [pause] waits for another signal. *)
From S2P Require Import Prelude CLib Env Samples Values Utils Walk Chain Conf IdsCache Prune ChainThread OAuth Threads Log.
#[local] Open Scope Z_scope.

(** ** The system and the other parts *)

Definition O_WRONLY : Z := 1.
Definition O_RDWR : Z := 2.
Definition O_CREAT : Z := 64.
Definition LOCK_EX : Z := 2.
Definition LOCK_NB : Z := 4.
Definition SIGHUP : Z := 1.
Definition SIGINT : Z := 2.
Definition SIGTERM : Z := 15.

(** The system calls; an integer is what the C function returns. *)
Class ProcessEnv (V : Type) := {
  sys_fork : prog V Z;
  sys_setsid : prog V Z;
  sys_chdir : string -> prog V Z;
  sys_umask : Z -> prog V unit;
  sys_open : string -> Z -> Z -> prog V Z;              (* path, flags, mode *)
  sys_close : Z -> prog V unit;
  sys_dup2 : Z -> Z -> prog V unit;
  sys_flock : Z -> Z -> prog V Z;
  sys_getpid : prog V Z;
  sys_write : Z -> string -> prog V Z;
  sys_fsync : Z -> prog V unit;
  sys_setgid : Z -> prog V Z;
  sys_setuid : Z -> prog V Z;
  sys_sigaction : Z -> prog V Z;                        (* of [signal_hander] *)
  sys_pause : prog V unit;
  sys_sleep : Z -> prog V unit;
  sys_usleep : Z -> prog V unit;
  log_fopen : string -> prog V bool                     (* [fopen(path, "a")] *)
}.

Inductive e_ThreadList := CHAIN_THREAD | CONTACT_SECTOR_THREAD | RANDOM_ITEM_THREAD | FILE_THREAD.

(** What [main] calls in the other files, and the flags of the handler. *)
Class MainCalls (W : Type) := {
  mysql_library_init : prog W unit;
  mysql_library_end : prog W unit;
  oauth_init : prog W bool;                             (* [bx_oauth_init]: not [NULL] *)
  oauth_login : prog W BXOauthStatus;
  oauth_destroy : prog W unit;
  utils_init : prog W bool;
  utils_close : prog W unit;
  log_thread_create : prog W unit;
  log_thread_join : prog W unit;                        (* [logthread] cleared first *)
  net_init : prog W bool;                               (* not [NULL] *)
  net_destroy : prog W unit;
  request_thread_create : prog W unit;                  (* the list, [bx_net_loop] *)
  request_list_stop : prog W unit;                      (* [queue->run = 0] *)
  request_signal_in : prog W unit;
  request_thread_join : prog W unit;
  request_broadcast_out : prog W unit;
  request_list_destroy : prog W unit;
  country_code_load : prog W bool;
  country_list_free : prog W unit;
  chain_init : prog W unit;
  data_thread_create : e_ThreadList -> prog W unit;
  data_thread_join : e_ThreadList -> prog W unit;
  kill_flag : prog W bool;
  reload_flag : prog W bool;
  reload_flag_clear : prog W unit
}.

Section Start.
Context `{Jansson} `{!XXH3} `{!StrtodEnd} {V : Type} `{!ConfClient V} `{!ConfFile V} `{!ProcessEnv V}
  `{!ThreadEnv (BXConf * V)} `{!ThreadWalks (BXConf * V)} `{!MainCalls (BXConf * V)}.

(** The log, the settings, and the rest. *)
Definition main_prog (A : Type) : Type := prog (s_BXLog * (BXConf * V)) A.
Definition parts {A} (m : prog (BXConf * V) A) : main_prog A := on_snd m.
Definition sys {A} (m : prog V A) : main_prog A := on_snd (on_snd m).

Definition log_init : main_prog bool :=
  path <- parts (bx_conf_get_string "log-file") ;;
  level <- parts (bx_conf_get_int "log-level") ;;
  opened <- sys (log_fopen (match path with None => LOG_FILE | Some path => path end)) ;;
  on_fst (bx_log_init true opened path level).
Definition log_write (msg : string) : main_prog unit := on_fst (bx_log_write msg).
Definition log_reopen : main_prog unit :=
  log <- gets fst ;;
  opened <- sys (log_fopen (lg_path log)) ;;
  on_fst (reopen_region opened).

(** ** [deamon] *)

Definition STDIN_FILENO : Z := 0.
Definition STDOUT_FILENO : Z := 1.
Definition STDERR_FILENO : Z := 2.

(** [fork]: the code of the [exit], or [None] in the process that goes on. *)
Definition fork_or_exit (msg : string) : main_prog (option Z) :=
  pid <- sys sys_fork ;;
  if pid <? 0 then log_write msg ;;; ret (Some EXIT_FAILURE)
  else ret (if 0 <? pid then Some EXIT_SUCCESS else None).

(** The descriptors of the terminal, then 0. *)
Definition to_dev_null : main_prog (Z + Z) :=
  sys (sys_close STDIN_FILENO) ;;;
  sys (sys_close STDOUT_FILENO) ;;;
  sys (sys_close STDERR_FILENO) ;;;
  fd <- sys (sys_open "/dev/null" O_RDWR 0) ;;
  if fd <? 0 then log_write "Cannot open /dev/null" ;;; ret (inl EXIT_FAILURE) else
  sys (sys_dup2 fd STDIN_FILENO) ;;;
  sys (sys_dup2 fd STDERR_FILENO) ;;;
  sys (sys_dup2 fd STDOUT_FILENO) ;;;
  (if 2 <? fd then sys (sys_close fd) else ret tt) ;;;
  ret (inr 0).

(** [inl] is [exit], [inr] is [return]. *)
Definition deamon (fork_once : Z) : main_prog (Z + Z) :=
  left <- fork_or_exit "Cannot fork" ;;
  match left with
  | Some code => ret (inl code)
  | None =>
      sid <- sys sys_setsid ;;
      if sid <? 0 then log_write "Cannot set session id" ;;; ret (inl EXIT_FAILURE) else
      left <- (if fork_once =? 0 then fork_or_exit "Cannot fork again" else ret None) ;;
      match left with
      | Some code => ret (inl code)
      | None =>
          dir <- sys (sys_chdir "/") ;;
          (if dir <? 0 then log_write "Cannot change directory" else ret tt) ;;;
          sys (sys_umask 0) ;;;
          to_dev_null
      end
  end.

(** ** [write_pid] *)

Definition PID_FILE : string := "/run/bxsync.pid".
Definition pid_line (pid : Z) : string := (dec pid +:+ String "010" EmptyString)%string.

(** [write(...) < len] compares a [ssize_t] with a [size_t]. *)
Definition short_write (written len : Z) : bool := u64 written <? len.

Definition write_pid (pid_file : option string) : main_prog Z :=
  fd <- sys (sys_open (match pid_file with None => PID_FILE | Some f => f end)
               (Z.lor O_WRONLY O_CREAT) 420) ;;
  if fd <? 0 then log_write "Log file could not be opened" ;;; ret (-1) else
  locked <- sys (sys_flock fd (Z.lor LOCK_EX LOCK_NB)) ;;
  if locked =? -1 then
    log_write "Log file could not be locked" ;;; sys (sys_close fd) ;;; ret (-1)
  else
    pid <- sys sys_getpid ;;
    written <- sys (sys_write fd (pid_line pid)) ;;
    if short_write written (strlen (pid_line pid)) then
      log_write "Log file could not be written" ;;; sys (sys_close fd) ;;; ret (-1)
    else sys (sys_fsync fd) ;;; ret fd.

(** ** [main] *)

(** The command line: whether to log in, and the path of the settings. *)
Definition command_line (argv : list string) : option (bool * string) :=
  match argv with
  | _ :: first :: rest =>
      if str_eq first "--login" then
        match rest with [] => None | path :: _ => Some (true, path) end
      else Some (false, first)
  | _ => None
  end.

(** After the log is open: [bx_log_write], the settings and the log closed, [exit]. *)
Definition end_with (msg : string) : main_prog (Z + Z) :=
  log_write msg ;;; on_fst bx_log_close ;;; ret (inl EXIT_FAILURE).

(** The daemon, the pid file, the group and the user; the descriptor of the pid file. *)
Definition become_deamon : main_prog (Z + Z) :=
  once <- parts (bx_conf_get_int "fork-single") ;;
  d <- deamon once ;;
  match d with
  | inl code => ret (inl code)
  | inr st =>
      if negb (st =? 0) then end_with "Error going deamon" else
      path <- parts (bx_conf_get_string "pid-file") ;;
      fd <- write_pid path ;;
      if fd <? 0 then end_with "Error writing pid" else
      gid <- parts (bx_conf_get_int "gid") ;;
      st <- sys (sys_setgid gid) ;;
      if negb (st =? 0) then end_with "setgid failed" else
      uid <- parts (bx_conf_get_int "uid") ;;
      st <- sys (sys_setuid uid) ;;
      if negb (st =? 0) then end_with "setuid failed" else ret (inr fd)
  end.

Fixpoint set_handlers (sigs : list Z) : main_prog bool :=
  match sigs with
  | [] => ret true
  | sig :: sigs =>
      st <- sys (sys_sigaction sig) ;;
      if st =? -1 then ret false else set_handlers sigs
  end.

Definition thread_list : list e_ThreadList :=
  [CHAIN_THREAD; CONTACT_SECTOR_THREAD; RANDOM_ITEM_THREAD; FILE_THREAD].

Fixpoint for_threads (f : e_ThreadList -> prog (BXConf * V) unit) (l : list e_ThreadList) : main_prog unit :=
  match l with
  | [] => ret tt
  | t :: l => parts (f t) ;;; for_threads f l
  end.

(** [while (!kill_signal) { ... pause(); }]; the order with signals is below. *)
Fixpoint signal_loop (fuel : nat) : main_prog unit :=
  match fuel with
  | O => out_of_fuel
  | S fuel =>
      kill <- parts kill_flag ;;
      if kill : bool then ret tt else
      reload <- parts reload_flag ;;
      (if reload : bool then log_reopen ;;; parts reload_flag_clear else ret tt) ;;;
      sys sys_pause ;;;
      signal_loop fuel
  end.

Definition stop_all (pid_file_fd : Z) : main_prog unit :=
  parts request_list_stop ;;;
  sys (sys_sleep 5) ;;;
  parts request_signal_in ;;;
  parts request_thread_join ;;;
  parts request_broadcast_out ;;;
  for_threads data_thread_join thread_list ;;;
  parts country_list_free ;;;
  parts request_list_destroy ;;;
  parts net_destroy ;;;
  parts log_thread_join ;;;
  parts mysql_library_end ;;;
  parts utils_close ;;;
  on_fst bx_log_end ;;;
  (if pid_file_fd =? -1 then ret tt else sys (sys_close pid_file_fd)).

(** From the signal handlers on; a country list that is not loaded fails an [assert]. *)
Definition run_service (fuel : nat) (pid_file_fd : Z) : main_prog Z :=
  ok <- set_handlers [SIGINT; SIGTERM; SIGHUP] ;;
  if negb ok then ret 1 else
  parts (bx_conf_release "log-file") ;;;
  ok <- parts utils_init ;;
  if negb ok then ret 1 else
  parts log_thread_create ;;;
  net <- parts net_init ;;
  if negb net then sys (sys_usleep 100000) ;;; ret EXIT_FAILURE else
  parts request_thread_create ;;;
  countries <- parts country_code_load ;;
  if negb countries then fault else
  parts lookup_bootstrap ;;;
  parts chain_init ;;;
  for_threads data_thread_create thread_list ;;;
  signal_loop fuel ;;;
  stop_all pid_file_fd ;;;
  ret 0.

Definition login_only : main_prog Z :=
  log_init ;;;
  oauth <- parts oauth_init ;;
  st <- (if oauth : bool then st <- parts oauth_login ;; parts oauth_destroy ;;; ret st
         else ret BX_OAUTH_FAILED) ;;
  parts mysql_library_end ;;;
  ret (if bool_decide (st = BX_OAUTH_OK) then EXIT_SUCCESS else EXIT_FAILURE).

(** The log is opened; what [bx_log_init] returns is not looked at. *)
Definition serve (fuel : nat) : main_prog Z :=
  log_init ;;;
  foreground <- parts (bx_conf_get_int "no-deamon") ;;
  fd <- (if foreground =? 0 then become_deamon else ret (inr (-1))) ;;
  match fd with
  | inl code => ret code
  | inr fd => run_service fuel fd
  end.

Definition main (fuel : nat) (argv : list string) : main_prog Z :=
  match command_line argv with
  | None => ret EXIT_FAILURE
  | Some (do_login, config_path) =>
      m <- sys conf_memory ;;
      match bx_conf_init m with
      | None => fault
      | Some conf =>
          parts (set_conf (fun _ => conf)) ;;;
          loaded <- parts (bx_conf_loadfile config_path) ;;
          if negb loaded then ret EXIT_FAILURE else
          parts mysql_library_init ;;;
          parts bx_conf_load_database ;;;
          if do_login : bool then login_only else serve fuel
      end
  end.
End Start.

(** ** The signals

    Signals arrive at any time, in the main thread or in one that does not block
    them.  The places of the loop of [main], between two reads or writes of the
    flags; [sg_reopened] counts the calls of [bx_log_reopen]. *)
Inductive loop_place := AtKill | AtReload | AtReopen | AtClear | AtPause | Stopped.

Record sig_state := mkSig {
  kill_signal : bool;
  reload_signal : bool;
  sg_place : loop_place;
  sg_reopened : nat
}.

Definition signals_start : sig_state := mkSig false false AtKill 0.

Definition signal_hander (sig : Z) (s : sig_state) : sig_state :=
  if (sig =? SIGINT) || (sig =? SIGTERM) then mkSig true (reload_signal s) (sg_place s) (sg_reopened s)
  else if sig =? SIGHUP then mkSig (kill_signal s) true (sg_place s) (sg_reopened s)
  else s.

(** One step of the main thread; in [pause] and after the loop it has none. *)
Definition main_step (s : sig_state) : option sig_state :=
  let go p := Some (mkSig (kill_signal s) (reload_signal s) p (sg_reopened s)) in
  match sg_place s with
  | AtKill => go (if kill_signal s then Stopped else AtReload)
  | AtReload => go (if reload_signal s then AtReopen else AtPause)
  | AtReopen => Some (mkSig (kill_signal s) (reload_signal s) AtClear (S (sg_reopened s)))
  | AtClear => Some (mkSig (kill_signal s) false AtPause (sg_reopened s))
  | AtPause | Stopped => None
  end.

(** [pause] returns after a handler that ran in the main thread. *)
Definition deliver (sig : Z) (in_main : bool) (s : sig_state) : sig_state :=
  let s := signal_hander sig s in
  match sg_place s, in_main with
  | AtPause, true => mkSig (kill_signal s) (reload_signal s) AtKill (sg_reopened s)
  | _, _ => s
  end.

Inductive sig_event := MainStep | Signal (sig : Z) (in_main : bool).

Definition sig_step (e : sig_event) (s : sig_state) : option sig_state :=
  match e with MainStep => main_step s | Signal sig in_main => Some (deliver sig in_main s) end.

Fixpoint sig_run (es : list sig_event) (s : sig_state) : option sig_state :=
  match es with
  | [] => Some s
  | e :: es => match sig_step e s with Some s => sig_run es s | None => None end
  end.

Definition is_kill (e : sig_event) : bool :=
  match e with Signal sig _ => (sig =? SIGINT) || (sig =? SIGTERM) | MainStep => false end.
Definition is_hup (e : sig_event) : bool :=
  match e with Signal sig _ => sig =? SIGHUP | MainStep => false end.
Fixpoint count_hups (es : list sig_event) : nat :=
  match es with [] => O | e :: es => (if is_hup e then 1 else 0) + count_hups es end%nat.

(** Reload requests that a later reopening will answer. *)
Definition pending (s : sig_state) : nat :=
  match sg_place s with AtClear => 0 | _ => if reload_signal s then 1 else 0 end.

Record sig_inv (killed : bool) (hups : nat) (s : sig_state) : Prop := {
  inv_kill : kill_signal s = killed;
  inv_stopped : sg_place s = Stopped -> killed = true;
  inv_reopen : sg_place s = AtReopen -> reload_signal s = true;
  inv_hups : (sg_reopened s + pending s <= hups)%nat
}.

Lemma sig_inv_step e killed hups s s' :
  sig_step e s = Some s' -> sig_inv killed hups s ->
  sig_inv (killed || is_kill e) (hups + if is_hup e then 1 else 0) s'.
Proof.
  destruct s as [k r p n]. intros E [Hk Hs Hr Hh]. cbn in Hk. subst k.
  destruct e as [|sig in_main]; cbn [sig_step is_kill is_hup] in *.
  - rewrite orb_false_r. unfold main_step in E. cbn in *.
    destruct p; try discriminate E; injection E as <-; destruct killed, r;
      split; cbn in *; first [done | lia | by specialize (Hr eq_refl)].
  - injection E as <-. unfold deliver, signal_hander.
    destruct ((sig =? SIGINT) || (sig =? SIGTERM)) eqn:Ek.
    + assert ((sig =? SIGHUP) = false) as -> by (apply orb_true_iff in Ek as [->%Z.eqb_eq| ->%Z.eqb_eq]; done).
      rewrite orb_true_r. destruct in_main, p, r; split; cbn in *;
        first [done | lia | by specialize (Hr eq_refl)].
    + rewrite orb_false_r. destruct (sig =? SIGHUP); destruct in_main, p, r; split; cbn in *;
        first [done | lia | by specialize (Hr eq_refl)].
Qed.

Lemma sig_inv_run es killed hups s s' :
  sig_run es s = Some s' -> sig_inv killed hups s ->
  sig_inv (killed || existsb is_kill es) (hups + count_hups es) s'.
Proof.
  revert killed hups s. induction es as [|e es IH]; intros killed hups s E Hi; cbn in *.
  - injection E as <-. by rewrite orb_false_r, Nat.add_0_r.
  - destruct (sig_step e s) as [s1|] eqn:E1; [|done].
    specialize (IH _ _ _ E (sig_inv_step _ _ _ _ _ E1 Hi)).
    by rewrite orb_assoc, Nat.add_assoc.
Qed.

(** The steps from a place behind the test of the kill flag to [pause]. *)
Definition steps_to_pause (s : sig_state) : nat :=
  match sg_place s with
  | AtReload => if reload_signal s then 3 else 1
  | AtReopen => 2 | AtClear => 1 | AtKill | AtPause | Stopped => 0
  end.

(** Claim C37. The signal loop, for every order of its steps and the signals, whichever
    thread they arrive in.  It stops only after SIGINT or SIGTERM, and reopens
    the log at most once per SIGHUP.  After a kill signal it stops with its next
    step when that is the test of the flag; from every other place it goes
    into [pause] without looking at the flag again, and there only another
    signal in the main thread lets it stop. *)
Theorem signals_served es s :
  sig_run es signals_start = Some s ->
  (sg_place s = Stopped -> existsb is_kill es = true)
  /\ (sg_reopened s <= count_hups es)%nat
  /\ (existsb is_kill es = true ->
      match sg_place s with
      | Stopped => True
      | AtKill => sg_place <$> sig_run [MainStep] s = Some Stopped
      | _ => exists p,
          sig_run (replicate (steps_to_pause s) MainStep) s = Some p
          /\ sg_place p = AtPause /\ main_step p = None
          /\ forall sig, sg_place <$> sig_run [Signal sig false] p = Some AtPause
                    /\ sg_place <$> sig_run [Signal sig true; MainStep] p = Some Stopped
      end).
Proof.
  intros E. destruct (sig_inv_run _ false 0 _ _ E) as [Hk Hs _ Hh]; [by split|].
  cbn [orb] in *. split; [done|]. split; [lia|]. intros He. rewrite He in Hk.
  destruct s as [k r p n]. cbn in Hk. subst k.
  assert (forall r n, main_step (mkSig true r AtPause n) = None
    /\ forall sig, sg_place <$> sig_run [Signal sig false] (mkSig true r AtPause n) = Some AtPause
        /\ sg_place <$> sig_run [Signal sig true; MainStep] (mkSig true r AtPause n) = Some Stopped) as Hp.
  { intros r' n'. split; [done|]. intros sig. cbn. unfold deliver, signal_hander. cbn.
    destruct ((sig =? SIGINT) || (sig =? SIGTERM)), (sig =? SIGHUP); done. }
  destruct p; cbn; [done| |by eauto..|done]. destruct r; cbn; eauto.
Qed.

(** A kill signal between the test of its flag and [pause]; a second SIGHUP while
    the log is reopened. *)
Definition late_kill : list sig_event := [MainStep; Signal SIGTERM true; MainStep].
Definition late_hup : list sig_event :=
  [Signal SIGHUP true; MainStep; MainStep; MainStep; Signal SIGHUP true; MainStep].

Example late_kill_ex : sig_run late_kill signals_start = Some (mkSig true false AtPause 0).
Proof. reflexivity. Qed.
Example late_hup_ex :
  sig_run late_hup signals_start = Some (mkSig false false AtPause 1) /\ count_hups late_hup = 2%nat.
Proof. split; reflexivity. Qed.

Lemma signals_served_witness :
  (0 <= count_hups late_kill)%nat
  /\ exists p, sig_run (replicate 0 MainStep) (mkSig true false AtPause 0) = Some p
     /\ sg_place p = AtPause /\ main_step p = None
     /\ forall sig, sg_place <$> sig_run [Signal sig false] p = Some AtPause
               /\ sg_place <$> sig_run [Signal sig true; MainStep] p = Some Stopped.
Proof.
  split; [vm_compute; lia|].
  apply (signals_served late_kill (mkSig true false AtPause 0)); reflexivity.
Defined.

(** ** The user of the service

    [gid_of] and [uid_of] read the group and the user of the process. *)
Section Privileges.
Context `{Jansson} `{!XXH3} `{!StrtodEnd} {V : Type} `{!ConfClient V} `{!ConfFile V} `{!ProcessEnv V}.
Context (gid_of uid_of : V -> Z).

(** What [bx_conf_get_int] and [bx_conf_get_string] read. *)
Definition conf_int (key : string) (conf : BXConf) : Z :=
  match find_value (XXH3_64bits key) conf with
  | Some v => if negb (bool_decide (cv_type v = IntegerType))
                 && negb (bool_decide (cv_type v = BoolType)) then 0 else i_value v
  | None => 0
  end.

(** The group and the user of the settings; and whether the process has them. *)
Definition user_of (conf : BXConf) : Z * Z := (conf_int "gid" conf, conf_int "uid" conf).
Definition runs_as (user : Z * Z) (w : BXConf * V) : bool :=
  (gid_of w.2 =? user.1) && (uid_of w.2 =? user.2).

(** A part that gets stuck when it is called as another user. *)
Definition guard (user : Z * Z) {A} (m : prog (BXConf * V) A) : prog (BXConf * V) A :=
  fun w => if runs_as user w then m w else OutOfFuel.

(** The parts that [main] calls, the client library and the walks, all guarded. *)
Definition guarded_calls user (calls : MainCalls (BXConf * V)) : MainCalls (BXConf * V) := {|
  mysql_library_init := guard user mysql_library_init;
  mysql_library_end := guard user mysql_library_end;
  oauth_init := guard user oauth_init; oauth_login := guard user oauth_login;
  oauth_destroy := guard user oauth_destroy;
  utils_init := guard user utils_init; utils_close := guard user utils_close;
  log_thread_create := guard user log_thread_create; log_thread_join := guard user log_thread_join;
  net_init := guard user net_init; net_destroy := guard user net_destroy;
  request_thread_create := guard user request_thread_create;
  request_list_stop := guard user request_list_stop; request_signal_in := guard user request_signal_in;
  request_thread_join := guard user request_thread_join;
  request_broadcast_out := guard user request_broadcast_out;
  request_list_destroy := guard user request_list_destroy;
  country_code_load := guard user country_code_load; country_list_free := guard user country_list_free;
  chain_init := guard user chain_init;
  data_thread_create t := guard user (data_thread_create t);
  data_thread_join t := guard user (data_thread_join t);
  kill_flag := guard user kill_flag; reload_flag := guard user reload_flag;
  reload_flag_clear := guard user reload_flag_clear
|}.
Definition guarded_threads user (threads : ThreadEnv (BXConf * V)) : ThreadEnv (BXConf * V) := {|
  mysql_init := guard user mysql_init;
  mysql_real_connect c host name password db := guard user (mysql_real_connect c host name password db);
  mysql_close conn := guard user (mysql_close conn);
  mysql_ping_failed c := guard user (mysql_ping_failed c); mysql_errno c := guard user (mysql_errno c);
  mysql_thread_id conn := guard user (mysql_thread_id conn);
  mysql_set_character_set c s := guard user (mysql_set_character_set c s);
  mysql_thread_init := guard user mysql_thread_init; mysql_thread_end := guard user mysql_thread_end;
  queue_run := guard user queue_run; queue_standby := guard user queue_standby;
  standby_sleep := guard user standby_sleep; thread_sleep := guard user thread_sleep;
  thread_error_sleep := guard user thread_error_sleep; time_now := guard user time_now
|}.
Definition guarded_walks user (walks : ThreadWalks (BXConf * V)) : ThreadWalks (BXConf * V) := {|
  taxes_walk_item conn := guard user (taxes_walk_item conn);
  records_walk_more conn := guard user (records_walk_more conn);
  kb_sales_walk_items conn := guard user (kb_sales_walk_items conn);
  contact_sector_walk_items conn := guard user (contact_sector_walk_items conn);
  file_walk_items := file_walk_items;
  language_load conn := guard user (language_load conn);
  lookup_walks := (fun (walk : MYSQL -> prog (BXConf * V) BXillError) conn => guard user (walk conn))
                    <$> lookup_walks
|}.

(** A call that leaves the group and the user alone. *)
Definition same_user : relation V := fun v v' => gid_of v' = gid_of v /\ uid_of v' = uid_of v.
Definition on_host (R : relation V) : relation (BXConf * V) := fun w w' => R w.2 w'.2.

(** Only [setgid] and [setuid] change them, and do what they say when they return 0;
    any call may fail. *)
Record process_laws : Prop := {
  law_close fd : moves same_user (sys_close fd);
  law_sigaction n : moves same_user (sys_sigaction n);
  law_pause : moves same_user sys_pause;
  law_sleep n : moves same_user (sys_sleep n);
  law_usleep n : moves same_user (sys_usleep n);
  law_fopen path : moves same_user (log_fopen path);
  law_setgid g v v' : sys_setgid g v = Done (0, v') -> gid_of v' = g;
  law_setuid u v v' : sys_setuid u v = Done (0, v') -> uid_of v' = u /\ gid_of v' = gid_of v
}.

Context (calls : MainCalls (BXConf * V)) (threads : ThreadEnv (BXConf * V)) (walks : ThreadWalks (BXConf * V)).

(** The parts of the service change neither; beyond that they may do anything. *)
Definition keeps {A} (m : prog (BXConf * V) A) : Prop := moves (on_host same_user) m.
Record service_laws : Prop := {
  law_units : Forall (fun m => keeps m)
    [utils_close; log_thread_create; log_thread_join; net_destroy; request_thread_create;
     request_list_stop; request_signal_in; request_thread_join; request_broadcast_out;
     request_list_destroy; country_list_free; chain_init; reload_flag_clear; mysql_library_end;
     mysql_thread_init; mysql_thread_end];
  law_flags : Forall (fun m => keeps m) [utils_init; net_init; country_code_load; kill_flag; reload_flag];
  law_data_threads t : keeps (data_thread_create t) /\ keeps (data_thread_join t);
  law_connect : keeps mysql_init /\ forall c host user password db,
                  keeps (mysql_real_connect c host user password db);
  law_disconnect conn : keeps (mysql_close conn);
  law_charset c s : keeps (mysql_set_character_set c s);
  law_thread_id conn : keeps (mysql_thread_id conn);
  law_walks walk conn : walk ∈ lookup_walks -> keeps (walk conn)
}.
Context (Hp : process_laws) (Hs : service_laws).

(** [serve] with every part of the service guarded. *)
Definition guarded_serve (user : Z * Z) (fuel : nat) : main_prog Z :=
  serve (ThreadEnv0 := guarded_threads user threads) (ThreadWalks0 := guarded_walks user walks)
    (MainCalls0 := guarded_calls user calls) fuel.

#[local] Instance same_user_preorder : PreOrder same_user.
Proof. split; [by split|]. intros v1 v2 v3 [] []. split; congruence. Qed.

(** *** Guarded and not *)

Section Guarded.
Context (user : Z * Z).

Definition as_user (w : BXConf * V) : Prop := runs_as user w = true.
Definition main_as_user (x : s_BXLog * (BXConf * V)) : Prop := as_user x.2.

Lemma keeps_as_user {A} (m : prog (BXConf * V) A) : keeps m -> moves (fun w w' => as_user w -> as_user w') m.
Proof.
  intros Hm w a w' E. destruct (Hm _ _ _ E) as [Hg Hu]. unfold as_user, runs_as. by rewrite Hg, Hu.
Qed.
Lemma guard_agree {A} (m : prog (BXConf * V) A) : keeps m -> agree as_user (guard user m) m.
Proof.
  intros Hm w Hw. unfold guard. rewrite Hw. split; [done|]. intros a w' E. by eapply keeps_as_user.
Qed.
Lemma parts_agree {A} (m m' : prog (BXConf * V) A) :
  agree as_user m m' -> agree main_as_user (parts m) (parts m').
Proof. apply agree_on_snd. Qed.
Lemma part_agree {A} (m : prog (BXConf * V) A) : keeps m -> agree main_as_user (parts (guard user m)) (parts m).
Proof. intros Hm. by apply parts_agree, guard_agree. Qed.
Lemma sys_agree {A} (m : prog V A) : moves same_user m -> agree main_as_user (sys m) (sys m).
Proof.
  intros Hm. apply agree_on_snd, agree_moves, keeps_as_user.
  intros [c v] a [c' v'] [_ E]%on_snd_Done. by apply Hm in E.
Qed.
Lemma log_agree {A} (m : prog s_BXLog A) : agree main_as_user (on_fst m) (on_fst m).
Proof. apply agree_on_fst. Qed.
Lemma units_agree m :
  m ∈ [utils_close; log_thread_create; log_thread_join; net_destroy; request_thread_create;
     request_list_stop; request_signal_in; request_thread_join; request_broadcast_out;
     request_list_destroy; country_list_free; chain_init; reload_flag_clear; mysql_library_end;
     mysql_thread_init; mysql_thread_end] -> keeps m.
Proof. intros Hm. by apply (proj1 (Forall_forall _ _) (law_units Hs)). Qed.
Lemma flags_agree m :
  m ∈ [utils_init; net_init; country_code_load; kill_flag; reload_flag] -> keeps m.
Proof. intros Hm. by apply (proj1 (Forall_forall _ _) (law_flags Hs)). Qed.

#[local] Hint Resolve part_agree sys_agree log_agree guard_agree law_close law_sigaction law_pause
  law_sleep law_usleep law_fopen law_thread_id law_disconnect law_charset : agree.
#[local] Hint Extern 1 (keeps _) => first
  [ apply units_agree; set_solver | apply flags_agree; set_solver | apply (law_data_threads Hs)
  | apply (law_connect Hs) ] : agree.

#[local] Ltac matched :=
  repeat first
    [ solve [eauto 3 with agree]
    | apply agree_bind; [|intros ?]
    | apply agree_if
    | match goal with |- agree _ (match ?b with _ => _ end) _ => destruct b end ].

Lemma lift_agree {A} (o : outcome A) : agree as_user (lift_outcome o) (lift_outcome o).
Proof. intros w Hw. split; [done|]. unfold lift_outcome. destruct o; [|done..]. by intros b w' [= _ <-]. Qed.
#[local] Hint Resolve lift_agree : agree.

(** *** The lookups *)


Lemma setup_agree :
  agree as_user (thread_setup_mysql (ThreadEnv0 := guarded_threads user threads)) thread_setup_mysql.
Proof. unfold thread_setup_mysql. cbn. matched. Qed.
Lemma teardown_agree conn :
  agree as_user (thread_teardown_mysql (ThreadEnv0 := guarded_threads user threads) conn)
    (thread_teardown_mysql conn).
Proof. unfold thread_teardown_mysql. cbn. matched. Qed.
#[local] Hint Resolve setup_agree teardown_agree : agree.

Lemma lookup_all_agree l conn :
  (forall walk conn, walk ∈ l -> keeps (walk conn)) ->
  agree as_user
    (lookup_all (ThreadEnv0 := guarded_threads user threads)
       ((fun walk conn => guard user (walk conn)) <$> l) conn)
    (lookup_all l conn).
Proof.
  revert conn. induction l as [|walk l IH]; intros conn Hl; cbn; [matched|].
  destruct conn as [c|]; [|matched]. apply agree_bind; [apply guard_agree, Hl; constructor|].
  intros e. apply agree_bind; [unfold lookup_step, thread_reconnect; cbn; matched|].
  intros conn. apply IH. intros walk' conn' Hw. apply Hl. by constructor.
Qed.

Lemma lookup_agree :
  agree as_user
    (lookup_bootstrap (ThreadEnv0 := guarded_threads user threads)
       (ThreadWalks0 := guarded_walks user walks))
    lookup_bootstrap.
Proof.
  unfold lookup_bootstrap. apply agree_bind; [apply setup_agree|]. intros [c|]; [|matched].
  apply agree_bind; [apply lookup_all_agree, (law_walks Hs)|]. intros conn. matched.
Qed.

(** *** The service *)

Lemma log_write_agree msg : agree main_as_user (log_write msg) (log_write msg).
Proof. apply log_agree. Qed.
Lemma log_reopen_agree : agree main_as_user log_reopen log_reopen.
Proof. unfold log_reopen. matched. Qed.
Lemma set_handlers_agree sigs : agree main_as_user (set_handlers sigs) (set_handlers sigs).
Proof. induction sigs as [|sig sigs IH]; cbn; matched. Qed.
#[local] Hint Resolve log_reopen_agree set_handlers_agree : agree.

Lemma signal_loop_agree fuel :
  agree main_as_user (signal_loop (MainCalls0 := guarded_calls user calls) fuel) (signal_loop fuel).
Proof. induction fuel as [|fuel IH]; cbn; matched. Qed.
Lemma stop_all_agree fd :
  agree main_as_user (stop_all (MainCalls0 := guarded_calls user calls) fd) (stop_all fd).
Proof. unfold stop_all. cbn. matched. Qed.
Lemma release_agree key : agree main_as_user (parts (bx_conf_release key)) (parts (bx_conf_release key)).
Proof.
  apply parts_agree, agree_moves, keeps_as_user. intros w a w' [= <- <-]. by split.
Qed.
#[local] Hint Resolve signal_loop_agree stop_all_agree release_agree : agree.

Lemma run_service_agree fuel fd :
  agree main_as_user
    (run_service (ThreadEnv0 := guarded_threads user threads)
       (ThreadWalks0 := guarded_walks user walks) (MainCalls0 := guarded_calls user calls) fuel fd)
    (run_service fuel fd).
Proof.
  unfold run_service. cbn [utils_init log_thread_create net_init request_thread_create
    country_code_load chain_init data_thread_create guarded_calls].
  matched. apply parts_agree, lookup_agree.
Qed.
End Guarded.

(** *** The start *)

(** The log and the calls of the system leave the settings alone. *)
Definition conf_stays : relation (s_BXLog * (BXConf * V)) := fun x x' => x'.2.1 = x.2.1.
#[local] Instance conf_stays_preorder : PreOrder conf_stays.
Proof. split; [done|]. intros x y z Hxy Hyz. unfold conf_stays in *. congruence. Qed.
Lemma sys_stays {A} (m : prog V A) : moves conf_stays (sys m).
Proof.
  intros [l [c v]] a [l' [c' v']] [-> [-> _]%on_snd_Done]%on_snd_Done. done.
Qed.
Lemma log_stays {A} (m : prog s_BXLog A) : moves conf_stays (on_fst m).
Proof. intros [l w] a [l' w'] [-> _]%on_fst_Done. done. Qed.
#[local] Hint Resolve sys_stays log_stays : moves.
#[local] Ltac stays :=
  repeat first
    [ solve [eauto 3 with moves]
    | apply (moves_bind conf_stays); [|intros ?]
    | match goal with |- moves _ (match ?b with _ => _ end) => destruct b end ].

Lemma deamon_stays once : moves conf_stays (deamon once).
Proof. unfold deamon, fork_or_exit, to_dev_null, log_write. stays. Qed.
Lemma write_pid_stays path : moves conf_stays (write_pid path).
Proof. unfold write_pid, log_write. stays. Qed.

Lemma get_int_Done key n (x x' : s_BXLog * (BXConf * V)) :
  (strlen key =? 0) = false -> parts (bx_conf_get_int key) x = Done (n, x') ->
  n = conf_int key x.2.1 /\ x' = x.
Proof.
  destruct x as [l [c v]], x' as [l' w']. intros Hk [-> E]%on_snd_Done.
  unfold bx_conf_get_int, bind, gets, lift_outcome, _bx_conf_get in E. cbn in E. rewrite Hk in E.
  by injection E as <- <-.
Qed.
Lemma get_string_Done key s (x x' : s_BXLog * (BXConf * V)) :
  parts (bx_conf_get_string key) x = Done (s, x') -> x' = x.
Proof.
  destruct x as [l [c v]], x' as [l' w']. intros [-> E]%on_snd_Done.
  apply bind_Done in E as (c1 & w1 & [= <- <-] & (r & w2 & E1 & [= <- <-])%bind_Done).
  unfold lift_outcome in E1. cbn in E1. destruct (_bx_conf_get c key); try done. by injection E1 as <- <-.
Qed.

Lemma log_init_stays : moves conf_stays log_init.
Proof.
  intros x ok x' (path & x1 & ->%get_string_Done & E)%bind_Done.
  apply bind_Done in E as (level & x2 & [_ ->]%get_int_Done & E); [|done].
  apply bind_Done in E as (opened & x3 & Ho%sys_stays & E%log_stays). by etrans.
Qed.

Lemma end_with_quits msg r (x x' : s_BXLog * (BXConf * V)) : end_with msg x = Done (r, x') -> r = inl EXIT_FAILURE.
Proof.
  intros (u & x1 & _ & (u' & x2 & _ & [= <- _])%bind_Done)%bind_Done. done.
Qed.

(** A process that goes on from there has the group and the user of the settings. *)
Lemma become_deamon_drops fd (x x' : s_BXLog * (BXConf * V)) :
  become_deamon x = Done (inr fd, x') -> main_as_user (user_of x.2.1) x'.
Proof.
  unfold become_deamon. intros (once & x1 & [_ ->]%get_int_Done & E)%bind_Done; [|done].
  apply bind_Done in E as (d & x2 & Hd%deamon_stays & E).
  destruct d as [code|st]; [done|].
  destruct (negb (st =? 0)); [by apply end_with_quits in E|].
  apply bind_Done in E as (path & x3 & ->%get_string_Done & E).
  apply bind_Done in E as (fd1 & x4 & Hw%write_pid_stays & E).
  destruct (fd1 <? 0); [by apply end_with_quits in E|].
  apply bind_Done in E as (gid & x5 & [-> ->]%get_int_Done & E); [|done].
  apply bind_Done in E as (st1 & [l6 [c6 v6]] & Eg & E).
  destruct (Z.eqb_spec st1 0) as [->|_]; cbn [negb] in E; [|by apply end_with_quits in E].
  apply bind_Done in E as (uid & x7 & [-> ->]%get_int_Done & E); [|done].
  apply bind_Done in E as (st2 & [l8 [c8 v8]] & Eu & E).
  destruct (Z.eqb_spec st2 0) as [->|_]; cbn [negb] in E; [|by apply end_with_quits in E].
  injection E as _ <-. destruct x4 as [l4 [c4 v4]].
  apply on_snd_Done in Eg as [-> [-> Eg%(law_setgid Hp)]%on_snd_Done].
  apply on_snd_Done in Eu as [-> [-> [Hu Hg]%(law_setuid Hp)]%on_snd_Done].
  unfold conf_stays in *. cbn in *. unfold main_as_user, as_user, runs_as, user_of. cbn.
  rewrite <- Hd, <- Hw, Hg, Hu, Eg. by rewrite !Z.eqb_refl.
Qed.

(** Claim C36. In daemon mode, whatever system calls and parts of the service fail:
    when [become_deamon] lets the process go on, it has the group and then the user of
    the settings.  So each part that [serve] calls after that, to the last join of its
    threads, is called as that group and user: with parts that get stuck under any other,
    [serve] does the same.  The failures are as in the code (a log that cannot be opened
    and a country list that cannot be loaded end in a fault on both sides). *)
Theorem service_runs_unprivileged fuel (x : s_BXLog * (BXConf * V)) :
  conf_int "no-deamon" x.2.1 = 0 ->
  (forall fd x', (log_init ;;; become_deamon) x = Done (inr fd, x') ->
     runs_as (user_of x.2.1) x'.2 = true)
  /\ guarded_serve (user_of x.2.1) fuel x = serve fuel x.
Proof.
  intros Hd.
  assert (forall fd x', (log_init ;;; become_deamon) x = Done (inr fd, x') ->
     main_as_user (user_of x.2.1) x') as Hb.
  { intros fd x' (ok & x1 & Hx1%log_init_stays & E%become_deamon_drops)%bind_Done. by rewrite <- Hx1. }
  split; [exact Hb|]. unfold guarded_serve, serve. apply bind_ext_after. intros ok x1 El.
  apply bind_ext_after. intros n x2 En. apply get_int_Done in En as [-> ->]; [|done].
  rewrite (log_init_stays _ _ _ El : x1.2.1 = x.2.1), Hd. cbn [Z.eqb].
  apply bind_ext_after. intros [code|fd] x3 Eb; [done|].
  apply run_service_agree. apply (Hb fd). apply bind_Done. by exists ok, x1.
Qed.
End Privileges.

(** ** The pid file *)

Section PidFile.
Context `{Jansson} {V : Type} `{!ProcessEnv V}.

Lemma sys_eq {A} (m : prog V A) (l : s_BXLog) (c : BXConf) v a v' :
  m v = Done (a, v') -> sys m (l, (c, v)) = Done (a, (l, (c, v'))).
Proof. unfold sys, on_snd. cbn. by intros ->. Qed.

(** A [write] that fails returns -1, which is the largest [size_t]. *)
Lemma failed_write_is_long len : is_u64 len -> short_write (-1) len = false.
Proof. unfold short_write, is_u64. change (u64 (-1)) with (2 ^ 64 - 1). intros. apply Z.ltb_ge. lia. Qed.

(** An open, locked pid file that cannot be written, on a full disk, say, is as
    good as one that holds the pid. *)
Lemma failed_pid_write_accepted path l (c : BXConf) v fd pid v1 v2 v3 v4 v5 :
  0 <= fd -> strlen (pid_line pid) < 32 ->
  sys_open path (Z.lor O_WRONLY O_CREAT) 420 v = Done (fd, v1) ->
  sys_flock fd (Z.lor LOCK_EX LOCK_NB) v1 = Done (0, v2) ->
  sys_getpid v2 = Done (pid, v3) ->
  sys_write fd (pid_line pid) v3 = Done (-1, v4) -> sys_fsync fd v4 = Done (tt, v5) ->
  write_pid (Some path) (l, (c, v)) = Done (fd, (l, (c, v5))).
Proof.
  intros Hfd Hlen E1 E2 E3 E4 E5. unfold write_pid.
  rewrite (bind_eq _ _ _ _ _ (sys_eq _ l c _ _ _ E1)), (proj2 (Z.ltb_ge _ _)) by done.
  rewrite (bind_eq _ _ _ _ _ (sys_eq _ l c _ _ _ E2)). cbn [Z.eqb].
  rewrite (bind_eq _ _ _ _ _ (sys_eq _ l c _ _ _ E3)), (bind_eq _ _ _ _ _ (sys_eq _ l c _ _ _ E4)).
  rewrite failed_write_is_long; [by rewrite (bind_eq _ _ _ _ _ (sys_eq _ l c _ _ _ E5))|].
  pose proof (strlen_nonneg (pid_line pid)). unfold is_u64. lia.
Qed.

(** The log that could not be opened: the first message of the start goes to a
    null pointer. *)
Lemma unopened_log_faults path l (c : BXConf) v v1 :
  lg_fp l = Null -> sys_open path (Z.lor O_WRONLY O_CREAT) 420 v = Done (-1, v1) ->
  write_pid (Some path) (l, (c, v)) = Fault.
Proof.
  intros Hl E. unfold write_pid. rewrite (bind_eq _ _ _ _ _ (sys_eq _ l c _ _ _ E)). cbn [Z.ltb Z.compare].
  unfold bind, log_write, on_fst, bx_log_write, log_print. cbn. by rewrite Hl.
Qed.
End PidFile.

(** ** A sample host

    The process starts as root.  A part of the service faults for any other user
    than the one of the settings; [h_trace] is what ran, [h_pauses] the signals
    that arrive in [pause]: SIGHUP, then SIGTERM. *)
Record host := mkHost { h_gid : Z; h_uid : Z; h_kill : bool; h_reload : bool; h_pauses : list Z; h_trace : list string }.

Section Host.
#[local] Existing Instance sample_double.
#[local] Existing Instance sample_jansson.
#[local] Existing Instance sample_xxh3.

Definition trace (s : string) (h : host) : host :=
  mkHost (h_gid h) (h_uid h) (h_kill h) (h_reload h) (h_pauses h) (h_trace h ++ [s]).
Definition note (s : string) : prog host unit := fun h => Done (tt, trace s h).

#[local] Instance host_strtod : StrtodEnd := {| strtod_parses _ := false |}.
#[local] Instance host_client : ConfClient host := {|
  conf_memory := ret true; conf_mysql_init := ret None; conf_mysql_options _ := ret tt;
  conf_real_connect _ _ _ _ _ := ret false; conf_set_character_set _ _ := ret tt;
  conf_query _ _ := ret false; conf_store_result _ := ret None; conf_fetch_lengths _ := ret false;
  conf_close _ := ret tt; conf_stmt_init _ := ret None; conf_stmt_prepare _ _ := ret false;
  conf_stmt_bind _ _ := ret false; conf_stmt_execute _ := ret false; conf_stmt_close _ := ret tt
|}.
#[local] Instance host_file : ConfFile host := {|
  conf_file := unit;
  conf_fopen _ := ret (Some tt);
  json_loadf _ := ret (Some (JObject [("gid", JInteger 100); ("uid", JInteger 1000); ("fork-single", JInteger 1)]));
  conf_fclose _ := ret tt;
  json_object_items j := match (j : sample_json) with JObject l => l | _ => [] end
|}.
#[local] Instance host_process : ProcessEnv host := {|
  sys_fork := ret 0; sys_setsid := ret 77; sys_chdir _ := ret 0; sys_umask _ := ret tt;
  sys_open f _ _ h := Done (3, trace ("open " +:+ f) h);
  sys_close fd := note ("close " +:+ dec fd);
  sys_dup2 _ _ := ret tt; sys_flock _ _ := ret 0; sys_getpid := ret 77;
  sys_write _ s h := Done (strlen s, h); sys_fsync _ := ret tt;
  sys_setgid g h := if h_uid h =? 0
    then Done (0, mkHost g 0 (h_kill h) (h_reload h) (h_pauses h) (h_trace h ++ ["setgid"]))
    else Done (-1, h);
  sys_setuid u h := if h_uid h =? 0
    then Done (0, mkHost (h_gid h) u (h_kill h) (h_reload h) (h_pauses h) (h_trace h ++ ["setuid"]))
    else Done (-1, h);
  sys_sigaction _ := ret 0;
  sys_pause h := Done (tt, match h_pauses h with
    | [] => h
    | s :: l => mkHost (h_gid h) (h_uid h) (h_kill h || (s =? SIGTERM)) (h_reload h || (s =? SIGHUP)) l
                  (h_trace h ++ ["pause"]) end);
  sys_sleep _ := ret tt; sys_usleep _ := ret tt;
  log_fopen f h := Done (true, trace ("log " +:+ f) h)
|}.

(** A part of the service. *)
Definition part {A} (s : string) (r : host -> A * host) : prog (BXConf * host) A := fun w =>
  if (h_gid w.2 =? conf_int "gid" w.1) && (h_uid w.2 =? conf_int "uid" w.1)
  then Done ((r w.2).1, (w.1, trace s (r w.2).2)) else Fault.
Definition unit_part (s : string) : prog (BXConf * host) unit := part s (fun h => (tt, h)).

Definition thread_name (t : e_ThreadList) : string :=
  match t with
  | CHAIN_THREAD => "chain" | CONTACT_SECTOR_THREAD => "sectors"
  | RANDOM_ITEM_THREAD => "random" | FILE_THREAD => "files"
  end.

#[local] Instance host_threads : ThreadEnv (BXConf * host) := {|
  mysql_init := part "lookups" (fun h => (None, h)); mysql_real_connect _ _ _ _ _ := ret false;
  mysql_close _ := ret tt; mysql_ping_failed _ := ret false; mysql_errno _ := ret 0;
  mysql_thread_id _ := ret 0; mysql_set_character_set _ _ := ret tt; mysql_thread_init := ret tt;
  mysql_thread_end := ret tt; queue_run := ret false; queue_standby := ret false;
  standby_sleep := ret tt; thread_sleep := ret tt; thread_error_sleep := ret tt; time_now := ret None
|}.
#[local] Instance host_walks : ThreadWalks (BXConf * host) := {|
  taxes_walk_item _ := ret NoError; records_walk_more _ := ret NoError; kb_sales_walk_items _ := ret NoError;
  contact_sector_walk_items _ := ret NoError; file_walk_items _ := ret NoError;
  language_load _ := ret NoError; lookup_walks := []
|}.
#[local] Instance host_calls : MainCalls (BXConf * host) := {|
  mysql_library_init := ret tt; mysql_library_end := unit_part "library end";
  oauth_init := ret true; oauth_login := ret BX_OAUTH_FAILED; oauth_destroy := ret tt;
  utils_init := part "ids" (fun h => (true, h)); utils_close := unit_part "ids closed";
  log_thread_create := unit_part "log thread"; log_thread_join := unit_part "log thread joined";
  net_init := part "net" (fun h => (true, h)); net_destroy := unit_part "net destroyed";
  request_thread_create := unit_part "request thread"; request_list_stop := unit_part "stop";
  request_signal_in := unit_part "signal"; request_thread_join := unit_part "request thread joined";
  request_broadcast_out := unit_part "broadcast"; request_list_destroy := unit_part "list destroyed";
  country_code_load := part "countries" (fun h => (true, h)); country_list_free := unit_part "countries freed";
  chain_init := unit_part "chain read";
  data_thread_create t := unit_part (thread_name t);
  data_thread_join t := unit_part (thread_name t +:+ " joined");
  kill_flag := part "kill?" (fun h => (h_kill h, h));
  reload_flag := part "reload?" (fun h => (h_reload h, h));
  reload_flag_clear := part "clear" (fun h => (tt, mkHost (h_gid h) (h_uid h) (h_kill h) false (h_pauses h) (h_trace h)))
|}.

Definition root_host : host := mkHost 0 0 false false [SIGHUP; SIGTERM] [].
Definition no_log : s_BXLog := mkLOG Null 0 [] [] false EmptyString.
Definition host_run (argv : list string) : option (Z * list string) :=
  match main 9 argv (no_log, ([], root_host)) with
  | Done (code, (_, (_, h))) => Some (code, h_trace h)
  | _ => None
  end.

(** A whole run of [main], with one SIGHUP. *)
Example host_run_ex :
  host_run ["bxsync"; "conf.json"] = Some (0,
    ["log /var/log/bxsync.log"; "close 0"; "close 1"; "close 2"; "open /dev/null"; "close 3";
     "open /run/bxsync.pid"; "setgid"; "setuid"; "ids"; "log thread"; "net"; "request thread";
     "countries"; "lookups"; "chain read"; "chain"; "sectors"; "random"; "files";
     "kill?"; "reload?"; "pause"; "kill?"; "reload?"; "log /var/log/bxsync.log"; "clear"; "pause"; "kill?";
     "stop"; "signal"; "request thread joined"; "broadcast"; "chain joined"; "sectors joined";
     "random joined"; "files joined"; "countries freed"; "list destroyed"; "net destroyed";
     "log thread joined"; "library end"; "ids closed"; "close 3"]).
Proof. vm_compute. reflexivity. Qed.
Example host_usage_ex : host_run ["bxsync"] = Some (1, []) /\ host_run ["bxsync"; "--login"] = Some (1, []).
Proof. split; vm_compute; reflexivity. Qed.

Lemma part_keeps {A} s (r : host -> A * host) :
  (forall h, same_user h_gid h_uid h (r h).2) -> keeps h_gid h_uid (part s r).
Proof.
  intros Hr [c h] a [c' h']. unfold part. destruct (_ && _); [|done]. intros [= _ _ <-].
  destruct (Hr h). by split.
Qed.

Lemma host_process_laws : process_laws h_gid h_uid.
Proof.
  split; try (by intros; intros h a h' [= _ <-]).
  - intros h a h' [= _ <-]. by destruct (h_pauses h).
  - intros g h h'. cbn. destruct (_ =? 0); [|done]. by intros [= <-].
  - intros u h h'. cbn. destruct (_ =? 0); [|done]. by intros [= <-].
Qed.

#[local] Ltac all_of t := cbn; repeat (apply Forall_cons; split; [t|]); apply Forall_nil_2.

Lemma host_service_laws : service_laws h_gid h_uid host_calls host_threads host_walks.
Proof.
  assert (forall A (a : A), keeps h_gid h_uid (ret a)) as Hret by (intros A a w b w' [= _ <-]; by split).
  split; try (by intros; cbn; first [apply part_keeps | apply Hret]).
  - all_of ltac:(first [by apply part_keeps | apply Hret]).
  - all_of ltac:(by apply part_keeps).
  - intros t. by split; apply part_keeps.
  - split; [by apply part_keeps | intros; apply Hret].
  - cbn. intros walk conn Hw. by apply elem_of_nil in Hw.
Qed.

(** The settings after the file. *)
Definition host_conf : BXConf :=
  match bx_conf_loadfile "conf.json" ([], root_host) with Done (_, (c, _)) => c | _ => [] end.

Lemma service_runs_unprivileged_witness :
  let x := (no_log, (host_conf, root_host)) in
  user_of host_conf = (100, 1000)
  /\ (forall fd x', (log_init ;;; become_deamon) x = Done (inr fd, x') ->
     runs_as h_gid h_uid (user_of host_conf) x'.2 = true)
  /\ guarded_serve h_gid h_uid host_calls host_threads host_walks (user_of host_conf) 9 x = serve 9 x.
Proof.
  intros x. split; [vm_compute; reflexivity|].
  apply (service_runs_unprivileged h_gid h_uid host_calls host_threads host_walks host_process_laws
           host_service_laws 9 x).
  vm_compute. reflexivity.
Defined.
End Host.
